(* ===== verification/_CoqProject ===== *)
-Q . S2P
Prelude.v
GoText.v
GoUrl.v
Protocol.v
Transfer.v
Errors.v
Fuel.v
TypeInfo.v
Metadata.v
DecFloat.v
GoTime.v
GoFloat.v
DecFloat64.v
ValueText.v
ErrorText.v
Value.v
ValueRead.v
Lob.v
ScanTypes.v
ValueWire.v
SqlValue.v
ValueWrite.v
Dsn.v
DsnFacts.v
Network.v
Logging.v
Auth.v
Session.v
Watcher.v
SessionFacts.v
Exchange.v
Rows.v
RowsFacts.v
RowsWire.v
GeneratedKeys.v
Update.v
ExecuteFacts.v
UpdateWire.v
QueryWire.v
Conn.v
Stmt.v
Tx.v
ConnFacts.v
ConnWire.v
Deadlines.v
Prepared.v
Drain.v
Statements.v
TxWire.v
Cancel.v
Ownership.v
Handshake.v
Connector.v
HandshakeFacts.v
Conversation.v
