(* ===== verification/Prelude.v ===== *)
(** * A verification library for h2go, the pure Go driver of the H2 database

    h2go (src/) speaks protocol 21 of H2's TCP server and implements the interfaces of
    database/sql/driver. This library translates its code into executable definitions
    and proves what makes it correct. Definitions keep the names of the source; where a
    Go file has two methods of one name, the receiver is put in front
    ([stmt_Close], [conn_Close], [Rows_Close]).

    ** How the program is put together, and which file models which part

    A DSN becomes a configuration (dsn.go), a connector dials, wraps TLS and runs the
    handshake (connector.go, tls.go, handshake.go, auth.go), which gives a session on a
    transfer, the buffered codec of the connection (transfer.go, errors.go). A session
    prepares commands (command.go), executes updates (session.go, generated_keys.go,
    result.go) and queries (rows.go); types, metadata and values have codecs of their own
    (typeinfo.go, metadata.go, value_read.go, value_write.go, decfloat.go). Connections,
    statements and transactions (conn.go, stmt.go, tx.go) decide who may use the session
    and when it is closed.

    - Prelude: bytes, machine integers with their wrap-around, error trees with
      [errors.As] and [errors.Is], the state-and-error monad [M], tactics, hint databases.
    - GoText, GoUrl, GoTime, GoFloat: the parts of the Go library the code uses (UTF-8,
      strconv, strings, net/url, time, floating point formats).
    - Protocol, Transfer, Errors: protocol.go, transfer.go, errors.go. The state of a
      [Tr] is a network connection that delivers some bytes and then an error, and accepts
      bytes until it fails, with the buffer of the writer.
    - Fuel: recursion on wire data by fuel, with what makes the fuel irrelevant.
    - ErrorText: the texts of server errors, with strconv.Quote.
    - TypeInfo, Metadata, DecFloat, DecFloat64, ValueText, Value, ValueRead, Lob,
      ScanTypes, ValueWire, SqlValue, ValueWrite: the codecs. [wire_type] (TypeInfo) and
      [sql_value] (SqlValue) are the grammar of the protocol, stated without the code: an
      encoder with literal codes and a meaning for each phrase. [wire_value] (ValueWire) is
      the same in the driver's terms, packed dates and nanoseconds included; rows and
      updates are stated with it. DecFloat64 is the conversion to float64 with the rounding
      of strconv.ParseFloat.
    - Dsn, DsnFacts: dsn.go. Network: tls.go. Logging: logging.go. Auth: auth.go.
    - Session, SessionFacts, Exchange: session.go, context_io.go, command.go,
      generated_keys_ctx.go; what every operation keeps; exchanges with a server.
      Watcher: the goroutine of context_io.go and its caller as a step relation
      ([caller_step], [watcher_step], [reaches]), in any interleaving. Deadlines: how
      long the deadline of an operation stands. Cancel: statements that are cancelled
      while the server runs them.
    - Rows, RowsFacts, RowsWire, QueryWire: rows.go. GeneratedKeys, Update, ExecuteFacts,
      UpdateWire: generated_keys.go, result.go and the updates of session.go and tx.go.
    - Conn, Stmt, Tx, ConnFacts: conn.go, stmt.go, tx.go. ConnWire, Drain, Statements,
      TxWire: whole operations of a connection on the wire (a ping from its request to
      the release, statements that are executed or refused, transactions at an isolation
      level), and that loops over rows and keys end. Prepared: the life of a prepared
      statement, from its preparation over its executions to its close. Ownership:
      sequences of operations on one connection in any order ([apply_op], [run_ops]).
    - Handshake, Connector, HandshakeFacts: handshake.go, connector.go, driver.go.
      Conversation: everything a client says, from the first byte of the handshake to the
      farewell.

    ** What the theorems show

    - Codecs: decoding inverts encoding on the grammar of types, metadata and values and
      consumes exactly the bytes (ReadValue, ReadTypeInfo, ReadResultMeta); parameters,
      strings, UUIDs, DECFLOATs and timestamps survive the round trip; lengths are capped
      before anything is read; the fast paths equal the reference decoders; the buffered
      writer refines an append-only stream.
    - Discipline: along every sequence of operations a session is alive on its stream or
      broken with its connection closed ([session_alive_or_broken]); a server error is
      reported only when its frame was consumed completely; a cancelled context ends the
      session unless the server reported the cancellation in full.
    - Exchanges: preparing, updating, fetching, committing, cancelling and the handshake
      send exactly their messages and consume exactly the answers; a statement that the
      server refuses is reported with its error and leaves the stream aligned.
    - Refinement: a query returns a result set that stands for the list of the rows
      ([query_refines_list]), and [Next] over the wire implements that list
      ([Next_refines_list]); a ping runs through all of it and frees the connection
      ([Ping_comes_back]); a prepared query read to its end is that list
      ([prepared_query_is_the_list]).
    - Composition: connecting, executing a prepared statement and closing sends exactly
      the bytes of the protocol and reads the answers to the last byte
      ([whole_conversation]).
    - Contexts: a deadline on a connection is always accounted for
      ([deadline_is_accounted_for]), a context that is done wakes a blocked body
      ([done_context_wakes_the_body]), no deadline outlives its operation, or the rows of
      its query ([deadlines_last_as_long_as_operations]), and a cancelled query can be run
      again ([cancelled_query_can_be_run_again]).
    - Types: a decoded value has the Go type that [ScanType] promises; [Float64] is the
      float64 nearest to a DECFLOAT.
    - Ownership: however operations are interleaved, at most one result set is open on a
      connection ([one_open_result_set]); a connection in use is left alone, rows and
      statements release it, a connection goes back to the pool with its transaction
      rolled back and autocommit on or not at all, and is opened entirely or not at all.
    - Configuration: JDBC URLs round-trip, what [ParseDSN] accepts is valid, the property
      map does not depend on the order of Go's maps, passwords without semicolons given as
      settings do not reach the log, and the statement in the text of a server error is
      quoted.
    - Defects: a rejected parameter leaves part of a request in the buffer, oversized
      generated keys stay unread, native TLS passwords and what follows a semicolon in a
      password are logged, inline CLOBs lose supplementary characters, intervals lose a sign, text after [#] is dropped, a
      refused commit leaves the isolation level to the next user of the connection, a
      statement closed under another one stays open on the server until it is closed again,
      and a goroutine that outlives its operation moves the deadline of the next one
      ([late_goroutine_hits_the_next_operation]).

    ** Bounds and fuel

    Type and value decoding recurse on nested containers with fuel; [Fuel.fueled] starts
    with the number of bytes that are left, every level consumes at least one, and the
    theorems [ReadTypeInfo_enough_fuel] and [readValueInternal_enough_fuel] show that the
    fuel never runs out, whatever the bytes. Loops over announced counts are bounded by
    the counts, which are capped at [maxWireCollectionElements]; the loop of LOB_READ,
    the loop over generated keys without a count and the loop of [Ping] take the input
    that is left as fuel, and [fetchLob_terminates], [key_loop_ends] and [Ping_loop_ends]
    show that it is enough.

    ** Parameters

    The network and crypto/tls ([Network]), the process environment and its random source
    ([Environment]), the case mapping of characters beyond ASCII ([Unicode]), which of them
    are printable ([Printable]) and the order in which Go iterates over maps ([MapOrder]).
    Theorems hold for all of them, and the witnesses run with concrete ones.

    ** Not modelled

    The texts of the driver's own error messages, which are kept as format and
    arguments; mutexes, whose critical sections are single steps; within an operation
    modelled as one function, the steps of the goroutine that watches its context, which
    appear as the error a read ends with (Watcher has them one by one, for bodies that do
    not begin operations of their own); dates whose count of seconds exceeds 64 bits; of
    database/sql everything but the registry of drivers, of slog everything but what
    NewTextLogger passes to it; doc.go, which holds comments only. *)

From stdpp Require Export base tactics list gmap strings.
From Stdlib Require Export ZArith Lia.
From Stdlib Require Import Strings.Byte.

#[export] Set Default Proof Using "Type".
Global Open Scope Z_scope.

Declare Scope go_scope.
Delimit Scope go_scope with go.
Global Open Scope go_scope.

Create HintDb h2go.
Create Rewrite HintDb h2go.

(** ** Bytes and Go strings *)

Abbreviation byte := Corelib.Init.Byte.byte.

(** A Go [string] is an immutable sequence of bytes. *)
Abbreviation gostring := (list byte).

(** The unsigned value of a byte, and [byte(x)] for an integer [x]. *)
Definition b2z (b : byte) : Z := Z.of_N (Byte.to_N b).

Definition z2b (z : Z) : byte :=
  match Byte.of_N (Z.to_N (z mod 256)) with
  | Some b => b
  | None => Byte.x00
  end.

(** A string literal of the source as a sequence of bytes. *)
Definition lit (s : string) : gostring := String.list_byte_of_string s.

(** [len(x)] of a Go slice or string, as Go's [int]. *)
Definition zlen {A} (l : list A) : Z := Z.of_nat (length l).

#[global] Instance byte_eq_dec : EqDecision byte := Byte.byte_eq_dec.

(** ** Fixed-width integers: [intN(x)] and [uintN(x)] conversions wrap around *)

Definition uintN (n : Z) (z : Z) : Z := z mod 2 ^ n.
Definition intN (n : Z) (z : Z) : Z := (z + 2 ^ (n - 1)) mod 2 ^ n - 2 ^ (n - 1).

Abbreviation int8 := (intN 8).
Abbreviation int16 := (intN 16).
Abbreviation int32 := (intN 32).
Abbreviation int64 := (intN 64).
Abbreviation uint16 := (uintN 16).
Abbreviation uint32 := (uintN 32).
Abbreviation uint64 := (uintN 64).

Definition in_intN (n z : Z) : Prop := - 2 ^ (n - 1) <= z < 2 ^ (n - 1).

(** ** Errors as Go values

    [errors.As] and [errors.Is] walk the tree a wrapping [fmt.Errorf] builds, so
    the tree is kept: a format string with its arguments, and the errors that
    fill its [%w] verbs. *)

(** The structured server error of errors.go ([type Error struct]). *)
Record Error := mkError {
  SQLState : gostring;
  Message : gostring;
  SQL : gostring;
  Code : Z;
  StackTrace : gostring
}.

Inductive sentinel :=
| io_EOF
| io_ErrUnexpectedEOF
| net_ErrClosed
| driver_ErrBadConn
| sql_ErrTxDone
| context_Canceled
| context_DeadlineExceeded
| ErrUnsupportedServerVersion
| ErrUnsupportedType
| ErrClosed
| ErrLastInsertIDUnavailable
| errNestedOnDemandLOB.

Inductive farg :=
| AInt (z : Z)
| AStr (s : gostring).

Inductive error :=
| ESent (s : sentinel)
| ENet (timeout : bool)
| EH2 (h : Error)
| EErrorf (fmt : string) (args : list farg)
| EWrapf (fmt : string) (args : list farg) (inner : list error)
| EIoEOF
| EPanic (what : string)
| EFuel.

(** [errors.As(err, &h)] with [h] of type [*Error]. *)
Fixpoint errors_As (e : error) : option Error :=
  match e with
  | EH2 h => Some h
  | EWrapf _ _ es =>
      (fix first es :=
         match es with
         | [] => None
         | e' :: es' =>
             match errors_As e' with
             | Some h => Some h
             | None => first es'
             end
         end) es
  | _ => None
  end.

#[global] Instance sentinel_eq_dec : EqDecision sentinel.
Proof. solve_decision. Defined.

(** [errors.Is(err, target)] for a sentinel target. *)
Fixpoint errors_Is (e : error) (s : sentinel) : bool :=
  match e with
  | ESent s' => bool_decide (s' = s)
  | EWrapf _ _ es =>
      (fix any es :=
         match es with
         | [] => false
         | e' :: es' => errors_Is e' s || any es'
         end) es
  | _ => false
  end.

(** An error that carries no server error, no panic and no exhausted fuel, and does not
    speak of insert ids. *)
Fixpoint plain (e : error) : bool :=
  match e with
  | EH2 _ | EPanic _ | EFuel | ESent ErrLastInsertIDUnavailable => false
  | EWrapf _ _ es => forallb plain es
  | _ => true
  end.

(** An error of the program, as opposed to a panic or a run out of fuel. *)
Fixpoint sane (e : error) : bool :=
  match e with
  | EPanic _ | EFuel => false
  | EWrapf _ _ es => forallb sane es
  | _ => true
  end.

(** [switch x { case a, b, c: ... }] *)
Definition one_of (x : Z) (l : list Z) : bool := existsb (Z.eqb x) l.

(** ** A state and error monad: the state survives an error, as it does in Go *)

Inductive res (A : Type) :=
| Ok (a : A)
| Err (e : error).
Arguments Ok {A} a.
Arguments Err {A} e.

Definition M (S A : Type) : Type := S -> res A * S.

Definition ret {S A} (a : A) : M S A := fun s => (Ok a, s).
Definition fail {S A} (e : error) : M S A := fun s => (Err e, s).

Definition bind {S A B} (m : M S A) (k : A -> M S B) : M S B :=
  fun s => match m s with
           | (Ok a, s') => k a s'
           | (Err e, s') => (Err e, s')
           end.

(** [r, err := m] with the error examined by what follows. *)
Definition try {S A} (m : M S A) : M S (res A) :=
  fun s => let '(r, s') := m s in (Ok r, s').

Definition get {S} : M S S := fun s => (Ok s, s).
Definition gets {S A} (f : S -> A) : M S A := fun s => (Ok (f s), s).
Definition modify {S} (f : S -> S) : M S unit := fun s => (Ok tt, f s).
Definition lift {S A} (x : res A) : M S A := fun s => (x, s).

(** [if err != nil { return fmt.Errorf("...: %w", err) }] *)
Definition wrapf {S A} (fmt : string) (args : list farg) (m : M S A) : M S A :=
  fun s => match m s with
           | (Ok a, s') => (Ok a, s')
           | (Err e, s') => (Err (EWrapf fmt args [e]), s')
           end.

Notation "x <- m ;; k" := (bind m (fun x => k))
  (at level 100, m at next level, k at level 200, right associativity) : go_scope.
Notation "' p <- m ;; k" := (bind m (fun x => let p := x in k))
  (at level 20, p pattern, m at level 99, k at level 200) : go_scope.
Notation "m ;; k" := (bind m (fun _ => k))
  (at level 100, k at level 200, right associativity) : go_scope.

(** [for i := i0; i < i0 + n; i++ { xs = append(xs, f(i)) }], left on an error. *)
Fixpoint for_range {S A} (n : nat) (i : Z) (f : Z -> M S A) : M S (list A) :=
  match n with
  | O => ret []
  | S n' => x <- f i ;; xs <- for_range n' (i + 1) f ;; ret (x :: xs)
  end.

(** A loop that only writes: [for _, x := range l { f(x) }]. *)
Fixpoint for_each {S A} (l : list A) (f : A -> M S unit) : M S unit :=
  match l with
  | [] => ret tt
  | x :: l' => f x ;; for_each l' f
  end.

Definition guard_err {S} (b : bool) (e : error) : M S unit :=
  if b then fail e else ret tt.

(** ** Big-endian integers ([encoding/binary.BigEndian]) *)

(** [PutUintN]: the [n] low bytes of [z], most significant first. *)
Fixpoint be_enc (n : nat) (z : Z) : list byte :=
  match n with
  | O => []
  | S n' => z2b (Z.shiftr z (8 * Z.of_nat n')) :: be_enc n' z
  end.

(** [UintN]: the unsigned integer a byte sequence spells. *)
Definition be_dec (l : list byte) : Z :=
  fold_left (fun acc b => acc * 256 + b2z b) l 0.

(** Split off exactly [n] bytes, as [io.ReadFull] does. *)
Fixpoint split_exact (n : Z) (l : list byte) : option (list byte * list byte) :=
  if n <=? 0 then Some ([], l)
  else match l with
       | [] => None
       | b :: l' =>
           match split_exact (n - 1) l' with
           | Some (p, r) => Some (b :: p, r)
           | None => None
           end
       end.

(** ** Lemmas *)

(** *** Running the monad *)

Section monad_facts.
Context {S A B : Type}.
Implicit Types (m : M S A) (k : A -> M S B) (s : S).

Lemma bind_Ok m k s a s' : m s = (Ok a, s') -> bind m k s = k a s'.
Proof. unfold bind. by intros ->. Qed.

Lemma bind_Err m k s e s' : m s = (Err e, s') -> bind m k s = (Err e, s').
Proof. unfold bind. by intros ->. Qed.

Lemma bind_Ok_inv m k s b s'' :
  bind m k s = (Ok b, s'') -> exists a s', m s = (Ok a, s') /\ k a s' = (Ok b, s'').
Proof. unfold bind. destruct (m s) as [[a|e] s']; naive_solver. Qed.

Lemma bind_Err_inv m k s e s'' :
  bind m k s = (Err e, s'') ->
  m s = (Err e, s'') \/ exists a s', m s = (Ok a, s') /\ k a s' = (Err e, s'').
Proof. unfold bind. destruct (m s) as [[a|e'] s']; naive_solver. Qed.

Lemma wrapf_Ok fmt args m s a s' : wrapf fmt args m s = (Ok a, s') <-> m s = (Ok a, s').
Proof. unfold wrapf. destruct (m s) as [[?|?] ?]; naive_solver. Qed.

Lemma wrapf_Err_inv fmt args m s e s' :
  wrapf fmt args m s = (Err e, s') -> exists e', m s = (Err e', s') /\ e = EWrapf fmt args [e'].
Proof. unfold wrapf. destruct (m s) as [[?|?] ?]; naive_solver. Qed.

Lemma wrapf_run fmt args m s :
  wrapf fmt args m s =
  match m s with
  | (Ok a, s') => (Ok a, s')
  | (Err e, s') => (Err (EWrapf fmt args [e]), s')
  end.
Proof. done. Qed.
End monad_facts.

(** One step of symbolic execution of a monadic term applied to a state. *)
Ltac m_step :=
  match goal with
  | H : ?m ?s = (Ok _, _) |- context [bind ?m _ ?s] => rewrite (bind_Ok _ _ _ _ _ H)
  | H : ?m ?s = (Err _, _) |- context [bind ?m _ ?s] => rewrite (bind_Err _ _ _ _ _ H)
  end.

(** Split a hypothesis on a successful or failed run into the runs of its parts. *)
Ltac m_inv :=
  repeat match goal with
  | H : bind _ _ _ = (Ok _, _) |- _ =>
      apply bind_Ok_inv in H; destruct H as (?&?&?&H); cbv beta in H
  | H : wrapf _ _ _ _ = (Ok _, _) |- _ => apply wrapf_Ok in H
  | H : ret _ _ = (_, _) |- _ => unfold ret in H
  | H : fail _ _ = (_, _) |- _ => unfold fail in H
  | H : (Ok _, _) = (Ok _, _) |- _ => injection H as ? ?; subst
  | H : (Err _, _) = (Err _, _) |- _ => injection H as ? ?; subst
  | H : (Ok _, _) = (Err _, _) |- _ => discriminate H
  | H : (Err _, _) = (Ok _, _) |- _ => discriminate H
  | H : Some _ = Some _ |- _ => injection H as ?; subst
  | H : None = Some _ |- _ => discriminate H
  | H : Some _ = None |- _ => discriminate H
  end.

(** *** Postconditions *)

(** What [m] returns satisfies [P], whatever the state. *)
Definition yields {S A} (m : M S A) (P : A -> Prop) : Prop := forall t a t', m t = (Ok a, t') -> P a.

Section yields.
Context {S A B : Type}.

Lemma yields_ret (a : A) (P : A -> Prop) : P a -> yields (S := S) (ret a) P.
Proof. intros HP t b t' [= <- <-]. done. Qed.
Lemma yields_fail e (P : A -> Prop) : yields (S := S) (fail e) P.
Proof. done. Qed.
Lemma yields_bind (m : M S A) (k : A -> M S B) P Q :
  yields m P -> (forall a, P a -> yields (k a) Q) -> yields (bind m k) Q.
Proof. intros Hm Hk t b t' H. apply bind_Ok_inv in H as (a & t1 & H1 & H2). eapply Hk; [by eapply Hm|exact H2]. Qed.
Lemma yields_any (m : M S A) : yields m (fun _ => True).
Proof. done. Qed.
Lemma yields_wrapf fmt args (m : M S A) P : yields m P -> yields (wrapf fmt args m) P.
Proof. intros Hm t a t' H%wrapf_Ok. by eapply Hm. Qed.
Lemma yields_try (m : M S A) P : yields m P -> yields (try m) (fun x => forall a, x = Ok a -> P a).
Proof. intros Hm t x t' H. unfold try in H. destruct (m t) as [y t1] eqn:E. injection H as <- <-. intros a ->. by eapply Hm. Qed.
End yields.

(** Along the structure of a decoder, the continuations alone. *)
Ltac solve_yields :=
  repeat match goal with
  | |- yields (ret _) _ => apply yields_ret; try done
  | |- yields (fail _) _ => apply yields_fail
  | |- yields (bind _ _) _ => eapply yields_bind; [apply yields_any|intros ? _]
  | |- yields (if ?b then _ else _) _ => destruct b
  | |- yields (match ?x with _ => _ end) _ => destruct x
  end.

(** *** Errors *)

(** Induction on errors that reaches the wrapped ones. *)
Fixpoint error_ind_nested (P : error -> Prop)
  (H1 : forall s, P (ESent s)) (H2 : forall b, P (ENet b)) (H3 : forall h, P (EH2 h))
  (H4 : forall f a, P (EErrorf f a)) (H5 : forall f a es, Forall P es -> P (EWrapf f a es))
  (H6 : P EIoEOF) (H7 : forall w, P (EPanic w)) (H8 : P EFuel) (e : error) : P e :=
  match e with
  | ESent s => H1 s
  | ENet b => H2 b
  | EH2 h => H3 h
  | EErrorf f a => H4 f a
  | EWrapf f a es =>
      H5 f a es ((fix all es : Forall P es :=
                    match es with
                    | [] => Forall_nil_2 P
                    | e' :: es' =>
                        Forall_cons_2 P e' es' (error_ind_nested P H1 H2 H3 H4 H5 H6 H7 H8 e') (all es')
                    end) es)
  | EIoEOF => H6
  | EPanic w => H7 w
  | EFuel => H8
  end.

Lemma plain_As e : plain e = true -> errors_As e = None.
Proof.
  induction e as [| | | |f a es IH| | |] using error_ind_nested; try done.
  cbn. induction IH as [|e' es He' _ IHes]; [done|]. cbn. intros [H1 H2]%andb_true_iff.
  by rewrite He', IHes.
Qed.

Lemma plain_sane e : plain e = true -> sane e = true.
Proof.
  induction e as [| | | |f a es IH| | |] using error_ind_nested; try done.
  cbn. induction IH as [|e' es He' _ IHes]; [done|]. cbn. intros [H1 H2]%andb_true_iff.
  by rewrite He', IHes.
Qed.

Lemma plain_no_insert_id e : plain e = true -> errors_Is e ErrLastInsertIDUnavailable = false.
Proof.
  induction e as [c| | | |f a es IH| | |] using error_ind_nested; try done; [by destruct c|].
  cbn. induction IH as [|e' es He' _ IHes]; [done|]. cbn. intros [H1 H2]%andb_true_iff.
  by rewrite He', IHes.
Qed.

(** *** Bytes *)

Lemma b2z_range b : 0 <= b2z b < 256.
Proof. unfold b2z. pose proof (Byte.to_N_bounded b). lia. Qed.

Lemma b2z_z2b z : b2z (z2b z) = z mod 256.
Proof.
  pose proof (Z.mod_pos_bound z 256 ltac:(lia)).
  unfold z2b, b2z. destruct (Byte.of_N (Z.to_N (z mod 256))) eqn:E.
  - apply Byte.to_of_N in E. rewrite E. lia.
  - apply Byte.of_N_None_iff in E. lia.
Qed.

Lemma b2z_inj b1 b2 : b2z b1 = b2z b2 -> b1 = b2.
Proof.
  unfold b2z. intros H%N2Z.inj.
  pose proof (Byte.of_to_N b1). pose proof (Byte.of_to_N b2). congruence.
Qed.

Lemma z2b_b2z b : z2b (b2z b) = b.
Proof. apply b2z_inj. rewrite b2z_z2b. apply Z.mod_small, b2z_range. Qed.

Lemma b2z_z2b_small z : 0 <= z < 256 -> b2z (z2b z) = z.
Proof. intros. rewrite b2z_z2b. by apply Z.mod_small. Qed.

Lemma z2b_mod z : z2b (z mod 256) = z2b z.
Proof. unfold z2b. by rewrite Zmod_mod. Qed.

#[export] Hint Resolve b2z_range : h2go.

(** *** Integer widths *)

Lemma intN_range n z : 0 < n -> in_intN n (intN n z).
Proof.
  intros. unfold in_intN, intN.
  pose proof (Z.mod_pos_bound (z + 2 ^ (n - 1)) (2 ^ n) ltac:(lia)).
  replace (2 ^ n) with (2 * 2 ^ (n - 1)) in *; [lia|].
  rewrite <- Z.pow_succ_r by lia. f_equal. lia.
Qed.

Lemma intN_small n z : 0 < n -> in_intN n z -> intN n z = z.
Proof.
  unfold in_intN, intN. intros ? ?.
  rewrite Z.mod_small; [lia|].
  replace (2 ^ n) with (2 * 2 ^ (n - 1)); [lia|].
  rewrite <- Z.pow_succ_r by lia. f_equal. lia.
Qed.

Lemma intN_mod n z : intN n (z mod 2 ^ n) = intN n z.
Proof. unfold intN. by rewrite Zplus_mod_idemp_l. Qed.

Lemma uintN_range n z : 0 <= n -> 0 <= uintN n z < 2 ^ n.
Proof. intros. unfold uintN. apply Z.mod_pos_bound. lia. Qed.

Lemma uintN_small n z : 0 <= z < 2 ^ n -> uintN n z = z.
Proof. apply Z.mod_small. Qed.

(** *** Lengths *)

Lemma zlen_nonneg {A} (l : list A) : 0 <= zlen l.
Proof. unfold zlen. lia. Qed.
Lemma zlen_app {A} (l1 l2 : list A) : zlen (l1 ++ l2) = zlen l1 + zlen l2.
Proof. unfold zlen. rewrite length_app. lia. Qed.
Lemma zlen_nil {A} : zlen (@nil A) = 0.
Proof. done. Qed.
Lemma zlen_cons {A} (x : A) l : zlen (x :: l) = 1 + zlen l.
Proof. unfold zlen. cbn [length]. lia. Qed.
#[export] Hint Rewrite @zlen_app @zlen_nil @zlen_cons : h2go.
#[export] Hint Resolve zlen_nonneg : h2go.

(** *** Big-endian integers *)

Lemma length_be_enc n z : length (be_enc n z) = n.
Proof. induction n; simpl; congruence. Qed.

Lemma zlen_be_enc n z : zlen (be_enc n z) = Z.of_nat n.
Proof. unfold zlen. by rewrite length_be_enc. Qed.

Lemma be_dec_acc_enc n z acc :
  fold_left (fun acc b => acc * 256 + b2z b) (be_enc n z) acc
  = acc * 256 ^ Z.of_nat n + z mod 256 ^ Z.of_nat n.
Proof.
  revert acc. induction n as [|n IH]; intros acc.
  - cbn. rewrite Z.mod_1_r. lia.
  - cbn [be_enc fold_left]. rewrite IH, b2z_z2b, Z.shiftr_div_pow2 by lia.
    rewrite Nat2Z.inj_succ, Z.pow_succ_r by lia.
    rewrite (Z.mul_comm 256 (256 ^ _)), Z.rem_mul_r by lia.
    replace (2 ^ (8 * Z.of_nat n)) with (256 ^ Z.of_nat n);
      [ring|]. rewrite (Z.pow_mul_r 2 8) by lia. done.
Qed.

Lemma be_dec_enc n z : be_dec (be_enc n z) = z mod 2 ^ (8 * Z.of_nat n).
Proof.
  unfold be_dec. rewrite be_dec_acc_enc, (Z.pow_mul_r 2 8) by lia. change (2 ^ 8) with 256. lia.
Qed.

Lemma split_exact_app l l' : split_exact (zlen l) (l ++ l') = Some (l, l').
Proof.
  induction l as [|b l IH]; [by destruct l'|].
  rewrite zlen_cons. cbn [app split_exact].
  pose proof (zlen_nonneg l).
  rewrite (proj2 (Z.leb_gt _ _)) by lia.
  replace (1 + zlen l - 1) with (zlen l) by lia. by rewrite IH.
Qed.

Lemma split_exact_Some n l p r :
  split_exact n l = Some (p, r) -> l = p ++ r /\ zlen p = Z.max 0 n.
Proof.
  revert n p. induction l as [|b l IH]; intros n p; cbn [split_exact].
  - destruct (n <=? 0) eqn:E; intros; simplify_eq. rewrite zlen_nil. split; [done|lia].
  - destruct (n <=? 0) eqn:E; [intros; simplify_eq; rewrite zlen_nil; split; [done|lia]|].
    destruct (split_exact (n - 1) l) as [[p' r']|] eqn:E'; intros; simplify_eq.
    apply IH in E' as [-> ?]. rewrite zlen_cons. split; [done|lia].
Qed.

Lemma split_exact_None n l : split_exact n l = None -> zlen l < n.
Proof.
  revert n. induction l as [|b l IH]; intros n; cbn [split_exact];
    destruct (n <=? 0) eqn:E; try done.
  - intros _. rewrite zlen_nil. lia.
  - destruct (split_exact (n - 1) l) as [[]|] eqn:E'; [done|].
    intros _. apply IH in E'. rewrite zlen_cons. lia.
Qed.

(** *** Bit operations as arithmetic *)

Lemma lor_add_disjoint a b k : 0 <= k -> 0 <= b < 2 ^ k -> Z.lor (a * 2 ^ k) b = a * 2 ^ k + b.
Proof.
  intros Hk Hb. rewrite <- Z.shiftl_mul_pow2 by done.
  rewrite <- Z.lxor_lor, Z.add_nocarry_lxor; [done|..].
  all: apply Z.bits_inj'; intros n Hn; rewrite Z.land_spec, Z.bits_0.
  all: destruct (Z.lt_ge_cases n k).
  all: try (rewrite Z.shiftl_spec_low by lia; done).
  all: rewrite (Z.testbit_eqb b) by lia; rewrite Z.div_small, andb_false_r; [done|].
  all: split; [lia|]; apply Z.lt_le_trans with (2 ^ k); [lia|]; apply Z.pow_le_mono_r; lia.
Qed.

Lemma land_ones_mod z k : 0 <= k -> Z.land z (2 ^ k - 1) = z mod 2 ^ k.
Proof. intros. rewrite <- Z.land_ones, Z.ones_equiv, <- Z.sub_1_r by done. done. Qed.
