(* ===== verification/GoText.v ===== *)
(** * Text in the Go runtime and standard library

    What the driver uses of Go's text support, which every codec file below
    needs: decoding a string into runes ([for _, r := range s]) and encoding a
    rune ([strings.Builder.WriteRune]), integers in base 10 and 16
    ([strconv.FormatInt], [ParseInt], [ParseUint], the verbs [%d], [%0Nd] and
    [%0Nx] of package fmt), and [strings.TrimSpace], [TrimRight], [Join],
    [Repeat] and [HasPrefix]. *)

From Stdlib Require Import Strings.Byte.
From S2P Require Import Prelude.

(** ** UTF-8 *)

Definition RuneError : Z := 0xFFFD.
Definition MaxRune : Z := 0x10FFFF.

(** A Unicode scalar value: what a well-formed UTF-8 sequence can spell. *)
Definition valid_rune (r : Z) : bool :=
  ((0 <=? r) && (r <? 0xD800)) || ((0xDFFF <? r) && (r <=? MaxRune)).

(** [utf8.AppendRune]; a surrogate or an out-of-range rune becomes U+FFFD. *)
Definition encode_rune (r : Z) : gostring :=
  if (0 <=? r) && (r <=? 0x7F) then [z2b r]
  else if (0 <=? r) && (r <=? 0x7FF) then
    [z2b (Z.lor 0xC0 (Z.shiftr r 6)); z2b (Z.lor 0x80 (Z.land r 0x3F))]
  else if negb (valid_rune r) then [Byte.xef; Byte.xbf; Byte.xbd]
  else if r <=? 0xFFFF then
    [z2b (Z.lor 0xE0 (Z.shiftr r 12)); z2b (Z.lor 0x80 (Z.land (Z.shiftr r 6) 0x3F));
     z2b (Z.lor 0x80 (Z.land r 0x3F))]
  else
    [z2b (Z.lor 0xF0 (Z.shiftr r 18)); z2b (Z.lor 0x80 (Z.land (Z.shiftr r 12) 0x3F));
     z2b (Z.lor 0x80 (Z.land (Z.shiftr r 6) 0x3F)); z2b (Z.lor 0x80 (Z.land r 0x3F))].

Definition utf8_encode (rs : list Z) : gostring := flat_map encode_rune rs.

Definition between (lo x hi : Z) : bool := (lo <=? x) && (x <=? hi).

(** The multi-byte forms [utf8.DecodeRune] accepts: shortest encodings only, no
    surrogates, nothing above [MaxRune]. *)
Definition decode2 (x0 x1 : Z) : option Z :=
  if between 0xC2 x0 0xDF && between 0x80 x1 0xBF
  then Some (Z.lor (Z.shiftl (Z.land x0 0x1F) 6) (Z.land x1 0x3F))
  else None.

Definition decode3 (x0 x1 x2 : Z) : option Z :=
  if between 0xE0 x0 0xEF
     && between (if x0 =? 0xE0 then 0xA0 else 0x80) x1 (if x0 =? 0xED then 0x9F else 0xBF)
     && between 0x80 x2 0xBF
  then Some (Z.lor (Z.shiftl (Z.land x0 0x0F) 12)
               (Z.lor (Z.shiftl (Z.land x1 0x3F) 6) (Z.land x2 0x3F)))
  else None.

Definition decode4 (x0 x1 x2 x3 : Z) : option Z :=
  if between 0xF0 x0 0xF4
     && between (if x0 =? 0xF0 then 0x90 else 0x80) x1 (if x0 =? 0xF4 then 0x8F else 0xBF)
     && between 0x80 x2 0xBF && between 0x80 x3 0xBF
  then Some (Z.lor (Z.shiftl (Z.land x0 0x07) 18)
               (Z.lor (Z.shiftl (Z.land x1 0x3F) 12)
                  (Z.lor (Z.shiftl (Z.land x2 0x3F) 6) (Z.land x3 0x3F))))
  else None.

(** A string cut where [for range] cuts it: each rune with its bytes; a byte that
    starts no well-formed sequence is U+FFFD of width one. *)
Fixpoint chunks (s : gostring) : list (Z * gostring) :=
  match s with
  | [] => []
  | b0 :: s1 =>
      if b2z b0 <? 0x80 then (b2z b0, [b0]) :: chunks s1
      else
        let bad := (RuneError, [b0]) :: chunks s1 in
        match s1 with
        | [] => bad
        | b1 :: s2 =>
            match decode2 (b2z b0) (b2z b1) with
            | Some r => (r, [b0; b1]) :: chunks s2
            | None =>
                match s2 with
                | [] => bad
                | b2 :: s3 =>
                    match decode3 (b2z b0) (b2z b1) (b2z b2) with
                    | Some r => (r, [b0; b1; b2]) :: chunks s3
                    | None =>
                        match s3 with
                        | [] => bad
                        | b3 :: s4 =>
                            match decode4 (b2z b0) (b2z b1) (b2z b2) (b2z b3) with
                            | Some r => (r, [b0; b1; b2; b3]) :: chunks s4
                            | None => bad
                            end
                        end
                    end
                end
            end
        end
  end.

(** [[]rune(s)], the runes [for _, r := range s] visits. *)
Definition runes (s : gostring) : list Z := map fst (chunks s).

(** [utf8.ValidString] as a specification: some runes spell [s]. *)
Definition valid_utf8 (s : gostring) : Prop :=
  exists rs, Forall (fun r => valid_rune r = true) rs /\ s = utf8_encode rs.

(** ** Integers as text *)

(** The digit characters of strconv. *)
Definition digit_char (d : Z) : byte :=
  if d <? 10 then z2b (48 + d) else z2b (87 + d).

Fixpoint digits_loop (fuel : nat) (base n : Z) (acc : gostring) : gostring :=
  match fuel with
  | O => acc
  | S fuel' =>
      let acc' := digit_char (n mod base) :: acc in
      if n / base =? 0 then acc' else digits_loop fuel' base (n / base) acc'
  end.

(** The digits of [n >= 0]; a number has no more digits than bits. *)
Definition digits (base n : Z) : gostring :=
  digits_loop (S (Z.to_nat (Z.log2 n))) base n [].

(** [strconv.FormatInt(z, 10)], [strconv.Itoa] and the verb [%d]. *)
Definition FormatInt (z : Z) : gostring :=
  if z <? 0 then lit "-" ++ digits 10 (- z) else digits 10 z.

Definition Repeat (b : byte) (n : Z) : gostring := repeat b (Z.to_nat n).

Definition zero_pad (width : Z) (ds : gostring) : gostring :=
  Repeat "0"%byte (width - zlen ds) ++ ds.

(** The verbs [%0wd] and [%0wx] (the latter on an unsigned value). *)
Definition fmt_0d (w z : Z) : gostring :=
  if z <? 0 then lit "-" ++ zero_pad (w - 1) (digits 10 (- z)) else zero_pad w (digits 10 z).
Definition fmt_0x (w z : Z) : gostring := zero_pad w (digits 16 z).

(** [hex.EncodeToString]. *)
Definition EncodeToString (l : list byte) : gostring := flat_map (fun b => fmt_0x 2 (b2z b)) l.

(** The value of a digit character in a base up to 16, either letter case. *)
Definition digit_val (base : Z) (b : byte) : option Z :=
  let x := b2z b in
  let d := if between 48 x 57 then Some (x - 48)
           else if between 97 x 122 then Some (x - 87)
           else if between 65 x 90 then Some (x - 55)
           else None in
  match d with
  | Some v => if v <? base then Some v else None
  | None => None
  end.

(** The value of a digit string; [None] when a character is not a digit. *)
Fixpoint digits_val (base acc : Z) (s : gostring) : option Z :=
  match s with
  | [] => Some acc
  | b :: s' =>
      match digit_val base b with
      | Some d => digits_val base (acc * base + d) s'
      | None => None
      end
  end.

(** [strconv.ParseUint(s, base, 64)]: empty text, a character that is not a digit
    and a value beyond 64 bits are errors. *)
Definition ParseUint (base : Z) (s : gostring) : option Z :=
  if zlen s =? 0 then None
  else match digits_val base 0 s with
       | Some v => if v <? 2 ^ 64 then Some v else None
       | None => None
       end.

(** [strconv.ParseInt(s, 10, 64)] and, [int] having 64 bits, [strconv.Atoi]. *)
Definition ParseInt (s : gostring) : option Z :=
  let '(neg, ds) := match s with
                    | b :: s' => if decide (b = "-"%byte) then (true, s')
                                 else if decide (b = "+"%byte) then (false, s')
                                 else (false, s)
                    | [] => (false, [])
                    end in
  match ParseUint 10 ds with
  | Some v =>
      if neg then (if v <=? 2 ^ 63 then Some (- v) else None)
      else (if v <? 2 ^ 63 then Some v else None)
  | None => None
  end.

(** ** Package strings *)

(** [unicode.IsSpace]. *)
Definition is_space (r : Z) : bool :=
  between 9 r 13 || (r =? 32) || (r =? 0x85) || (r =? 0xA0) || (r =? 0x1680)
  || between 0x2000 r 0x200A || (r =? 0x2028) || (r =? 0x2029) || (r =? 0x202F)
  || (r =? 0x205F) || (r =? 0x3000).

Fixpoint drop_while {A} (p : A -> bool) (l : list A) : list A :=
  match l with
  | [] => []
  | x :: l' => if p x then drop_while p l' else l
  end.

Definition drop_while_end {A} (p : A -> bool) (l : list A) : list A :=
  reverse (drop_while p (reverse l)).

(** [strings.TrimSpace]. *)
Definition TrimSpace (s : gostring) : gostring :=
  let p := fun c : Z * gostring => is_space c.1 in
  flat_map snd (drop_while_end p (drop_while p (chunks s))).

(** [strings.TrimRight(s, "c")] for a one-byte ASCII cutset. *)
Definition TrimRight1 (s : gostring) (c : byte) : gostring :=
  drop_while_end (fun b => bool_decide (b = c)) s.

Fixpoint Join (sep : gostring) (elems : list gostring) : gostring :=
  match elems with
  | [] => []
  | [e] => e
  | e :: es => e ++ sep ++ Join sep es
  end.

Fixpoint HasPrefix (s p : gostring) : bool :=
  match p, s with
  | [], _ => true
  | c :: p', b :: s' => bool_decide (c = b) && HasPrefix s' p'
  | _ :: _, [] => false
  end.

Definition TrimPrefix (s p : gostring) : gostring :=
  if HasPrefix s p then drop (length p) s else s.

(** [strings.ReplaceAll(s, "c", "")] for a one-byte ASCII string [c]. *)
Definition remove_byte (c : byte) (s : gostring) : gostring :=
  filter (fun b => b <> c) s.

Example runes_ex : runes (lit "a" ++ [Byte.xc4; Byte.x8d; Byte.xff; Byte.xf0; Byte.x9f; Byte.x98; Byte.x80])
  = [97; 0x10D; RuneError; 0x1F600].
Proof. vm_compute. reflexivity. Qed.
Example format_ex : FormatInt (-1205) = lit "-1205" /\ fmt_0d 2 7 = lit "07" /\ fmt_0x 4 255 = lit "00ff"
  /\ ParseInt (lit "-9223372036854775808") = Some (- 2 ^ 63) /\ ParseInt (lit "+") = None
  /\ TrimSpace (lit "  a b ") = lit "a b".
Proof. vm_compute. repeat split; reflexivity. Qed.

(** ** Lemmas on UTF-8 *)

Lemma lor_C0 x : 0 <= x < 32 -> Z.lor 0xC0 x = 0xC0 + x.
Proof. intros. by apply (lor_add_disjoint 6 x 5). Qed.
Lemma lor_E0 x : 0 <= x < 16 -> Z.lor 0xE0 x = 0xE0 + x.
Proof. intros. by apply (lor_add_disjoint 14 x 4). Qed.
Lemma lor_F0 x : 0 <= x < 8 -> Z.lor 0xF0 x = 0xF0 + x.
Proof. intros. by apply (lor_add_disjoint 30 x 3). Qed.
Lemma lor_80 x : 0 <= x < 64 -> Z.lor 0x80 x = 0x80 + x.
Proof. intros. by apply (lor_add_disjoint 2 x 6). Qed.
Lemma land_1F x : Z.land x 0x1F = x mod 32.
Proof. by apply (land_ones_mod x 5). Qed.
Lemma land_0F x : Z.land x 0x0F = x mod 16.
Proof. by apply (land_ones_mod x 4). Qed.
Lemma land_07 x : Z.land x 0x07 = x mod 8.
Proof. by apply (land_ones_mod x 3). Qed.
Lemma land_3F x : Z.land x 0x3F = x mod 64.
Proof. by apply (land_ones_mod x 6). Qed.

Lemma lor_shiftl6 a b : 0 <= b < 64 -> Z.lor (Z.shiftl a 6) b = a * 64 + b.
Proof. intros. rewrite Z.shiftl_mul_pow2 by lia. by apply lor_add_disjoint. Qed.
Lemma lor_shiftl12 a b : 0 <= b < 4096 -> Z.lor (Z.shiftl a 12) b = a * 4096 + b.
Proof. intros. rewrite Z.shiftl_mul_pow2 by lia. by apply lor_add_disjoint. Qed.
Lemma lor_shiftl18 a b : 0 <= b < 262144 -> Z.lor (Z.shiftl a 18) b = a * 262144 + b.
Proof. intros. rewrite Z.shiftl_mul_pow2 by lia. by apply lor_add_disjoint. Qed.

Lemma decode2_value x0 x1 :
  decode2 x0 x1 =
  if between 0xC2 x0 0xDF && between 0x80 x1 0xBF
  then Some (x0 mod 32 * 64 + x1 mod 64) else None.
Proof.
  unfold decode2. destruct (_ && _); [|done].
  rewrite land_1F, land_3F, lor_shiftl6; [done|]. apply Z.mod_pos_bound. lia.
Qed.

Lemma decode3_value x0 x1 x2 :
  decode3 x0 x1 x2 =
  if between 0xE0 x0 0xEF
     && between (if x0 =? 0xE0 then 0xA0 else 0x80) x1 (if x0 =? 0xED then 0x9F else 0xBF)
     && between 0x80 x2 0xBF
  then Some (x0 mod 16 * 4096 + x1 mod 64 * 64 + x2 mod 64) else None.
Proof.
  unfold decode3. destruct (_ && _); [|done].
  rewrite land_0F, !land_3F.
  pose proof (Z.mod_pos_bound x1 64 ltac:(lia)). pose proof (Z.mod_pos_bound x2 64 ltac:(lia)).
  rewrite lor_shiftl6, lor_shiftl12 by lia. f_equal. lia.
Qed.

Lemma decode4_value x0 x1 x2 x3 :
  decode4 x0 x1 x2 x3 =
  if between 0xF0 x0 0xF4
     && between (if x0 =? 0xF0 then 0x90 else 0x80) x1 (if x0 =? 0xF4 then 0x8F else 0xBF)
     && between 0x80 x2 0xBF && between 0x80 x3 0xBF
  then Some (x0 mod 8 * 262144 + x1 mod 64 * 4096 + x2 mod 64 * 64 + x3 mod 64) else None.
Proof.
  unfold decode4. destruct (_ && _); [|done].
  rewrite land_07, !land_3F.
  pose proof (Z.mod_pos_bound x1 64 ltac:(lia)). pose proof (Z.mod_pos_bound x2 64 ltac:(lia)).
  pose proof (Z.mod_pos_bound x3 64 ltac:(lia)).
  rewrite lor_shiftl6, lor_shiftl12, lor_shiftl18 by lia. f_equal. lia.
Qed.

(** Every boolean comparison in sight, as a linear fact. *)
Ltac zbool :=
  unfold between in *;
  repeat match goal with
  | |- context [if (?a =? ?b) then _ else _] => destruct (Z.eqb_spec a b)
  | H : context [if (?a =? ?b) then _ else _] |- _ => destruct (Z.eqb_spec a b)
  end; try lia.

Lemma decode2_valid x0 x1 r : decode2 x0 x1 = Some r -> valid_rune r = true /\ 0x80 <= r < 0x800.
Proof.
  rewrite decode2_value. destruct (_ && _) eqn:E; [|done]. intros [= <-].
  unfold valid_rune, MaxRune. unfold between in E.
  assert (x0 mod 32 = x0 - 0xC0) by (symmetry; apply (Z.mod_unique _ _ 6); lia).
  assert (x1 mod 64 = x1 - 0x80) by (symmetry; apply (Z.mod_unique _ _ 2); lia). lia.
Qed.

Lemma decode3_valid x0 x1 x2 r :
  decode3 x0 x1 x2 = Some r -> valid_rune r = true /\ 0x800 <= r < 0x10000.
Proof.
  rewrite decode3_value. destruct (_ && _) eqn:E; [|done]. intros [= <-].
  unfold valid_rune, MaxRune. unfold between in E.
  assert (x0 mod 16 = x0 - 0xE0) by (symmetry; apply (Z.mod_unique _ _ 14); lia).
  assert (x1 mod 64 = x1 - 0x80) by (symmetry; apply (Z.mod_unique _ _ 2); zbool).
  assert (x2 mod 64 = x2 - 0x80) by (symmetry; apply (Z.mod_unique _ _ 2); lia). zbool.
Qed.

Lemma decode4_valid x0 x1 x2 x3 r :
  decode4 x0 x1 x2 x3 = Some r -> valid_rune r = true /\ 0x10000 <= r <= MaxRune.
Proof.
  rewrite decode4_value. destruct (_ && _) eqn:E; [|done]. intros [= <-].
  unfold valid_rune, MaxRune. unfold between in E.
  assert (x0 mod 8 = x0 - 0xF0) by (symmetry; apply (Z.mod_unique _ _ 30); lia).
  assert (x1 mod 64 = x1 - 0x80) by (symmetry; apply (Z.mod_unique _ _ 2); zbool).
  assert (x2 mod 64 = x2 - 0x80) by (symmetry; apply (Z.mod_unique _ _ 2); lia).
  assert (x3 mod 64 = x3 - 0x80) by (symmetry; apply (Z.mod_unique _ _ 2); lia). zbool.
Qed.

(** [encode_rune] with its bit operations evaluated. *)
Lemma encode_rune_arith r :
  valid_rune r = true ->
  map b2z (encode_rune r) =
  if r <? 0x80 then [r]
  else if r <? 0x800 then [0xC0 + r / 64; 0x80 + r mod 64]
  else if r <? 0x10000 then [0xE0 + r / 4096; 0x80 + r / 64 mod 64; 0x80 + r mod 64]
  else [0xF0 + r / 262144; 0x80 + r / 4096 mod 64; 0x80 + r / 64 mod 64; 0x80 + r mod 64].
Proof.
  intros Hv. pose proof Hv as Hv'. unfold valid_rune, MaxRune in Hv'.
  unfold encode_rune. rewrite Hv.
  pose proof (Z.mod_pos_bound r 64 ltac:(lia)).
  pose proof (Z.mod_pos_bound (r / 64) 64 ltac:(lia)).
  pose proof (Z.mod_pos_bound (r / 4096) 64 ltac:(lia)).
  destruct (r <? 0x80) eqn:E1; [|destruct (r <? 0x800) eqn:E2; [|destruct (r <? 0x10000) eqn:E3]].
  - replace ((0 <=? r) && (r <=? 0x7F)) with true by lia. cbn [map].
    by rewrite b2z_z2b_small by lia.
  - replace ((0 <=? r) && (r <=? 0x7F)) with false by lia.
    replace ((0 <=? r) && (r <=? 0x7FF)) with true by lia.
    assert (0 <= r / 64 < 32) by (Z.div_mod_to_equations; lia). cbn [map].
    rewrite Z.shiftr_div_pow2, land_3F by lia. change (2 ^ 6) with 64.
    rewrite lor_C0, lor_80, !b2z_z2b_small by lia. done.
  - replace ((0 <=? r) && (r <=? 0x7F)) with false by lia.
    replace ((0 <=? r) && (r <=? 0x7FF)) with false by lia.
    replace (r <=? 0xFFFF) with true by lia.
    assert (0 <= r / 4096 < 16) by (Z.div_mod_to_equations; lia). cbn [negb map].
    rewrite !Z.shiftr_div_pow2, !land_3F by lia.
    change (2 ^ 6) with 64; change (2 ^ 12) with 4096.
    rewrite lor_E0, !lor_80, !b2z_z2b_small by lia. done.
  - replace ((0 <=? r) && (r <=? 0x7F)) with false by lia.
    replace ((0 <=? r) && (r <=? 0x7FF)) with false by lia.
    replace (r <=? 0xFFFF) with false by lia.
    assert (0 <= r / 262144 < 8) by (Z.div_mod_to_equations; lia). cbn [negb map].
    rewrite !Z.shiftr_div_pow2, !land_3F by lia.
    change (2 ^ 6) with 64; change (2 ^ 12) with 4096; change (2 ^ 18) with 262144.
    rewrite lor_F0, !lor_80, !b2z_z2b_small by lia. done.
Qed.

(** Decoding undoes encoding. *)
Lemma map_b2z_inj l1 l2 : map b2z l1 = map b2z l2 -> l1 = l2.
Proof.
  revert l2. induction l1 as [|b l1 IH]; intros [|b' l2]; try done. cbn. intros [= Hb Hl].
  by rewrite (b2z_inj _ _ Hb), (IH _ Hl).
Qed.

Lemma decode2_encode b0 b1 r : decode2 (b2z b0) (b2z b1) = Some r -> [b0; b1] = encode_rune r.
Proof.
  intros E. destruct (decode2_valid _ _ _ E) as [Hv Hr]. apply map_b2z_inj. rewrite encode_rune_arith by done.
  rewrite decode2_value in E. destruct (_ && _) eqn:Eb; [|done]. injection E as E. unfold between in Eb.
  replace (r <? 0x80) with false by lia. replace (r <? 0x800) with true by lia. cbn [map].
  repeat f_equal; Z.div_mod_to_equations; lia.
Qed.

Lemma decode3_encode b0 b1 b2 r : decode3 (b2z b0) (b2z b1) (b2z b2) = Some r -> [b0; b1; b2] = encode_rune r.
Proof.
  intros E. destruct (decode3_valid _ _ _ _ E) as [Hv Hr]. apply map_b2z_inj. rewrite encode_rune_arith by done.
  rewrite decode3_value in E. destruct (_ && _) eqn:Eb; [|done]. injection E as E. unfold between in Eb.
  assert (0xE0 <= b2z b0 <= 0xEF /\ 0x80 <= b2z b1 <= 0xBF /\ 0x80 <= b2z b2 <= 0xBF) as (H0 & H1 & H2) by zbool.
  replace (r <? 0x80) with false by lia. replace (r <? 0x800) with false by lia. replace (r <? 0x10000) with true by lia.
  cbn [map]. clear Eb Hv Hr. repeat f_equal; Z.div_mod_to_equations; lia.
Qed.

Lemma decode4_encode b0 b1 b2 b3 r :
  decode4 (b2z b0) (b2z b1) (b2z b2) (b2z b3) = Some r -> [b0; b1; b2; b3] = encode_rune r.
Proof.
  intros E. destruct (decode4_valid _ _ _ _ _ E) as [Hv Hr]. apply map_b2z_inj. rewrite encode_rune_arith by done.
  rewrite decode4_value in E. destruct (_ && _) eqn:Eb; [|done]. injection E as E. unfold between in Eb.
  assert (0xF0 <= b2z b0 <= 0xF4 /\ 0x80 <= b2z b1 <= 0xBF /\ 0x80 <= b2z b2 <= 0xBF /\ 0x80 <= b2z b3 <= 0xBF)
    as (H0 & H1 & H2 & H3) by zbool.
  replace (r <? 0x80) with false by lia. replace (r <? 0x800) with false by lia. replace (r <? 0x10000) with false by lia.
  cbn [map]. clear Eb Hv Hr. repeat f_equal; Z.div_mod_to_equations; lia.
Qed.

Lemma chunks_encode_rune r s :
  valid_rune r = true -> chunks (encode_rune r ++ s) = (r, encode_rune r) :: chunks s.
Proof.
  intros Hv. pose proof (encode_rune_arith r Hv) as Ha.
  unfold valid_rune, MaxRune in Hv.
  destruct (r <? 0x80) eqn:E1; [|destruct (r <? 0x800) eqn:E2; [|destruct (r <? 0x10000) eqn:E3]];
    destruct (encode_rune r) as [|b0 [|b1 [|b2 [|b3 [|]]]]]; try discriminate Ha;
    injection Ha as Ha; cbn [app chunks].
  - rewrite Ha. by rewrite E1.
  - replace (b2z b0 <? 0x80) with false by (Z.div_mod_to_equations; lia).
    rewrite decode2_value. replace (_ && _) with true by (unfold between; Z.div_mod_to_equations; lia).
    repeat f_equal. Z.div_mod_to_equations; lia.
  - replace (b2z b0 <? 0x80) with false by (Z.div_mod_to_equations; lia).
    rewrite decode2_value. replace (_ && _) with false by (unfold between; Z.div_mod_to_equations; lia).
    rewrite decode3_value. replace (_ && _) with true.
    2:{ symmetry. zbool; Z.div_mod_to_equations; lia. }
    repeat f_equal. Z.div_mod_to_equations; lia.
  - replace (b2z b0 <? 0x80) with false by (Z.div_mod_to_equations; lia).
    rewrite decode2_value. replace (_ && _) with false by (unfold between; Z.div_mod_to_equations; lia).
    rewrite decode3_value. replace (_ && _) with false by (unfold between; Z.div_mod_to_equations; lia).
    rewrite decode4_value. replace (_ && _) with true.
    2:{ symmetry. zbool; Z.div_mod_to_equations; lia. }
    repeat f_equal. Z.div_mod_to_equations; lia.
Qed.

Lemma runes_utf8_encode rs :
  Forall (fun r => valid_rune r = true) rs -> runes (utf8_encode rs) = rs.
Proof.
  unfold runes, utf8_encode. induction 1 as [|r rs Hr _ IH]; [done|].
  cbn [flat_map]. rewrite chunks_encode_rune by done. cbn [map fst]. by rewrite IH.
Qed.

(** Case analysis along [chunks]: the first chunk is one byte below 0x80, a
    decoded sequence, or one undecodable byte. *)
Lemma chunks_ind (P : gostring -> list (Z * gostring) -> Prop) :
  P [] [] ->
  (forall b s, b2z b < 0x80 -> P s (chunks s) -> P (b :: s) ((b2z b, [b]) :: chunks s)) ->
  (forall b s, 0x80 <= b2z b -> P s (chunks s) -> P (b :: s) ((RuneError, [b]) :: chunks s)) ->
  (forall r bs s, valid_rune r = true -> 0x80 <= r -> bs = encode_rune r -> P s (chunks s) ->
     P (bs ++ s) ((r, bs) :: chunks s)) ->
  forall s, P s (chunks s).
Proof.
  intros H0 H1 Hbad Hdec s.
  remember (length s) as n eqn:En. revert s En.
  induction (lt_wf n) as [n _ IH]; intros s ->.
  assert (IH' : forall s', (length s' < length s)%nat -> P s' (chunks s')).
  { intros s' Hs'. by apply (IH (length s')). }
  destruct s as [|b0 s1]; [done|]. cbn [chunks].
  destruct (b2z b0 <? 0x80) eqn:E; [apply H1; [lia|apply IH'; simpl; lia]|].
  assert (P (b0 :: s1) ((RuneError, [b0]) :: chunks s1)).
  { apply Hbad; [lia|]. apply IH'; simpl; lia. }
  destruct s1 as [|b1 s2]; [done|].
  destruct (decode2 _ _) eqn:E2.
  { pose proof (decode2_encode _ _ _ E2). apply decode2_valid in E2 as [? ?]. apply (Hdec _ [b0; b1]); [done|lia|done|]. apply IH'; simpl; lia. }
  destruct s2 as [|b2 s3]; [done|].
  destruct (decode3 _ _ _) eqn:E3.
  { pose proof (decode3_encode _ _ _ _ E3). apply decode3_valid in E3 as [? ?]. apply (Hdec _ [b0; b1; b2]); [done|lia|done|]. apply IH'; simpl; lia. }
  destruct s3 as [|b3 s4]; [done|].
  destruct (decode4 _ _ _ _) eqn:E4; [|done].
  pose proof (decode4_encode _ _ _ _ _ E4). apply decode4_valid in E4 as [? ?]. apply (Hdec _ [b0; b1; b2; b3]); [done|lia|done|]. apply IH'; simpl; lia.
Qed.

Lemma chunks_concat s : flat_map snd (chunks s) = s.
Proof.
  apply (chunks_ind (fun s cs => flat_map snd cs = s)); [done|..];
    intros; cbn [flat_map snd]; by f_equal.
Qed.

Lemma runes_valid s : Forall (fun r => valid_rune r = true) (runes s).
Proof.
  unfold runes. apply (chunks_ind (fun s cs => Forall (fun r => valid_rune r = true) (map fst cs)));
    [constructor|..]; intros; cbn [map fst]; constructor; try done.
  pose proof (b2z_range b). unfold valid_rune. lia.
Qed.

(** An ASCII byte continues no sequence, so a string can be cut there. *)
Lemma decode_stops x0 x1 x2 x3 y : y < 0x80 ->
  decode2 x0 y = None /\ decode3 x0 y x2 = None /\ decode3 x0 x1 y = None /\
  decode4 x0 y x2 x3 = None /\ decode4 x0 x1 y x3 = None /\ decode4 x0 x1 x2 y = None.
Proof.
  intros Hy. unfold decode2, decode3, decode4, between.
  assert (H : forall lo, 0x80 <= lo -> (lo <=? y) = false) by lia. rewrite !(H 0x80) by lia.
  destruct (x0 =? 0xE0), (x0 =? 0xF0); rewrite !H by lia; cbn [andb]; by rewrite ?andb_false_r.
Qed.

Lemma chunks_app_ascii x b p : b2z b < 0x80 -> chunks (x ++ b :: p) = chunks x ++ (b2z b, [b]) :: chunks p.
Proof.
  intros Hb. remember (length x) as n eqn:En. revert x En. induction (lt_wf n) as [n _ IH]; intros x ->.
  assert (IH' : forall x', (length x' < length x)%nat -> chunks (x' ++ b :: p) = chunks x' ++ (b2z b, [b]) :: chunks p)
    by (intros x' Hx'; by apply (IH (length x'))).
  clear IH. destruct x as [|b0 x]; cbn [app chunks]; [by replace (b2z b <? 0x80) with true by lia|].
  destruct (b2z b0 <? 0x80); [cbn [app]; f_equal; apply IH'; simpl; lia|].
  pose proof (fun x1 x2 x3 => decode_stops (b2z b0) x1 x2 x3 (b2z b) Hb) as Hs.
  pose proof (IH' x ltac:(simpl; lia)) as Hbad.
  destruct x as [|b1 x]; cbn [app] in *.
  { destruct (Hs 0 0 0) as (-> & _). destruct p as [|p1 p]; [by rewrite Hbad|]. destruct (Hs 0 (b2z p1) 0) as (_ & -> & _).
    destruct p as [|p2 p]; [by rewrite Hbad|].
    destruct (Hs 0 (b2z p1) (b2z p2)) as (_ & _ & _ & -> & _). by rewrite Hbad. }
  destruct (decode2 (b2z b0) (b2z b1)); [cbn [app]; f_equal; apply IH'; simpl; lia|].
  destruct x as [|b2 x]; cbn [app] in *.
  { destruct (Hs (b2z b1) 0 0) as (_ & _ & -> & _). destruct p as [|p1 p]; [by rewrite Hbad|].
    destruct (Hs (b2z b1) 0 (b2z p1)) as (_ & _ & _ & _ & -> & _). by rewrite Hbad. }
  destruct (decode3 (b2z b0) (b2z b1) (b2z b2)); [cbn [app]; f_equal; apply IH'; simpl; lia|].
  destruct x as [|b3 x]; cbn [app] in *.
  { destruct (Hs (b2z b1) (b2z b2) 0) as (_ & _ & _ & _ & _ & ->). by rewrite Hbad. }
  destruct (decode4 (b2z b0) (b2z b1) (b2z b2) (b2z b3)); [cbn [app]; f_equal; apply IH'; simpl; lia|].
  by rewrite Hbad.
Qed.

(** Replacing what does not decode and encoding again: what a Go string becomes
    when it is sent as UTF-16 and read back. *)
Definition sanitize (s : gostring) : gostring := utf8_encode (runes s).

Lemma sanitize_valid s : valid_utf8 s -> sanitize s = s.
Proof. intros (rs & Hrs & ->). unfold sanitize. by rewrite runes_utf8_encode. Qed.

Lemma valid_utf8_sanitize s : valid_utf8 (sanitize s).
Proof. exists (runes s). split; [apply runes_valid|done]. Qed.

Lemma encode_rune_ascii r : 0 <= r < 0x80 -> encode_rune r = [z2b r].
Proof. intros. unfold encode_rune. by replace ((0 <=? r) && (r <=? 0x7F)) with true by lia. Qed.

Lemma chunks_ascii s :
  Forall (fun b => b2z b < 0x80) s -> chunks s = map (fun b => (b2z b, [b])) s.
Proof.
  induction 1 as [|b s Hb _ IH]; [done|]. cbn [chunks map].
  replace (b2z b <? 0x80) with true by lia. by rewrite IH.
Qed.

Lemma runes_ascii s : Forall (fun b => b2z b < 0x80) s -> runes s = map b2z s.
Proof. intros H. unfold runes. by rewrite chunks_ascii, map_map. Qed.

Lemma sanitize_ascii s : Forall (fun b => b2z b < 0x80) s -> sanitize s = s.
Proof.
  intros H. unfold sanitize. rewrite runes_ascii by done. unfold utf8_encode.
  induction H as [|b s Hb _ IH]; [done|]. cbn [map flat_map].
  pose proof (b2z_range b). rewrite encode_rune_ascii, z2b_b2z by lia. by rewrite IH.
Qed.

(** ** Lemmas on integers as text *)

Lemma digit_val_char base d : 0 <= d < base -> base <= 16 -> digit_val base (digit_char d) = Some d.
Proof.
  intros. unfold digit_val, digit_char, between.
  destruct (d <? 10) eqn:E; rewrite b2z_z2b_small by lia.
  - replace ((48 <=? 48 + d) && (48 + d <=? 57)) with true by lia.
    replace (48 + d - 48) with d by lia. by replace (d <? base) with true by lia.
  - replace ((48 <=? 87 + d) && (87 + d <=? 57)) with false by lia.
    replace ((97 <=? 87 + d) && (87 + d <=? 122)) with true by lia.
    replace (87 + d - 87) with d by lia. by replace (d <? base) with true by lia.
Qed.

Lemma digits_val_app base acc s1 s2 :
  digits_val base acc (s1 ++ s2) =
  match digits_val base acc s1 with
  | Some v => digits_val base v s2
  | None => None
  end.
Proof.
  revert acc. induction s1 as [|b s1 IH]; intros acc; [done|].
  cbn [app digits_val]. destruct (digit_val base b); [apply IH|done].
Qed.

(** What a digit string [ds] of the number [n] satisfies. *)
Record spells (base n : Z) (ds : gostring) : Prop := {
  spells_nonempty : 1 <= zlen ds;
  spells_val acc : digits_val base acc ds = Some (acc * base ^ zlen ds + n);
  spells_bound : 0 <= n < base ^ zlen ds;
  spells_first : zlen ds = 1 \/ base ^ (zlen ds - 1) <= n;
  spells_digits : Forall (fun b => exists d, 0 <= d < base /\ b = digit_char d) ds
}.

Lemma digits_loop_spells base fuel n acc :
  2 <= base <= 16 -> 0 <= n < base ^ Z.of_nat fuel -> (0 < fuel)%nat ->
  exists ds, digits_loop fuel base n acc = ds ++ acc /\ spells base n ds.
Proof.
  intros Hb. revert n acc. induction fuel as [|fuel IH]; intros n acc Hn Hf; [lia|].
  cbn [digits_loop].
  assert (Hd : 0 <= n mod base < base) by (apply Z.mod_pos_bound; lia).
  pose proof (Z.div_mod n base ltac:(lia)) as Hdm.
  destruct (n / base =? 0) eqn:E.
  - exists [digit_char (n mod base)]. split; [done|].
    assert (n = n mod base) by lia.
    assert (Hl : zlen [digit_char (n mod base)] = 1) by done.
    split; rewrite ?Hl.
    + lia.
    + intros a. rewrite ?Hl. cbn [digits_val]. rewrite digit_val_char by lia. f_equal. lia.
    + lia.
    + lia.
    + constructor; [|constructor]. eauto.
  - assert (1 <= n / base) by (pose proof (Z.div_pos n base); lia).
    assert (Hq : 0 <= n / base < base ^ Z.of_nat fuel).
    { split; [lia|]. apply Z.div_lt_upper_bound; [lia|].
      rewrite Nat2Z.inj_succ, Z.pow_succ_r in Hn by lia. lia. }
    assert (0 < fuel)%nat.
    { destruct fuel; [|lia]. change (base ^ Z.of_nat 0) with 1 in Hq. lia. }
    destruct (IH (n / base) (digit_char (n mod base) :: acc)) as (ds & -> & Hds); [done|done|].
    exists (ds ++ [digit_char (n mod base)]). split; [by rewrite <- app_assoc|].
    destruct Hds as [H1 H2 H3 H4 H5].
    assert (Hl : zlen (ds ++ [digit_char (n mod base)]) = Z.succ (zlen ds))
      by (autorewrite with h2go; lia).
    split; rewrite ?Hl.
    + lia.
    + intros a. rewrite ?Hl, digits_val_app, H2. cbn [digits_val]. rewrite digit_val_char by lia.
      rewrite Z.pow_succ_r by lia. f_equal. lia.
    + rewrite Z.pow_succ_r by lia. nia.
    + right. replace (Z.succ (zlen ds) - 1) with (Z.succ (zlen ds - 1)) by lia.
      rewrite Z.pow_succ_r by lia. destruct H4 as [H4|H4]; [|nia].
      rewrite H4. change (base ^ (1 - 1)) with 1. nia.
    + apply Forall_app. split; [done|]. constructor; [|constructor]. eauto.
Qed.

Lemma digits_spells base n : 2 <= base <= 16 -> 0 <= n -> spells base n (digits base n).
Proof.
  intros Hb Hn. unfold digits.
  destruct (digits_loop_spells base (S (Z.to_nat (Z.log2 n))) n []) as (ds & -> & H);
    [done| |lia|by rewrite app_nil_r].
  split; [done|]. rewrite Nat2Z.inj_succ, Z2Nat.id by apply Z.log2_nonneg.
  destruct (Z.eq_dec n 0) as [->|]; [cbn; lia|].
  apply Z.lt_le_trans with (2 ^ Z.succ (Z.log2 n)); [apply Z.log2_spec; lia|].
  apply Z.pow_le_mono_l. lia.
Qed.

Lemma repeat_zeros_val base n ds :
  2 <= base <= 16 -> digits_val base 0 (repeat "0"%byte n ++ ds) = digits_val base 0 ds.
Proof.
  intros. induction n; [done|]. cbn [repeat app digits_val].
  change "0"%byte with (digit_char 0) at 1. rewrite digit_val_char by lia. done.
Qed.

Lemma ParseUint_digits base n :
  2 <= base <= 16 -> 0 <= n < 2 ^ 64 -> ParseUint base (digits base n) = Some n.
Proof.
  intros Hb Hn. destruct (digits_spells base n) as [H1 H2 _ _ _]; [done|lia|].
  unfold ParseUint. rewrite H2. replace (zlen _ =? 0) with false by lia.
  rewrite Z.mul_0_l, Z.add_0_l. by rewrite (proj2 (Z.ltb_lt _ _)) by lia.
Qed.

Lemma digits_char_range n b : b ∈ digits 10 n -> 0 <= n -> between 48 (b2z b) 57 = true.
Proof.
  intros Hin Hn. destruct (digits_spells 10 n) as [_ _ _ _ H]; [lia|done|].
  rewrite Forall_forall in H. apply H in Hin as (d & Hd & ->).
  unfold digit_char, between. replace (d <? 10) with true by lia.
  rewrite b2z_z2b_small by lia. lia.
Qed.

(** [ParseInt] reads back what [FormatInt] prints. *)
Lemma ParseInt_FormatInt z : in_intN 64 z -> ParseInt (FormatInt z) = Some z.
Proof.
  unfold in_intN. change (2 ^ (64 - 1)) with (2 ^ 63). intros Hz. unfold FormatInt.
  destruct (z <? 0) eqn:E.
  - change (lit "-" ++ digits 10 (- z)) with ("-"%byte :: digits 10 (- z)).
    unfold ParseInt. rewrite decide_True by done. cbv iota beta zeta.
    rewrite ParseUint_digits by lia. rewrite (proj2 (Z.leb_le _ _)) by lia. f_equal. lia.
  - pose proof (digits_char_range z) as Hr. pose proof (ParseUint_digits 10 z ltac:(lia) ltac:(lia)) as Hp.
    unfold ParseInt. destruct (digits 10 z) as [|b ds] eqn:Eds; [done|].
    assert (Hb : between 48 (b2z b) 57 = true) by (apply Hr; [left|lia]).
    rewrite !decide_False by (intros ->; vm_compute in Hb; done).
    cbv iota beta zeta. rewrite Hp. by rewrite (proj2 (Z.ltb_lt _ _)) by lia.
Qed.
