(* ===== verification/GoUrl.v ===== *)
(** * Packages net/url, net and the Unicode part of package strings, as dsn.go uses them

    [url.Parse] with its escapes (Go 1.22), [URL.Hostname], [URL.Port] and [URL.Query];
    [net.JoinHostPort]; [strings.ToUpper] and [strings.EqualFold]. The case mapping of
    the characters beyond ASCII is data of package unicode and a parameter here. *)

From S2P Require Import Prelude.
From S2P Require Import GoText.
From Stdlib Require Import Strings.Byte.

(** ** Case mapping *)

(** [unicode.ToUpper], [unicode.ToLower] and the orbits of [unicode.SimpleFold] beyond ASCII; the latter is
    asked for [lo < hi] with [hi] not ASCII. *)
Class Unicode := {
  upper_beyond : Z -> Z;
  lower_beyond : Z -> Z;
  fold_beyond : Z -> Z -> bool
}.

Section Case.
Context `{Unicode}.

Definition ToUpper_rune (r : Z) : Z :=
  if r <? 128 then (if between 97 r 122 then r - 32 else r) else upper_beyond r.

Definition ToUpper (s : gostring) : gostring := utf8_encode (map ToUpper_rune (runes s)).

Definition ToLower_rune (r : Z) : Z :=
  if r <? 128 then (if between 65 r 90 then r + 32 else r) else lower_beyond r.

Definition ToLower (s : gostring) : gostring := utf8_encode (map ToLower_rune (runes s)).

Definition fold_rune (a b : Z) : bool :=
  let lo := Z.min a b in
  let hi := Z.max a b in
  if lo =? hi then true
  else if hi <? 128 then between 65 lo 90 && (hi =? lo + 32)
  else fold_beyond lo hi.

Fixpoint fold_runes (a b : list Z) : bool :=
  match a, b with
  | [], [] => true
  | x :: a', y :: b' => fold_rune x y && fold_runes a' b'
  | _, _ => false
  end.

Definition EqualFold (s t : gostring) : bool := fold_runes (runes s) (runes t).

End Case.

(** ** Cutting strings at a byte *)

(** [strings.IndexByte] as the text before and after the first [c]. *)
Fixpoint cut (c : byte) (s : gostring) : option (gostring * gostring) :=
  match s with
  | [] => None
  | b :: s' =>
      if decide (b = c) then Some ([], s')
      else match cut c s' with
           | Some (x, y) => Some (b :: x, y)
           | None => None
           end
  end.

(** [strings.Cut]. *)
Definition Cut (s : gostring) (c : byte) : gostring * gostring := default (s, []) (cut c s).

Definition contains (c : byte) (s : gostring) : bool := bool_decide (c ∈ s).

(** The text before and after the last [c]. *)
Fixpoint cut_last (c : byte) (s : gostring) : option (gostring * gostring) :=
  match s with
  | [] => None
  | b :: s' =>
      match cut_last c s' with
      | Some (x, y) => Some (b :: x, y)
      | None => if decide (b = c) then Some ([], s') else None
      end
  end.

(** [net.JoinHostPort]. *)
Definition JoinHostPort (host port : gostring) : gostring :=
  if contains ":"%byte host || contains "%"%byte host
  then lit "[" ++ host ++ lit "]:" ++ port
  else host ++ lit ":" ++ port.

(** ** Escapes *)

Inductive encoding :=
| encodePath | encodeUserPassword | encodeHost | encodeZone | encodeQueryComponent | encodeFragment.

#[global] Instance encoding_eq_dec : EqDecision encoding.
Proof. solve_decision. Defined.

Definition alnum (x : Z) : bool := between 97 x 122 || between 65 x 90 || between 48 x 57.

(** [!shouldEscape(c, encodeHost)], the same as for [encodeZone]. *)
Definition host_char (c : byte) : bool :=
  alnum (b2z c) || bool_decide (c ∈ lit "!$&'()*+,;=:[]<>-_.~") || (b2z c =? 34).

Definition is_host (mode : encoding) : bool := bool_decide (mode = encodeHost \/ mode = encodeZone).

Definition EscapeError (s : gostring) : error := EErrorf "invalid URL escape %q" [AStr (take 3 s)].
Definition InvalidHostError (c : byte) : error := EErrorf "invalid character %q in host name" [AStr [c]].

(** Whether the escape of the byte [v], written [c1 c2], is not allowed in this part. *)
Definition escape_forbidden (mode : encoding) (c1 c2 : byte) (v : Z) : bool :=
  let pct := bool_decide (c1 = "2"%byte /\ c2 = "5"%byte) in
  match mode with
  | encodeHost => (v / 16 <? 8) && negb pct
  | encodeZone => negb pct && negb (v =? 32) && negb (host_char (z2b v))
  | _ => false
  end.

Definition consR (b : byte) (r : res gostring) : res gostring :=
  match r with
  | Ok l => Ok (b :: l)
  | Err e => Err e
  end.

Fixpoint unescape (mode : encoding) (s : gostring) : res gostring :=
  match s with
  | [] => Ok []
  | b :: s' =>
      if decide (b = "%"%byte) then
        match s' with
        | c1 :: c2 :: s'' =>
            match digit_val 16 c1, digit_val 16 c2 with
            | Some h, Some l =>
                if escape_forbidden mode c1 c2 (16 * h + l) then Err (EscapeError s)
                else consR (z2b (16 * h + l)) (unescape mode s'')
            | _, _ => Err (EscapeError s)
            end
        | _ => Err (EscapeError s)
        end
      else if decide (b = "+"%byte /\ mode = encodeQueryComponent) then consR " "%byte (unescape mode s')
      else if is_host mode && (b2z b <? 128) && negb (host_char b) then Err (InvalidHostError b)
      else consR b (unescape mode s')
  end.

(** ** URLs *)

(** [URL], less what only printing a URL looks at; [URL_User] is the user name and, when
    it was given, the password. *)
Record URL := mkURL {
  URL_Scheme : gostring;
  URL_Opaque : gostring;
  URL_User : option (gostring * option gostring);
  URL_Host : gostring;
  URL_Path : gostring;
  URL_RawQuery : gostring
}.

(** The error of a fallible step is the error of the whole. *)
Definition bindR {A B} (x : res A) (f : A -> res B) : res B :=
  match x with
  | Ok a => f a
  | Err e => Err e
  end.

Notation "'let?' x ':=' e 'in' k" := (bindR e (fun x => k))
  (at level 10, x pattern, e at level 100, k at level 200) : go_scope.

Fixpoint scheme_loop (first : bool) (seen s : gostring) : res (option (gostring * gostring)) :=
  match s with
  | [] => Ok None
  | c :: s' =>
      let x := b2z c in
      if between 97 x 122 || between 65 x 90 then scheme_loop false (seen ++ [c]) s'
      else if between 48 x 57 || bool_decide (c ∈ lit "+-.") then
        if first then Ok None else scheme_loop false (seen ++ [c]) s'
      else if decide (c = ":"%byte) then
        if first then Err (EErrorf "missing protocol scheme" []) else Ok (Some (seen, s'))
      else Ok None
  end.

(** The scheme, without the colon, and the rest; an empty scheme when there is none. *)
Definition getScheme (rawURL : gostring) : res (gostring * gostring) :=
  let? r := scheme_loop true [] rawURL in Ok (default ([], rawURL) r).

Definition validOptionalPort (port : gostring) : bool :=
  match port with
  | [] => true
  | c :: ds => bool_decide (c = ":"%byte) && forallb (fun b => between 48 (b2z b) 57) ds
  end.

Definition invalid_port (colonPort : gostring) : error := EErrorf "invalid port %q after host" [AStr colonPort].

(** The text before the first [%25], and the text from there on. *)
Fixpoint cut_zone (s : gostring) : option (gostring * gostring) :=
  match s with
  | [] => None
  | b :: s' =>
      if HasPrefix s (lit "%25") then Some ([], s)
      else match cut_zone s' with
           | Some (x, y) => Some (b :: x, y)
           | None => None
           end
  end.

Definition parseHost (host : gostring) : res gostring :=
  if HasPrefix host (lit "[") then
    match cut_last "]"%byte host with
    | None => Err (EErrorf "missing ']' in host" [])
    | Some (inside, colonPort) =>
        if negb (validOptionalPort colonPort) then Err (invalid_port colonPort)
        else match cut_zone inside with
             | Some (addr, zone) =>
                 let? host1 := unescape encodeHost addr in
                 let? host2 := unescape encodeZone zone in
                 let? host3 := unescape encodeHost ("]"%byte :: colonPort) in
                 Ok (host1 ++ host2 ++ host3)
             | None => unescape encodeHost host
             end
    end
  else
    match cut_last ":"%byte host with
    | Some (_, port) =>
        if negb (validOptionalPort (":"%byte :: port)) then Err (invalid_port (":"%byte :: port))
        else unescape encodeHost host
    | None => unescape encodeHost host
    end.

Definition validUserinfo (s : gostring) : bool :=
  forallb (fun c => alnum (b2z c) || bool_decide (c ∈ lit "-._:~!$&'()*+,;=%@")) s.

Definition parseAuthority (authority : gostring) : res (option (gostring * option gostring) * gostring) :=
  match cut_last "@"%byte authority with
  | None => let? host := parseHost authority in Ok (None, host)
  | Some (userinfo, rest) =>
      let? host := parseHost rest in
      if negb (validUserinfo userinfo) then Err (EErrorf "net/url: invalid userinfo" [])
      else match cut ":"%byte userinfo with
           | None =>
               let? user := unescape encodeUserPassword userinfo in Ok (Some (user, None), host)
           | Some (username, password) =>
               let? user := unescape encodeUserPassword username in
               let? pw := unescape encodeUserPassword password in
               Ok (Some (user, Some pw), host)
           end
  end.

Definition is_ctl (b : byte) : bool := (b2z b <? 32) || (b2z b =? 127).

(** [strings.ToLower] of a scheme, which is ASCII. *)
Definition lower_ascii (s : gostring) : gostring :=
  map (fun b => if between 65 (b2z b) 90 then z2b (b2z b + 32) else b) s.

(** [rest, url.RawQuery]; a [?] that ends the text gives an empty query as well. *)
Definition splitQuery (rest : gostring) : gostring * gostring := Cut rest "?"%byte.

Definition parse (rawURL : gostring) : res URL :=
  if existsb is_ctl rawURL then Err (EErrorf "net/url: invalid control character in URL" [])
  else if decide (rawURL = lit "*") then Ok (mkURL [] [] None [] (lit "*") [])
  else
    let? (sch, rest0) := getScheme rawURL in
    let scheme := lower_ascii sch in
    let '(rest, query) := splitQuery rest0 in
    if negb (HasPrefix rest (lit "/")) && negb (bool_decide (scheme = [])) then
      Ok (mkURL scheme rest None [] [] query)
    else if negb (HasPrefix rest (lit "/")) && contains ":"%byte (Cut rest "/"%byte).1 then
      Err (EErrorf "first path segment in URL cannot contain colon" [])
    else if (negb (bool_decide (scheme = [])) || negb (HasPrefix rest (lit "///"))) && HasPrefix rest (lit "//") then
      let '(authority, path) :=
        match cut "/"%byte (drop 2 rest) with
        | Some (a, p) => (a, "/"%byte :: p)
        | None => (drop 2 rest, [])
        end in
      let? (user, host) := parseAuthority authority in
      let? p := unescape encodePath path in
      Ok (mkURL scheme [] user host p query)
    else
      let? p := unescape encodePath rest in
      Ok (mkURL scheme [] None [] p query).

Definition url_Error (url : gostring) (e : error) : error := EWrapf "parse %q: %w" [AStr url] [e].

Definition Parse (rawURL : gostring) : res URL :=
  let '(u, frag) := Cut rawURL "#"%byte in
  match parse u with
  | Err e => Err (url_Error u e)
  | Ok url =>
      match unescape encodeFragment frag with
      | Err e => Err (url_Error rawURL e)
      | Ok _ => Ok url
      end
  end.

(** ** Reading a URL *)

Definition splitHostPort (hostPort : gostring) : gostring * gostring :=
  let '(host, port) :=
    match cut_last ":"%byte hostPort with
    | Some (h, p) => if validOptionalPort (":"%byte :: p) then (h, p) else (hostPort, [])
    | None => (hostPort, [])
    end in
  ((if HasPrefix host (lit "[") && bool_decide (last host = Some "]"%byte)
    then removelast (tail host) else host), port).

Definition Hostname (u : URL) : gostring := (splitHostPort (URL_Host u)).1.
Definition Port (u : URL) : gostring := (splitHostPort (URL_Host u)).2.

(** A map entry of [Values] per key, with the values in their order. *)
Fixpoint add_value (k v : gostring) (m : list (gostring * list gostring)) : list (gostring * list gostring) :=
  match m with
  | [] => [(k, [v])]
  | (k', vs) :: m' => if decide (k' = k) then (k', vs ++ [v]) :: m' else (k', vs) :: add_value k v m'
  end.

(** The [&]-separated pieces of a query. *)
Fixpoint pieces (query : gostring) : list gostring :=
  match query with
  | [] => [[]]
  | b :: s =>
      if decide (b = "&"%byte) then [] :: pieces s
      else match pieces s with
           | p :: ps => (b :: p) :: ps
           | [] => [[b]]
           end
  end.

(** One piece of a query; a piece that is not well formed is left out. *)
Definition parsePiece (m : list (gostring * list gostring)) (p : gostring) : list (gostring * list gostring) :=
  if contains ";"%byte p || bool_decide (p = []) then m
  else
    let '(key, value) := Cut p "="%byte in
    match unescape encodeQueryComponent key, unescape encodeQueryComponent value with
    | Ok k, Ok v => add_value k v m
    | _, _ => m
    end.

(** [u.Query()]. *)
Definition Query (u : URL) : list (gostring * list gostring) :=
  fold_left parsePiece (pieces (URL_RawQuery u)) [].

Example Parse_ex :
  Parse (lit "tcp://sa:p%40@[::1]:9092/~/a%20b;MODE=x?k=v&l=a+b#f")
  = Ok (mkURL (lit "tcp") [] (Some (lit "sa", Some (lit "p@"))) (lit "[::1]:9092") (lit "/~/a b;MODE=x")
          (lit "k=v&l=a+b")).
Proof. vm_compute. reflexivity. Qed.
Example Query_ex :
  Query (mkURL [] [] None [] [] (lit "k=v&l=a+b&k=%32&x;y&&%zz=1"))
  = [(lit "k", [lit "v"; lit "2"]); (lit "l", [lit "a b"])].
Proof. vm_compute. reflexivity. Qed.
Example Hostname_ex : splitHostPort (lit "[::1]:9092") = (lit "::1", lit "9092")
  /\ splitHostPort (lit "db") = (lit "db", []).
Proof. vm_compute. done. Qed.
