(* ===== verification/Protocol.v ===== *)
(** * The constants of the wire protocol (protocol.go)

    Protocol versions, ports, status codes, operation codes, generated-keys
    modes and value type codes, under the names they have in the source. *)

From S2P Require Import Prelude.


(** TCP protocol version and port constants. *)

Definition TCPProtocolVersion20 : Z := 20.
Definition TCPProtocolVersion21 : Z := 21.
Definition TCPProtocolVersionMinSupported : Z := TCPProtocolVersion21.
Definition TCPProtocolVersionMaxSupported : Z := TCPProtocolVersion21.
Definition DefaultTCPPort : Z := 9092.
Definition DefaultTCPPortStr : gostring := lit "9092".

(** Status codes returned by the H2 server after a request. *)

Definition StatusOK : Z := 1.
Definition StatusError : Z := 0.
Definition StatusClosed : Z := 2.
Definition StatusOKStateChanged : Z := 3.

(** Operation codes sent by the client for each request. *)

Definition SessionPrepare : Z := 0.
Definition SessionClose : Z := 1.
Definition CommandExecuteQuery : Z := 2.
Definition CommandExecuteUpdate : Z := 3.
Definition CommandClose : Z := 4.
Definition ResultFetchRows : Z := 5.
Definition ResultReset : Z := 6.
Definition ResultClose : Z := 7.
Definition CommandCommit : Z := 8.
Definition ChangeID : Z := 9.
Definition CommandGetMetaData : Z := 10.
Definition SessionSetID : Z := 12.
Definition SessionCancelStatement : Z := 13.
Definition SessionCheckKey : Z := 14.
Definition SessionSetAutocommit : Z := 15.
Definition SessionHasPendingTransaction : Z := 16.
Definition LobRead : Z := 17.
Definition SessionPrepareReadParams2 : Z := 18.
Definition GetJdbcMeta : Z := 19.
Definition CommandExecuteBatchUpdate : Z := 20.

(** GeneratedKeysMode constants for generated-keys configuration. *)

Definition GeneratedKeysNone : Z := 0.
Definition GeneratedKeysAuto : Z := 1.
Definition GeneratedKeysColumnNumbers : Z := 2.
Definition GeneratedKeysColumnNames : Z := 3.

(** Value type codes sent on the wire. These match the internal type identifiers. *)

Definition ValueTypeNull : Z := 0.
Definition ValueTypeBoolean : Z := 1.
Definition ValueTypeTinyint : Z := 2.
Definition ValueTypeSmallint : Z := 3.
Definition ValueTypeInteger : Z := 4.
Definition ValueTypeBigint : Z := 5.
Definition ValueTypeNumeric : Z := 6.
Definition ValueTypeDouble : Z := 7.
Definition ValueTypeReal : Z := 8.
Definition ValueTypeTime : Z := 9.
Definition ValueTypeDate : Z := 10.
Definition ValueTypeTimestamp : Z := 11.
Definition ValueTypeVarbinary : Z := 12.
Definition ValueTypeVarchar : Z := 13.
Definition ValueTypeVarcharIgnoreCase : Z := 14.
Definition ValueTypeBlob : Z := 15.
Definition ValueTypeClob : Z := 16.
Definition ValueTypeArray : Z := 17.
Definition ValueTypeJavaObject : Z := 19.
Definition ValueTypeUUID : Z := 20.
Definition ValueTypeChar : Z := 21.
Definition ValueTypeGeometry : Z := 22.
Definition ValueTypeTimestampTZ : Z := 24.
Definition ValueTypeEnum : Z := 25.
Definition ValueTypeInterval : Z := 26.
Definition ValueTypeRow : Z := 27.
Definition ValueTypeJSON : Z := 28.
Definition ValueTypeTimeTZ : Z := 29.
Definition ValueTypeBinary : Z := 30.
Definition ValueTypeDecfloat : Z := 31.
