(* ===== verification/Transfer.v ===== *)
(** * The transfer codec (transfer.go)

    [Tr] reads and writes the primitives of the H2 wire format over a buffered
    connection: booleans, bytes, big-endian integers and floats, UTF-16 strings
    and byte arrays with a 32-bit length, [-1] standing for null.

    The connection is a [Transport]: the bytes the peer sends (in the order they
    arrive, whatever the timing), the error a read meets after them, the bytes the
    transport has accepted, and how many more it accepts before a write fails.
    Reading ahead into a [bufio.Reader] is not observable through [Tr] and is not
    represented; the write buffer of [bufio.Writer] is, because a request sits in
    it until [Flush]. *)

From Stdlib Require Import Strings.Byte.
From S2P Require Import Prelude.
From S2P Require Import GoText.

Definition DefaultBufferSize : Z := 64 * 1024.
Definition MaxWireLength : Z := Z.shiftl 512 20.

(** ** The connection and the buffered writer *)

(** The errors of a connection: the end of the stream, use after [Close], anything
    else with its [net.Error.Timeout()]. *)
Inductive neterr :=
| NEof
| NClosed
| NOther (timeout : bool).

Definition net_error (e : neterr) : error :=
  match e with
  | NEof => ESent io_EOF
  | NClosed => ESent net_ErrClosed
  | NOther timeout => ENet timeout
  end.

Record Transport := mkTransport {
  net_in : list byte;
  net_in_err : neterr;
  net_out : list byte;
  net_room : option Z;
  net_out_err : neterr;
  net_closed : bool;
  net_deadline : option Z
}.

Record bufioWriter := mkWriter {
  wbuf : list byte;
  werr : option neterr
}.

(** [tr_r], [tr_wc], [tr_dl]: whether the pointer is set; [tr_w]: the writer or nil. *)
Record Tr := mkTr {
  tr_r : bool;
  tr_w : option bufioWriter;
  tr_wc : bool;
  tr_dl : bool;
  tr_net : Transport
}.

Definition net_set_in (l : list byte) (n : Transport) : Transport :=
  mkTransport l (net_in_err n) (net_out n) (net_room n) (net_out_err n) (net_closed n) (net_deadline n).
Definition net_set_out (l : list byte) (room : option Z) (n : Transport) : Transport :=
  mkTransport (net_in n) (net_in_err n) l room (net_out_err n) (net_closed n) (net_deadline n).
Definition net_close (n : Transport) : Transport :=
  mkTransport (net_in n) (net_in_err n) (net_out n) (net_room n) (net_out_err n) true (net_deadline n).
Definition net_set_deadline (d : option Z) (n : Transport) : Transport :=
  mkTransport (net_in n) (net_in_err n) (net_out n) (net_room n) (net_out_err n) (net_closed n) d.

Definition set_net (n : Transport) (t : Tr) : Tr := mkTr (tr_r t) (tr_w t) (tr_wc t) (tr_dl t) n.
Definition set_in (l : list byte) (t : Tr) : Tr := set_net (net_set_in l (tr_net t)) t.
Definition set_writer (w : bufioWriter) (n : Transport) (t : Tr) : Tr :=
  mkTr (tr_r t) (Some w) (tr_wc t) (tr_dl t) n.

Definition input (t : Tr) : list byte := net_in (tr_net t).

(** [net.Conn.Write]: the count of bytes accepted, and an error when not all are. *)
Definition net_write (p : list byte) (n : Transport) : Z * option neterr * Transport :=
  if net_closed n then (0, Some NClosed, n)
  else match net_room n with
       | None => (zlen p, None, net_set_out (net_out n ++ p) None n)
       | Some k =>
           if zlen p <=? k then (zlen p, None, net_set_out (net_out n ++ p) (Some (k - zlen p)) n)
           else (k, Some (net_out_err n),
                 net_set_out (net_out n ++ take (Z.to_nat k) p) (Some 0) n)
       end.

(** [bufio.Writer.Flush]. *)
Definition bw_flush (w : bufioWriter) (n : Transport) : option neterr * bufioWriter * Transport :=
  match werr w with
  | Some e => (Some e, w, n)
  | None =>
      if zlen (wbuf w) =? 0 then (None, w, n)
      else match net_write (wbuf w) n with
           | (_, None, n') => (None, mkWriter [] None, n')
           | (k, Some e, n') => (Some e, mkWriter (drop (Z.to_nat k) (wbuf w)) (Some e), n')
           end
  end.

(** [bufio.Writer.Write] when the buffer is empty: a write larger than the buffer
    goes to the connection directly. *)
Definition bw_write_empty (p : list byte) (n : Transport) : option neterr * bufioWriter * Transport :=
  if zlen p <=? DefaultBufferSize then (None, mkWriter p None, n)
  else match net_write p n with
       | (_, None, n') => (None, mkWriter [] None, n')
       | (_, Some e, n') => (Some e, mkWriter [] (Some e), n')
       end.

(** [bufio.Writer.Write]: fill the buffer, flush it when it is full, go on with
    the rest. *)
Definition bw_write (p : list byte) (w : bufioWriter) (n : Transport)
  : option neterr * bufioWriter * Transport :=
  let avail := DefaultBufferSize - zlen (wbuf w) in
  match werr w with
  | Some e => (Some e, w, n)
  | None =>
      if zlen p <=? avail then (None, mkWriter (wbuf w ++ p) None, n)
      else if zlen (wbuf w) =? 0 then bw_write_empty p n
      else match bw_flush (mkWriter (wbuf w ++ take (Z.to_nat avail) p) None) n with
           | (Some e, w', n') => (Some e, w', n')
           | (None, _, n') => bw_write_empty (drop (Z.to_nat avail) p) n'
           end
  end.

Definition errReadOnly : error := EErrorf "Tr: write on read-only transfer" [].

(** [_, err := t.w.Write(p)] after the test for a nil writer. *)
Definition tr_Write (p : list byte) : M Tr unit := fun t =>
  match tr_w t with
  | None => (Err errReadOnly, t)
  | Some w =>
      match bw_write p w (tr_net t) with
      | (None, w', n') => (Ok tt, set_writer w' n' t)
      | (Some e, w', n') => (Err (net_error e), set_writer w' n' t)
      end
  end.

Definition NewReader (net : Transport) : Tr := mkTr true None false false net.
Definition NewWriter (net : Transport) : Tr := mkTr false (Some (mkWriter [] None)) true false net.
Definition NewReadWriter (net : Transport) : Tr := mkTr true (Some (mkWriter [] None)) true true net.

Definition Flush : M Tr unit := fun t =>
  match tr_w t with
  | None => (Err (EErrorf "Tr: flush called on read-only transfer" []), t)
  | Some w =>
      match bw_flush w (tr_net t) with
      | (None, w', n') => (Ok tt, set_writer w' n' t)
      | (Some e, w', n') => (Err (net_error e), set_writer w' n' t)
      end
  end.

(** The deadline is recorded; [None] is the zero [time.Time]. *)
Definition SetDeadline (d : option Z) : M Tr unit := fun t =>
  if tr_dl t then (Ok tt, set_net (net_set_deadline d (tr_net t)) t) else (Ok tt, t).

Definition Abort : M Tr unit := fun t =>
  if tr_wc t then (Ok tt, set_net (net_close (tr_net t)) t) else (Ok tt, t).

Definition Close : M Tr unit := fun t =>
  match tr_w t with
  | None => (Ok tt, t)
  | Some w =>
      match bw_flush w (tr_net t) with
      | (Some e, w', n') =>
          (Err (net_error e), set_writer w' (if tr_wc t then net_close n' else n') t)
      | (None, w', n') => (Ok tt, set_writer w' (if tr_wc t then net_close n' else n') t)
      end
  end.

(** ** Primitives: write *)

(** [bufio.Writer.WriteByte] makes room first, which [bw_write] of one byte does too. *)
Definition WriteByte (x : byte) : M Tr unit := tr_Write [x].

Definition WriteBool (x : bool) : M Tr unit :=
  if x then WriteByte (z2b 1) else WriteByte (z2b 0).

Definition WriteInt16 (x : Z) : M Tr unit := tr_Write (be_enc 2 (uint16 x)).
Definition WriteInt32 (x : Z) : M Tr unit := tr_Write (be_enc 4 (uint32 x)).
Definition WriteInt64 (x : Z) : M Tr unit := tr_Write (be_enc 8 (uint64 x)).

(** A float is its IEEE 754 bit pattern, which [math.Float32bits] and
    [math.Float64bits] expose. *)
Definition WriteFloat32 (bits : Z) : M Tr unit := WriteInt32 (int32 bits).
Definition WriteFloat64 (bits : Z) : M Tr unit := WriteInt64 (int64 bits).

Definition isASCII (s : gostring) : bool := forallb (fun b => b2z b <? 0x80) s.

(** The big-endian code units [WriteString] appends for one rune. *)
Definition rune_bytes (r : Z) : list byte :=
  if r <? 0x10000 then
    let u := uint16 r in
    [z2b (Z.shiftr u 8); z2b u]
  else
    let r := r - 0x10000 in
    let hi := Z.lor 0xD800 (uint16 (Z.shiftr r 10)) in
    let lo := Z.lor 0xDC00 (uint16 (Z.land r 0x3FF)) in
    [z2b (Z.shiftr hi 8); z2b hi; z2b (Z.shiftr lo 8); z2b lo].

Definition WriteString (s : gostring) : M Tr unit := fun t =>
  if isASCII s then
    tr_Write (be_enc 4 (uint32 (zlen s)) ++ flat_map (fun c => [z2b 0; c]) s) t
  else
    let body := flat_map rune_bytes (runes s) in
    tr_Write (be_enc 4 (uint32 (zlen body / 2)) ++ body) t.

Definition WriteNullString : M Tr unit := WriteInt32 (-1).

(** [None] is the nil slice. *)
Definition WriteBytes (b : option (list byte)) : M Tr unit :=
  match b with
  | None => WriteInt32 (-1)
  | Some b => WriteInt32 (int32 (zlen b)) ;; tr_Write b
  end.

Definition WriteRowCount (n : Z) : M Tr unit := WriteInt64 n.

(** ** Primitives: read *)

Definition checkReader : M Tr unit := fun t =>
  if tr_r t then (Ok tt, t) else (Err (EErrorf "Tr: read on write-only transfer" []), t).

(** [io.ReadFull(t.r, buf)] with [len(buf) = n]: a stream that ends inside the
    buffer is [io.ErrUnexpectedEOF], one that ends before it is [io.EOF]. *)
Definition io_ReadFull (n : Z) : M Tr (list byte) := fun t =>
  match split_exact n (input t) with
  | Some (p, rest) => (Ok p, set_in rest t)
  | None =>
      let e := match net_in_err (tr_net t), input t with
               | NEof, _ :: _ => ESent io_ErrUnexpectedEOF
               | e, _ => net_error e
               end in
      (Err e, set_in [] t)
  end.

Definition ReadByte : M Tr byte :=
  checkReader ;; p <- io_ReadFull 1 ;; ret (hd Byte.x00 p).

Definition ReadBool : M Tr bool :=
  b <- ReadByte ;; ret (negb (b2z b =? 0)).

Definition ReadInt16 : M Tr Z := checkReader ;; p <- io_ReadFull 2 ;; ret (int16 (be_dec p)).
Definition ReadInt32 : M Tr Z := checkReader ;; p <- io_ReadFull 4 ;; ret (int32 (be_dec p)).
Definition ReadInt64 : M Tr Z := checkReader ;; p <- io_ReadFull 8 ;; ret (int64 (be_dec p)).

Definition ReadFloat32 : M Tr Z := v <- ReadInt32 ;; ret (uint32 v).
Definition ReadFloat64 : M Tr Z := v <- ReadInt64 ;; ret (uint64 v).

(** The code units of a raw payload: [binary.BigEndian.Uint16(raw[i*2:])]. *)
Fixpoint units_of (raw : list byte) : list Z :=
  match raw with
  | hi :: lo :: raw' => be_dec [hi; lo] :: units_of raw'
  | _ => []
  end.

(** [for i := 1; i < len(raw); i += 2 { raw[i/2] = raw[i] }], in place: [n]
    iterations from index [i]. *)
Fixpoint compact (n i : nat) (raw : list byte) : list byte :=
  match n with
  | O => raw
  | S n' => compact n' (i + 2)%nat (<[Nat.div i 2 := default Byte.x00 (raw !! i)]> raw)
  end.

Fixpoint utf16Decode (units : list Z) : gostring :=
  match units with
  | [] => []
  | u :: rest =>
      if (0xD800 <=? u) && (u <=? 0xDBFF) then
        match rest with
        | [] => encode_rune 0xFFFD
        | lo :: rest' =>
            if (0xDC00 <=? lo) && (lo <=? 0xDFFF) then
              encode_rune (Z.shiftl (u - 0xD800) 10 + (lo - 0xDC00) + 0x10000) ++ utf16Decode rest'
            else encode_rune 0xFFFD ++ utf16Decode rest
        end
      else if (0xDC00 <=? u) && (u <=? 0xDFFF) then encode_rune 0xFFFD ++ utf16Decode rest
      else encode_rune u ++ utf16Decode rest
  end.

Definition utf16Encode (s : gostring) : list Z :=
  flat_map (fun r =>
    if r <? 0x10000 then [uint16 r]
    else let r := r - 0x10000 in
         [Z.lor 0xD800 (uint16 (Z.shiftr r 10)); Z.lor 0xDC00 (uint16 (Z.land r 0x3FF))])
    (runes s).

(** What [ReadString] makes of the raw payload. *)
Definition decode_payload (length_ : Z) (raw : list byte) : gostring :=
  let units := units_of raw in
  if (0 <? length_) && forallb (fun u => u <? 0x80) units then
    take (Z.to_nat length_) (compact (Nat.div (length raw) 2) 1 raw)
  else utf16Decode units.

(** [None] is the nil pointer of a null string. *)
Definition ReadString : M Tr (option gostring) :=
  length_ <- ReadInt32 ;;
  if length_ =? -1 then ret None
  else if length_ =? 0 then ret (Some [])
  else if length_ <? 0 then fail (EErrorf "Tr: negative string length %d" [AInt length_])
  else if MaxWireLength / 2 <? length_ then
    fail (EErrorf "Tr: string length %d exceeds wire cap %d bytes" [AInt length_; AInt MaxWireLength])
  else
    raw <- io_ReadFull (length_ * 2) ;;
    ret (Some (decode_payload length_ raw)).

Definition ReadStringPtr : M Tr gostring :=
  s <- ReadString ;; ret (default [] s).

(** [None] is the nil slice of a null byte array. *)
Definition ReadBytes : M Tr (option (list byte)) :=
  length_ <- ReadInt32 ;;
  if length_ =? -1 then ret None
  else if length_ =? 0 then ret (Some [])
  else if length_ <? 0 then fail (EErrorf "Tr: negative bytes length %d" [AInt length_])
  else if MaxWireLength <? length_ then
    fail (EErrorf "Tr: bytes length %d exceeds wire cap %d" [AInt length_; AInt MaxWireLength])
  else
    buf <- io_ReadFull length_ ;;
    ret (Some buf).

Definition ReadRowCount : M Tr Z := ReadInt64.

Definition ReadFull (n : Z) : M Tr (list byte) := checkReader ;; io_ReadFull n.

(** ** Reasoning about readers

    [decodes m bs a]: on a stream that starts with [bs], [m] returns [a] and
    consumes exactly [bs], whatever follows and whatever the write side holds.
    [reader m]: [m] only ever consumes a prefix of the stream, also when it fails,
    touches nothing else, and its result depends on the consumed prefix alone. *)

Definition decodes {A} (m : M Tr A) (bs : list byte) (a : A) : Prop :=
  forall t suf, tr_r t = true -> input t = bs ++ suf -> m t = (Ok a, set_in suf t).

Definition reader {A} (m : M Tr A) : Prop :=
  forall t r t', m t = (r, t') ->
  exists pre, input t = pre ++ input t' /\ t' = set_in (input t') t /\
              (forall a, r = Ok a -> decodes m pre a).

(** [m] consumes at least [n] bytes when it succeeds. *)
Definition consumes {A} (m : M Tr A) (n : nat) : Prop :=
  forall t a t', m t = (Ok a, t') -> (n + length (input t') <= length (input t))%nat.

Lemma set_in_set_in l1 l2 t : set_in l1 (set_in l2 t) = set_in l1 t.
Proof. done. Qed.
Lemma set_in_input t : set_in (input t) t = t.
Proof. by destruct t as [? ? ? ? []]. Qed.
Lemma input_set_in l t : input (set_in l t) = l.
Proof. done. Qed.
Lemma tr_r_set_in l t : tr_r (set_in l t) = tr_r t.
Proof. done. Qed.
#[export] Hint Rewrite set_in_set_in set_in_input input_set_in tr_r_set_in : h2go.

Lemma decodes_ret {A} (a : A) : decodes (ret a) [] a.
Proof. intros t suf _ H. cbn in H. subst. unfold ret. by rewrite set_in_input. Qed.

Lemma decodes_bind {A B} (m : M Tr A) (k : A -> M Tr B) bs1 bs2 a b :
  decodes m bs1 a -> decodes (k a) bs2 b -> decodes (bind m k) (bs1 ++ bs2) b.
Proof.
  intros Hm Hk t suf Hr Hin. rewrite <- app_assoc in Hin.
  rewrite (bind_Ok _ _ _ _ _ (Hm t _ Hr Hin)).
  rewrite (Hk (set_in (bs2 ++ suf) t) suf); [done|done|done].
Qed.

(** The same when nothing is left for the continuation to read. *)
Lemma decodes_bind_ret {A B} (m : M Tr A) (k : A -> M Tr B) bs a b :
  decodes m bs a -> k a = ret b -> decodes (bind m k) bs b.
Proof.
  intros Hm Hk. rewrite <- (app_nil_r bs). eapply decodes_bind; [done|].
  rewrite Hk. apply decodes_ret.
Qed.

Lemma decodes_bind_nil {A B} (m : M Tr A) (k : A -> M Tr B) bs a b :
  decodes m [] a -> decodes (k a) bs b -> decodes (bind m k) bs b.
Proof. intros Hm Hk. change bs with ([] ++ bs). by eapply decodes_bind. Qed.

Lemma decodes_wrapf {A} fmt args (m : M Tr A) bs a :
  decodes m bs a -> decodes (wrapf fmt args m) bs a.
Proof. intros Hm t suf Hr Hin. by apply wrapf_Ok, Hm. Qed.

Lemma decodes_ReadFull l n : zlen l = n -> decodes (io_ReadFull n) l l.
Proof.
  intros <- t suf _ Hin. unfold io_ReadFull. rewrite Hin. by rewrite split_exact_app.
Qed.

Lemma decodes_checkReader : decodes checkReader [] tt.
Proof.
  intros t suf Hr Hin. cbn in Hin. subst. unfold checkReader. by rewrite Hr, set_in_input.
Qed.

Lemma reader_ret {A} (a : A) : reader (ret a).
Proof.
  intros t r t' H. injection H as <- <-. exists []. rewrite set_in_input.
  repeat split; [done..|]. intros ? [= ->]. apply decodes_ret.
Qed.

Lemma reader_fail {A} e : reader (@fail Tr A e).
Proof. intros t r t' H. injection H as <- <-. exists []. by rewrite set_in_input. Qed.

Lemma reader_bind {A B} (m : M Tr A) (k : A -> M Tr B) :
  reader m -> (forall a, reader (k a)) -> reader (bind m k).
Proof.
  intros Hm Hk t r t'' H. unfold bind in H.
  destruct (m t) as [[a|e] t'] eqn:E.
  - destruct (Hm _ _ _ E) as (p1 & H1 & Ht' & D1).
    destruct (Hk a _ _ _ H) as (p2 & H2 & Ht'' & D2).
    exists (p1 ++ p2). rewrite H1, H2, <- app_assoc. split; [done|]. split.
    + rewrite Ht'', Ht'. by rewrite set_in_set_in.
    + intros b ->. eapply decodes_bind; eauto.
  - injection H as <- <-. destruct (Hm _ _ _ E) as (p1 & H1 & Ht' & _).
    exists p1. done.
Qed.

Lemma reader_wrapf {A} fmt args (m : M Tr A) : reader m -> reader (wrapf fmt args m).
Proof.
  intros Hm t r t' H. rewrite wrapf_run in H. destruct (m t) as [[a|e] t1] eqn:E;
    injection H as <- <-; destruct (Hm _ _ _ E) as (p & H1 & H2 & H3); exists p;
    (split; [done|]; split; [done|]); [|done].
  intros ? [= ->]. apply decodes_wrapf; eauto.
Qed.

Lemma reader_io_ReadFull n : reader (io_ReadFull n).
Proof.
  intros t r t'. unfold io_ReadFull. destruct (split_exact n (input t)) as [[p rest]|] eqn:E;
    intros H; injection H as <- <-.
  - pose proof (split_exact_Some _ _ _ _ E) as [H1 H2].
    exists p. rewrite input_set_in. do 2 (split; [done|]). intros ? [= <-].
    intros t2 suf _ Hin. unfold io_ReadFull. rewrite Hin.
    destruct (Z.leb_spec n 0) as [Hn|Hn].
    + assert (p = []) as -> by (destruct p as [|b p]; [done|]; rewrite zlen_cons in H2; pose proof (zlen_nonneg p); lia).
      cbn [app]. assert (split_exact n suf = Some ([], suf)) as ->; [|done].
      destruct suf; cbn; by rewrite (proj2 (Z.leb_le n 0) Hn).
    + replace n with (zlen p) by lia. by rewrite split_exact_app.
  - exists (input t). rewrite input_set_in, app_nil_r. done.
Qed.

Lemma reader_checkReader : reader checkReader.
Proof.
  intros t r t'. unfold checkReader. destruct (tr_r t) eqn:E; intros H; injection H as <- <-;
    exists []; rewrite set_in_input; (split; [done|]; split; [done|]); [|done].
  intros ? [= <-]. apply decodes_checkReader.
Qed.

Lemma reader_for_range {A} n i (f : Z -> M Tr A) :
  (forall j, reader (f j)) -> reader (for_range n i f).
Proof.
  intros Hf. revert i. induction n as [|n IH]; intros i; cbn [for_range]; [apply reader_ret|].
  apply reader_bind; [done|]. intros x. apply reader_bind; [done|]. intros. apply reader_ret.
Qed.

#[export] Hint Resolve reader_ret reader_fail reader_wrapf reader_io_ReadFull
  reader_checkReader reader_for_range : h2go.

(** Prove [reader m] along the structure of [m]. *)
Ltac solve_reader :=
  repeat match goal with
  | |- forall _, _ => intros ?
  | |- reader (bind _ _) => apply reader_bind
  | |- reader (wrapf _ _ _) => apply reader_wrapf
  | |- reader (for_range _ _ _) => apply reader_for_range
  | |- reader (if ?b then _ else _) => destruct b
  | |- reader (match ?x with _ => _ end) => destruct x
  | |- reader _ => solve [auto with h2go]
  end.

Lemma reader_ReadByte : reader ReadByte.
Proof. unfold ReadByte. solve_reader. Qed.
#[export] Hint Resolve reader_ReadByte : h2go.
Lemma reader_ReadBool : reader ReadBool.
Proof. unfold ReadBool. solve_reader. Qed.
Lemma reader_ReadInt16 : reader ReadInt16.
Proof. unfold ReadInt16. solve_reader. Qed.
Lemma reader_ReadInt32 : reader ReadInt32.
Proof. unfold ReadInt32. solve_reader. Qed.
Lemma reader_ReadInt64 : reader ReadInt64.
Proof. unfold ReadInt64. solve_reader. Qed.
#[export] Hint Resolve reader_ReadBool reader_ReadInt16 reader_ReadInt32 reader_ReadInt64 : h2go.
Lemma reader_ReadFloat32 : reader ReadFloat32.
Proof. unfold ReadFloat32. solve_reader. Qed.
Lemma reader_ReadFloat64 : reader ReadFloat64.
Proof. unfold ReadFloat64. solve_reader. Qed.
Lemma reader_ReadString : reader ReadString.
Proof. unfold ReadString. solve_reader. Qed.
Lemma reader_ReadBytes : reader ReadBytes.
Proof. unfold ReadBytes. solve_reader. Qed.
Lemma reader_ReadRowCount : reader ReadRowCount.
Proof. unfold ReadRowCount. solve_reader. Qed.
Lemma reader_ReadFull n : reader (ReadFull n).
Proof. unfold ReadFull. solve_reader. Qed.
#[export] Hint Resolve reader_ReadFloat32 reader_ReadFloat64 reader_ReadString reader_ReadBytes
  reader_ReadRowCount reader_ReadFull : h2go.

(** ** Reasoning about writers

    [emitted t] is everything written so far: what the connection has accepted,
    then what waits in the buffer. [writes m bs]: when [m] succeeds it has appended
    exactly [bs]; whatever happens, the connection has been given a prefix of it and
    the read side is as it was; and on a connection that accepts everything [m]
    succeeds. *)

Definition emitted (t : Tr) : list byte :=
  net_out (tr_net t) ++ match tr_w t with Some w => wbuf w | None => [] end.

Definition same_reader (t t' : Tr) : Prop :=
  tr_r t' = tr_r t /\ tr_wc t' = tr_wc t /\ tr_dl t' = tr_dl t /\
  input t' = input t /\ net_in_err (tr_net t') = net_in_err (tr_net t).

Definition net_open (n : Transport) : Prop := net_closed n = false /\ net_room n = None.

Definition healthy (t : Tr) : Prop :=
  net_open (tr_net t) /\ exists w, tr_w t = Some w /\ werr w = None.

Definition writes (m : M Tr unit) (bs : list byte) : Prop :=
  forall t, let '(r, t') := m t in
  same_reader t t' /\
  net_out (tr_net t') `prefix_of` emitted t ++ bs /\
  (r = Ok tt -> emitted t' = emitted t ++ bs) /\
  (healthy t -> r = Ok tt /\ healthy t').

Lemma same_reader_refl t : same_reader t t.
Proof. done. Qed.
Lemma same_reader_trans t1 t2 t3 : same_reader t1 t2 -> same_reader t2 t3 -> same_reader t1 t3.
Proof. unfold same_reader. intuition congruence. Qed.

(** What a step of the buffered writer with new bytes [p] guarantees. *)
Definition bw_step (p : list byte) (w : bufioWriter) (n : Transport)
  (out : option neterr * bufioWriter * Transport) : Prop :=
  let '(r, w', n') := out in
  net_in n' = net_in n /\ net_in_err n' = net_in_err n /\
  net_out n' `prefix_of` net_out n ++ wbuf w ++ p /\
  (r = None -> werr w' = None /\ net_out n' ++ wbuf w' = net_out n ++ wbuf w ++ p) /\
  (net_open n -> werr w = None -> r = None /\ net_open n').

Lemma net_write_spec p n :
  let '(k, r, n') := net_write p n in
  net_in n' = net_in n /\ net_in_err n' = net_in_err n /\
  net_out n' `prefix_of` net_out n ++ p /\
  (r = None -> net_out n' = net_out n ++ p) /\ (net_open n -> r = None /\ net_open n').
Proof.
  unfold net_write, net_open. destruct (net_closed n) eqn:Ec.
  { split_and!; try done; [by apply prefix_app_r|by intros [? _]]. }
  destruct (net_room n) as [k|] eqn:Er.
  - destruct (zlen p <=? k); cbn; (split_and!; try done; try (by intros [_ ?])).
    apply prefix_app. apply prefix_take.
  - cbn. split_and!; done.
Qed.

Lemma bw_flush_spec w n : bw_step [] w n (bw_flush w n).
Proof.
  unfold bw_flush, bw_step. rewrite !app_nil_r. destruct (werr w) as [e|] eqn:Ew.
  { split_and!; try done. by apply prefix_app_r. }
  destruct (zlen (wbuf w) =? 0) eqn:El.
  { destruct (wbuf w) eqn:Eb; [|rewrite zlen_cons in El; pose proof (zlen_nonneg l); lia].
    rewrite ?app_nil_r. split_and!; try done; by rewrite ?Eb, ?app_nil_r. }
  pose proof (net_write_spec (wbuf w) n) as Hs.
  destruct (net_write (wbuf w) n) as [[k [e|]] n']; destruct Hs as (?&?&?&H4&H5);
    (split_and!; [done..| |]); try done; intros.
  - by destruct H5.
  - rewrite app_nil_r. auto.
  - by apply H5.
Qed.

Lemma bw_write_empty_spec p n : bw_step p (mkWriter [] None) n (bw_write_empty p n).
Proof.
  unfold bw_write_empty, bw_step. destruct (zlen p <=? DefaultBufferSize).
  { split_and!; try done. cbn. by apply prefix_app_r. }
  pose proof (net_write_spec p n) as Hs.
  destruct (net_write p n) as [[k [e|]] n']; destruct Hs as (?&?&?&H4&H5);
    (split_and!; [done..| |]); try done; intros.
  - by destruct H5.
  - cbn. rewrite app_nil_r. auto.
  - by apply H5.
Qed.

(** A successful flush leaves nothing behind. *)
Lemma bw_flush_empty w n w' n' : bw_flush w n = (None, w', n') -> wbuf w' = [].
Proof.
  unfold bw_flush. destruct (werr w) eqn:Ew; [done|]. destruct (zlen (wbuf w) =? 0) eqn:El.
  - intros [= <- <-]. destruct (wbuf w) eqn:Eb; [done|].
    rewrite zlen_cons in El. pose proof (zlen_nonneg l). lia.
  - destruct (net_write _ _) as [[? [|]] ?]; naive_solver.
Qed.

Lemma bw_write_spec p w n : bw_step p w n (bw_write p w n).
Proof.
  unfold bw_write. destruct (werr w) as [e|] eqn:Ew.
  { split_and!; try done; [|congruence].
    rewrite app_assoc. by apply prefix_app_r, prefix_app_r. }
  set (a := Z.to_nat (DefaultBufferSize - zlen (wbuf w))).
  destruct (zlen p <=? DefaultBufferSize - zlen (wbuf w)).
  { split_and!; try done. by apply prefix_app_r. }
  destruct (zlen (wbuf w) =? 0) eqn:El.
  { destruct w as [[|b l] ?]; cbn in Ew; subst; [apply bw_write_empty_spec|].
    cbn [wbuf] in El. rewrite zlen_cons in El. pose proof (zlen_nonneg l). lia. }
  pose proof (bw_flush_spec (mkWriter (wbuf w ++ take a p) None) n) as Hf.
  pose proof (bw_flush_empty (mkWriter (wbuf w ++ take a p) None) n) as He0.
  destruct (bw_flush _ n) as [[[e|] w1] n1]; destruct Hf as (?&?&Hp&H4&H5); cbn [wbuf] in *;
    rewrite !app_nil_r in *.
  - split_and!; try done; [|intros; by destruct H5].
    etrans; [exact Hp|]. apply prefix_app, prefix_app, prefix_take.
  - destruct (H4 eq_refl) as [_ Hout]. rewrite (He0 _ _ eq_refl), app_nil_r in Hout.
    pose proof (bw_write_empty_spec (drop a p) n1) as He.
    destruct (bw_write_empty (drop a p) n1) as [[r w2] n2]. destruct He as (?&?&Hp2&H4'&H5').
    cbn [wbuf werr app] in *.
    assert (Hcat : net_out n1 ++ drop a p = net_out n ++ wbuf w ++ p).
    { by rewrite Hout, <- !app_assoc, take_drop. }
    rewrite Hcat in *. split_and!; try congruence; try done.
    intros Ho _. apply H5'; [|done]. by apply H5.
Qed.

Lemma writes_tr_Write p : writes (tr_Write p) p.
Proof.
  intros t. unfold tr_Write. destruct (tr_w t) as [w|] eqn:Ew.
  - pose proof (bw_write_spec p w (tr_net t)) as Hs. unfold emitted. rewrite Ew, <- app_assoc.
    destruct (bw_write p w (tr_net t)) as [[[e|] w'] n']; destruct Hs as (?&?&?&H4&H5).
    + split_and!; try done. intros [Ho (w0 & Hw0 & Hn)]. by destruct (H5 Ho) as [? _]; [congruence|].
    + split_and!; try done; [by intros _; apply H4|]. intros [Ho (w0 & Hw0 & Hn)].
      split; [done|]. destruct (H5 Ho) as [_ ?]; [congruence|]. split; [done|].
      eexists; split; [done|]. by apply H4.
  - unfold emitted. rewrite Ew, app_nil_r. split_and!; try done; [by apply prefix_app_r|].
    intros [_ (w & Hw & _)]. congruence.
Qed.

Lemma writes_ret : writes (ret tt) [].
Proof.
  intros t. cbn. unfold emitted. rewrite app_nil_r. split_and!; try done. by apply prefix_app_r.
Qed.

Lemma writes_bind m bs1 k bs2 :
  writes m bs1 -> writes k bs2 -> writes (m ;; k) (bs1 ++ bs2).
Proof.
  intros Hm Hk t. specialize (Hm t). unfold bind. destruct (m t) as [[[]|e] t1].
  - specialize (Hk t1). destruct (k t1) as [r t2].
    destruct Hm as (?&?&H3&H4), Hk as (?&H6&H7&H8). rewrite (H3 eq_refl), <- app_assoc in *.
    split_and!; [by eapply same_reader_trans|done|done|]. intros Hh. apply H8. by apply H4.
  - destruct Hm as (?&?&?&H4). split_and!; [done| |done|].
    + rewrite app_assoc. by apply prefix_app_r.
    + intros Hh. by destruct (H4 Hh).
Qed.

Lemma writes_wrapf fmt args m bs : writes m bs -> writes (wrapf fmt args m) bs.
Proof.
  intros Hm t. specialize (Hm t). rewrite wrapf_run. destruct (m t) as [[[]|e] t1]; [done|].
  destruct Hm as (?&?&?&H4). split_and!; try done. intros Hh. by destruct (H4 Hh).
Qed.

Lemma writes_for_each {A} (l : list A) f bs :
  (forall x, x ∈ l -> writes (f x) (bs x)) -> writes (for_each l f) (flat_map bs l).
Proof.
  induction l as [|x l IH]; intros Hf; cbn [for_each flat_map]; [apply writes_ret|].
  apply writes_bind; [apply Hf; left|]. apply IH. intros y Hy. apply Hf. by right.
Qed.

#[export] Hint Resolve writes_tr_Write writes_ret writes_bind writes_wrapf : h2go.

(** The bytes of each primitive. *)
Definition enc_int16 (x : Z) : list byte := be_enc 2 (uint16 x).
Definition enc_int32 (x : Z) : list byte := be_enc 4 (uint32 x).
Definition enc_int64 (x : Z) : list byte := be_enc 8 (uint64 x).
Definition enc_bool (x : bool) : list byte := [z2b (if x then 1 else 0)].
Definition enc_string (s : gostring) : list byte :=
  enc_int32 (zlen (utf16Encode s)) ++ flat_map (be_enc 2) (utf16Encode s).
Definition enc_bytes (b : option (list byte)) : list byte :=
  match b with
  | None => enc_int32 (-1)
  | Some b => enc_int32 (zlen b) ++ b
  end.

Lemma writes_WriteByte x : writes (WriteByte x) [x].
Proof. apply writes_tr_Write. Qed.
Lemma writes_WriteBool x : writes (WriteBool x) (enc_bool x).
Proof. destruct x; apply writes_tr_Write. Qed.
Lemma writes_WriteInt16 x : writes (WriteInt16 x) (enc_int16 x).
Proof. apply writes_tr_Write. Qed.
Lemma writes_WriteInt32 x : writes (WriteInt32 x) (enc_int32 x).
Proof. apply writes_tr_Write. Qed.
Lemma writes_WriteInt64 x : writes (WriteInt64 x) (enc_int64 x).
Proof. apply writes_tr_Write. Qed.

Lemma uintN_intN n z : 0 < n -> uintN n (intN n z) = uintN n z.
Proof.
  intros. unfold uintN, intN. rewrite Zminus_mod_idemp_l. f_equal. lia.
Qed.

Lemma enc_int32_int32 x : enc_int32 (int32 x) = enc_int32 x.
Proof. unfold enc_int32. by rewrite uintN_intN. Qed.
Lemma enc_int64_int64 x : enc_int64 (int64 x) = enc_int64 x.
Proof. unfold enc_int64. by rewrite uintN_intN. Qed.

Lemma writes_WriteFloat32 x : writes (WriteFloat32 x) (enc_int32 x).
Proof. unfold WriteFloat32. rewrite <- enc_int32_int32. apply writes_WriteInt32. Qed.
Lemma writes_WriteFloat64 x : writes (WriteFloat64 x) (enc_int64 x).
Proof. unfold WriteFloat64. rewrite <- enc_int64_int64. apply writes_WriteInt64. Qed.

Lemma writes_WriteBytes b : writes (WriteBytes b) (enc_bytes b).
Proof.
  destruct b as [b|]; [|apply writes_WriteInt32]. cbn [WriteBytes enc_bytes].
  rewrite <- enc_int32_int32. apply writes_bind; [apply writes_WriteInt32|apply writes_tr_Write].
Qed.

#[export] Hint Resolve writes_WriteByte writes_WriteBool writes_WriteInt16 writes_WriteInt32
  writes_WriteInt64 writes_WriteFloat32 writes_WriteFloat64 writes_WriteBytes : h2go.

(** ** Reading back what was written *)

Lemma intN_be_dec n z :
  (0 < n)%nat -> intN (8 * Z.of_nat n) (be_dec (be_enc n (uintN (8 * Z.of_nat n) z)))
                 = intN (8 * Z.of_nat n) z.
Proof. intros. rewrite be_dec_enc. unfold uintN. by rewrite !intN_mod. Qed.

Lemma decodes_checked {A} n l (k : list byte -> M Tr A) a :
  zlen l = n -> k l = ret a -> decodes (checkReader ;; bind (io_ReadFull n) k) l a.
Proof.
  intros Hl Hk. apply (decodes_bind _ _ [] l tt); [apply decodes_checkReader|].
  eapply decodes_bind_ret; [by apply decodes_ReadFull|done].
Qed.

Lemma decodes_ReadInt16 x : in_intN 16 x -> decodes ReadInt16 (enc_int16 x) x.
Proof.
  intros Hx. apply decodes_checked; [apply zlen_be_enc|].
  unfold enc_int16. by rewrite (intN_be_dec 2), intN_small by (done || lia).
Qed.
Lemma decodes_ReadInt32_wrap x : decodes ReadInt32 (enc_int32 x) (int32 x).
Proof.
  apply decodes_checked; [apply zlen_be_enc|]. unfold enc_int32. by rewrite (intN_be_dec 4) by lia.
Qed.
Lemma decodes_ReadInt64_wrap x : decodes ReadInt64 (enc_int64 x) (int64 x).
Proof.
  apply decodes_checked; [apply zlen_be_enc|]. unfold enc_int64. by rewrite (intN_be_dec 8) by lia.
Qed.
Lemma decodes_ReadInt32 x : in_intN 32 x -> decodes ReadInt32 (enc_int32 x) x.
Proof. intros. rewrite <- (intN_small 32 x) at 2 by done. apply decodes_ReadInt32_wrap. Qed.
Lemma decodes_ReadInt64 x : in_intN 64 x -> decodes ReadInt64 (enc_int64 x) x.
Proof. intros. rewrite <- (intN_small 64 x) at 2 by done. apply decodes_ReadInt64_wrap. Qed.

Lemma decodes_ReadByte b : decodes ReadByte [b] b.
Proof. by apply decodes_checked. Qed.
Lemma decodes_ReadBool x : decodes ReadBool (enc_bool x) x.
Proof. eapply decodes_bind_ret; [apply decodes_ReadByte|]. by destruct x. Qed.

Lemma decodes_ReadFloat32 x : 0 <= x < 2 ^ 32 -> decodes ReadFloat32 (enc_int32 x) x.
Proof.
  intros. eapply decodes_bind_ret; [apply decodes_ReadInt32_wrap|].
  by rewrite uintN_intN, uintN_small by lia.
Qed.
Lemma decodes_ReadFloat64 x : 0 <= x < 2 ^ 64 -> decodes ReadFloat64 (enc_int64 x) x.
Proof.
  intros. eapply decodes_bind_ret; [apply decodes_ReadInt64_wrap|].
  by rewrite uintN_intN, uintN_small by lia.
Qed.

Lemma decodes_ReadFullChecked l n : zlen l = n -> decodes (ReadFull n) l l.
Proof.
  intros. apply (decodes_bind _ _ [] l tt); [apply decodes_checkReader|by apply decodes_ReadFull].
Qed.

Lemma MaxWireLength_eq : MaxWireLength = 536870912.
Proof. reflexivity. Qed.

(** A byte array of any length up to the cap reads back; nil reads back as nil. *)
Lemma decodes_ReadBytes b :
  zlen (default [] b) <= MaxWireLength -> decodes ReadBytes (enc_bytes b) b.
Proof.
  intros Hl. unfold ReadBytes. rewrite MaxWireLength_eq in *.
  destruct b as [b|]; cbn [enc_bytes]; [cbn in Hl|].
  - pose proof (zlen_nonneg b). eapply decodes_bind.
    { apply decodes_ReadInt32. unfold in_intN. lia. }
    replace (zlen b =? -1) with false by lia.
    destruct (zlen b =? 0) eqn:E0.
    { destruct b as [|x b]; [apply decodes_ret|]. rewrite zlen_cons in E0.
      pose proof (zlen_nonneg b). lia. }
    replace (zlen b <? 0) with false by lia.
    replace (536870912 <? zlen b) with false by lia.
    eapply decodes_bind_ret; [by apply decodes_ReadFull|done].
  - eapply decodes_bind_ret; [by apply decodes_ReadInt32|done].
Qed.

(** ** Strings *)

Lemma lor_D800 x : 0 <= x < 1024 -> Z.lor 0xD800 x = 0xD800 + x.
Proof. intros. by apply (lor_add_disjoint 54 x 10). Qed.
Lemma lor_DC00 x : 0 <= x < 1024 -> Z.lor 0xDC00 x = 0xDC00 + x.
Proof. intros. by apply (lor_add_disjoint 55 x 10). Qed.
Lemma land_3FF x : Z.land x 0x3FF = x mod 1024.
Proof. by apply (land_ones_mod x 10). Qed.

(** The code units of one rune, as [utf16Encode] appends them, with the bit
    operations evaluated. *)
Definition rune_units (r : Z) : list Z :=
  if r <? 0x10000 then [r]
  else [0xD800 + (r - 0x10000) / 1024; 0xDC00 + (r - 0x10000) mod 1024].

Lemma utf16Encode_units s : utf16Encode s = flat_map rune_units (runes s).
Proof.
  unfold utf16Encode. pose proof (runes_valid s) as Hv.
  induction Hv as [|r rs Hr _ IH]; [done|]. cbn [flat_map]. f_equal; [|done].
  unfold valid_rune, MaxRune in Hr. unfold rune_units. destruct (r <? 0x10000) eqn:E.
  - rewrite uintN_small; [done|]. lia.
  - rewrite land_3FF, Z.shiftr_div_pow2 by lia. change (2 ^ 10) with 1024.
    pose proof (Z.mod_pos_bound (r - 0x10000) 1024 ltac:(lia)).
    assert (0 <= (r - 0x10000) / 1024 < 1024) by (Z.div_mod_to_equations; lia).
    rewrite !uintN_small, lor_D800, lor_DC00 by lia. done.
Qed.

Lemma rune_units_range r : valid_rune r = true -> Forall (fun u => 0 <= u < 65536) (rune_units r).
Proof.
  unfold valid_rune, MaxRune, rune_units. intros Hr.
  destruct (r <? 0x10000) eqn:E; repeat constructor; Z.div_mod_to_equations; lia.
Qed.

Lemma utf16Encode_range s : Forall (fun u => 0 <= u < 65536) (utf16Encode s).
Proof.
  rewrite utf16Encode_units. pose proof (runes_valid s) as Hv.
  induction Hv as [|r rs Hr _ IH]; cbn [flat_map]; [constructor|].
  apply Forall_app. split; [by apply rune_units_range|done].
Qed.

Lemma be_enc2 z : be_enc 2 z = [z2b (Z.shiftr z 8); z2b z].
Proof. cbn [be_enc]. by rewrite Z.shiftr_0_r. Qed.

Lemma rune_bytes_units s : flat_map rune_bytes (runes s) = flat_map (be_enc 2) (utf16Encode s).
Proof.
  unfold utf16Encode. induction (runes s) as [|r rs IH]; [done|]. cbn [flat_map].
  rewrite flat_map_app, <- IH. f_equal. unfold rune_bytes.
  destruct (r <? 0x10000); cbn [flat_map]; rewrite !be_enc2; done.
Qed.

Lemma zlen_flat_map_be2 us : zlen (flat_map (be_enc 2) us) = 2 * zlen us.
Proof.
  induction us as [|u us IH]; [done|]. cbn [flat_map]. rewrite zlen_app, zlen_be_enc, IH, zlen_cons. lia.
Qed.

Lemma isASCII_Forall s : isASCII s = true <-> Forall (fun b => b2z b < 0x80) s.
Proof.
  unfold isASCII. rewrite forallb_forall, List.Forall_forall.
  split; intros H x Hx; specialize (H x Hx); lia.
Qed.

Lemma utf16Encode_ascii s : isASCII s = true -> utf16Encode s = map b2z s.
Proof.
  intros H%isASCII_Forall. rewrite utf16Encode_units, runes_ascii by done.
  induction H as [|b s Hb _ IH]; [done|]. cbn [map flat_map]. rewrite IH.
  unfold rune_units. by replace (b2z b <? 0x10000) with true by lia.
Qed.

(** The two paths of [WriteString] both emit the UTF-16 form of the string. *)
Lemma writes_WriteString s : writes (WriteString s) (enc_string s).
Proof.
  assert (Hp : forall p, p = enc_string s -> writes (tr_Write p) (enc_string s)).
  { intros p ->. apply writes_tr_Write. }
  intros t. unfold WriteString, enc_string, enc_int32 in *. destruct (isASCII s) eqn:E.
  - apply Hp. rewrite utf16Encode_ascii by done. f_equal; [unfold zlen; by rewrite length_map|].
    apply isASCII_Forall in E. clear Hp. induction E as [|b s Hb _ IH]; [done|].
    cbn [flat_map map]. rewrite be_enc2, z2b_b2z, <- IH. pose proof (b2z_range b).
    rewrite Z.shiftr_div_pow2, Z.div_small by lia. done.
  - apply Hp. rewrite rune_bytes_units, zlen_flat_map_be2, Z.mul_comm, Z.div_mul by lia. done.
Qed.
#[export] Hint Resolve writes_WriteString : h2go.

Lemma units_of_enc us :
  Forall (fun u => 0 <= u < 65536) us -> units_of (flat_map (be_enc 2) us) = us.
Proof.
  induction 1 as [|u us Hu _ IH]; [done|]. cbn [flat_map].
  pose proof (be_dec_enc 2 u) as Hd. rewrite be_enc2 in *. cbn [app units_of].
  rewrite Hd, IH. f_equal. apply Z.mod_small. cbn. lia.
Qed.

Lemma utf16Decode_rune r us :
  valid_rune r = true -> utf16Decode (rune_units r ++ us) = encode_rune r ++ utf16Decode us.
Proof.
  unfold valid_rune, MaxRune, rune_units. intros Hr. destruct (r <? 0x10000) eqn:E; cbn [app utf16Decode].
  - replace ((0xD800 <=? r) && (r <=? 0xDBFF)) with false by lia.
    by replace ((0xDC00 <=? r) && (r <=? 0xDFFF)) with false by lia.
  - pose proof (Z.div_mod (r - 0x10000) 1024 ltac:(lia)).
    pose proof (Z.mod_pos_bound (r - 0x10000) 1024 ltac:(lia)).
    set (q := (r - 0x10000) / 1024) in *. set (m := (r - 0x10000) mod 1024) in *.
    replace ((0xD800 <=? 0xD800 + q) && (0xD800 + q <=? 0xDBFF)) with true by lia.
    replace ((0xDC00 <=? 0xDC00 + m) && (0xDC00 + m <=? 0xDFFF)) with true by lia.
    rewrite Z.shiftl_mul_pow2 by lia. do 2 f_equal. lia.
Qed.

Lemma utf16Decode_Encode s : utf16Decode (utf16Encode s) = sanitize s.
Proof.
  rewrite utf16Encode_units. unfold sanitize, utf8_encode. pose proof (runes_valid s) as Hv.
  induction Hv as [|r rs Hr _ IH]; [done|]. cbn [flat_map].
  by rewrite utf16Decode_rune, IH.
Qed.

(** Invariant of the in-place compaction: from index [2j+1] on, [n] more rounds
    put the odd bytes [2k+1] at [k] and leave what lies beyond untouched. *)
Lemma compact_lookup n : forall j raw k,
  (2 * (j + n) <= length raw)%nat ->
  compact n (2 * j + 1) raw !! k =
  if decide (j <= k < j + n)%nat then raw !! (2 * k + 1)%nat else raw !! k.
Proof.
  induction n as [|n IH]; intros j raw k Hl; cbn [compact].
  { rewrite decide_False by lia. done. }
  replace (2 * j + 1 + 2)%nat with (2 * S j + 1)%nat by lia.
  assert (Hd : Nat.div (2 * j + 1) 2 = j).
  { rewrite (Nat.mul_comm 2 j), Nat.div_add_l by lia. done. }
  rewrite Hd, IH by (rewrite length_insert; lia).
  destruct (lookup_lt_is_Some_2 raw (2 * j + 1)) as [b Hb]; [lia|]. rewrite Hb. cbn [default from_option].
  destruct (decide (S j <= k < S j + n)%nat).
  - rewrite decide_True by lia. apply list_lookup_insert_ne. lia.
  - destruct (decide (k = j)) as [->|].
    + rewrite decide_True by lia. rewrite list_lookup_insert_eq by lia. done.
    + rewrite decide_False by lia. apply list_lookup_insert_ne. lia.
Qed.

Lemma length_compact n i raw : length (compact n i raw) = length raw.
Proof. revert i raw. induction n; intros; cbn [compact]; [done|]. by rewrite IHn, length_insert. Qed.

Lemma lookup_be2_odd us k :
  flat_map (be_enc 2) us !! (2 * k + 1)%nat = z2b <$> us !! k.
Proof.
  revert k. induction us as [|u us IH]; intros k; [by rewrite !lookup_nil|].
  cbn [flat_map]. rewrite be_enc2. destruct k as [|k]; [done|].
  replace (2 * S k + 1)%nat with (S (S (2 * k + 1)))%nat by lia. cbn [app lookup list_lookup]. apply IH.
Qed.

(** Compacting the payload of ASCII code units yields their low bytes. *)
Lemma compact_units us :
  take (length us) (compact (length us) 1 (flat_map (be_enc 2) us)) = map z2b us.
Proof.
  assert (Hlen : length (flat_map (be_enc 2) us) = (2 * length us)%nat).
  { pose proof (zlen_flat_map_be2 us) as H. unfold zlen in H. lia. }
  apply list_eq. intros k. destruct (decide (k < length us)%nat) as [Hk|Hk].
  - rewrite lookup_take_lt by done. rewrite (compact_lookup (length us) 0) by lia.
    rewrite decide_True by lia. rewrite lookup_be2_odd. by rewrite list_lookup_fmap.
  - rewrite lookup_take_ge by lia. symmetry. apply lookup_ge_None_2. rewrite length_map. lia.
Qed.

Lemma decode_payload_enc s :
  decode_payload (zlen (utf16Encode s)) (flat_map (be_enc 2) (utf16Encode s)) = sanitize s.
Proof.
  unfold decode_payload. rewrite units_of_enc by apply utf16Encode_range.
  rewrite <- utf16Decode_Encode. set (us := utf16Encode s).
  assert (Hus : Forall (fun u => 0 <= u < 65536) us) by apply utf16Encode_range.
  destruct (_ && _) eqn:E; [|done]. apply andb_true_iff in E as [_ E].
  assert (Hlen : Nat.div (length (flat_map (be_enc 2) us)) 2 = length us).
  { pose proof (zlen_flat_map_be2 us) as H. unfold zlen in H.
    replace (length (flat_map (be_enc 2) us)) with (length us * 2)%nat by lia. by apply Nat.div_mul. }
  rewrite Hlen. unfold zlen. rewrite Nat2Z.id, compact_units.
  clear Hlen. induction Hus as [|u us Hu _ IH]; [done|].
  cbn [forallb] in E. apply andb_true_iff in E as [E1 E2]. cbn [map utf16Decode].
  replace ((0xD800 <=? u) && (u <=? 0xDBFF)) with false by lia.
  replace ((0xDC00 <=? u) && (u <=? 0xDFFF)) with false by lia.
  rewrite encode_rune_ascii by lia. cbn [app]. by rewrite <- IH.
Qed.

Lemma decodes_ReadString s :
  zlen (utf16Encode s) <= MaxWireLength / 2 ->
  decodes ReadString (enc_string s) (Some (sanitize s)).
Proof.
  intros Hl. pose proof (decode_payload_enc s) as Hd. unfold enc_string, ReadString.
  rewrite MaxWireLength_eq in *. change (536870912 / 2) with 268435456 in *.
  set (us := utf16Encode s) in *. pose proof (zlen_nonneg us).
  eapply decodes_bind; [apply decodes_ReadInt32; unfold in_intN; lia|].
  replace (zlen us =? -1) with false by lia.
  destruct (zlen us =? 0) eqn:E0.
  { destruct us as [|u us]; [|rewrite zlen_cons in E0; pose proof (zlen_nonneg us); lia].
    cbn in Hd. rewrite <- Hd. apply decodes_ret. }
  replace (zlen us <? 0) with false by lia. replace (268435456 <? zlen us) with false by lia.
  eapply decodes_bind_ret; [apply decodes_ReadFull; rewrite zlen_flat_map_be2; lia|].
  by rewrite Hd.
Qed.

Lemma decodes_ReadString_null : decodes ReadString (enc_int32 (-1)) None.
Proof. eapply decodes_bind_ret; [by apply decodes_ReadInt32|done]. Qed.

(** ** Progress of readers *)

Lemma reader_consumes_0 {A} (m : M Tr A) : reader m -> consumes m 0.
Proof.
  intros Hm t a t' H. destruct (Hm _ _ _ H) as (pre & -> & _). rewrite length_app. lia.
Qed.

Lemma consumes_bind_l {A B} (m : M Tr A) (k : A -> M Tr B) n :
  consumes m n -> (forall a, reader (k a)) -> consumes (bind m k) n.
Proof.
  intros Hm Hk t b t'' H. apply bind_Ok_inv in H as (a & t' & H1 & H2).
  apply Hm in H1. apply reader_consumes_0 in H2; [lia|done].
Qed.

Lemma consumes_bind_r {A B} (m : M Tr A) (k : A -> M Tr B) n :
  reader m -> (forall a, consumes (k a) n) -> consumes (bind m k) n.
Proof.
  intros Hm Hk t b t'' H. apply bind_Ok_inv in H as (a & t' & H1 & H2).
  apply Hk in H2. apply reader_consumes_0 in H1; [lia|done].
Qed.

Lemma consumes_io_ReadFull n : consumes (io_ReadFull n) (Z.to_nat n).
Proof.
  intros t a t'. unfold io_ReadFull. destruct (split_exact n (input t)) as [[p rest]|] eqn:E; [|done].
  intros [= <- <-]. apply split_exact_Some in E as [-> Hz]. rewrite input_set_in, length_app.
  unfold zlen in Hz. lia.
Qed.

Lemma consumes_wrapf {A} fmt args (m : M Tr A) n : consumes m n -> consumes (wrapf fmt args m) n.
Proof. intros Hm t a t' H%wrapf_Ok. eauto. Qed.

Lemma consumes_ReadInt32 : consumes ReadInt32 4.
Proof.
  apply consumes_bind_r; [apply reader_checkReader|]. intros _.
  apply consumes_bind_l; [apply consumes_io_ReadFull|]. intros. apply reader_ret.
Qed.

(** ** Transport and codec errors are never server errors

    ... nor panics, nor a model out of fuel. *)

Definition plain_errs {S A} (m : M S A) : Prop :=
  forall s e s', m s = (Err e, s') -> plain e = true.

Lemma plain_errs_ret {S A} (a : A) : plain_errs (@ret S A a).
Proof. by intros s e s' [=]. Qed.
Lemma plain_errs_fail {S A} e : plain e = true -> plain_errs (@fail S A e).
Proof. by intros ? s e' s' [= <- <-]. Qed.
Lemma plain_errs_bind {S A B} (m : M S A) (k : A -> M S B) :
  plain_errs m -> (forall a, plain_errs (k a)) -> plain_errs (bind m k).
Proof. intros Hm Hk s e s' [H|(a & s1 & _ & H)]%bind_Err_inv; [by eapply Hm|by eapply Hk]. Qed.
Lemma plain_errs_wrapf {S A} fmt args (m : M S A) : plain_errs m -> plain_errs (wrapf fmt args m).
Proof. intros Hm s e s' (e' & H & ->)%wrapf_Err_inv. cbn. by rewrite (Hm _ _ _ H). Qed.
Lemma plain_errs_for_range {S A} n i (f : Z -> M S A) :
  (forall j, plain_errs (f j)) -> plain_errs (for_range n i f).
Proof.
  intros Hf. revert i. induction n as [|n IH]; intros i; cbn [for_range]; [apply plain_errs_ret|].
  apply plain_errs_bind; [done|]. intros x. apply plain_errs_bind; [done|]. intros. apply plain_errs_ret.
Qed.
Lemma plain_net_error e : plain (net_error e) = true.
Proof. by destruct e. Qed.
Lemma plain_errs_io_ReadFull n : plain_errs (io_ReadFull n).
Proof.
  intros t e t'. unfold io_ReadFull. destruct (split_exact n (input t)) as [[]|]; [done|].
  intros [= <- <-]. destruct (net_in_err (tr_net t)), (input t); done.
Qed.
Lemma plain_errs_checkReader : plain_errs checkReader.
Proof. intros t e t'. unfold checkReader. destruct (tr_r t); [done|]. by intros [= <- <-]. Qed.
Lemma plain_errs_tr_Write p : plain_errs (tr_Write p).
Proof.
  intros t e t'. unfold tr_Write. destruct (tr_w t); [|by intros [= <- <-]].
  destruct (bw_write p b (tr_net t)) as [[[e'|] ?] ?]; [|done]. intros [= <- <-]. apply plain_net_error.
Qed.
Lemma plain_errs_Flush : plain_errs Flush.
Proof.
  intros t e t'. unfold Flush. destruct (tr_w t); [|by intros [= <- <-]].
  destruct (bw_flush b (tr_net t)) as [[[e'|] ?] ?]; [|done]. intros [= <- <-]. apply plain_net_error.
Qed.
#[export] Hint Resolve plain_errs_ret plain_errs_io_ReadFull plain_errs_checkReader plain_errs_tr_Write plain_errs_Flush : h2go.

(** Prove [plain_errs m] along the structure of [m]. *)
Ltac solve_plain_errs :=
  repeat match goal with
  | |- forall _, _ => intros ?
  | |- plain_errs (bind _ _) => apply plain_errs_bind
  | |- plain_errs (wrapf _ _ _) => apply plain_errs_wrapf
  | |- plain_errs (for_range _ _ _) => apply plain_errs_for_range
  | |- plain_errs (fail _) => apply plain_errs_fail; reflexivity
  | |- plain_errs (if ?b then _ else _) => destruct b
  | |- plain_errs (match ?x with _ => _ end) => destruct x
  | |- plain_errs _ => solve [auto with h2go]
  end.

Lemma plain_errs_ReadByte : plain_errs ReadByte.
Proof. unfold ReadByte. solve_plain_errs. Qed.
Lemma plain_errs_ReadInt16 : plain_errs ReadInt16.
Proof. unfold ReadInt16. solve_plain_errs. Qed.
Lemma plain_errs_ReadInt32 : plain_errs ReadInt32.
Proof. unfold ReadInt32. solve_plain_errs. Qed.
Lemma plain_errs_ReadInt64 : plain_errs ReadInt64.
Proof. unfold ReadInt64. solve_plain_errs. Qed.
#[export] Hint Resolve plain_errs_ReadByte plain_errs_ReadInt16 plain_errs_ReadInt32 plain_errs_ReadInt64 : h2go.
Lemma plain_errs_ReadBool : plain_errs ReadBool.
Proof. unfold ReadBool. solve_plain_errs. Qed.
Lemma plain_errs_ReadFloat32 : plain_errs ReadFloat32.
Proof. unfold ReadFloat32. solve_plain_errs. Qed.
Lemma plain_errs_ReadFloat64 : plain_errs ReadFloat64.
Proof. unfold ReadFloat64. solve_plain_errs. Qed.
Lemma plain_errs_ReadString : plain_errs ReadString.
Proof. unfold ReadString. solve_plain_errs. Qed.
Lemma plain_errs_ReadBytes : plain_errs ReadBytes.
Proof. unfold ReadBytes. solve_plain_errs. Qed.
Lemma plain_errs_ReadFull n : plain_errs (ReadFull n).
Proof. unfold ReadFull. solve_plain_errs. Qed.
Lemma plain_errs_ReadRowCount : plain_errs ReadRowCount.
Proof. unfold ReadRowCount. solve_plain_errs. Qed.
Lemma plain_errs_WriteInt32 x : plain_errs (WriteInt32 x).
Proof. apply plain_errs_tr_Write. Qed.
Lemma plain_errs_WriteInt64 x : plain_errs (WriteInt64 x).
Proof. apply plain_errs_tr_Write. Qed.
Lemma plain_errs_WriteBool x : plain_errs (WriteBool x).
Proof. destruct x; apply plain_errs_tr_Write. Qed.
Lemma plain_errs_WriteString s : plain_errs (WriteString s).
Proof. intros t e t'. unfold WriteString. destruct (isASCII s); apply plain_errs_tr_Write. Qed.
Lemma plain_errs_WriteBytes b : plain_errs (WriteBytes b).
Proof. unfold WriteBytes, WriteInt32. solve_plain_errs. Qed.
#[export] Hint Resolve plain_errs_ReadBool plain_errs_ReadFloat32 plain_errs_ReadFloat64 plain_errs_ReadString
  plain_errs_ReadBytes plain_errs_ReadFull plain_errs_ReadRowCount plain_errs_WriteInt32 plain_errs_WriteInt64
  plain_errs_WriteBool plain_errs_WriteString plain_errs_WriteBytes : h2go.

(** ** Requests: writes that end with a flush

    [sends m bs]: when [m] succeeds the connection holds everything written before
    and then [bs], and nothing is left in the buffer. *)

Definition sends (m : M Tr unit) (bs : list byte) : Prop :=
  forall t, let '(r, t') := m t in
  same_reader t t' /\
  net_out (tr_net t') `prefix_of` emitted t ++ bs /\
  (r = Ok tt -> net_out (tr_net t') = emitted t ++ bs /\ emitted t' = emitted t ++ bs) /\
  (healthy t -> r = Ok tt /\ healthy t').

Lemma sends_Flush : sends Flush [].
Proof.
  intros t. unfold Flush. destruct (tr_w t) as [w|] eqn:Ew.
  - unfold emitted. rewrite Ew, app_nil_r.
    pose proof (bw_flush_spec w (tr_net t)) as Hf. pose proof (bw_flush_empty w (tr_net t)) as Hz.
    destruct (bw_flush w (tr_net t)) as [[[e|] w'] n']; destruct Hf as (?&?&?&H4&H5);
      rewrite app_nil_r in *.
    + split_and!; try done. intros [Ho (w0 & Hw0 & Hn)].
      destruct (H5 Ho) as [? _]; [congruence|done].
    + destruct (H4 eq_refl) as [Hn' Hcat]. rewrite (Hz _ _ eq_refl), app_nil_r in Hcat.
      split_and!; try done.
      * intros _. cbn. by rewrite (Hz _ _ eq_refl), app_nil_r.
      * intros [Ho (w0 & Hw0 & Hn)]. split; [done|]. split; [apply H5; [done|congruence]|]. by exists w'.
  - split_and!; try done; [unfold emitted; by rewrite Ew, !app_nil_r|].
    intros [_ (w0 & Hw0 & _)]. congruence.
Qed.

Lemma sends_bind m bs1 k bs2 : writes m bs1 -> sends k bs2 -> sends (m ;; k) (bs1 ++ bs2).
Proof.
  intros Hm Hk t. specialize (Hm t). unfold bind. destruct (m t) as [[[]|e] t1].
  - specialize (Hk t1). destruct (k t1) as [r t2].
    destruct Hm as (?&?&H3&H4), Hk as (?&H6&H7&H8). rewrite (H3 eq_refl), <- app_assoc in *.
    split_and!; [by eapply same_reader_trans|done|done|]. intros Hh. apply H8. by apply H4.
  - destruct Hm as (?&H2&_&H4). split_and!; try done; try (intros Hh; by destruct (H4 Hh)).
    rewrite app_assoc. by apply prefix_app_r.
Qed.

Lemma sends_wrapf fmt args m bs : sends m bs -> sends (wrapf fmt args m) bs.
Proof.
  intros Hm t. specialize (Hm t). rewrite wrapf_run. destruct (m t) as [[[]|e] t1]; [done|].
  destruct Hm as (?&?&?&H4). split_and!; try done. intros Hh. by destruct (H4 Hh).
Qed.

(** On a connection that works, a request goes through and only the output changes. *)
Lemma sends_healthy m bs t :
  sends m bs -> healthy t ->
  exists t', m t = (Ok tt, t') /\ healthy t' /\ same_reader t t' /\
             net_out (tr_net t') = emitted t ++ bs /\ emitted t' = emitted t ++ bs.
Proof.
  intros Hm Hh. specialize (Hm t). destruct (m t) as [r t']. destruct Hm as (Hs & _ & He & Hok).
  destruct (Hok Hh) as [-> Hh']. exists t'. split_and!; try done; by apply He.
Qed.

#[export] Hint Resolve sends_Flush sends_wrapf : h2go.

(** ** Correctness of the codec *)

(** A Go string that fits the wire cap reads back as itself: the
    bytes [WriteString] emits, on its ASCII path or its general path, are consumed
    exactly by [ReadString], which returns the string with undecodable bytes
    replaced by U+FFFD, so a valid UTF-8 string comes back unchanged. *)
Theorem string_roundtrip s :
  zlen (utf16Encode s) <= MaxWireLength / 2 ->
  exists bs, writes (WriteString s) bs /\ decodes ReadString bs (Some (sanitize s)) /\
             (valid_utf8 s -> sanitize s = s).
Proof.
  intros Hl. exists (enc_string s).
  split; [apply writes_WriteString|]. split; [by apply decodes_ReadString|apply sanitize_valid].
Qed.

Lemma string_roundtrip_witness :
  exists bs, writes (WriteString (utf8_encode [0x48; 0x10D; 0x1F600])) bs /\
             decodes ReadString bs (Some (sanitize (utf8_encode [0x48; 0x10D; 0x1F600]))) /\
             (valid_utf8 (utf8_encode [0x48; 0x10D; 0x1F600]) ->
              sanitize (utf8_encode [0x48; 0x10D; 0x1F600]) = utf8_encode [0x48; 0x10D; 0x1F600]).
Proof. apply string_roundtrip. vm_compute. discriminate. Defined.

(** Both paths of [WriteString] (the ASCII fast path and the
    single-pass general path with its surrogate arithmetic) emit exactly the length
    and the big-endian code units of the reference encoder [utf16Encode]; on a
    connection that fails, what reached the wire is a prefix of that. *)
Theorem WriteString_is_utf16 s :
  writes (WriteString s)
    (be_enc 4 (uint32 (zlen (utf16Encode s))) ++ flat_map (be_enc 2) (utf16Encode s)).
Proof. apply writes_WriteString. Qed.

Lemma units_of_be2 raw n : length raw = (2 * n)%nat -> flat_map (be_enc 2) (units_of raw) = raw.
Proof.
  revert raw. induction n as [|n IH]; intros raw Hl; [by destruct raw|].
  destruct raw as [|hi [|lo raw]]; cbn in Hl; try lia. cbn [units_of flat_map].
  rewrite IH, be_enc2 by lia. cbn [app].
  pose proof (b2z_range hi). pose proof (b2z_range lo).
  replace (be_dec [hi; lo]) with (b2z hi * 256 + b2z lo) by (unfold be_dec; cbn; lia).
  rewrite Z.shiftr_div_pow2 by lia. change (2 ^ 8) with 256.
  rewrite Z.div_add_l, (Z.div_small (b2z lo)), Z.add_0_r, z2b_b2z by lia.
  rewrite <- (z2b_mod (_ + _)), Z.add_comm, Z.mod_add, Z.mod_small, z2b_b2z by lia. done.
Qed.

(** The ASCII fast path of [ReadString], which moves the low bytes
    down inside the buffer it read into, returns for every payload what the general
    UTF-16 decoder returns for its code units. *)
Theorem ReadString_fast_path raw n :
  length raw = (2 * n)%nat -> decode_payload (Z.of_nat n) raw = utf16Decode (units_of raw).
Proof.
  intros Hl. pose proof (units_of_be2 raw n Hl) as Hraw. unfold decode_payload.
  destruct (_ && _) eqn:E; [|done]. apply andb_true_iff in E as [_ E].
  assert (Hn : length (units_of raw) = n).
  { pose proof (zlen_flat_map_be2 (units_of raw)) as Hz. rewrite Hraw in Hz. unfold zlen in Hz. lia. }
  replace (Nat.div (length raw) 2) with n by (rewrite Hl, Nat.mul_comm; symmetry; by apply Nat.div_mul).
  rewrite Nat2Z.id. rewrite <- Hraw at 1. rewrite <- Hn, compact_units. clear Hl Hn.
  assert (Hpos : Forall (fun u => 0 <= u) (units_of raw)).
  { clear E. rewrite <- Hraw. generalize (units_of raw). intros us. induction us as [|u us IH]; [constructor|].
    cbn [flat_map]. rewrite be_enc2. cbn [app units_of]. constructor; [|done].
    unfold be_dec; cbn. pose proof (b2z_range (z2b (Z.shiftr u 8))). pose proof (b2z_range (z2b u)). lia. }
  clear Hraw. induction Hpos as [|u us Hu _ IH]; [done|].
  cbn [forallb] in E. apply andb_true_iff in E as [E1 E2]. cbn [map utf16Decode].
  replace ((0xD800 <=? u) && (u <=? 0xDBFF)) with false by lia.
  replace ((0xDC00 <=? u) && (u <=? 0xDFFF)) with false by lia.
  rewrite encode_rune_ascii by lia. cbn [app]. by rewrite <- IH.
Qed.

Lemma ReadString_fast_path_witness :
  decode_payload 3 (flat_map (be_enc 2) [0x61; 0x62; 0x63]) = utf16Decode [0x61; 0x62; 0x63].
Proof. exact (ReadString_fast_path (flat_map (be_enc 2) [0x61; 0x62; 0x63]) 3 eq_refl). Defined.

(** The buffered writer implements an append-only stream: after any
    sequence of writes and a successful [Flush] the connection holds exactly the
    bytes written, in order; whatever the connection does, including failing in the
    middle of a flush, what it has been given is a prefix of them. *)
Theorem buffered_writes_reach_the_wire ps t :
  let '(r, t') := bind (for_each ps tr_Write) (fun _ => Flush) t in
  same_reader t t' /\
  net_out (tr_net t') `prefix_of` emitted t ++ concat ps /\
  (r = Ok tt -> net_out (tr_net t') = emitted t ++ concat ps) /\
  (healthy t -> r = Ok tt /\ healthy t').
Proof.
  assert (sends (bind (for_each ps tr_Write) (fun _ => Flush)) (concat ps)) as H.
  { rewrite <- (app_nil_r (concat ps)). apply sends_bind; [|apply sends_Flush].
    rewrite <- (map_id ps), <- flat_map_concat_map, (map_id ps).
    apply writes_for_each. intros. apply writes_tr_Write. }
  specialize (H t). destruct (bind _ _ t) as [r t']. destruct H as (? & ? & H & ?).
  split_and!; [done|done|intros Hr; by apply H|done].
Qed.

Lemma ReadBytes_capped t b t' :
  ReadBytes t = (Ok (Some b), t') -> zlen b <= MaxWireLength.
Proof.
  unfold ReadBytes. intros H. apply bind_Ok_inv in H as (l & t1 & _ & H).
  destruct (l =? -1); [m_inv|]. destruct (l =? 0).
  { unfold ret in H. injection H as <- _. rewrite MaxWireLength_eq, zlen_nil. lia. }
  destruct (l <? 0) eqn:E1; [m_inv|]. destruct (MaxWireLength <? l) eqn:E2; [m_inv|].
  apply bind_Ok_inv in H as (buf & t2 & Hr & H). m_inv. unfold io_ReadFull in Hr.
  destruct (split_exact l (input t1)) as [[p rest]|] eqn:E; [|done].
  injection Hr as <- _. apply split_exact_Some in E. lia.
Qed.

(** C34 (bounds). A length field never drives an allocation beyond the cap: a length
    below -1 or above the cap is refused by [ReadBytes] and [ReadString] with only
    the four bytes of the length consumed, and a byte array that is returned has at
    most [MaxWireLength] bytes. *)
Theorem wire_length_caps t rest L :
  tr_r t = true -> input t = enc_int32 L ++ rest -> in_intN 32 L ->
  ((L < -1 \/ MaxWireLength < L) -> exists e, ReadBytes t = (Err e, set_in rest t)) /\
  ((L < -1 \/ MaxWireLength / 2 < L) -> exists e, ReadString t = (Err e, set_in rest t)) /\
  (forall b t', ReadBytes t = (Ok (Some b), t') -> zlen b <= MaxWireLength).
Proof.
  intros Hr Hin HL. pose proof (decodes_ReadInt32 L HL t rest Hr Hin) as Hd.
  split_and!; [| |intros ? ?; apply ReadBytes_capped].
  - unfold ReadBytes. rewrite MaxWireLength_eq. intros Hb. m_step.
    replace (L =? -1) with false by lia. replace (L =? 0) with false by lia.
    destruct (L <? 0) eqn:E; [by eexists|].
    replace (536870912 <? L) with true by lia. by eexists.
  - unfold ReadString. rewrite MaxWireLength_eq. change (536870912 / 2) with 268435456.
    intros Hb. m_step.
    replace (L =? -1) with false by lia. replace (L =? 0) with false by lia.
    destruct (L <? 0) eqn:E; [by eexists|].
    replace (268435456 <? L) with true by lia. by eexists.
Qed.

(** A connection that has delivered [l] and then ends. *)
Definition stream (l : list byte) : Tr :=
  NewReadWriter (mkTransport l NEof [] None (NOther false) false None).

Lemma wire_length_caps_witness :
  exists e, ReadString (stream (enc_int32 268435457 ++ [z2b 1])) = (Err e, set_in [z2b 1] (stream (enc_int32 268435457 ++ [z2b 1]))).
Proof.
  apply (wire_length_caps (stream (enc_int32 268435457 ++ [z2b 1])) [z2b 1] 268435457);
    [done|done|unfold in_intN; lia|right; reflexivity].
Defined.

(** [ReadFull] on a stream that ends inside the buffer reports
    [io.ErrUnexpectedEOF]; it reports [io.EOF] only when not a single byte came,
    where the comment on it promises [io.EOF] for both. *)
Theorem ReadFull_short_stream l n :
  zlen l < n ->
  ReadFull n (stream l) =
  (Err (ESent (match l with [] => io_EOF | _ :: _ => io_ErrUnexpectedEOF end)), stream []).
Proof.
  intros Hl. unfold ReadFull, bind. cbn [checkReader tr_r stream NewReadWriter].
  unfold io_ReadFull. change (input (stream l)) with l.
  destruct (split_exact n l) as [[p rest]|] eqn:E.
  - apply split_exact_Some in E as [-> Hp]. rewrite zlen_app in Hl.
    pose proof (zlen_nonneg rest). lia.
  - by destruct l.
Qed.

Lemma ReadFull_short_stream_witness :
  ReadFull 4 (stream [z2b 7]) = (Err (ESent io_ErrUnexpectedEOF), stream []).
Proof. apply (ReadFull_short_stream [z2b 7] 4). reflexivity. Defined.
