(* ===== verification/Errors.v ===== *)
(** * Server errors and status words (errors.go)

    [readStatus] is the first thing read after every request: the status word
    decides between going on, a structured server error that follows on the wire,
    and a session the server has closed. *)

From S2P Require Import Prelude.
From S2P Require Import GoText.
From S2P Require Import Protocol.
From S2P Require Import Transfer.

Definition ErrorCodeStatementWasCanceled : Z := 57014.

Definition derefStr (s : option gostring) : gostring :=
  match s with
  | None => []
  | Some s => s
  end.

(** The five fields of a server error, in wire order. *)
Definition readH2Error_fields : M Tr Error :=
  sqlState <- wrapf "h2go: read error response (sqlState): %w" [] ReadString ;;
  message <- wrapf "h2go: read error response (message): %w" [] ReadString ;;
  sql <- wrapf "h2go: read error response (sql): %w" [] ReadString ;;
  errorCode <- wrapf "h2go: read error response (errorCode): %w" [] ReadInt32 ;;
  stackTrace <- wrapf "h2go: read error response (stackTrace): %w" [] ReadString ;;
  ret (mkError (derefStr sqlState) (derefStr message) (derefStr sql) errorCode (derefStr stackTrace)).

(** [readH2Error] always returns an error: the parsed one, or the reason it could
    not be parsed. *)
Definition readH2Error : M Tr unit :=
  h <- readH2Error_fields ;; fail (EH2 h).

Definition readStatus : M Tr unit :=
  status <- wrapf "h2go: read status: %w" [] ReadInt32 ;;
  if (status =? StatusOK) || (status =? StatusOKStateChanged) then ret tt
  else if status =? StatusError then readH2Error
  else if status =? StatusClosed then
    fail (EWrapf "h2go: server closed the session: %w" [] [ESent ErrClosed])
  else fail (EErrorf "h2go: unexpected status code %d" [AInt status]).

(** [wrapError(op, err)] for an error value: a server error is returned as it is. *)
Definition wrapError (op : string) (e : error) : error :=
  match errors_As e with
  | Some h => EH2 h
  | None => EWrapf "h2go: %s: %w" [AStr (lit op)] [e]
  end.

(** [wrapError(op, msg)] for a text. *)
Definition wrapErrorText (op msg : string) : error :=
  EErrorf "h2go: %s: %v" [AStr (lit op); AStr (lit msg)].

(** [if err := m; err != nil { return wrapError(op, err) }] *)
Definition wrapE {S A} (op : string) (m : M S A) : M S A := fun s =>
  match m s with
  | (Ok a, s') => (Ok a, s')
  | (Err e, s') => (Err (wrapError op e), s')
  end.

(** ** Lemmas *)

Lemma wrapE_Ok {S A} op (m : M S A) s a s' : wrapE op m s = (Ok a, s') <-> m s = (Ok a, s').
Proof. unfold wrapE. destruct (m s) as [[?|?] ?]; naive_solver. Qed.

Lemma errors_As_wrapError op e : errors_As (wrapError op e) = errors_As e.
Proof. unfold wrapError. destruct (errors_As e) eqn:E; [done|]. cbn. by rewrite E. Qed.

Lemma errors_As_wrapf fmt args e : errors_As (EWrapf fmt args [e]) = errors_As e.
Proof. cbn. by destruct (errors_As e). Qed.

Lemma reader_wrapE {A} op (m : M Tr A) : reader m -> reader (wrapE op m).
Proof.
  intros Hm t r t' H. unfold wrapE in H. destruct (m t) as [[a|e] t1] eqn:E;
    injection H as <- <-; destruct (Hm _ _ _ E) as (p & H1 & H2 & H3); exists p;
    (split; [done|]; split; [done|]); [|done].
  intros ? [= <-] t2 suf Hr Hin. apply wrapE_Ok. by apply (H3 a).
Qed.

Lemma reader_readH2Error_fields : reader readH2Error_fields.
Proof. unfold readH2Error_fields. solve_reader. Qed.
#[export] Hint Resolve reader_wrapE reader_readH2Error_fields : h2go.
Lemma reader_readH2Error : reader readH2Error.
Proof. unfold readH2Error. solve_reader. Qed.
#[export] Hint Resolve reader_readH2Error : h2go.
Lemma reader_readStatus : reader readStatus.
Proof. unfold readStatus. solve_reader. Qed.
#[export] Hint Resolve reader_readStatus : h2go.

(** The error frame as the server writes it, and the fields it carries. *)
Definition enc_h2error (h : Error) : list byte :=
  enc_string (SQLState h) ++ enc_string (Message h) ++ enc_string (SQL h)
  ++ enc_int32 (Code h) ++ enc_string (StackTrace h).

Definition wire_string (s : gostring) : Prop :=
  valid_utf8 s /\ zlen (utf16Encode s) <= MaxWireLength / 2.

Definition wire_error (h : Error) : Prop :=
  wire_string (SQLState h) /\ wire_string (Message h) /\ wire_string (SQL h) /\
  in_intN 32 (Code h) /\ wire_string (StackTrace h).

Lemma decodes_wire_string s : wire_string s -> decodes ReadString (enc_string s) (Some s).
Proof. intros [Hv Hl]. rewrite <- (sanitize_valid s Hv) at 2. by apply decodes_ReadString. Qed.

Lemma decodes_readH2Error_fields h : wire_error h -> decodes readH2Error_fields (enc_h2error h) h.
Proof.
  intros (H1 & H2 & H3 & H4 & H5). unfold readH2Error_fields, enc_h2error.
  eapply decodes_bind; [by apply decodes_wrapf, decodes_wire_string|].
  eapply decodes_bind; [by apply decodes_wrapf, decodes_wire_string|].
  eapply decodes_bind; [by apply decodes_wrapf, decodes_wire_string|].
  eapply decodes_bind; [by apply decodes_wrapf, decodes_ReadInt32|].
  eapply decodes_bind_ret; [by apply decodes_wrapf, decodes_wire_string|]. by destruct h.
Qed.

Lemma readH2Error_aligned h t rest :
  wire_error h -> tr_r t = true -> input t = enc_h2error h ++ rest ->
  readH2Error t = (Err (EH2 h), set_in rest t).
Proof.
  intros Hh Hr Hin. unfold readH2Error.
  by rewrite (bind_Ok _ _ _ _ _ (decodes_readH2Error_fields h Hh t rest Hr Hin)).
Qed.

Lemma plain_errs_readH2Error_fields : plain_errs readH2Error_fields.
Proof. unfold readH2Error_fields. solve_plain_errs. Qed.

(** ** Correctness *)

(** When [readStatus] reports a server error, the stream is aligned: the
    status word was [StatusError], and the bytes consumed after it are one complete
    error frame, which decodes to exactly the error reported. Every other failure
    carries no server error, so [errors.As] tells the two apart. *)
Theorem readStatus_h2_error_is_aligned t e t' h :
  readStatus t = (Err e, t') -> errors_As e = Some h ->
  exists word frame,
    input t = word ++ frame ++ input t' /\ t' = set_in (input t') t /\
    decodes ReadInt32 word StatusError /\ decodes readH2Error_fields frame h /\ e = EH2 h.
Proof.
  unfold readStatus. intros H Has.
  apply bind_Err_inv in H as [H|(status & t1 & H1 & H)].
  { apply (plain_errs_wrapf _ _ _ plain_errs_ReadInt32), plain_As in H. congruence. }
  apply wrapf_Ok in H1. destruct (reader_ReadInt32 _ _ _ H1) as (word & Hw & Ht1 & Dw).
  destruct (_ || _); [done|]. destruct (Z.eqb_spec status StatusError) as [->|].
  - unfold readH2Error in H. apply bind_Err_inv in H as [H|(h' & t2 & H2 & H)].
    { apply plain_errs_readH2Error_fields, plain_As in H. congruence. }
    destruct (reader_readH2Error_fields _ _ _ H2) as (frame & Hf & Ht2 & Df).
    unfold fail in H. injection H as <- <-. cbn in Has. injection Has as <-.
    exists word, frame. rewrite Hw, Hf. split_and!; try done; [|by apply Dw|by apply Df].
    rewrite Ht2, Ht1. by rewrite set_in_set_in.
  - destruct (status =? StatusClosed); unfold fail in H; injection H as <- <-; done.
Qed.

(** The error of the witness: "Table not found". *)
Definition sampleError : Error :=
  mkError (lit "42S02") (lit "Table not found") (lit "SELECT") 42102 [].

Lemma readStatus_h2_error_is_aligned_witness :
  exists word frame,
    input (stream (enc_int32 StatusError ++ enc_h2error sampleError ++ [z2b 9]))
      = word ++ frame ++ [z2b 9] /\
    decodes ReadInt32 word StatusError /\ decodes readH2Error_fields frame sampleError.
Proof.
  destruct (readStatus_h2_error_is_aligned
              (stream (enc_int32 StatusError ++ enc_h2error sampleError ++ [z2b 9]))
              (EH2 sampleError) (stream [z2b 9]) sampleError)
    as (word & frame & H1 & _ & H3 & H4 & _); [vm_compute; reflexivity|reflexivity|].
  exists word, frame. auto.
Defined.
