(* ===== verification/Fuel.v ===== *)
(** * Recursive decoders: fuel measured by the stream

    ARRAY and ROW make the decoders of types and values recursive. A level of the
    recursion consumes at least one byte, so the number of unread bytes bounds its
    depth. This file shows once, for any family [m fuel] of readers, what makes
    [fueled m], which starts with one more unit of fuel than there are unread bytes,
    independent of fuel: that [m] does not look at fuel it does not need. *)

From S2P Require Import Prelude.
From S2P Require Import Transfer.

Definition fueled {A} (m : nat -> M Tr A) : M Tr A := fun t => m (S (length (input t))) t.

(** [m1] and [m2] agree on streams of fewer than [n] bytes. *)
Definition agree {A} (n : nat) (m1 m2 : M Tr A) : Prop :=
  forall t, (length (input t) < n)%nat -> m1 t = m2 t.

(** The errors of [m] on streams of fewer than [n] bytes are plain. *)
Definition plain_below {A} (n : nat) (m : M Tr A) : Prop :=
  forall t e t', (length (input t) < n)%nat -> m t = (Err e, t') -> plain e = true.

Section agreement.
Context {A B : Type}.

Lemma agree_refl n (m : M Tr A) : agree n m m.
Proof. by intros t _. Qed.

Lemma agree_weaken n n' (m1 m2 : M Tr A) : (n' <= n)%nat -> agree n m1 m2 -> agree n' m1 m2.
Proof. intros Hn H t Ht. apply H. lia. Qed.

Lemma reader_shrinks (m : M Tr A) t r t' :
  reader m -> m t = (r, t') -> (length (input t') <= length (input t))%nat.
Proof. intros Hm H. destruct (Hm _ _ _ H) as (p & -> & _). rewrite length_app. lia. Qed.

Lemma agree_bind n (m1 m2 : M Tr A) (k1 k2 : A -> M Tr B) :
  reader m1 -> agree n m1 m2 -> (forall a, agree n (k1 a) (k2 a)) -> agree n (bind m1 k1) (bind m2 k2).
Proof.
  intros Hm Ha Hk t Ht. unfold bind. rewrite <- Ha by done.
  destruct (m1 t) as [[a|e] t'] eqn:E; [|done]. apply Hk.
  apply reader_shrinks in E; [lia|done].
Qed.

Lemma agree_bind_consume n c (m : M Tr A) (k1 k2 : A -> M Tr B) :
  consumes m c -> (forall a, agree n (k1 a) (k2 a)) -> agree (n + c) (bind m k1) (bind m k2).
Proof.
  intros Hc Hk t Ht. unfold bind. destruct (m t) as [[a|e] t'] eqn:E; [|done].
  apply Hk. apply Hc in E. lia.
Qed.

Lemma agree_wrapf n fmt args (m1 m2 : M Tr A) :
  agree n m1 m2 -> agree n (wrapf fmt args m1) (wrapf fmt args m2).
Proof. intros H t Ht. rewrite !wrapf_run. by rewrite H. Qed.

Lemma plain_below_mono n (m : M Tr A) : plain_errs m -> plain_below n m.
Proof. intros H t e t' _. apply H. Qed.

Lemma plain_below_bind n (m : M Tr A) (k : A -> M Tr B) :
  reader m -> plain_below n m -> (forall a, plain_below n (k a)) -> plain_below n (bind m k).
Proof.
  intros Hr Hm Hk t e t'' Ht [H|(a & t' & H1 & H)]%bind_Err_inv; [by eapply Hm|].
  eapply Hk; [|exact H]. apply reader_shrinks in H1; [lia|done].
Qed.

Lemma plain_below_bind_consume n c (m : M Tr A) (k : A -> M Tr B) :
  consumes m c -> plain_errs m -> (forall a, plain_below n (k a)) -> plain_below (n + c) (bind m k).
Proof.
  intros Hc Hm Hk t e t'' Ht [H|(a & t' & H1 & H)]%bind_Err_inv; [by eapply Hm|].
  eapply Hk; [|exact H]. apply Hc in H1. lia.
Qed.

Lemma plain_below_wrapf n fmt args (m : M Tr A) : plain_below n m -> plain_below n (wrapf fmt args m).
Proof.
  intros H t e t' Ht (e' & He & ->)%wrapf_Err_inv. cbn. by rewrite (H _ _ _ Ht He).
Qed.
End agreement.

Lemma agree_for_range {A} n c i (f g : Z -> M Tr A) :
  (forall j, reader (f j)) -> (forall j, agree n (f j) (g j)) ->
  agree n (for_range c i f) (for_range c i g).
Proof.
  intros Hr Ha. revert i. induction c as [|c IH]; intros i; cbn [for_range]; [apply agree_refl|].
  apply agree_bind; [done..|]. intros x.
  apply agree_bind; [by apply reader_for_range|done|]. intros. apply agree_refl.
Qed.

Lemma plain_below_for_range {A} n c i (f : Z -> M Tr A) :
  (forall j, reader (f j)) -> (forall j, plain_below n (f j)) -> plain_below n (for_range c i f).
Proof.
  intros Hr Ha. revert i.
  induction c as [|c IH]; intros i; cbn [for_range]; [apply plain_below_mono, plain_errs_ret|].
  apply plain_below_bind; [done..|]. intros x.
  apply plain_below_bind; [by apply reader_for_range|done|]. intros. apply plain_below_mono, plain_errs_ret.
Qed.

(** Fuel beyond the length of the stream changes nothing. *)
Definition stable {A} (m : nat -> M Tr A) : Prop :=
  forall n f g, (n <= f)%nat -> (n <= g)%nat -> agree n (m f) (m g).

Lemma fueled_run {A} (m : nat -> M Tr A) f t :
  stable m -> (length (input t) < f)%nat -> fueled m t = m f t.
Proof. intros Hs Hf. unfold fueled. apply (Hs (S (length (input t)))); lia. Qed.

Lemma reader_fueled {A} (m : nat -> M Tr A) :
  (forall f, reader (m f)) -> stable m -> reader (fueled m).
Proof.
  intros Hm Hs t r t' H. destruct (Hm _ _ _ _ H) as (pre & Hin & Ht' & _).
  exists pre. do 2 (split; [done|]). intros a -> t2 suf Hr Hin2.
  set (F := S (length (input t) + length (input t2))).
  rewrite (fueled_run m F) in H by (done || lia).
  destruct (Hm _ _ _ _ H) as (pre' & Hin' & _ & D).
  assert (pre' = pre) as -> by (rewrite Hin' in Hin; by apply app_inv_tail in Hin).
  rewrite (fueled_run m F) by (done || lia). by apply D.
Qed.

Lemma consumes_fueled {A} (m : nat -> M Tr A) c :
  (forall f, consumes (m f) c) -> consumes (fueled m) c.
Proof. intros Hm t a t' H. by eapply Hm. Qed.

Lemma plain_errs_fueled {A} (m : nat -> M Tr A) :
  (forall n, plain_below n (m n)) -> plain_errs (fueled m).
Proof. intros Hm t e t' H. eapply Hm; [|exact H]. lia. Qed.

(** Enough fuel for a decoding proof. *)
Lemma decodes_fueled {A} (m : nat -> M Tr A) bs a :
  stable m -> (forall f, (length bs < f)%nat -> decodes (m f) bs a) -> decodes (fueled m) bs a.
Proof.
  intros Hs H t suf Hr Hin. unfold fueled. apply H; [|done|done].
  rewrite Hin, length_app. lia.
Qed.
