(* ===== verification/TypeInfo.v ===== *)
(** * Type metadata (typeinfo.go)

    [TypeInfo] describes a column or a parameter. [ReadTypeInfo] decodes it from a
    metadata frame: a type id, then the attributes that id has, which for ARRAY and
    ROW contain type infos again. The recursion is bounded by fuel; every level
    consumes the four bytes of its type id, so one more unit of fuel than the stream
    has bytes is always enough ([ReadTypeInfo_enough_fuel]). *)

From S2P Require Import Prelude.
From S2P Require Import GoText.
From S2P Require Import Protocol.
From S2P Require Import Transfer.
From S2P Require Import Fuel.

(** ** Data *)

Inductive TypeInfo := mkTypeInfo {
  ValueType : Z;
  Precision : Z;
  Scale : Z;
  Nullable : Z;
  ExtTypeInfo : option TypeInfo
}.

Definition ColumnNullableUnknown : Z := 0.
Definition ColumnNoNulls : Z := 1.
Definition ColumnNullable : Z := 2.

Definition TIUnknown : Z := -1.
Definition TINull : Z := 0.
Definition TIBoolean : Z := 1.
Definition TITinyint : Z := 2.
Definition TISmallint : Z := 3.
Definition TIInteger : Z := 4.
Definition TIBigint : Z := 5.
Definition TINumeric : Z := 6.
Definition TIDouble : Z := 7.
Definition TIReal : Z := 8.
Definition TITime : Z := 9.
Definition TIDate : Z := 10.
Definition TITimestamp : Z := 11.
Definition TIVarbinary : Z := 12.
Definition TIVarchar : Z := 13.
Definition TIVarcharIgnoreCase : Z := 14.
Definition TIBlob : Z := 15.
Definition TIClob : Z := 16.
Definition TIArray : Z := 17.
Definition TIJavaObject : Z := 19.
Definition TIUUID : Z := 20.
Definition TIChar : Z := 21.
Definition TIGeometry : Z := 22.
Definition TITimestampTZ : Z := 24.
Definition TIEnum : Z := 25.
Definition TIIntervalYear : Z := 26.
Definition TIIntervalMonth : Z := 27.
Definition TIIntervalDay : Z := 28.
Definition TIIntervalHour : Z := 29.
Definition TIIntervalMinute : Z := 30.
Definition TIIntervalSecond : Z := 31.
Definition TIIntervalYearMonth : Z := 32.
Definition TIIntervalDayHour : Z := 33.
Definition TIIntervalDayMinute : Z := 34.
Definition TIIntervalDaySecond : Z := 35.
Definition TIIntervalHourMin : Z := 36.
Definition TIIntervalHourSec : Z := 37.
Definition TIIntervalMinSec : Z := 38.
Definition TIRow : Z := 39.
Definition TIJSON : Z := 40.
Definition TITimeTZ : Z := 41.
Definition TIBinary : Z := 42.
Definition TIDecfloat : Z := 43.

(** The map from type ids to value types. *)
Definition tiToValueType : gmap Z Z := list_to_map [
  (TIUnknown, ValueTypeNull);
  (TINull, ValueTypeNull);
  (TIBoolean, ValueTypeBoolean);
  (TITinyint, ValueTypeTinyint);
  (TISmallint, ValueTypeSmallint);
  (TIInteger, ValueTypeInteger);
  (TIBigint, ValueTypeBigint);
  (TINumeric, ValueTypeNumeric);
  (TIDouble, ValueTypeDouble);
  (TIReal, ValueTypeReal);
  (TITime, ValueTypeTime);
  (TIDate, ValueTypeDate);
  (TITimestamp, ValueTypeTimestamp);
  (TIVarbinary, ValueTypeVarbinary);
  (TIVarchar, ValueTypeVarchar);
  (TIVarcharIgnoreCase, ValueTypeVarcharIgnoreCase);
  (TIBlob, ValueTypeBlob);
  (TIClob, ValueTypeClob);
  (TIArray, ValueTypeArray);
  (TIJavaObject, ValueTypeJavaObject);
  (TIUUID, ValueTypeUUID);
  (TIChar, ValueTypeChar);
  (TIGeometry, ValueTypeGeometry);
  (TITimestampTZ, ValueTypeTimestampTZ);
  (TIEnum, ValueTypeEnum);
  (TIIntervalYear, ValueTypeInterval);
  (TIIntervalMonth, ValueTypeInterval);
  (TIIntervalDay, ValueTypeInterval);
  (TIIntervalHour, ValueTypeInterval);
  (TIIntervalMinute, ValueTypeInterval);
  (TIIntervalSecond, ValueTypeInterval);
  (TIIntervalYearMonth, ValueTypeInterval);
  (TIIntervalDayHour, ValueTypeInterval);
  (TIIntervalDayMinute, ValueTypeInterval);
  (TIIntervalDaySecond, ValueTypeInterval);
  (TIIntervalHourMin, ValueTypeInterval);
  (TIIntervalHourSec, ValueTypeInterval);
  (TIIntervalMinSec, ValueTypeInterval);
  (TIRow, ValueTypeRow);
  (TIJSON, ValueTypeJSON);
  (TITimeTZ, ValueTypeTimeTZ);
  (TIBinary, ValueTypeBinary);
  (TIDecfloat, ValueTypeDecfloat)
].

Definition intervalHasFractionalSeconds (ti : Z) : bool :=
  one_of ti [TIIntervalSecond; TIIntervalDaySecond; TIIntervalHourSec; TIIntervalMinSec].

(** ** Decoding *)

(** An attribute byte: 0xFF stands for "not specified", anything else is signed. *)
Definition byte_attr (b : byte) : Z :=
  if b2z b =? 0xFF then -1 else int8 (b2z b).

(** [skipExtTypeInfo], with [ReadTypeInfo] for the fields of a ROW. *)
Definition skipExtTypeInfo (readTypeInfo : M Tr TypeInfo) (valueType : Z) : M Tr unit :=
  if valueType =? ValueTypeEnum then
    count <- wrapf "h2go: skipExtTypeInfo: failed to read ENUM count: %w" [] ReadInt32 ;;
    for_range (Z.to_nat count) 0 (fun _ =>
      wrapf "h2go: skipExtTypeInfo: failed to read ENUM value: %w" [] ReadString) ;;
    ret tt
  else if valueType =? ValueTypeGeometry then
    typ <- wrapf "h2go: skipExtTypeInfo: failed to read GEOMETRY type: %w" [] ReadByte ;;
    if b2z typ =? 0 then ret tt
    else if b2z typ =? 1 then
      wrapf "h2go: skipExtTypeInfo: failed to read GEOMETRY type id: %w" [] ReadInt16 ;; ret tt
    else if b2z typ =? 2 then
      wrapf "h2go: skipExtTypeInfo: failed to read GEOMETRY SRID: %w" [] ReadInt32 ;; ret tt
    else if b2z typ =? 3 then
      wrapf "h2go: skipExtTypeInfo: failed to read GEOMETRY type id: %w" [] ReadInt16 ;;
      wrapf "h2go: skipExtTypeInfo: failed to read GEOMETRY SRID: %w" [] ReadInt32 ;; ret tt
    else ret tt
  else if valueType =? ValueTypeRow then
    count <- wrapf "h2go: skipExtTypeInfo: failed to read ROW field count: %w" [] ReadInt32 ;;
    for_range (Z.to_nat count) 0 (fun _ =>
      wrapf "h2go: skipExtTypeInfo: failed to read ROW field name: %w" [] ReadString ;;
      wrapf "h2go: skipExtTypeInfo: failed to read ROW field type: %w" [] readTypeInfo) ;;
    ret tt
  else ret tt.

(** The attributes of a type, after its id. *)
Definition readTypeAttrs (readTypeInfo : M Tr TypeInfo) (ti valueType : Z) : M Tr TypeInfo :=
  let info prec scale ext := mkTypeInfo valueType prec scale ColumnNullableUnknown ext in
  if one_of valueType [ValueTypeNull; ValueTypeBoolean; ValueTypeTinyint; ValueTypeSmallint;
                       ValueTypeInteger; ValueTypeBigint; ValueTypeDate; ValueTypeUUID] then
    ret (info (-1) (-1) None)
  else if one_of valueType [ValueTypeChar; ValueTypeVarchar; ValueTypeVarcharIgnoreCase;
                            ValueTypeBinary; ValueTypeVarbinary; ValueTypeDecfloat;
                            ValueTypeJavaObject; ValueTypeJSON] then
    prec <- wrapf "h2go: ReadTypeInfo: failed to read precision: %w" [] ReadInt32 ;;
    ret (info prec (-1) None)
  else if one_of valueType [ValueTypeBlob; ValueTypeClob] then
    prec <- wrapf "h2go: ReadTypeInfo: failed to read LOB precision: %w" [] ReadInt64 ;;
    ret (info prec (-1) None)
  else if valueType =? ValueTypeNumeric then
    prec <- wrapf "h2go: ReadTypeInfo: failed to read NUMERIC precision: %w" [] ReadInt32 ;;
    scale <- wrapf "h2go: ReadTypeInfo: failed to read NUMERIC scale: %w" [] ReadInt32 ;;
    wrapf "h2go: ReadTypeInfo: failed to read NUMERIC ext flag: %w" [] ReadBool ;;
    ret (info prec scale None)
  else if one_of valueType [ValueTypeReal; ValueTypeDouble] then
    precByte <- wrapf "h2go: ReadTypeInfo: failed to read precision byte: %w" [] ReadByte ;;
    ret (info (byte_attr precByte) (-1) None)
  else if one_of valueType [ValueTypeTime; ValueTypeTimeTZ; ValueTypeTimestamp; ValueTypeTimestampTZ] then
    scaleByte <- wrapf "h2go: ReadTypeInfo: failed to read scale byte: %w" [] ReadByte ;;
    ret (info (-1) (byte_attr scaleByte) None)
  else if valueType =? ValueTypeInterval then
    precByte <- wrapf "h2go: ReadTypeInfo: failed to read interval precision: %w" [] ReadByte ;;
    if intervalHasFractionalSeconds ti then
      scaleByte <- wrapf "h2go: ReadTypeInfo: failed to read interval scale: %w" [] ReadByte ;;
      ret (info (byte_attr precByte) (byte_attr scaleByte) None)
    else ret (info (byte_attr precByte) (-1) None)
  else if valueType =? ValueTypeArray then
    prec <- wrapf "h2go: ReadTypeInfo: failed to read ARRAY precision: %w" [] ReadInt32 ;;
    elemType <- wrapf "h2go: ReadTypeInfo: failed to read ARRAY element type: %w" [] readTypeInfo ;;
    ret (info prec (-1) (Some elemType))
  else if one_of valueType [ValueTypeRow; ValueTypeEnum; ValueTypeGeometry] then
    skipExtTypeInfo readTypeInfo valueType ;;
    ret (info (-1) (-1) None)
  else ret (info (-1) (-1) None).

Fixpoint ReadTypeInfo_fuel (fuel : nat) : M Tr TypeInfo :=
  match fuel with
  | O => fail EFuel
  | S fuel' =>
      ti <- wrapf "h2go: ReadTypeInfo: failed to read type id: %w" [] ReadInt32 ;;
      let valueType := match tiToValueType !! ti with
                       | Some vt => vt
                       | None => ValueTypeNull
                       end in
      readTypeAttrs (ReadTypeInfo_fuel fuel') ti valueType
  end.

(** The fuel is one more than the number of unread bytes. *)
Definition ReadTypeInfo : M Tr TypeInfo := fueled ReadTypeInfo_fuel.

(** ** What the driver reports about a type *)

Definition DatabaseTypeName (ti : TypeInfo) : gostring :=
  if ValueType ti =? ValueTypeNull then lit "NULL" else
  if ValueType ti =? ValueTypeBoolean then lit "BOOLEAN" else
  if ValueType ti =? ValueTypeTinyint then lit "TINYINT" else
  if ValueType ti =? ValueTypeSmallint then lit "SMALLINT" else
  if ValueType ti =? ValueTypeInteger then lit "INTEGER" else
  if ValueType ti =? ValueTypeBigint then lit "BIGINT" else
  if ValueType ti =? ValueTypeNumeric then lit "NUMERIC" else
  if ValueType ti =? ValueTypeDouble then lit "DOUBLE" else
  if ValueType ti =? ValueTypeReal then lit "REAL" else
  if ValueType ti =? ValueTypeTime then lit "TIME" else
  if ValueType ti =? ValueTypeDate then lit "DATE" else
  if ValueType ti =? ValueTypeTimestamp then lit "TIMESTAMP" else
  if ValueType ti =? ValueTypeTimestampTZ then lit "TIMESTAMP WITH TIME ZONE" else
  if ValueType ti =? ValueTypeTimeTZ then lit "TIME WITH TIME ZONE" else
  if ValueType ti =? ValueTypeVarbinary then lit "VARBINARY" else
  if ValueType ti =? ValueTypeBinary then lit "BINARY" else
  if ValueType ti =? ValueTypeVarchar then lit "VARCHAR" else
  if ValueType ti =? ValueTypeVarcharIgnoreCase then lit "VARCHAR_IGNORECASE" else
  if ValueType ti =? ValueTypeChar then lit "CHAR" else
  if ValueType ti =? ValueTypeBlob then lit "BLOB" else
  if ValueType ti =? ValueTypeClob then lit "CLOB" else
  if ValueType ti =? ValueTypeArray then lit "ARRAY" else
  if ValueType ti =? ValueTypeJavaObject then lit "JAVA_OBJECT" else
  if ValueType ti =? ValueTypeUUID then lit "UUID" else
  if ValueType ti =? ValueTypeGeometry then lit "GEOMETRY" else
  if ValueType ti =? ValueTypeEnum then lit "ENUM" else
  if ValueType ti =? ValueTypeInterval then lit "INTERVAL" else
  if ValueType ti =? ValueTypeRow then lit "ROW" else
  if ValueType ti =? ValueTypeJSON then lit "JSON" else
  if ValueType ti =? ValueTypeDecfloat then lit "DECFLOAT" else
  lit "UNKNOWN".

Definition HasPrecisionScale (ti : TypeInfo) : bool :=
  one_of (ValueType ti) [ValueTypeNumeric; ValueTypeDecfloat; ValueTypeTime; ValueTypeTimeTZ;
                         ValueTypeTimestamp; ValueTypeTimestampTZ].

(** [None] is a nil receiver; the result is (precision, scale, ok). *)
Definition PrecisionScale (ti : option TypeInfo) : Z * Z * bool :=
  match ti with
  | None => (0, 0, false)
  | Some ti =>
      if negb (HasPrecisionScale ti) then (0, 0, false)
      else if ValueType ti =? ValueTypeNumeric then
        if Precision ti <? 0 then (0, 0, false)
        else if Scale ti <? 0 then (Precision ti, 0, false)
        else (Precision ti, Scale ti, true)
      else if ValueType ti =? ValueTypeDecfloat then
        if Precision ti <? 0 then (0, 0, false) else (Precision ti, 0, true)
      else if one_of (ValueType ti) [ValueTypeTime; ValueTypeTimeTZ; ValueTypeTimestamp;
                                     ValueTypeTimestampTZ] then
        if Scale ti <? 0 then (0, 0, false) else (0, Scale ti, true)
      else (0, 0, false)
  end.

Inductive scanType :=
| scanTypeAny
| scanTypeBool
| scanTypeInt64
| scanTypeFloat64
| scanTypeString
| scanTypeBytes
| scanTypeTime.

Definition ScanType (ti : option TypeInfo) : scanType :=
  match ti with
  | None => scanTypeAny
  | Some ti =>
      let vt := ValueType ti in
      if vt =? ValueTypeBoolean then scanTypeBool
      else if one_of vt [ValueTypeTinyint; ValueTypeSmallint; ValueTypeInteger; ValueTypeBigint]
      then scanTypeInt64
      else if one_of vt [ValueTypeReal; ValueTypeDouble] then scanTypeFloat64
      else if one_of vt [ValueTypeTime; ValueTypeTimeTZ; ValueTypeDate; ValueTypeTimestamp;
                         ValueTypeTimestampTZ] then scanTypeTime
      else if one_of vt [ValueTypeVarchar; ValueTypeVarcharIgnoreCase; ValueTypeChar;
                         ValueTypeNumeric; ValueTypeDecfloat; ValueTypeUUID] then scanTypeString
      else if one_of vt [ValueTypeBinary; ValueTypeVarbinary; ValueTypeBlob; ValueTypeJSON;
                         ValueTypeGeometry; ValueTypeJavaObject] then scanTypeBytes
      else if vt =? ValueTypeEnum then scanTypeInt64
      else if one_of vt [ValueTypeInterval; ValueTypeArray; ValueTypeRow] then scanTypeString
      else scanTypeAny
  end.

(** ** Lemmas *)

Lemma reader_skipExtTypeInfo rd vt : reader rd -> reader (skipExtTypeInfo rd vt).
Proof. intros. unfold skipExtTypeInfo. solve_reader. Qed.

Lemma reader_readTypeAttrs rd ti vt : reader rd -> reader (readTypeAttrs rd ti vt).
Proof.
  intros. pose proof (reader_skipExtTypeInfo rd vt). unfold readTypeAttrs. solve_reader.
Qed.

Lemma reader_ReadTypeInfo_fuel f : reader (ReadTypeInfo_fuel f).
Proof.
  induction f as [|f IH]; cbn [ReadTypeInfo_fuel]; [apply reader_fail|].
  apply reader_bind; [auto with h2go|]. intros ti. by apply reader_readTypeAttrs.
Qed.

(** Along the structure of a decoder whose recursive calls agree. *)
Ltac solve_agree :=
  repeat match goal with
  | |- forall _, _ => intros ?
  | |- agree _ ?m ?m => apply agree_refl
  | |- agree _ (bind _ _) (bind _ _) => apply agree_bind; [solve_reader| |]
  | |- agree _ (wrapf _ _ _) (wrapf _ _ _) => apply agree_wrapf
  | |- agree _ (for_range _ _ _) (for_range _ _ _) => apply agree_for_range; [solve_reader|]
  | |- agree _ (if ?b then _ else _) (if ?b then _ else _) => destruct b
  | |- agree _ _ _ => assumption
  end.

Lemma agree_skipExtTypeInfo n rd1 rd2 vt :
  reader rd1 -> agree n rd1 rd2 -> agree n (skipExtTypeInfo rd1 vt) (skipExtTypeInfo rd2 vt).
Proof. intros. unfold skipExtTypeInfo. solve_agree. Qed.

Lemma agree_readTypeAttrs n rd1 rd2 ti vt :
  reader rd1 -> agree n rd1 rd2 -> agree n (readTypeAttrs rd1 ti vt) (readTypeAttrs rd2 ti vt).
Proof.
  intros Hr Ha. pose proof (reader_skipExtTypeInfo rd1 vt Hr).
  pose proof (agree_skipExtTypeInfo n rd1 rd2 vt Hr Ha). unfold readTypeAttrs. solve_agree.
Qed.

Lemma stable_ReadTypeInfo : stable ReadTypeInfo_fuel.
Proof.
  intros n f. revert n. induction f as [|f IH]; intros n [|g] Hf Hg; try by (intros t Ht; lia).
  destruct n as [|n]; [intros t Ht; lia|]. cbn [ReadTypeInfo_fuel].
  apply (agree_weaken (n + 4)); [lia|].
  apply agree_bind_consume; [apply consumes_wrapf, consumes_ReadInt32|]. intros ti.
  apply agree_readTypeAttrs; [apply reader_ReadTypeInfo_fuel|apply IH; lia].
Qed.

Lemma reader_ReadTypeInfo : reader ReadTypeInfo.
Proof. apply reader_fueled; [apply reader_ReadTypeInfo_fuel|apply stable_ReadTypeInfo]. Qed.
#[export] Hint Resolve reader_ReadTypeInfo : h2go.

(** Along the structure of a decoder whose recursive calls fail plainly. *)
Ltac solve_plain_below :=
  repeat match goal with
  | |- forall _, _ => intros ?
  | |- plain_below _ (bind _ _) => apply plain_below_bind; [solve_reader| |]
  | |- plain_below _ (wrapf _ _ _) => apply plain_below_wrapf
  | |- plain_below _ (for_range _ _ _) => apply plain_below_for_range; [solve_reader|]
  | |- plain_below _ (fail _) => apply plain_below_mono, plain_errs_fail; reflexivity
  | |- plain_below _ (if ?b then _ else _) => destruct b
  | |- plain_below _ _ => solve [assumption | apply plain_below_mono; auto with h2go]
  end.

Lemma plain_below_readTypeAttrs n rd ti vt :
  reader rd -> plain_below n rd -> plain_below n (readTypeAttrs rd ti vt).
Proof.
  intros Hr Hp. pose proof (reader_skipExtTypeInfo rd vt Hr).
  assert (plain_below n (skipExtTypeInfo rd vt)) by (unfold skipExtTypeInfo; solve_plain_below).
  unfold readTypeAttrs. solve_plain_below.
Qed.

Lemma plain_below_ReadTypeInfo_fuel n : plain_below n (ReadTypeInfo_fuel n).
Proof.
  induction n as [|n IH]; [intros t e t' Ht; lia|]. cbn [ReadTypeInfo_fuel].
  assert (plain_below (n + 4) (ReadTypeInfo_fuel (S n))) as H; [|intros t e t' Ht; apply H; lia].
  apply plain_below_bind_consume; [apply consumes_wrapf, consumes_ReadInt32| |].
  - apply plain_errs_wrapf. auto with h2go.
  - intros ti. apply plain_below_readTypeAttrs; [apply reader_ReadTypeInfo_fuel|done].
Qed.

Lemma plain_errs_ReadTypeInfo : plain_errs ReadTypeInfo.
Proof. apply plain_errs_fueled, plain_below_ReadTypeInfo_fuel. Qed.
#[export] Hint Resolve plain_errs_ReadTypeInfo : h2go.

Lemma consumes_ReadTypeInfo : consumes ReadTypeInfo 4.
Proof.
  apply consumes_fueled. intros [|f]; cbn [ReadTypeInfo_fuel]; [by intros t a t' [=]|].
  apply consumes_bind_l; [apply consumes_wrapf, consumes_ReadInt32|].
  intros. apply reader_readTypeAttrs, reader_ReadTypeInfo_fuel.
Qed.

(** ** The metadata grammar

    What a server sends for a type, as data; [enc_type] is the byte sequence of the
    protocol and [type_meaning] what a client has to keep of it. The numbers are those of
    H2's own tables (TypeInfo.java, Value.java, Transfer.java), written out, and none of
    the driver's tables is used: [type_codes] is the type id and the value type of every
    type, and the lists of [wf_type] say which ids carry which attributes. *)

Inductive wire_type :=
| WSimple (ti : Z)
| WPrec (ti prec : Z)
| WLob (ti prec : Z)
| WNumeric (prec scale : Z) (ext : bool)
| WFloat (ti : Z) (prec : byte)
| WTime (ti : Z) (scale : byte)
| WInterval (ti : Z) (prec : byte) (scale : byte)
| WArray (prec : Z) (elem : wire_type)
| WEnum (labels : list gostring)
| WGeometry (type_id : option Z) (srid : option Z)
| WRow (fields : list (gostring * wire_type)).

Definition type_codes : list (Z * Z) :=
  [(-1, 0); (0, 0);                       (* UNKNOWN, NULL *)
   (1, 1); (2, 2); (3, 3); (4, 4); (5, 5); (* BOOLEAN, TINYINT, SMALLINT, INTEGER, BIGINT *)
   (6, 6); (7, 7); (8, 8);                (* NUMERIC, DOUBLE, REAL *)
   (9, 9); (10, 10); (11, 11);            (* TIME, DATE, TIMESTAMP *)
   (12, 12); (13, 13); (14, 14);          (* VARBINARY, VARCHAR, VARCHAR_IGNORECASE *)
   (15, 15); (16, 16); (17, 17);          (* BLOB, CLOB, ARRAY *)
   (19, 19); (20, 20); (21, 21); (22, 22); (* JAVA_OBJECT, UUID, CHAR, GEOMETRY *)
   (24, 24); (25, 25);                    (* TIMESTAMP WITH TIME ZONE, ENUM *)
   (26, 26); (27, 26); (28, 26); (29, 26); (30, 26); (31, 26); (32, 26);
   (33, 26); (34, 26); (35, 26); (36, 26); (37, 26); (38, 26); (* the INTERVALs *)
   (39, 27); (40, 28); (41, 29);          (* ROW, JSON, TIME WITH TIME ZONE *)
   (42, 30); (43, 31)].                   (* BINARY, DECFLOAT *)

(** Ids that are not in the table stand for no type. *)
Definition vt_of (ti : Z) : Z := from_option snd 0 (List.find (fun c => c.1 =? ti) type_codes).

(** The intervals with seconds: SECOND, DAY TO SECOND, HOUR TO SECOND, MINUTE TO SECOND. *)
Definition has_seconds (ti : Z) : bool := one_of ti [31; 35; 37; 38].

(** A signed byte; -1 is "not specified". *)
Definition signed_byte (b : byte) : Z := if b2z b <? 128 then b2z b else b2z b - 256.

Definition enc_list {A} (enc : A -> list byte) (l : list A) : list byte :=
  enc_int32 (zlen l) ++ flat_map enc l.

Definition geometry_kind (type_id srid : option Z) : Z :=
  match type_id, srid with
  | None, None => 0
  | Some _, None => 1
  | None, Some _ => 2
  | Some _, Some _ => 3
  end.

Fixpoint enc_type (w : wire_type) : list byte :=
  match w with
  | WSimple ti => enc_int32 ti
  | WPrec ti prec => enc_int32 ti ++ enc_int32 prec
  | WLob ti prec => enc_int32 ti ++ enc_int64 prec
  | WNumeric prec scale ext =>
      enc_int32 6 ++ enc_int32 prec ++ enc_int32 scale ++ enc_bool ext
  | WFloat ti prec => enc_int32 ti ++ [prec]
  | WTime ti scale => enc_int32 ti ++ [scale]
  | WInterval ti prec scale =>
      enc_int32 ti ++ [prec] ++ (if has_seconds ti then [scale] else [])
  | WArray prec elem => enc_int32 17 ++ enc_int32 prec ++ enc_type elem
  | WEnum labels => enc_int32 25 ++ enc_list enc_string labels
  | WGeometry type_id srid =>
      enc_int32 22 ++ [z2b (geometry_kind type_id srid)]
      ++ from_option enc_int16 [] type_id ++ from_option enc_int32 [] srid
  | WRow fields =>
      enc_int32 39 ++ enc_list (fun f => enc_string f.1 ++ enc_type f.2) fields
  end.

Fixpoint type_meaning (w : wire_type) : TypeInfo :=
  let info ti prec scale ext := mkTypeInfo (vt_of ti) prec scale 0 ext in
  match w with
  | WSimple ti => info ti (-1) (-1) None
  | WPrec ti prec => info ti prec (-1) None
  | WLob ti prec => info ti prec (-1) None
  | WNumeric prec scale _ => info 6 prec scale None
  | WFloat ti prec => info ti (signed_byte prec) (-1) None
  | WTime ti scale => info ti (-1) (signed_byte scale) None
  | WInterval ti prec scale =>
      info ti (signed_byte prec) (if has_seconds ti then signed_byte scale else -1) None
  | WArray prec elem => info 17 prec (-1) (Some (type_meaning elem))
  | WEnum _ => info 25 (-1) (-1) None
  | WGeometry _ _ => info 22 (-1) (-1) None
  | WRow _ => info 39 (-1) (-1) None
  end.

Definition fits_string (s : gostring) : bool := zlen (utf16Encode s) <=? MaxWireLength / 2.
Definition fits (n z : Z) : bool := (- 2 ^ (n - 1) <=? z) && (z <? 2 ^ (n - 1)).

(** Field ranges, and the type ids that have the attributes given. *)
Fixpoint wf_type (w : wire_type) : bool :=
  match w with
  | WSimple ti => one_of ti [-1; 0; 1; 2; 3; 4; 5; 10; 20]
  | WPrec ti prec => fits 32 prec && one_of ti [12; 13; 14; 19; 21; 40; 42; 43]
  | WLob ti prec => fits 64 prec && one_of ti [15; 16]
  | WNumeric prec scale _ => fits 32 prec && fits 32 scale
  | WFloat ti _ => one_of ti [7; 8]
  | WTime ti _ => one_of ti [9; 11; 24; 41]
  | WInterval ti _ _ => one_of ti [26; 27; 28; 29; 30; 31; 32; 33; 34; 35; 36; 37; 38]
  | WArray prec elem => fits 32 prec && wf_type elem
  | WEnum labels => fits 32 (zlen labels) && forallb fits_string labels
  | WGeometry type_id srid =>
      from_option (fits 16) true type_id && from_option (fits 32) true srid
  | WRow fields =>
      fits 32 (zlen fields) && forallb (fun f => fits_string f.1 && wf_type f.2) fields
  end.

Lemma fits_in_intN n z : fits n z = true -> in_intN n z.
Proof. unfold fits, in_intN. lia. Qed.
Lemma fits_of_in_intN n z : in_intN n z -> fits n z = true.
Proof. unfold fits, in_intN. lia. Qed.

Lemma decodes_fits_string s : fits_string s = true -> decodes ReadString (enc_string s) (Some (sanitize s)).
Proof. unfold fits_string. intros. apply decodes_ReadString. lia. Qed.

Lemma decodes_for_range {A B} (f : Z -> M Tr B) (enc : A -> list byte) (dec : A -> B) l i :
  (forall x j, x ∈ l -> decodes (f j) (enc x) (dec x)) ->
  decodes (for_range (length l) i f) (flat_map enc l) (map dec l).
Proof.
  revert i. induction l as [|x l IH]; intros i H; cbn [length for_range flat_map map].
  { apply decodes_ret. }
  eapply decodes_bind; [apply H; left|].
  eapply decodes_bind_ret; [apply IH; intros; apply H; by right|done].
Qed.

Lemma one_of_elim x l : one_of x l = true -> x ∈ l.
Proof.
  unfold one_of. intros (y & Hy & ->%Z.eqb_eq)%existsb_exists. by apply list_elem_of_In.
Qed.

(** Replace a value type known to be one of a list by each of them. *)
Ltac vt_cases H :=
  let x := fresh "vt" in
  match type of H with
  | one_of ?t _ = true =>
      apply one_of_elim in H; revert H; generalize t; intros x H;
      repeat (apply elem_of_cons in H as [->|H]); [..|by apply elem_of_nil in H]
  end.

(** The induction principle that reaches the field types of a ROW. *)
Fixpoint wire_type_ind_nested (P : wire_type -> Prop)
  (H1 : forall ti, P (WSimple ti)) (H2 : forall ti p, P (WPrec ti p)) (H3 : forall ti p, P (WLob ti p))
  (H4 : forall p s e, P (WNumeric p s e)) (H5 : forall ti p, P (WFloat ti p))
  (H6 : forall ti s, P (WTime ti s)) (H7 : forall ti p s, P (WInterval ti p s))
  (H8 : forall p e, P e -> P (WArray p e)) (H9 : forall l, P (WEnum l))
  (H10 : forall t s, P (WGeometry t s))
  (H11 : forall fs, Forall (fun f : gostring * wire_type => P f.2) fs -> P (WRow fs))
  (w : wire_type) : P w :=
  let rec := wire_type_ind_nested P H1 H2 H3 H4 H5 H6 H7 H8 H9 H10 H11 in
  match w with
  | WSimple ti => H1 ti
  | WPrec ti p => H2 ti p
  | WLob ti p => H3 ti p
  | WNumeric p s e => H4 p s e
  | WFloat ti p => H5 ti p
  | WTime ti s => H6 ti s
  | WInterval ti p s => H7 ti p s
  | WArray p e => H8 p e (rec e)
  | WEnum l => H9 l
  | WGeometry t s => H10 t s
  | WRow fs =>
      H11 fs ((fix all fs : Forall (fun f : gostring * wire_type => P f.2) fs :=
                 match fs with
                 | [] => Forall_nil_2 _
                 | f :: fs' => Forall_cons_2 _ f fs' (rec f.2) (all fs')
                 end) fs)
  end.

(** The driver's table is H2's. *)
Lemma lookup_type_code ti : default ValueTypeNull (tiToValueType !! ti) = vt_of ti.
Proof.
  assert (E : tiToValueType = list_to_map type_codes) by (vm_compute; reflexivity).
  rewrite E. unfold vt_of. change ValueTypeNull with 0. clear E. induction type_codes as [|[i v] l IH]; [done|].
  cbn [list_to_map foldr List.find fst snd uncurry]. destruct (i =? ti) eqn:Ei.
  - apply Z.eqb_eq in Ei as ->. by rewrite lookup_insert_eq.
  - rewrite lookup_insert_ne by lia. exact IH.
Qed.

Lemma byte_attr_signed b : byte_attr b = signed_byte b.
Proof.
  unfold byte_attr, signed_byte, intN. pose proof (b2z_range b).
  destruct (b2z b =? 255) eqn:E, (b2z b <? 128) eqn:E'; change (2 ^ (8 - 1)) with 128; change (2 ^ 8) with 256;
    Z.div_mod_to_equations; lia.
Qed.

Lemma decodes_type_id ti vt f bs a :
  vt_of ti = vt -> fits 32 ti = true -> decodes (readTypeAttrs (ReadTypeInfo_fuel f) ti vt) bs a ->
  decodes (ReadTypeInfo_fuel (S f)) (enc_int32 ti ++ bs) a.
Proof.
  intros <- Hti Hk. rewrite <- lookup_type_code in Hk. cbn [ReadTypeInfo_fuel].
  eapply decodes_bind; [by apply decodes_wrapf, decodes_ReadInt32, fits_in_intN|exact Hk].
Qed.

Lemma decodes_skip_fields rd vt fields :
  vt = ValueTypeRow -> fits 32 (zlen fields) = true ->
  Forall (fun f : gostring * wire_type => fits_string f.1 = true /\
            decodes rd (enc_type f.2) (type_meaning f.2)) fields ->
  decodes (skipExtTypeInfo rd vt) (enc_list (fun f => enc_string f.1 ++ enc_type f.2) fields) tt.
Proof.
  intros -> Hl Hf. unfold skipExtTypeInfo, enc_list. rewrite <- (app_nil_r (flat_map _ _)).
  eapply decodes_bind; [by apply decodes_wrapf, decodes_ReadInt32, fits_in_intN|].
  unfold zlen. rewrite Nat2Z.id. eapply decodes_bind; [|apply decodes_ret].
  apply (decodes_for_range _ _ (fun f => type_meaning f.2)). intros fl j Hin.
  rewrite Forall_forall in Hf. destruct (Hf fl Hin) as [H1 H2].
  eapply decodes_bind; [by apply decodes_wrapf, decodes_fits_string|by apply decodes_wrapf].
Qed.

Lemma decodes_skip_labels rd labels :
  fits 32 (zlen labels) = true -> forallb fits_string labels = true ->
  decodes (skipExtTypeInfo rd ValueTypeEnum) (enc_list enc_string labels) tt.
Proof.
  intros Hl Hf. unfold skipExtTypeInfo, enc_list. rewrite <- (app_nil_r (flat_map _ _)).
  eapply decodes_bind; [by apply decodes_wrapf, decodes_ReadInt32, fits_in_intN|].
  unfold zlen. rewrite Nat2Z.id. eapply decodes_bind; [|apply decodes_ret].
  apply (decodes_for_range _ _ (fun s => Some (sanitize s))). intros s j Hin.
  apply decodes_wrapf, decodes_fits_string.
  apply (forallb_forall fits_string labels); [done|by apply list_elem_of_In].
Qed.

Lemma decodes_skip_geometry rd type_id srid :
  from_option (fits 16) true type_id = true -> from_option (fits 32) true srid = true ->
  decodes (skipExtTypeInfo rd ValueTypeGeometry)
    ([z2b (geometry_kind type_id srid)] ++ from_option enc_int16 [] type_id
     ++ from_option enc_int32 [] srid) tt.
Proof.
  intros H1 H2. unfold skipExtTypeInfo.
  change (ValueTypeGeometry =? ValueTypeEnum) with false.
  change (ValueTypeGeometry =? ValueTypeGeometry) with true. cbv iota.
  eapply decodes_bind; [apply decodes_wrapf, decodes_ReadByte|].
  destruct type_id as [ty|], srid as [sr|]; cbn [geometry_kind from_option] in *;
    rewrite b2z_z2b_small by lia; cbn [Z.eqb Pos.eqb]; rewrite ?app_nil_r.
  - eapply decodes_bind; [by apply decodes_wrapf, decodes_ReadInt16, fits_in_intN|].
    eapply decodes_bind_ret; [by apply decodes_wrapf, decodes_ReadInt32, fits_in_intN|done].
  - eapply decodes_bind_ret; [by apply decodes_wrapf, decodes_ReadInt16, fits_in_intN|done].
  - eapply decodes_bind_ret; [by apply decodes_wrapf, decodes_ReadInt32, fits_in_intN|done].
  - apply decodes_ret.
Qed.

Lemma length_enc_int32 x : length (enc_int32 x) = 4%nat.
Proof. apply length_be_enc. Qed.

(** A field of a ROW is shorter than the ROW. *)
Lemma length_flat_map_elem {A} (enc : A -> list byte) l x :
  x ∈ l -> (length (enc x) <= length (flat_map enc l))%nat.
Proof.
  induction 1 as [x l|x y l _ IH]; cbn [flat_map]; rewrite length_app; lia.
Qed.

Ltac split_wf H :=
  repeat match type of H with
  | (_ && _) = true => apply andb_true_iff in H as [H ?]
  end.

Lemma decodes_ReadTypeInfo_fuel w f :
  wf_type w = true -> (length (enc_type w) < f)%nat ->
  decodes (ReadTypeInfo_fuel f) (enc_type w) (type_meaning w).
Proof.
  revert f. induction w as [ti|ti p|ti p|p s e|ti p|ti s|ti p s|p e IH|l|t s|fs IH]
    using wire_type_ind_nested; intros [|f] Hwf Hf; try lia; cbn [enc_type type_meaning wf_type] in *.
  - rewrite <- (app_nil_r (enc_int32 ti)). vt_cases Hwf; (eapply decodes_type_id; [reflexivity|reflexivity|apply decodes_ret]).
  - split_wf Hwf. vt_cases H; (eapply decodes_type_id; [reflexivity|reflexivity|]);
      (eapply decodes_bind_ret; [by apply decodes_wrapf, decodes_ReadInt32, fits_in_intN|done]).
  - split_wf Hwf. vt_cases H; (eapply decodes_type_id; [reflexivity|reflexivity|]);
      (eapply decodes_bind_ret; [by apply decodes_wrapf, decodes_ReadInt64, fits_in_intN|done]).
  - split_wf Hwf. eapply decodes_type_id; [reflexivity|reflexivity|].
    eapply decodes_bind; [by apply decodes_wrapf, decodes_ReadInt32, fits_in_intN|].
    eapply decodes_bind; [by apply decodes_wrapf, decodes_ReadInt32, fits_in_intN|].
    eapply decodes_bind_ret; [by apply decodes_wrapf, decodes_ReadBool|done].
  - rewrite <- byte_attr_signed. vt_cases Hwf; (eapply decodes_type_id; [reflexivity|reflexivity|]);
      (eapply decodes_bind_ret; [apply decodes_wrapf, decodes_ReadByte|done]).
  - rewrite <- byte_attr_signed. vt_cases Hwf; (eapply decodes_type_id; [reflexivity|reflexivity|]);
      (eapply decodes_bind_ret; [apply decodes_wrapf, decodes_ReadByte|done]).
  - rewrite <- !byte_attr_signed. vt_cases Hwf; (eapply decodes_type_id; [reflexivity|reflexivity|]);
      (eapply decodes_bind; [apply decodes_wrapf, decodes_ReadByte|]);
      solve [apply decodes_ret | eapply decodes_bind_ret; [apply decodes_wrapf, decodes_ReadByte|done]].
  - split_wf Hwf. eapply decodes_type_id; [reflexivity|reflexivity|]. rewrite !length_app, !length_enc_int32 in Hf.
    eapply decodes_bind; [by apply decodes_wrapf, decodes_ReadInt32, fits_in_intN|].
    eapply decodes_bind_ret; [apply decodes_wrapf, IH; [done|lia]|done].
  - split_wf Hwf. eapply decodes_type_id; [reflexivity|reflexivity|].
    eapply decodes_bind_ret; [by apply decodes_skip_labels|done].
  - split_wf Hwf. eapply decodes_type_id; [reflexivity|reflexivity|].
    eapply decodes_bind_ret; [by apply decodes_skip_geometry|done].
  - split_wf Hwf. eapply decodes_type_id; [reflexivity|reflexivity|].
    eapply decodes_bind_ret; [|done]. apply decodes_skip_fields; [done|done|].
    rewrite Forall_forall in IH |- *. intros fl Hin.
    rewrite forallb_forall in H. specialize (H fl (proj1 (list_elem_of_In _ _) Hin)).
    apply andb_true_iff in H as [H1 H2]. split; [done|]. apply (IH fl Hin); [done|].
    apply (length_flat_map_elem (fun f => enc_string f.1 ++ enc_type f.2)) in Hin.
    cbv beta in Hin. rewrite length_app in Hin.
    unfold enc_list in Hf. rewrite !length_app, !length_enc_int32 in Hf. lia.
Qed.

Lemma decodes_ReadTypeInfo w :
  wf_type w = true -> decodes ReadTypeInfo (enc_type w) (type_meaning w).
Proof.
  intros Hw. apply decodes_fueled; [apply stable_ReadTypeInfo|].
  intros f Hf. by apply decodes_ReadTypeInfo_fuel.
Qed.

(** ** Correctness *)

(** C30 (roundtrip). [ReadTypeInfo] decodes every type the protocol can describe,
    nested to any depth: it consumes exactly the bytes of its metadata frame, also
    the extended information of ENUM, GEOMETRY and ROW types that the driver skips,
    and returns the value type that H2's own table assigns to the type id, with the
    attributes the frame carries, element types included. *)
Theorem ReadTypeInfo_decodes_grammar w :
  wf_type w = true -> decodes ReadTypeInfo (enc_type w) (type_meaning w).
Proof. apply decodes_ReadTypeInfo. Qed.

(** ARRAY of ROW (a VARCHAR(10), b NUMERIC(12,2)). *)
Definition sample_type : wire_type :=
  WArray 5 (WRow [(lit "a", WPrec TIVarchar 10); (lit "b", WNumeric 12 2 false)]).

Lemma ReadTypeInfo_decodes_grammar_witness :
  decodes ReadTypeInfo (enc_type sample_type)
    (mkTypeInfo ValueTypeArray 5 (-1) ColumnNullableUnknown
       (Some (mkTypeInfo ValueTypeRow (-1) (-1) ColumnNullableUnknown None))).
Proof. exact (ReadTypeInfo_decodes_grammar sample_type eq_refl). Defined.

(** The recursion of [ReadTypeInfo] always ends, whatever the bytes:
    with more fuel than there are unread bytes the result does not depend on the
    fuel, and neither running out of fuel nor a panic is ever the outcome. *)
Theorem ReadTypeInfo_enough_fuel t :
  (forall f, (length (input t) < f)%nat -> ReadTypeInfo_fuel f t = ReadTypeInfo t) /\
  (forall e t', ReadTypeInfo t = (Err e, t') -> plain e = true).
Proof.
  split.
  - intros f Hf. symmetry. apply fueled_run; [apply stable_ReadTypeInfo|done].
  - apply plain_errs_ReadTypeInfo.
Qed.
