(* ===== verification/Metadata.v ===== *)
(** * Result set metadata (metadata.go)

    The columns of a result: labels, names, type, identity and nullability. *)

From S2P Require Import Prelude.
From S2P Require Import GoText.
From S2P Require Import Protocol.
From S2P Require Import Transfer.
From S2P Require Import TypeInfo.

Record ResultColumn := mkResultColumn {
  Alias : gostring;
  SchemaName : gostring;
  TableName : gostring;
  ColumnName : gostring;
  ColType : TypeInfo;
  Identity : bool;
  ColNullable : Z
}.

Record ResultMeta := mkResultMeta {
  ColumnCount : Z;
  Columns : list ResultColumn
}.

(** The cap on element, row, column and parameter counts (value_read.go). *)
Definition maxWireCollectionElements : Z := Z.shiftl 1 20.

Definition set_nullable (n : Z) (ti : TypeInfo) : TypeInfo :=
  mkTypeInfo (ValueType ti) (Precision ti) (Scale ti) n (ExtTypeInfo ti).

(** The body of the column loop. *)
Definition readResultColumn (version i : Z) : M Tr ResultColumn :=
  alias <- wrapf "h2go: ReadResultMeta: column %d: failed to read alias: %w" [AInt i] ReadString ;;
  schema <- wrapf "h2go: ReadResultMeta: column %d: failed to read schema: %w" [AInt i] ReadString ;;
  table <- wrapf "h2go: ReadResultMeta: column %d: failed to read table: %w" [AInt i] ReadString ;;
  name <- wrapf "h2go: ReadResultMeta: column %d: failed to read column name: %w" [AInt i] ReadString ;;
  typeInfo <- wrapf "h2go: ReadResultMeta: column %d: failed to read type info: %w" [AInt i] ReadTypeInfo ;;
  (if version <? TCPProtocolVersion20 then
     wrapf "h2go: ReadResultMeta: column %d: failed to skip displaySize: %w" [AInt i] ReadInt32 ;; ret tt
   else ret tt) ;;
  identity <- wrapf "h2go: ReadResultMeta: column %d: failed to read identity: %w" [AInt i] ReadBool ;;
  nullable <- wrapf "h2go: ReadResultMeta: column %d: failed to read nullable: %w" [AInt i] ReadInt32 ;;
  ret (mkResultColumn (default [] alias) (default [] schema) (default [] table) (default [] name)
         (set_nullable nullable typeInfo) identity nullable).

Definition ReadResultMeta (columnCount version : Z) : M Tr ResultMeta :=
  if columnCount <? 0 then
    fail (EErrorf "h2go: ReadResultMeta: invalid column count %d" [AInt columnCount])
  else if maxWireCollectionElements <? columnCount then
    fail (EErrorf "h2go: ReadResultMeta: column count %d exceeds cap %d"
            [AInt columnCount; AInt maxWireCollectionElements])
  else
    cols <- for_range (Z.to_nat columnCount) 0 (readResultColumn version) ;;
    ret (mkResultMeta columnCount cols).

Definition ColumnNames (m : ResultMeta) : list gostring := map Alias (Columns m).

(** [None] is the nil pointer for an index out of range. *)
Definition GetColumn (m : ResultMeta) (index : Z) : option ResultColumn :=
  if (index <? 0) || (zlen (Columns m) <=? index) then None
  else Columns m !! Z.to_nat index.

Definition GetColumnByName (m : ResultMeta) (name : gostring) : option ResultColumn :=
  List.find (fun c => bool_decide (Alias c = name)) (Columns m).

Definition NullableString (n : Z) : gostring :=
  if n =? ColumnNoNulls then lit "NO_NULLS"
  else if n =? ColumnNullable then lit "NULLABLE"
  else if n =? ColumnNullableUnknown then lit "NULLABLE_UNKNOWN"
  else lit "UNKNOWN(" ++ FormatInt n ++ lit ")".

(** ** Lemmas *)

Lemma reader_readResultColumn version i : reader (readResultColumn version i).
Proof. unfold readResultColumn. solve_reader. Qed.
#[export] Hint Resolve reader_readResultColumn : h2go.

Lemma reader_ReadResultMeta n v : reader (ReadResultMeta n v).
Proof. unfold ReadResultMeta. solve_reader. Qed.
#[export] Hint Resolve reader_ReadResultMeta : h2go.

Lemma plain_errs_ReadResultMeta n v : plain_errs (ReadResultMeta n v).
Proof. unfold ReadResultMeta, readResultColumn. solve_plain_errs. Qed.
#[export] Hint Resolve plain_errs_ReadResultMeta : h2go.

Lemma for_range_length {S A} n i (f : Z -> M S A) s l s' :
  for_range n i f s = (Ok l, s') -> length l = n.
Proof.
  revert i s l. induction n as [|n IH]; intros i s l H; cbn [for_range] in H; m_inv; [done|].
  cbn. f_equal. by eapply IH.
Qed.

Lemma ReadResultMeta_count n v t m t' :
  ReadResultMeta n v t = (Ok m, t') ->
  ColumnCount m = n /\ zlen (Columns m) = n /\ 0 <= n <= maxWireCollectionElements.
Proof.
  unfold ReadResultMeta. intros H. destruct (n <? 0) eqn:E1; [m_inv|].
  destruct (maxWireCollectionElements <? n) eqn:E2; [m_inv|]. m_inv.
  match goal with H : for_range _ _ _ _ = _ |- _ => apply for_range_length in H end.
  unfold zlen. cbn. lia.
Qed.

Lemma GetColumn_in_range m j :
  0 <= j < zlen (Columns m) -> exists c, GetColumn m j = Some c /\ Columns m !! Z.to_nat j = Some c.
Proof.
  intros Hj. unfold GetColumn, zlen in *.
  replace (_ || _) with false by lia.
  destruct (lookup_lt_is_Some_2 (Columns m) (Z.to_nat j)) as [c Hc]; [lia|]. eauto.
Qed.

(** ** The metadata of a result as the server writes it (protocol 20 and later) *)

Record wire_column := mkWireColumn {
  wc_alias : gostring;
  wc_schema : option gostring;
  wc_table : option gostring;
  wc_name : option gostring;
  wc_type : wire_type;
  wc_identity : bool;
  wc_nullable : Z
}.

Definition enc_ostring (s : option gostring) : list byte :=
  match s with
  | None => enc_int32 (-1)
  | Some s => enc_string s
  end.

Definition enc_column (c : wire_column) : list byte :=
  enc_string (wc_alias c) ++ enc_ostring (wc_schema c) ++ enc_ostring (wc_table c)
  ++ enc_ostring (wc_name c) ++ enc_type (wc_type c) ++ enc_bool (wc_identity c)
  ++ enc_int32 (wc_nullable c).

Definition column_meaning (c : wire_column) : ResultColumn :=
  mkResultColumn (sanitize (wc_alias c))
    (default [] (sanitize <$> wc_schema c)) (default [] (sanitize <$> wc_table c))
    (default [] (sanitize <$> wc_name c))
    (set_nullable (wc_nullable c) (type_meaning (wc_type c))) (wc_identity c) (wc_nullable c).

Definition wf_column (c : wire_column) : bool :=
  fits_string (wc_alias c) && from_option fits_string true (wc_schema c)
  && from_option fits_string true (wc_table c) && from_option fits_string true (wc_name c)
  && wf_type (wc_type c) && fits 32 (wc_nullable c).

Lemma decodes_ostring s :
  from_option fits_string true s = true -> decodes ReadString (enc_ostring s) (sanitize <$> s).
Proof.
  destruct s as [s|]; cbn; [apply decodes_fits_string|]. intros _. apply decodes_ReadString_null.
Qed.

Lemma decodes_readResultColumn version i c :
  TCPProtocolVersion20 <= version -> wf_column c = true ->
  decodes (readResultColumn version i) (enc_column c) (column_meaning c).
Proof.
  intros Hv Hw. unfold wf_column in Hw. split_wf Hw. unfold readResultColumn, enc_column.
  eapply decodes_bind; [by apply decodes_wrapf, decodes_fits_string|].
  eapply decodes_bind; [by apply decodes_wrapf, decodes_ostring|].
  eapply decodes_bind; [by apply decodes_wrapf, decodes_ostring|].
  eapply decodes_bind; [by apply decodes_wrapf, decodes_ostring|].
  eapply decodes_bind; [by apply decodes_wrapf, decodes_ReadTypeInfo|].
  replace (version <? TCPProtocolVersion20) with false by lia.
  eapply decodes_bind_nil; [apply decodes_ret|].
  eapply decodes_bind; [apply decodes_wrapf, decodes_ReadBool|].
  eapply decodes_bind_ret; [by apply decodes_wrapf, decodes_ReadInt32, fits_in_intN|done].
Qed.

Lemma decodes_ReadResultMeta version cols :
  TCPProtocolVersion20 <= version -> zlen cols <= maxWireCollectionElements ->
  forallb wf_column cols = true ->
  decodes (ReadResultMeta (zlen cols) version) (flat_map enc_column cols)
    (mkResultMeta (zlen cols) (map column_meaning cols)).
Proof.
  intros Hv Hl Hw. unfold ReadResultMeta. pose proof (zlen_nonneg cols).
  replace (zlen cols <? 0) with false by lia.
  replace (maxWireCollectionElements <? zlen cols) with false by lia.
  eapply decodes_bind_ret; [|done]. unfold zlen at 1. rewrite Nat2Z.id.
  apply decodes_for_range. intros c j Hc. apply decodes_readResultColumn; [done|].
  apply (forallb_forall wf_column cols); [done|by apply list_elem_of_In].
Qed.

(** ** Correctness *)

(** [ReadResultMeta] decodes the metadata of any result up to the
    column cap: it consumes exactly the columns' bytes and returns one column per
    column sent, in order, absent names as empty strings. *)
Theorem ReadResultMeta_decodes cols :
  zlen cols <= maxWireCollectionElements -> forallb wf_column cols = true ->
  decodes (ReadResultMeta (zlen cols) TCPProtocolVersion21) (flat_map enc_column cols)
    (mkResultMeta (zlen cols) (map column_meaning cols)).
Proof. intros. apply decodes_ReadResultMeta; [by vm_compute|done|done]. Qed.

Definition sample_columns : list wire_column := [
  mkWireColumn (lit "ID") (Some (lit "PUBLIC")) (Some (lit "T")) (Some (lit "ID"))
    (WSimple TIBigint) true ColumnNoNulls;
  mkWireColumn (lit "1 + 1") None None None (WSimple TIInteger) false ColumnNullable ].

Lemma ReadResultMeta_decodes_witness :
  decodes (ReadResultMeta 2 TCPProtocolVersion21) (flat_map enc_column sample_columns)
    (mkResultMeta 2 (map column_meaning sample_columns)).
Proof.
  apply (ReadResultMeta_decodes sample_columns); [vm_compute; discriminate|vm_compute; reflexivity].
Defined.

(** A column count from the wire is checked before it is used: metadata
    that is returned has exactly the announced number of columns, none of them out
    of range for [GetColumn], and the count is between 0 and the cap. *)
Theorem ReadResultMeta_bounds n version t m t' :
  ReadResultMeta n version t = (Ok m, t') ->
  0 <= n <= maxWireCollectionElements /\
  ColumnCount m = zlen (Columns m) /\ zlen (ColumnNames m) = n /\
  (forall j, is_Some (GetColumn m j) <-> 0 <= j < n).
Proof.
  intros H. destruct (ReadResultMeta_count _ _ _ _ _ H) as (H1 & H2 & H3).
  split_and!; [lia..|congruence|unfold ColumnNames, zlen in *; by rewrite length_map|].
  intros j. split.
  - intros [c Hc]. unfold GetColumn in Hc. destruct (_ || _) eqn:E; [done|]. lia.
  - intros Hj. destruct (GetColumn_in_range m j) as (c & Hc & _); [lia|]. by exists c.
Qed.

Lemma ReadResultMeta_bounds_witness :
  0 <= 2 <= maxWireCollectionElements.
Proof.
  destruct (ReadResultMeta_bounds 2 TCPProtocolVersion21
              (stream (flat_map enc_column sample_columns))
              (mkResultMeta 2 (map column_meaning sample_columns)) (stream []))
    as (H & _); [vm_compute; reflexivity|exact H].
Defined.
