(* ===== verification/DecFloat.v ===== *)
(** * Exact decimal floating-point values (decfloat.go)

    A finite [DecFloat] is [unscaled * 10^-scale], the representation of
    [java.math.BigDecimal]; its text is what H2 puts on the wire for a DECFLOAT. *)

From Stdlib Require Import Strings.Byte.
From S2P Require Import Prelude.
From S2P Require Import GoText.

Inductive decSpecial := decFinite | decPosInf | decNegInf | decNaN.

#[global] Instance decSpecial_eq_dec : EqDecision decSpecial.
Proof. solve_decision. Defined.

(** [unscaled]: [None] is the nil [*big.Int], which stands for 0. *)
Record DecFloat := mkDecFloat {
  special : decSpecial;
  unscaled : option Z;
  scale : Z
}.

Definition zeroDecFloat : DecFloat := mkDecFloat decFinite None 0.

Definition is_digit (b : byte) : bool := between 48 (b2z b) 57.

(** [for i < n && p(s[i]) { i++ }]: what was passed and what is left. *)
Fixpoint span (p : byte -> bool) (s : gostring) : gostring * gostring :=
  match s with
  | [] => ([], [])
  | b :: s' => if p b then let '(l, r) := span p s' in (b :: l, r) else ([], s)
  end.

(** An optional sign: whether it is a minus, and what follows. *)
Definition take_sign (s : gostring) : bool * gostring :=
  match s with
  | [] => (false, [])
  | b :: s' =>
      if decide (b = "-"%byte) then (true, s')
      else if decide (b = "+"%byte) then (false, s')
      else (false, s)
  end.

(** The optional exponent at the start of [s3], in the text [s]: its value and the
    rest of the text. *)
Definition parse_exponent (s s3 : gostring) : res (Z * gostring) :=
  match s3 with
  | b :: s' =>
      if bool_decide (b = "e"%byte) || bool_decide (b = "E"%byte) then
        let '(expNeg, s4) := take_sign s' in
        let '(ds, s5) := span is_digit s4 in
        if zlen ds =? 0 then
          Err (EErrorf "h2go: ParseDecFloat: exponent digits missing in %q" [AStr s])
        else if 10 <? zlen s4 then
          Err (EErrorf "h2go: ParseDecFloat: exponent out of range in %q" [AStr s])
        else
          let v := default 0 (ParseInt ds) in
          Ok (if expNeg then - v else v, s5)
      else Ok (0, s3)
  | [] => Ok (0, s3)
  end.

Definition ParseDecFloat (s : gostring) : res DecFloat :=
  if decide (s = lit "Infinity") then Ok (mkDecFloat decPosInf None 0)
  else if decide (s = lit "-Infinity") then Ok (mkDecFloat decNegInf None 0)
  else if decide (s = lit "NaN") then Ok (mkDecFloat decNaN None 0)
  else
    let '(neg, s1) := take_sign s in
    let '(intDigits, s2) := span is_digit s1 in
    let '(fracDigits, s3) :=
      match s2 with
      | b :: s' => if decide (b = "."%byte) then span is_digit s' else ([], s2)
      | [] => ([], s2)
      end in
    let ds := intDigits ++ fracDigits in
    if zlen ds =? 0 then Err (EErrorf "h2go: ParseDecFloat: no digits in %q" [AStr s])
    else
      match parse_exponent s s3 with
      | Err e => Err e
      | Ok (_, b :: _) =>
          Err (EErrorf "h2go: ParseDecFloat: unexpected character %q in %q" [AInt (b2z b); AStr s])
      | Ok (exp, []) =>
          let scale := zlen fracDigits - exp in
          let maxInt32 := Z.shiftl 1 31 - 1 in
          if (maxInt32 <? scale) || (scale <? - maxInt32 - 1) then
            Err (EErrorf "h2go: ParseDecFloat: scale %d out of range in %q" [AInt scale; AStr s])
          else
            match digits_val 10 0 ds with
            | None => Err (EErrorf "h2go: ParseDecFloat: bad digits in %q" [AStr s])
            | Some un => Ok (mkDecFloat decFinite (Some (if neg then - un else un)) (int32 scale))
            end
      end.

Definition DecFloat_String (d : DecFloat) : gostring :=
  match special d with
  | decPosInf => lit "Infinity"
  | decNegInf => lit "-Infinity"
  | decNaN => lit "NaN"
  | decFinite =>
      let '(neg, ds) := match unscaled d with
                        | None => (false, lit "0")
                        | Some u => (u <? 0, FormatInt (Z.abs u))
                        end in
      let p := zlen ds in
      let sc := scale d in
      let adjusted := p - 1 - sc in
      (if neg then lit "-" else []) ++
      (if (0 <=? sc) && (-6 <=? adjusted) then
         if sc =? 0 then ds
         else if sc <? p then
           take (Z.to_nat (p - sc)) ds ++ lit "." ++ drop (Z.to_nat (p - sc)) ds
         else lit "0." ++ Repeat "0"%byte (sc - p) ++ ds
       else
         take 1 ds ++ (if 1 <? p then lit "." ++ drop 1 ds else []) ++ lit "E" ++
         (if 0 <=? adjusted then lit "+" ++ FormatInt adjusted
          else lit "-" ++ FormatInt (- adjusted)))
  end.

Definition IsNaN (d : DecFloat) : bool := bool_decide (special d = decNaN).

Definition IsInf (sign : Z) (d : DecFloat) : bool :=
  if 0 <? sign then bool_decide (special d = decPosInf)
  else if sign <? 0 then bool_decide (special d = decNegInf)
  else bool_decide (special d = decPosInf) || bool_decide (special d = decNegInf).

Definition IsFinite (d : DecFloat) : bool := bool_decide (special d = decFinite).
Definition DecFloat_Scale (d : DecFloat) : Z := scale d.
Definition UnscaledInt (d : DecFloat) : option Z := unscaled d.

(** A source of [Rows.Scan]: SQL NULL, a string, a byte slice, or a value of another
    Go type, of which only the name matters. *)
Inductive scan_source :=
| SrcNil
| SrcString (s : gostring)
| SrcBytes (s : list byte)
| SrcOther (goType : gostring).

(** The receiver is overwritten on success only. *)
Definition DecFloat_Scan (src : scan_source) : M DecFloat unit := fun d =>
  let parse v := match ParseDecFloat v with
                 | Err e => (Err (EWrapf "h2go: DecFloat.Scan: %w" [] [e]), d)
                 | Ok parsed => (Ok tt, parsed)
                 end in
  match src with
  | SrcNil => (Ok tt, zeroDecFloat)
  | SrcString v => parse v
  | SrcBytes v => parse v
  | SrcOther t => (Err (EErrorf "h2go: DecFloat.Scan: unsupported source type %T" [AStr t]), d)
  end.

Definition DecFloat_Value (d : DecFloat) : res gostring := Ok (DecFloat_String d).

Example decfloat_ex :
  ParseDecFloat (lit "-.25e+3") = Ok (mkDecFloat decFinite (Some (-25)) (-1)) /\
  DecFloat_String (mkDecFloat decFinite (Some (-25)) (-1)) = lit "-2.5E+2" /\
  DecFloat_String (mkDecFloat decFinite (Some 123) 9) = lit "1.23E-7" /\
  DecFloat_String (mkDecFloat decFinite (Some 123) 8) = lit "0.00000123" /\
  DecFloat_String (mkDecFloat decFinite (Some 12345) 2) = lit "123.45".
Proof. vm_compute. repeat split; reflexivity. Qed.

(** ** Lemmas *)

Definition digit_string (s : gostring) : Prop := Forall (fun b => is_digit b = true) s.

(** A text that does not start with a digit. *)
Definition no_digit_head (s : gostring) : Prop := forall b s', s = b :: s' -> is_digit b = false.

Lemma span_app s1 s2 : digit_string s1 -> no_digit_head s2 -> span is_digit (s1 ++ s2) = (s1, s2).
Proof.
  intros H1 H2. induction H1 as [|b s1 Hb _ IH]; cbn [app span].
  - destruct s2 as [|b s2]; [done|]. cbn. by rewrite (H2 b s2).
  - by rewrite Hb, IH.
Qed.

Lemma digit_string_digits n : 0 <= n -> digit_string (digits 10 n).
Proof. intros. apply Forall_forall. intros b Hb. by apply (digits_char_range n b). Qed.

Lemma digits_length_bound n k : 0 <= n < 10 ^ k -> 1 <= k -> zlen (digits 10 n) <= k.
Proof.
  intros Hn Hk. destruct (digits_spells 10 n) as [H1 _ _ [H|H] _]; [lia..|].
  apply Z.nlt_ge. intros Hlt. assert (10 ^ k <= 10 ^ (zlen (digits 10 n) - 1)); [|lia].
  apply Z.pow_le_mono_r; lia.
Qed.

(** The text of an exponent as [String] writes it. *)
Definition exp_text (adjusted : Z) : gostring :=
  lit "E" ++ (if 0 <=? adjusted then lit "+" ++ FormatInt adjusted else lit "-" ++ FormatInt (- adjusted)).

(** An exponent of at most ten digits that ends the text. *)
Lemma parse_exponent_signed s (neg : bool) n :
  0 <= n < 10 ^ 10 ->
  parse_exponent s ("E"%byte :: (if neg then "-"%byte else "+"%byte) :: digits 10 n)
  = Ok (if neg then - n else n, []).
Proof.
  intros Hn. pose proof (digits_length_bound n 10 ltac:(lia) ltac:(lia)) as Hlen.
  destruct (digits_spells 10 n) as [Hpos _ _ _ _]; [lia..|].
  assert (Hp : ParseInt (digits 10 n) = Some n).
  { rewrite <- (ParseInt_FormatInt n) by (unfold in_intN; lia).
    unfold FormatInt. by replace (n <? 0) with false by lia. }
  assert (Hspan : span is_digit (digits 10 n) = (digits 10 n, [])).
  { rewrite <- (app_nil_r (digits 10 n)) at 1. apply span_app; [apply digit_string_digits; lia|done]. }
  unfold parse_exponent. rewrite (bool_decide_eq_true_2 ("E"%byte = "E"%byte)), orb_true_r by done.
  replace (take_sign _) with (neg, digits 10 n) by (by destruct neg).
  rewrite Hspan. replace (zlen _ =? 0) with false by lia.
  replace (10 <? zlen _) with false by lia. by rewrite Hp.
Qed.

Lemma parse_exponent_text s a :
  - 10 ^ 10 < a < 10 ^ 10 -> parse_exponent s (exp_text a) = Ok (a, []).
Proof.
  intros Ha. unfold exp_text, FormatInt. destruct (0 <=? a) eqn:E.
  - replace (a <? 0) with false by lia. apply (parse_exponent_signed s false a). lia.
  - replace (- a <? 0) with false by lia.
    etransitivity; [apply (parse_exponent_signed s true (- a)); lia|]. by rewrite Z.opp_involutive.
Qed.

(** A finite number as text: sign, digits, an optional point with digits after it,
    an optional exponent. *)
Definition number_text (neg : bool) (intd : gostring) (frac : option gostring) (exp : option Z) : gostring :=
  (if neg then lit "-" else []) ++ intd ++ from_option (fun f => lit "." ++ f) [] frac
  ++ from_option exp_text [] exp.

Definition in_int32 (z : Z) : Prop := in_intN 32 z.

(** How the steps of a parser cut a number text. *)
Lemma number_text_cut neg intd frac exp :
  intd <> [] -> digit_string intd -> digit_string (default [] frac) ->
  let s := number_text neg intd frac exp in
  let s1 := intd ++ from_option (fun f => lit "." ++ f) [] frac ++ from_option exp_text [] exp in
  let s2 := from_option (fun f => lit "." ++ f) [] frac ++ from_option exp_text [] exp in
  s <> lit "Infinity" /\ s <> lit "-Infinity" /\ s <> lit "NaN" /\
  take_sign s = (neg, s1) /\ span is_digit s1 = (intd, s2) /\
  (match s2 with
   | b :: s' => if decide (b = "."%byte) then span is_digit s' else ([], s2)
   | [] => ([], s2)
   end) = (default [] frac, from_option exp_text [] exp).
Proof.
  intros Hne Hi Hf s s1 s2. destruct intd as [|d intd]; [done|].
  assert (Hd : is_digit d = true) by by inversion Hi.
  assert (Hnd : forall c, is_digit c = false -> d <> c) by (intros c Hc ->; congruence).
  assert (Hexp : no_digit_head (from_option exp_text [] exp)).
  { intros b s' Hb. destruct exp as [e|]; [|done]. cbn in Hb. injection Hb as <- _. reflexivity. }
  split_and!.
  1-3: unfold s, number_text; destruct neg; cbn -[from_option]; intros [=]; eapply Hnd; try eassumption; reflexivity.
  - unfold s, number_text. destruct neg; [done|]. cbn [app take_sign]. by rewrite !decide_False by (apply Hnd; reflexivity).
  - apply span_app; [done|]. intros b s' Hb. unfold s2 in Hb. destruct frac; [injection Hb as <- _; reflexivity|by eapply Hexp].
  - unfold s2. destruct frac as [f|]; cbn -[exp_text]; [by apply span_app|by destruct exp].
Qed.

Lemma ParseDecFloat_number neg intd frac exp n :
  intd <> [] -> digit_string intd -> digit_string (default [] frac) ->
  digits_val 10 0 (intd ++ default [] frac) = Some n ->
  - 10 ^ 10 < default 0 exp < 10 ^ 10 ->
  in_int32 (zlen (default [] frac) - default 0 exp) ->
  ParseDecFloat (number_text neg intd frac exp)
  = Ok (mkDecFloat decFinite (Some (if neg then - n else n)) (zlen (default [] frac) - default 0 exp)).
Proof.
  intros Hne Hi Hf Hv He Hs. destruct (number_text_cut neg intd frac exp Hne Hi Hf) as (H1 & H2 & H3 & Hsg & Hsp & Hfr).
  unfold ParseDecFloat. rewrite !decide_False by done. rewrite Hsg, Hsp, Hfr.
  replace (zlen _ =? 0) with false
    by (rewrite zlen_app; pose proof (zlen_nonneg (default [] frac)); destruct intd; [done|]; rewrite zlen_cons; pose proof (zlen_nonneg intd); lia).
  replace (parse_exponent _ _) with (@Ok (Z * gostring) (default 0 exp, [])).
  2:{ destruct exp as [e|]; [|done]. symmetry. by apply parse_exponent_text. }
  unfold in_int32, in_intN in Hs. change (Z.shiftl 1 31 - 1) with (2 ^ 31 - 1).
  replace (_ || _) with false by lia. rewrite Hv, intN_small by (done || lia). done.
Qed.

(** What parsing gives for the text of [d]: the nil [*big.Int] becomes an explicit 0,
    and a special value has no digits. *)
Definition normalized (d : DecFloat) : DecFloat :=
  match special d with
  | decFinite => mkDecFloat decFinite (Some (default 0 (unscaled d))) (scale d)
  | sp => mkDecFloat sp None 0
  end.

Definition dec_digits (d : DecFloat) : gostring := digits 10 (Z.abs (default 0 (unscaled d))).
Definition dec_neg (d : DecFloat) : bool := default 0 (unscaled d) <? 0.
Definition adjusted (d : DecFloat) : Z := zlen (dec_digits d) - 1 - scale d.
Definition plain_notation (d : DecFloat) : bool := (0 <=? scale d) && (-6 <=? adjusted d).

(** [String] of a finite value, written as a number text. *)
Lemma String_number_text d :
  special d = decFinite ->
  DecFloat_String d =
  let ds := dec_digits d in
  let p := zlen ds in
  let cut k := number_text (dec_neg d) (take k ds) (Some (drop k ds)) in
  if plain_notation d then
    if scale d =? 0 then number_text (dec_neg d) ds None None
    else if scale d <? p then cut (Z.to_nat (p - scale d)) None
    else number_text (dec_neg d) (lit "0") (Some (Repeat "0"%byte (scale d - p) ++ ds)) None
  else if 1 <? p then cut 1%nat (Some (adjusted d))
  else number_text (dec_neg d) (take 1 ds) None (Some (adjusted d)).
Proof.
  intros Hs. unfold DecFloat_String. rewrite Hs.
  assert ((match unscaled d with
           | None => (false, lit "0")
           | Some u => (u <? 0, FormatInt (Z.abs u))
           end) = (dec_neg d, dec_digits d)) as ->.
  { unfold dec_neg, dec_digits. destruct (unscaled d) as [u|]; [|done]. cbn -[digits]. f_equal.
    unfold FormatInt. by replace (Z.abs u <? 0) with false by lia. }
  cbv zeta. fold (adjusted d). unfold plain_notation, number_text.
  destruct (_ && _); [destruct (scale d =? 0); [|destruct (scale d <? zlen _)]|destruct (1 <? zlen _)];
    cbn [from_option]; unfold exp_text; rewrite <- ?app_assoc, ?app_nil_r; done.
Qed.

Lemma Forall_zeros n : digit_string (Repeat "0"%byte n).
Proof. unfold Repeat. induction (Z.to_nat n); cbn [repeat]; constructor; done. Qed.

Lemma zlen_Repeat b n : 0 <= n -> zlen (Repeat b n) = n.
Proof. intros. unfold zlen, Repeat. rewrite repeat_length. lia. Qed.

Lemma zlen_drop {A} (l : list A) k : zlen (drop k l) = Z.max 0 (zlen l - Z.of_nat k).
Proof. unfold zlen. rewrite length_drop. lia. Qed.

(** Number texts over the digits of [d]: what they parse to, by the digits and the
    scale they spell. *)
Lemma number_text_parses d intd frac exp :
  in_int32 (scale d) -> - 10 ^ 10 < default 0 exp < 10 ^ 10 ->
  intd <> [] -> digit_string intd -> digit_string (default [] frac) ->
  digits_val 10 0 (intd ++ default [] frac) = Some (Z.abs (default 0 (unscaled d))) ->
  zlen (default [] frac) - default 0 exp = scale d ->
  ParseDecFloat (number_text (dec_neg d) intd frac exp)
  = Ok (mkDecFloat decFinite (Some (default 0 (unscaled d))) (scale d)).
Proof.
  intros Hs He Hi Hd Hf Hv Hsc.
  rewrite (ParseDecFloat_number _ _ _ _ _ Hi Hd Hf Hv He) by (by rewrite Hsc).
  rewrite Hsc. do 2 f_equal. f_equal. unfold dec_neg.
  destruct (default 0 (unscaled d) <? 0) eqn:E; lia.
Qed.

(** The text of a finite value is a number text that spells its digits and its scale. *)
Record spelled (d : DecFloat) (intd : gostring) (frac : option gostring) (exp : option Z) : Prop := {
  spelled_nonempty : intd <> [];
  spelled_int : digit_string intd;
  spelled_frac : digit_string (default [] frac);
  spelled_val : digits_val 10 0 (intd ++ default [] frac) = Some (Z.abs (default 0 (unscaled d)));
  spelled_scale : zlen (default [] frac) - default 0 exp = scale d;
  spelled_exp : - 10 ^ 10 < default 0 exp < 10 ^ 10
}.

Lemma cut_spelled d k exp :
  let ds := dec_digits d in
  (0 < k)%nat -> - 10 ^ 10 < default 0 exp < 10 ^ 10 -> Z.of_nat k <= zlen ds ->
  zlen ds - Z.of_nat k - default 0 exp = scale d -> spelled d (take k ds) (Some (drop k ds)) exp.
Proof.
  intros ds Hk He Hz Hsc.
  pose proof (digit_string_digits (Z.abs (default 0 (unscaled d))) ltac:(lia)) as Hd.
  destruct (digits_spells 10 (Z.abs (default 0 (unscaled d)))) as [Hpos Hval _ _ _]; [lia..|].
  change (digits 10 _) with ds in *.
  split; [|by apply Forall_take|by apply Forall_drop|..|done].
  - intros H. apply (f_equal length) in H. rewrite length_take in H. cbn [length] in H.
    unfold zlen in *. lia.
  - cbn [from_option id]. rewrite take_drop, Hval. done.
  - change (default [] (Some (drop k ds))) with (drop k ds). rewrite zlen_drop, Z.max_r by lia. done.
Qed.

Lemma String_spelled d :
  special d = decFinite -> in_int32 (scale d) -> zlen (dec_digits d) <= 2 ^ 31 ->
  exists intd frac exp, DecFloat_String d = number_text (dec_neg d) intd frac exp /\ spelled d intd frac exp.
Proof.
  intros Hs Hsc Hlen. rewrite String_number_text by done. cbv zeta.
  pose proof (digit_string_digits (Z.abs (default 0 (unscaled d))) ltac:(lia)) as Hd.
  destruct (digits_spells 10 (Z.abs (default 0 (unscaled d)))) as [Hpos Hval _ _ _]; [lia..|].
  change (digits 10 _) with (dec_digits d) in *.
  assert (Hne : dec_digits d <> []) by (intros H; rewrite H, zlen_nil in Hpos; lia).
  pose proof Hsc as Hsc'. unfold in_int32, in_intN in Hsc'.
  unfold plain_notation, adjusted. destruct ((0 <=? scale d) && _) eqn:En.
  - destruct (scale d =? 0) eqn:E0; [|destruct (scale d <? zlen _) eqn:E1]; eexists _, _, _; (split; [reflexivity|]).
    + split; cbn [from_option id]; try done; [by apply Forall_nil_2| |rewrite (@zlen_nil byte); lia].
      by rewrite app_nil_r, Hval.
    + apply cut_spelled; cbn [from_option id]; lia || done.
    + split; cbn [from_option id]; try done.
      * by repeat constructor.
      * apply Forall_app. split; [apply Forall_zeros|done].
      * change (lit "0" ++ ?x) with (repeat "0"%byte 1 ++ x). unfold Repeat.
        by rewrite !repeat_zeros_val, Hval by lia.
      * rewrite zlen_app, zlen_Repeat by lia. lia.
  - destruct (1 <? zlen (dec_digits d)) eqn:E1; eexists _, _, _; (split; [reflexivity|]).
    + apply cut_spelled; cbn [from_option id]; lia || done.
    + assert (take 1 (dec_digits d) = dec_digits d) as -> by (apply take_ge; unfold zlen in *; lia).
      split; cbn [from_option id]; try done; [by apply Forall_nil_2| |rewrite (@zlen_nil byte); lia|lia].
      by rewrite app_nil_r, Hval.
Qed.

Lemma parse_String d :
  in_int32 (scale d) -> zlen (dec_digits d) <= 2 ^ 31 ->
  ParseDecFloat (DecFloat_String d) = Ok (normalized d).
Proof.
  intros Hsc Hlen. destruct (special d) eqn:Hs;
    [|by unfold DecFloat_String, normalized; rewrite Hs..].
  destruct (String_spelled d Hs Hsc Hlen) as (intd & frac & exp & -> & []).
  unfold normalized. rewrite Hs. by apply number_text_parses.
Qed.

(** C31 (roundtrip). The text of a [DecFloat] parses back to the same number: the same
    unscaled digits with their sign and the same scale (so trailing zeros and the
    position of the point survive), and each special value to itself. *)
Theorem DecFloat_roundtrip d :
  in_int32 (scale d) -> zlen (dec_digits d) <= 2 ^ 31 ->
  ParseDecFloat (DecFloat_String d) = Ok (normalized d).
Proof. apply parse_String. Qed.

Lemma DecFloat_roundtrip_witness :
  ParseDecFloat (DecFloat_String (mkDecFloat decFinite (Some (-1200)) 12))
  = Ok (mkDecFloat decFinite (Some (-1200)) 12).
Proof.
  apply (DecFloat_roundtrip (mkDecFloat decFinite (Some (-1200)) 12)).
  - unfold in_int32, in_intN. cbn. lia.
  - vm_compute. discriminate.
Defined.

Lemma no_E_in_digits s : digit_string s -> "E"%byte ∉ s.
Proof. intros H Hin. unfold digit_string in H. rewrite Forall_forall in H. by apply H in Hin. Qed.

Lemma E_in_number_text neg intd frac exp :
  digit_string intd -> digit_string (default [] frac) ->
  "E"%byte ∈ number_text neg intd frac exp <-> is_Some exp.
Proof.
  intros Hi%no_E_in_digits Hf%no_E_in_digits. unfold number_text. rewrite !elem_of_app. split.
  - intros [H|[H|[H|H]]]; [|done| |by destruct exp; [|apply elem_of_nil in H]].
    + destruct neg; [by apply list_elem_of_singleton in H|by apply elem_of_nil in H].
    + destruct frac; [|by apply elem_of_nil in H]. apply elem_of_app in H as [H|H]; [|done].
      by apply list_elem_of_singleton in H.
  - intros [e ->]. do 3 right. left.
Qed.

(** [String] follows the rule of [BigDecimal.toString]: scientific
    notation exactly when the scale is negative or the adjusted exponent is below -6. *)
Theorem DecFloat_String_scientific d :
  special d = decFinite ->
  "E"%byte ∈ DecFloat_String d <-> scale d < 0 \/ adjusted d < -6.
Proof.
  intros Hs. rewrite String_number_text by done. cbv zeta.
  pose proof (digit_string_digits (Z.abs (default 0 (unscaled d))) ltac:(lia)) as Hd.
  change (digits 10 _) with (dec_digits d) in Hd. unfold plain_notation.
  assert (forall k, digit_string (take k (dec_digits d)) /\ digit_string (drop k (dec_digits d))) as Hc
    by (intros; split; [by apply Forall_take|by apply Forall_drop]).
  destruct (_ && _) eqn:En; [destruct (scale d =? 0); [|destruct (scale d <? _)]|destruct (1 <? _)];
    rewrite E_in_number_text; cbn [from_option id]; try apply Hc; try done; try by constructor.
  all: try (rewrite <- not_eq_None_Some; split; [done|lia]).
  - apply Forall_app. split; [apply Forall_zeros|done].
  - split; [lia|eauto].
  - split; [lia|eauto].
Qed.

Lemma DecFloat_String_scientific_witness :
  "E"%byte ∈ DecFloat_String (mkDecFloat decFinite (Some 5) (-3)) <-> -3 < 0 \/ 3 < -6.
Proof. exact (DecFloat_String_scientific (mkDecFloat decFinite (Some 5) (-3)) eq_refl). Defined.
