(* ===== verification/GoTime.v ===== *)
(** * Package time, and the dates and times of H2 (value_read.go, value_write.go)

    A [time.Time] is an instant (seconds since the Unix epoch and nanoseconds) with
    the name and offset of the zone in effect at that instant, which is all that
    [Date], [Clock], [Zone] and [String] look at. The calendar is the proleptic
    Gregorian one on unbounded integers; Go computes with 64-bit counts of seconds,
    which is the same for years of up to nine digits, the range of H2's dates, and
    well beyond it (the count is exact to the year 292277026596). *)

From Stdlib Require Import Strings.Byte.
From S2P Require Import Prelude.
From S2P Require Import GoText.

Record Time := mkTime {
  t_sec : Z;
  t_nsec : Z;
  t_zone : gostring;
  t_offset : Z
}.

(** ** The calendar: years that start in March, eras of 400 years *)

Definition secondsPerDay : Z := 86400.

(** The day of the era: [yoe] is the year of the era, [mp] the month counted from
    March, [d] the day of the month. *)
Definition day_of_year (mp d : Z) : Z := (153 * mp + 2) / 5 + d - 1.
Definition day_of_era (yoe doy : Z) : Z := yoe * 365 + yoe / 4 - yoe / 100 + doy.

(** Days from 1970-01-01 to a date; the month is between 1 and 12, the day may
    overflow. *)
Definition days_from_civil (year month day : Z) : Z :=
  let y := if month <=? 2 then year - 1 else year in
  let mp := (month + 9) mod 12 in
  y / 400 * 146097 + day_of_era (y mod 400) (day_of_year mp day) - 719468.

Definition year_of_era (doe : Z) : Z := (doe - doe / 1460 + doe / 36524 - doe / 146096) / 365.

Definition civil_from_days (days : Z) : Z * Z * Z :=
  let z := days + 719468 in
  let doe := z mod 146097 in
  let yoe := year_of_era doe in
  let doy := doe - day_of_era yoe 0 in
  let mp := (5 * doy + 2) / 153 in
  let day := doy - (153 * mp + 2) / 5 + 1 in
  let month := if mp <? 10 then mp + 3 else mp - 9 in
  let y := yoe + z / 146097 * 400 in
  (if month <=? 2 then y + 1 else y, month, day).

(** [norm(hi, lo, base)]. *)
Definition norm (hi lo base : Z) : Z * Z := (hi + lo / base, lo mod base).

(** [time.Date(year, month, day, hour, min, sec, nsec, loc)] with [loc] UTC or a
    fixed zone, given by name and offset. *)
Definition time_Date (year month day hour min sec nsec : Z) (zone : gostring) (offset : Z) : Time :=
  let '(year, m) := norm year (month - 1) 12 in
  let '(sec, nsec) := norm sec nsec 1000000000 in
  let '(min, sec) := norm min sec 60 in
  let '(hour, min) := norm hour min 60 in
  let '(day, hour) := norm day hour 24 in
  let unix := days_from_civil year (m + 1) day * secondsPerDay + (hour * 3600 + min * 60 + sec) in
  mkTime (unix - offset) nsec zone offset.

Definition UTC : gostring := lit "UTC".

(** [t.Date()], [t.Clock()], [t.Nanosecond()], [t.Zone()]. *)
Definition wall (t : Time) : Z := t_sec t + t_offset t.
Definition Date (t : Time) : Z * Z * Z := civil_from_days (wall t / secondsPerDay).
Definition Clock (t : Time) : Z * Z * Z :=
  let s := wall t mod secondsPerDay in (s / 3600, s mod 3600 / 60, s mod 60).
Definition Nanosecond (t : Time) : Z := t_nsec t.
Definition Zone (t : Time) : gostring * Z := (t_zone t, t_offset t).

(** The digits of [appendInt(b, x, width)]. *)
Definition appendInt (x width : Z) : gostring :=
  if x <? 0 then lit "-" ++ zero_pad width (digits 10 (- x)) else zero_pad width (digits 10 x).

(** The layout element [-0700]. *)
Definition zone_digits (offset : Z) : gostring :=
  let zone := Z.quot offset 60 in
  let '(sign, zone) := if zone <? 0 then (lit "-", - zone) else (lit "+", zone) in
  sign ++ appendInt (zone / 60) 2 ++ appendInt (zone mod 60) 2.

(** [t.String()]: the layout [2006-01-02 15:04:05.999999999 -0700 MST]. *)
Definition Time_String (t : Time) : gostring :=
  let '(y, mo, d) := Date t in
  let '(h, mi, s) := Clock t in
  appendInt y 4 ++ lit "-" ++ appendInt mo 2 ++ lit "-" ++ appendInt d 2 ++ lit " " ++
  appendInt h 2 ++ lit ":" ++ appendInt mi 2 ++ lit ":" ++ appendInt s 2 ++
  (if t_nsec t =? 0 then [] else lit "." ++ TrimRight1 (fmt_0d 9 (t_nsec t)) "0"%byte) ++
  lit " " ++ zone_digits (t_offset t) ++ lit " " ++
  (if zlen (t_zone t) =? 0 then zone_digits (t_offset t) else t_zone t).

(** ** The driver's conversions *)

Definition unpackDateValue (dateValue : Z) : Z * Z * Z :=
  let day := Z.land dateValue 0x1F in
  let month := Z.land (Z.shiftr dateValue 5) 0x0F in
  let year := Z.shiftr dateValue 9 in
  (year, month, day).

Definition packDateValue (year month day : Z) : Z :=
  int64 (Z.lor (Z.lor (Z.shiftl year 9) (Z.shiftl month 5)) day).

Definition dateValueToTime (dateValue : Z) : Time :=
  let '(y, m, d) := unpackDateValue dateValue in
  time_Date y m d 0 0 0 0 UTC 0.

(** Hour, minute, second and nanosecond by truncated division, as Go divides. *)
Definition split_nanos (nanos : Z) : Z * Z * Z * Z :=
  let hour := Z.quot nanos (60 * 60 * 1000000000) in
  let nanos := Z.rem nanos (60 * 60 * 1000000000) in
  let minute := Z.quot nanos (60 * 1000000000) in
  let nanos := Z.rem nanos (60 * 1000000000) in
  let sec := Z.quot nanos 1000000000 in
  let nsec := Z.rem nanos 1000000000 in
  (hour, minute, sec, nsec).

Definition nanosOfDayToTime (nanos : Z) : Time :=
  let '(hour, minute, sec, nsec) := split_nanos nanos in
  time_Date 0 1 1 hour minute sec nsec UTC 0.

Definition nanosOfDayToTimeTZ (nanos offsetSec : Z) : Time :=
  let '(hour, minute, sec, nsec) := split_nanos nanos in
  time_Date 0 1 1 hour minute sec nsec [] offsetSec.

Definition timestampToTime (dateValue nanos : Z) : Time :=
  let '(y, m, d) := unpackDateValue dateValue in
  let '(hour, minute, sec, nsec) := split_nanos nanos in
  time_Date y m d hour minute sec nsec UTC 0.

Definition timestampToTimeTZ (dateValue nanos offsetSec : Z) : Time :=
  let '(y, m, d) := unpackDateValue dateValue in
  let '(hour, minute, sec, nsec) := split_nanos nanos in
  time_Date y m d hour minute sec nsec [] offsetSec.

Definition nanosOfDay (ts : Time) : Z :=
  let '(h, m, s) := Clock ts in
  h * 3600000000000 + m * 60000000000 + s * 1000000000 + Nanosecond ts.

Example time_ex :
  Time_String (timestampToTimeTZ (packDateValue 2024 2 29) 3723000000500 (-5400))
    = lit "2024-02-29 01:02:03.0000005 -0130 -0130" /\
  t_sec (dateValueToTime (packDateValue 1970 1 1)) = 0 /\
  Date (time_Date 2023 14 31 0 0 0 0 UTC 0) = (2024, 3, 2) /\
  Date (mkTime (-62135596800 - 86400) 0 UTC 0) = (0, 12, 31).
Proof. vm_compute. repeat split; reflexivity. Qed.

(** ** Lemmas on the calendar *)

(** An era day by day: its year, and its day of that year. *)
Lemma era_days doe :
  0 <= doe < 146097 ->
  0 <= year_of_era doe < 400 /\ 0 <= doe - day_of_era (year_of_era doe) 0 <= 365.
Proof. intros H. unfold year_of_era, day_of_era. Z.div_mod_to_equations. lia. Qed.

(** A year from March on, day by day: its month, and its day of that month. *)
Lemma month_days doy :
  0 <= doy <= 365 ->
  let mp := (5 * doy + 2) / 153 in
  let day := doy - (153 * mp + 2) / 5 + 1 in
  0 <= mp < 12 /\ 1 <= day <= 31.
Proof. intros H. cbv zeta. Z.div_mod_to_equations. lia. Qed.

Lemma civil_ranges days :
  let '(y, m, d) := civil_from_days days in 1 <= m <= 12 /\ 1 <= d <= 31.
Proof.
  unfold civil_from_days. cbv zeta.
  set (doe := (days + 719468) mod 146097).
  destruct (era_days doe) as [H1 H2]; [apply Z.mod_pos_bound; lia|].
  destruct (month_days _ H2) as [H3 H4]. destruct (_ <? 10) eqn:E; lia.
Qed.

Lemma days_from_civil_from_days days :
  let '(y, m, d) := civil_from_days days in days_from_civil y m d = days.
Proof.
  unfold civil_from_days. cbv zeta.
  set (z := days + 719468). set (doe := z mod 146097). set (era := z / 146097).
  assert (Hz : z = 146097 * era + doe) by (apply Z.div_mod; lia).
  destruct (era_days doe) as [H1 H2]; [apply Z.mod_pos_bound; lia|].
  set (yoe := year_of_era doe) in *. set (doy := doe - day_of_era yoe 0) in *.
  destruct (month_days doy H2) as [H3 H4]. set (mp := (5 * doy + 2) / 153) in *.
  set (month := if mp <? 10 then mp + 3 else mp - 9).
  assert (Hm : (month + 9) mod 12 = mp).
  { unfold month. destruct (mp <? 10) eqn:E.
    - replace (mp + 3 + 9) with (mp + 1 * 12) by lia. rewrite Z.mod_add, Z.mod_small; lia.
    - rewrite Z.mod_small; lia. }
  unfold days_from_civil. rewrite Hm.
  assert ((if month <=? 2 then (if month <=? 2 then yoe + era * 400 + 1 else yoe + era * 400) - 1
           else (if month <=? 2 then yoe + era * 400 + 1 else yoe + era * 400)) = yoe + era * 400) as ->
    by (destruct (month <=? 2); lia).
  rewrite Z.div_add, Z.mod_add, Z.div_small, Z.mod_small by lia.
  unfold day_of_year. replace (_ + _ - 1) with doy by lia.
  unfold day_of_era in *. lia.
Qed.

(** The length of a month. *)
Definition is_leap (y : Z) : bool := ((y mod 4 =? 0) && negb (y mod 100 =? 0)) || (y mod 400 =? 0).
Definition days_in_month (y m : Z) : Z :=
  if m =? 2 then (if is_leap y then 29 else 28)
  else if one_of m [4; 6; 9; 11] then 30 else 31.
Definition valid_date (y m d : Z) : bool :=
  (1 <=? m) && (m <=? 12) && (1 <=? d) && (d <=? days_in_month y m).

(** The year of the era of a day, the leap day being the last of its year. *)
Lemma year_of_era_of_day yoe doy :
  0 <= yoe < 400 -> 0 <= doy <= 365 -> (doy = 365 -> is_leap (yoe + 1) = true) ->
  0 <= day_of_era yoe doy < 146097 /\ year_of_era (day_of_era yoe doy) = yoe.
Proof.
  intros H1 H2 Hl. unfold is_leap in Hl. unfold year_of_era, day_of_era.
  destruct (decide (doy = 365)) as [->|]; [specialize (Hl eq_refl)|clear Hl];
    Z.div_mod_to_equations; lia.
Qed.

Definition month_from_march (mp : Z) : Z := if mp <? 10 then mp + 3 else mp - 9.

(** Evaluate the conditionals of a hypothesis whose conditions are closed. *)
Ltac eval_closed_ifs H :=
  repeat match type of H with
  | context [if ?b then _ else _] =>
      let v := eval vm_compute in b in
      match v with
      | true => change b with true in H
      | false => change b with false in H
      end; cbv iota in H
  end.

(** The month of a day of the year; the year that counts for its length starts two
    months before the end of the year from March. *)
Lemma month_of_day_of_year yoe mp d :
  0 <= mp < 12 ->
  1 <= d <= days_in_month (if month_from_march mp <=? 2 then yoe + 1 else yoe) (month_from_march mp) ->
  0 <= day_of_year mp d <= 365 /\ (day_of_year mp d = 365 -> is_leap (yoe + 1) = true) /\
  (5 * day_of_year mp d + 2) / 153 = mp.
Proof.
  intros Hmp Hd. unfold day_of_year, days_in_month in *.
  assert (mp = 0 \/ mp = 1 \/ mp = 2 \/ mp = 3 \/ mp = 4 \/ mp = 5 \/ mp = 6 \/ mp = 7 \/ mp = 8 \/
          mp = 9 \/ mp = 10 \/ mp = 11) as Hc by lia.
  repeat destruct Hc as [->|Hc]; try subst mp; unfold month_from_march in Hd; eval_closed_ifs Hd;
    destruct (is_leap (yoe + 1)); split_and!; intros; try done; Z.div_mod_to_equations; lia.
Qed.

Lemma is_leap_era y k : is_leap (y + k * 400) = is_leap y.
Proof.
  unfold is_leap. rewrite Z.mod_add by lia.
  replace (y + k * 400) with (y + (k * 100) * 4) at 1 by lia. rewrite Z.mod_add by lia.
  replace (y + k * 400) with (y + (k * 4) * 100) by lia. by rewrite Z.mod_add by lia.
Qed.

Lemma civil_from_days_from_civil y m d :
  valid_date y m d = true -> civil_from_days (days_from_civil y m d) = (y, m, d).
Proof.
  unfold valid_date. intros Hv.
  assert (Hm : 1 <= m <= 12) by lia. assert (Hd : 1 <= d <= days_in_month y m) by lia.
  assert (days_in_month y m <= 31) by (unfold days_in_month; repeat case_match; lia).
  set (y' := if m <=? 2 then y - 1 else y). set (mp := (m + 9) mod 12).
  set (era := y' / 400). set (yoe := y' mod 400).
  assert (Hy' : y' = 400 * era + yoe) by (apply Z.div_mod; lia).
  assert (Hyoe : 0 <= yoe < 400) by (apply Z.mod_pos_bound; lia).
  assert (Hmp : 0 <= mp < 12) by (apply Z.mod_pos_bound; lia).
  assert (Hmonth : month_from_march mp = m).
  { unfold month_from_march, mp. destruct (Z.le_gt_cases m 2).
    - rewrite Z.mod_small by lia. destruct (m + 9 <? 10) eqn:E; lia.
    - replace (m + 9) with (m - 3 + 1 * 12) by lia. rewrite Z.mod_add, Z.mod_small by lia.
      destruct (m - 3 <? 10) eqn:E; lia. }
  assert (Hlen : days_in_month (if m <=? 2 then yoe + 1 else yoe) m = days_in_month y m).
  { unfold days_in_month. replace y with ((if m <=? 2 then yoe + 1 else yoe) + era * 400)
      by (unfold y' in *; destruct (m <=? 2); lia). by rewrite is_leap_era. }
  destruct (month_of_day_of_year yoe mp d) as (Hdoy & Hleap & Hmp'); [done|by rewrite Hmonth, Hlen|].
  destruct (year_of_era_of_day yoe _ Hyoe Hdoy Hleap) as [Hdoe Hye].
  unfold days_from_civil. fold y' mp era yoe. unfold civil_from_days. cbv zeta.
  replace (_ - 719468 + 719468) with (day_of_era yoe (day_of_year mp d) + era * 146097) by lia.
  assert (forall doe, 0 <= doe < 146097 -> (doe + era * 146097) / 146097 = era /\
            (doe + era * 146097) mod 146097 = doe) as Hera.
  { intros doe Hdoe'. rewrite Z.div_add, Z.mod_add, Z.div_small, Z.mod_small by lia. lia. }
  destruct (Hera _ Hdoe) as [-> ->]. rewrite Hye.
  replace (day_of_era yoe (day_of_year mp d) - day_of_era yoe 0) with (day_of_year mp d)
    by (unfold day_of_era; lia).
  rewrite Hmp'. fold (month_from_march mp). rewrite Hmonth. f_equal; [f_equal|].
  - unfold y' in *. destruct (m <=? 2); lia.
  - unfold day_of_year. lia.
Qed.

(** ** Lemmas on the conversions *)

(** Years the packed form holds: 55 signed bits; H2 has years of up to nine digits. *)
Definition year_fits (y : Z) : Prop := - 2 ^ 54 <= y < 2 ^ 54.

Lemma packDateValue_arith y m d :
  year_fits y -> 0 <= m < 16 -> 0 <= d < 32 -> packDateValue y m d = y * 512 + m * 32 + d.
Proof.
  unfold year_fits. intros Hy Hm Hd. unfold packDateValue.
  rewrite !Z.shiftl_mul_pow2 by lia.
  rewrite (lor_add_disjoint y (m * 2 ^ 5) 9) by lia.
  replace (y * 2 ^ 9 + m * 2 ^ 5) with ((y * 16 + m) * 2 ^ 5) by lia.
  rewrite lor_add_disjoint, intN_small by (unfold in_intN; lia). lia.
Qed.

Lemma unpack_pack y m d :
  year_fits y -> 0 <= m < 16 -> 0 <= d < 32 -> unpackDateValue (packDateValue y m d) = (y, m, d).
Proof.
  intros Hy Hm Hd. rewrite packDateValue_arith by done. unfold unpackDateValue.
  rewrite !Z.shiftr_div_pow2 by lia. change 0x1F with (2 ^ 5 - 1). change 0x0F with (2 ^ 4 - 1).
  rewrite !land_ones_mod by lia. f_equal; [f_equal|]; Z.div_mod_to_equations; lia.
Qed.

(** [time.Date] on a date in the calendar and a time of day within the day. *)
Lemma time_Date_in_range y m d h mi s ns zone off :
  1 <= m <= 12 -> 0 <= h < 24 -> 0 <= mi < 60 -> 0 <= s < 60 -> 0 <= ns < 1000000000 ->
  time_Date y m d h mi s ns zone off =
  mkTime (days_from_civil y m d * secondsPerDay + (h * 3600 + mi * 60 + s) - off) ns zone off.
Proof.
  intros Hm Hh Hmi Hs Hns. unfold time_Date, norm.
  rewrite (Z.div_small (m - 1)), (Z.mod_small (m - 1)), (Z.div_small ns), (Z.mod_small ns) by lia.
  rewrite !Z.add_0_r, (Z.div_small s), (Z.mod_small s) by lia.
  rewrite !Z.add_0_r, (Z.div_small mi), (Z.mod_small mi) by lia.
  rewrite !Z.add_0_r, (Z.div_small h), (Z.mod_small h) by lia.
  rewrite !Z.add_0_r. by replace (m - 1 + 1) with m by lia.
Qed.

(** A time of day in nanoseconds, taken apart. *)
Lemma split_nanos_parts n :
  0 <= n < 86400 * 1000000000 ->
  exists h mi s ns, split_nanos n = (h, mi, s, ns) /\
    0 <= h < 24 /\ 0 <= mi < 60 /\ 0 <= s < 60 /\ 0 <= ns < 1000000000 /\
    n = (h * 3600 + mi * 60 + s) * 1000000000 + ns.
Proof.
  intros Hn. unfold split_nanos. do 4 eexists. split; [reflexivity|].
  Z.to_euclidean_division_equations. lia.
Qed.

(** A well-formed [time.Time] whose year fits H2's packed date. *)
Definition wf_time (t : Time) : Prop :=
  0 <= t_nsec t < 1000000000 /\ year_fits (Date t).1.1.

Lemma nanosOfDay_wall t :
  nanosOfDay t = wall t mod secondsPerDay * 1000000000 + t_nsec t.
Proof.
  unfold nanosOfDay, Clock, Nanosecond, secondsPerDay.
  pose proof (Z.mod_pos_bound (wall t) 86400 ltac:(lia)).
  set (s := wall t mod 86400) in *. Z.div_mod_to_equations. lia.
Qed.

Lemma nanosOfDay_range t :
  0 <= t_nsec t < 1000000000 -> 0 <= nanosOfDay t < 86400 * 1000000000.
Proof.
  intros. rewrite nanosOfDay_wall. unfold secondsPerDay.
  pose proof (Z.mod_pos_bound (wall t) 86400 ltac:(lia)). lia.
Qed.

(** The packed date and time of day of [t], read as local time at an offset. *)
Lemma wall_clock_again t off zone :
  wf_time t ->
  (let '(y, m, d) := unpackDateValue (let '(y, m, d) := Date t in packDateValue y m d) in
   let '(hour, minute, sec, nsec) := split_nanos (nanosOfDay t) in
   time_Date y m d hour minute sec nsec zone off)
  = mkTime (wall t - off) (t_nsec t) zone off.
Proof.
  intros [Hn Hy]. unfold Date in *. pose proof (civil_ranges (wall t / secondsPerDay)) as Hr.
  pose proof (days_from_civil_from_days (wall t / secondsPerDay)) as Hd.
  destruct (civil_from_days _) as [[y m] d]. cbn in Hy. rewrite unpack_pack by (done || lia).
  destruct (split_nanos_parts (nanosOfDay t)) as (h & mi & s & ns & -> & H1 & H2 & H3 & H4 & H5);
    [by apply nanosOfDay_range|].
  rewrite time_Date_in_range by lia. rewrite Hd. rewrite nanosOfDay_wall in H5.
  pose proof (Z.div_mod (wall t) secondsPerDay ltac:(done)).
  assert (t_nsec t = ns /\ wall t mod secondsPerDay = h * 3600 + mi * 60 + s) as [-> <-] by lia.
  f_equal. lia.
Qed.

(** ** Correctness *)

(** A TIMESTAMP WITH TIME ZONE keeps the instant and the offset: the
    packed date and nanoseconds the writer takes from a [time.Time], read back with
    the same offset, give the same instant to the nanosecond. *)
Theorem timestamp_tz_keeps_the_instant t :
  wf_time t ->
  timestampToTimeTZ (let '(y, m, d) := Date t in packDateValue y m d) (nanosOfDay t) (t_offset t)
  = mkTime (t_sec t) (t_nsec t) [] (t_offset t).
Proof.
  intros Hw. unfold timestampToTimeTZ. rewrite wall_clock_again by done.
  f_equal. unfold wall. lia.
Qed.

(** 2024-02-29 23:59:59.999999999 at +05:30. *)
Definition sample_time : Time := mkTime 1709231399 999999999 (lit "IST") 19800.

Lemma timestamp_tz_keeps_the_instant_witness :
  timestampToTimeTZ (packDateValue 2024 2 29) 86399999999999 19800
  = mkTime 1709231399 999999999 [] 19800.
Proof. apply (timestamp_tz_keeps_the_instant sample_time). vm_compute. repeat split; congruence. Defined.

(** A valid date the server sends, packed into 64 bits, is decoded to
    midnight UTC of that very date: [Date] gives back year, month and day, for every
    year H2 can hold, before year 1 and across leap years too. *)
Theorem dateValueToTime_date y m d :
  year_fits y -> valid_date y m d = true ->
  Date (dateValueToTime (packDateValue y m d)) = (y, m, d) /\
  Clock (dateValueToTime (packDateValue y m d)) = (0, 0, 0) /\
  Zone (dateValueToTime (packDateValue y m d)) = (UTC, 0).
Proof.
  intros Hy Hv. pose proof Hv as Hv'. unfold valid_date in Hv'.
  assert (days_in_month y m <= 31) by (unfold days_in_month; repeat case_match; lia).
  unfold dateValueToTime. rewrite unpack_pack by (done || lia).
  rewrite time_Date_in_range by lia. unfold Date, Clock, wall, Zone. cbn [t_sec t_offset t_zone].
  replace (_ + _ - 0 + 0) with (0 + days_from_civil y m d * secondsPerDay) by lia.
  rewrite Z.div_add, Z.mod_add by done. change (0 / secondsPerDay) with 0. rewrite Z.add_0_l.
  by rewrite civil_from_days_from_civil.
Qed.

Lemma dateValueToTime_date_witness :
  Date (dateValueToTime (packDateValue (-44) 2 29)) = (-44, 2, 29).
Proof.
  apply (dateValueToTime_date (-44) 2 29); [unfold year_fits; lia|vm_compute; reflexivity].
Defined.
