(* ===== verification/GoFloat.v ===== *)
(** * Floating-point numbers of Go as IEEE 754 bit patterns

    The conversions [float64(x)] of a float32 and [float32(x)] of a float64, and
    [strconv.FormatFloat(x, 'g', -1, 64)], which the verb [%v] of package fmt uses as
    well: the shortest decimal that parses back to [x], the closest such when there
    are several. A conversion of a NaN keeps the upper payload bits and sets the quiet
    bit, as the hardware does. *)

From Stdlib Require Import Strings.Byte.
From S2P Require Import Prelude.
From S2P Require Import GoText.

(** ** Conversions between the two widths *)

(** Sign, biased exponent and mantissa of a 32-bit and of a 64-bit pattern. *)
Definition f32_parts (bits : Z) : Z * Z * Z := (bits / 2 ^ 31, bits / 2 ^ 23 mod 2 ^ 8, bits mod 2 ^ 23).
Definition f64_parts (bits : Z) : Z * Z * Z := (bits / 2 ^ 63, bits / 2 ^ 52 mod 2 ^ 11, bits mod 2 ^ 52).

Definition f32_make (s e m : Z) : Z := s * 2 ^ 31 + e * 2 ^ 23 + m.
Definition f64_make (s e m : Z) : Z := s * 2 ^ 63 + e * 2 ^ 52 + m.

(** [float64(x)] for [x] a float32. *)
Definition float64_of_float32 (bits : Z) : Z :=
  let '(s, e, m) := f32_parts bits in
  if e =? 255 then
    if m =? 0 then f64_make s 2047 0
    else f64_make s 2047 (2 ^ 51 + m mod 2 ^ 22 * 2 ^ 29)
  else if e =? 0 then
    if m =? 0 then f64_make s 0 0
    else let k := Z.log2 m in f64_make s (k - 149 + 1023) ((m - 2 ^ k) * 2 ^ (52 - k))
  else f64_make s (e + 896) (m * 2 ^ 29).

(** [m / 2^k] rounded to the nearest integer, ties to even. *)
Definition round_shift (m k : Z) : Z :=
  if k <=? 0 then m * 2 ^ (- k)
  else
    let q := m / 2 ^ k in
    let r := m mod 2 ^ k in
    if (2 ^ (k - 1) <? r) || ((r =? 2 ^ (k - 1)) && Z.odd q) then q + 1 else q.

(** [float32(x)] for [x] a float64: round to nearest, ties to even; what rounds beyond
    the largest finite float32 is an infinity. *)
Definition float32_of_float64 (bits : Z) : Z :=
  let '(s, e, m) := f64_parts bits in
  if e =? 2047 then
    if m =? 0 then f32_make s 255 0
    else f32_make s 255 (2 ^ 22 + m / 2 ^ 29 mod 2 ^ 22)
  else
    let M := if e =? 0 then m else 2 ^ 52 + m in
    let E := Z.max e 1 - 1075 in
    if M =? 0 then f32_make s 0 0
    else
      let T := Z.max (Z.log2 M + E - 23) (-149) in
      let magnitude := (T + 149) * 2 ^ 23 + round_shift M (T - E) in
      if 255 * 2 ^ 23 <=? magnitude then f32_make s 255 0 else s * 2 ^ 31 + magnitude.

(** ** Shortest decimal text *)

(** A positive finite number [M * 2^E], four times the mantissa, and the bounds of the
    decimals that round to it, in the same unit [2^(E-2)]. *)
Record decimal_interval := mkInterval {
  di_x : Z;
  di_lower : Z;
  di_upper : Z;
  di_inclusive : bool;
  di_exp : Z
}.

Definition interval_of (e m : Z) : decimal_interval :=
  let M := if e =? 0 then m else 2 ^ 52 + m in
  let E := Z.max e 1 - 1075 in
  mkInterval (4 * M) (if (m =? 0) && (1 <? e) then 4 * M - 1 else 4 * M - 2) (4 * M + 2)
    (Z.even M) (E - 2).

(** [X * 2^(di_exp)] compared with multiples of [10^p]: both sides as integers. *)
Definition scale_up (i : decimal_interval) (p X : Z) : Z :=
  X * 2 ^ Z.max (di_exp i) 0 * 10 ^ Z.max (- p) 0.
Definition scale_unit (i : decimal_interval) (p : Z) : Z :=
  2 ^ Z.max (- di_exp i) 0 * 10 ^ Z.max p 0.

(** The decimal point: the least [k], from an estimate on, with [x < 10^k]. *)
Fixpoint decimal_point (fuel : nat) (i : decimal_interval) (k : Z) : Z :=
  match fuel with
  | O => k
  | S fuel' => if scale_up i k (di_x i) <? scale_unit i k then k else decimal_point fuel' i (k + 1)
  end.

(** [n] digits of [x < 10^k]: truncated, or truncated and one up, whichever rounds to
    [x]; the nearer when both do; [None] when [n] digits are not enough. *)
Definition digits_at (i : decimal_interval) (k n : Z) : option Z :=
  let p := k - n in
  let u := scale_unit i p in
  let x := scale_up i p (di_x i) in
  let down := x / u in
  let lower := scale_up i p (di_lower i) in
  let upper := scale_up i p (di_upper i) in
  let okdown := (lower <? down * u) || ((lower =? down * u) && di_inclusive i) in
  let okup := ((down + 1) * u <? upper) || (((down + 1) * u =? upper) && di_inclusive i) in
  if x =? down * u then Some down
  else if okdown && okup then
    let twice := 2 * (x - down * u) in
    if (u <? twice) || ((twice =? u) && Z.odd down) then Some (down + 1) else Some down
  else if okdown then Some down
  else if okup then Some (down + 1)
  else None.

Fixpoint shortest (fuel : nat) (i : decimal_interval) (k n : Z) : Z * Z :=
  match fuel with
  | O => (0, n)
  | S fuel' =>
      match digits_at i k n with
      | Some d => (d, n)
      | None => shortest fuel' i k (n + 1)
      end
  end.

(** The digits of a positive finite number and its decimal point ([decimalSlice]);
    17 digits always suffice. *)
Definition decimal_of (e m : Z) : gostring * Z :=
  let i := interval_of e m in
  let k := decimal_point 6 i ((Z.log2 (di_x i) + di_exp i) * 30103 / 100000 - 1) in
  let '(d, n) := shortest 19 i k 0 in
  let ds := digits 10 d in
  (TrimRight1 ds "0"%byte, k + (zlen ds - n)).

Definition fmtE (ds : gostring) (dp : Z) : gostring :=
  take 1 ds ++ (if 1 <? zlen ds then lit "." ++ drop 1 ds else []) ++ lit "e" ++
  (if dp - 1 <? 0 then lit "-" else lit "+") ++ fmt_0d 2 (Z.abs (dp - 1)).

Definition fmtF (ds : gostring) (dp : Z) : gostring :=
  (if 0 <? dp then take (Z.to_nat dp) ds ++ Repeat "0"%byte (dp - zlen ds) else lit "0") ++
  (if 0 <? zlen ds - dp then
     lit "." ++ Repeat "0"%byte (- dp) ++ drop (Z.to_nat dp) ds
   else []).

(** [strconv.FormatFloat(x, 'g', -1, 64)]. *)
Definition FormatFloat (bits : Z) : gostring :=
  let '(s, e, m) := f64_parts bits in
  let neg := negb (s =? 0) in
  if e =? 2047 then
    if negb (m =? 0) then lit "NaN" else if neg then lit "-Inf" else lit "+Inf"
  else
    (if neg then lit "-" else []) ++
    (if (e =? 0) && (m =? 0) then lit "0"
     else
       let '(ds, dp) := decimal_of e m in
       if (dp - 1 <? -4) || (6 <=? dp - 1) then fmtE ds dp else fmtF ds dp).

Example FormatFloat_ex :
  FormatFloat 0x3FB999999999999A = lit "0.1" /\
  FormatFloat 0x419D6F3454000000 = lit "1.23456789e+08" /\
  FormatFloat 0x0000000000000001 = lit "5e-324" /\
  FormatFloat 0x0000000000000002 = lit "1e-323" /\
  FormatFloat 0x7FEFFFFFFFFFFFFF = lit "1.7976931348623157e+308" /\
  FormatFloat 0x0010000000000000 = lit "2.2250738585072014e-308" /\
  FormatFloat 0xC05EDD2F1A9FBE77 = lit "-123.456" /\
  FormatFloat 0x40F86A0000000000 = lit "100000" /\
  FormatFloat 0x412E848000000000 = lit "1e+06" /\
  FormatFloat 0x3F1A36E2EB1C432D = lit "0.0001" /\
  FormatFloat 0x3EF4F8B588E368F1 = lit "2e-05" /\
  FormatFloat 0x44B52D02C7E14AF6 = lit "1e+23" /\
  FormatFloat 0x8000000000000000 = lit "-0".
Proof. vm_compute. repeat split; reflexivity. Qed.

(** ** Lemmas *)

Lemma f32_parts_make bits :
  0 <= bits < 2 ^ 32 ->
  let '(s, e, m) := f32_parts bits in
  bits = f32_make s e m /\ 0 <= s <= 1 /\ 0 <= e < 256 /\ 0 <= m < 2 ^ 23.
Proof.
  intros H. unfold f32_parts, f32_make. Z.div_mod_to_equations. lia.
Qed.

Lemma f64_parts_of s e m :
  0 <= s <= 1 -> 0 <= e < 2048 -> 0 <= m < 2 ^ 52 -> f64_parts (f64_make s e m) = (s, e, m).
Proof.
  intros Hs He Hm. unfold f64_parts, f64_make. f_equal; [f_equal|].
  - symmetry. apply (Z.div_unique _ _ _ (e * 2 ^ 52 + m)); lia.
  - replace (s * 2 ^ 63 + e * 2 ^ 52 + m) with (m + (s * 2 ^ 11 + e) * 2 ^ 52) by lia.
    rewrite Z.div_add, Z.div_small, Z.add_0_l by lia.
    rewrite Z.add_comm, Z.mod_add by lia. apply Z.mod_small. lia.
  - replace (s * 2 ^ 63 + e * 2 ^ 52 + m) with (m + (s * 2 ^ 11 + e) * 2 ^ 52) by lia.
    rewrite Z.mod_add by lia. by apply Z.mod_small.
Qed.

(** Rounding away bits that are all zero. *)
Lemma round_shift_exact q k : 0 < k -> round_shift (q * 2 ^ k) k = q.
Proof.
  intros Hk. unfold round_shift. replace (k <=? 0) with false by lia.
  rewrite Z.div_mul, Z.mod_mul by lia.
  assert (0 < 2 ^ (k - 1)) by lia. replace (_ || _) with false; [done|].
  replace (2 ^ (k - 1) <? 0) with false by lia. by replace (0 =? 2 ^ (k - 1)) with false by lia.
Qed.

Lemma float32_of_float64_range x : 0 <= x < 2 ^ 64 -> 0 <= float32_of_float64 x < 2 ^ 32.
Proof.
  intros Hx. unfold float32_of_float64, f64_parts, f32_make.
  set (s := x / 2 ^ 63). set (e := x / 2 ^ 52 mod 2 ^ 11). set (m := x mod 2 ^ 52).
  assert (0 <= s <= 1) by (unfold s; Z.div_mod_to_equations; lia).
  assert (0 <= m < 2 ^ 52) by (apply Z.mod_pos_bound; lia).
  destruct (e =? 2047); [destruct (m =? 0); [lia|]; pose proof (Z.mod_pos_bound (m / 2 ^ 29) (2 ^ 22) ltac:(lia)); lia|].
  cbv zeta. set (M := if e =? 0 then m else 2 ^ 52 + m). set (E := Z.max e 1 - 1075).
  destruct (M =? 0) eqn:EM; [lia|]. set (T := Z.max (Z.log2 M + E - 23) (-149)).
  destruct (255 * 2 ^ 23 <=? _) eqn:Eo; [lia|].
  enough (0 <= round_shift M (T - E)) by (unfold T in *; lia).
  assert (0 < M) by (unfold M in *; destruct (e =? 0); lia).
  unfold round_shift. destruct (T - E <=? 0) eqn:Ek; [apply Z.mul_nonneg_nonneg; lia|].
  pose proof (Z.div_pos M (2 ^ (T - E)) ltac:(lia) ltac:(lia)). destruct (_ || _); lia.
Qed.

(** A NaN whose quiet bit is clear. *)
Definition signalling32 (bits : Z) : bool :=
  let '(_, e, m) := f32_parts bits in (e =? 255) && negb (m =? 0) && (m <? 2 ^ 22).

(** A number [q * 2^T] with [q] of at most 24 bits is rounded to itself. *)
Lemma round_to_float32 s e m q k T :
  0 <= s <= 1 -> 0 < e < 2047 -> 0 <= m < 2 ^ 52 -> 0 < k ->
  2 ^ 52 + m = q * 2 ^ k -> k + (e - 1075) = T -> T = Z.max (e - 1046) (-149) ->
  (T + 149) * 2 ^ 23 + q < 255 * 2 ^ 23 ->
  float32_of_float64 (f64_make s e m) = s * 2 ^ 31 + ((T + 149) * 2 ^ 23 + q).
Proof.
  intros Hs He Hm Hk HM HT HTmax Hfit. unfold float32_of_float64. rewrite f64_parts_of by lia.
  replace (e =? 2047) with false by lia. replace (e =? 0) with false by lia.
  rewrite (Z.max_l e 1) by lia. replace (2 ^ 52 + m =? 0) with false by lia.
  assert (Z.log2 (2 ^ 52 + m) = 52) as -> by (apply Z.log2_unique; lia).
  replace (52 + (e - 1075) - 23) with (e - 1046) by lia. rewrite <- HTmax.
  rewrite HM. replace (T - (e - 1075)) with k by lia. rewrite round_shift_exact by done.
  by replace (255 * 2 ^ 23 <=? _) with false by lia.
Qed.

(** Widening a float32 and narrowing it again gives the same bits. *)
Lemma float32_through_float64 bits :
  0 <= bits < 2 ^ 32 -> signalling32 bits = false ->
  float32_of_float64 (float64_of_float32 bits) = bits.
Proof.
  intros Hb Hsig. unfold signalling32 in Hsig. pose proof (f32_parts_make bits Hb) as Hp.
  unfold float64_of_float32. destruct (f32_parts bits) as [[s e] m]. destruct Hp as (-> & Hs & He & Hm).
  destruct (e =? 255) eqn:E255; [|destruct (e =? 0) eqn:E0; [destruct (m =? 0) eqn:Em|]].
  - cbn [andb] in Hsig. destruct (m =? 0) eqn:Em.
    + unfold float32_of_float64. rewrite f64_parts_of by lia. cbn. unfold f32_make. lia.
    + unfold float32_of_float64. rewrite f64_parts_of by (Z.div_mod_to_equations; lia).
      change (2047 =? 2047) with true. cbv iota.
      replace (2 ^ 51 + m mod 2 ^ 22 * 2 ^ 29) with ((2 ^ 22 + m mod 2 ^ 22) * 2 ^ 29) by lia.
      rewrite Z.div_mul by lia.
      replace (_ =? 0) with false by (pose proof (Z.mod_pos_bound m (2 ^ 22) ltac:(lia)); lia).
      unfold f32_make. Z.div_mod_to_equations. lia.
  - unfold float32_of_float64. rewrite f64_parts_of by lia. cbn. unfold f32_make. lia.
  - set (k := Z.log2 m). assert (Hk : 2 ^ k <= m < 2 ^ (k + 1)) by (apply Z.log2_spec; lia).
    assert (0 <= k) by apply Z.log2_nonneg.
    assert (k < 23) by (apply Z.log2_lt_pow2; lia).
    assert (Hsplit : 2 ^ k * 2 ^ (52 - k) = 2 ^ 52) by (rewrite <- Z.pow_add_r by lia; f_equal; lia).
    rewrite Z.pow_add_r in Hk by lia.
    rewrite (round_to_float32 _ _ _ m (52 - k) (-149)); unfold f32_make; nia || lia.
  - rewrite (round_to_float32 _ _ _ (2 ^ 23 + m) 29 (e - 150)); unfold f32_make; lia.
Qed.
