(* ===== verification/DecFloat64.v ===== *)
(** * DECFLOAT values as float64 ([DecFloat.Float64] of decfloat.go)

    [Float64] hands the text of the value to [strconv.ParseFloat], which rounds the
    exact decimal to the nearest float64, ties to even, and reports a range error with
    an infinity when that is beyond the largest one. A float64 is its bit pattern. *)

From Stdlib Require Import Strings.Byte.
From S2P Require Import Prelude.
From S2P Require Import GoText.
From S2P Require Import DecFloat.
From S2P Require Import GoFloat.

(** ** [strconv.ParseFloat] *)

(** A decimal text: its sign, its digits as a number and the power of ten they are
    multiplied by. *)
Definition read_decimal (s : gostring) : option (bool * Z * Z) :=
  let '(neg, s1) := take_sign s in
  let '(intDigits, s2) := span is_digit s1 in
  let '(fracDigits, s3) :=
    match s2 with
    | b :: s' => if decide (b = "."%byte) then span is_digit s' else ([], s2)
    | [] => ([], s2)
    end in
  let ds := intDigits ++ fracDigits in
  mant ← (if zlen ds =? 0 then None else digits_val 10 0 ds);
  exp ← match s3 with
        | [] => Some 0
        | b :: s' =>
            if bool_decide (b = "e"%byte) || bool_decide (b = "E"%byte) then
              let '(expNeg, s4) := take_sign s' in
              let '(es, s5) := span is_digit s4 in
              if (zlen es =? 0) || negb (zlen s5 =? 0) then None
              else v ← digits_val 10 0 es; Some (if expNeg then - v else v)
            else None
        end;
  Some (neg, mant, exp - zlen fracDigits).

(** [a / b] rounded to the nearest integer, ties to even. *)
Definition round_div (a b : Z) : Z :=
  let q := a / b in
  let r := a mod b in
  if (b <? 2 * r) || ((2 * r =? b) && Z.odd q) then q + 1 else q.

(** The power of two at or below [num / den]. *)
Definition floor_log2 (num den : Z) : Z :=
  let k := Z.log2 num - Z.log2 den in
  if num * 2 ^ Z.max (- k) 0 <? den * 2 ^ Z.max k 0 then k - 1 else k.

(** The bits of the float64 nearest to [num / den], without the sign; exponent and
    mantissa are one number, so that a carry of the rounding goes into the exponent. *)
Definition round_ratio (num den : Z) : Z :=
  if num =? 0 then 0
  else
    let T := Z.max (floor_log2 num den - 52) (-1074) in
    (T + 1074) * 2 ^ 52 + round_div (num * 2 ^ Z.max (- T) 0) (den * 2 ^ Z.max T 0).

Definition infinity64 : Z := 2047 * 2 ^ 52.
Definition nan64 : Z := 0x7FF8000000000001.

(** The numerator and the denominator of [n * 10^e]. *)
Definition decimal_num (n e : Z) : Z := n * 10 ^ Z.max e 0.
Definition decimal_den (e : Z) : Z := 10 ^ Z.max (- e) 0.

Definition errRange (s : gostring) : error :=
  EWrapf "strconv.ParseFloat: parsing %q: %w" [AStr s] [EErrorf "value out of range" []].
Definition errSyntax (s : gostring) : error :=
  EWrapf "strconv.ParseFloat: parsing %q: %w" [AStr s] [EErrorf "invalid syntax" []].

(** [strconv.ParseFloat(s, 64)] on the texts it is given: the names of the special values
    and decimal numbers. *)
Definition ParseFloat64 (s : gostring) : Z * option error :=
  if decide (s = lit "Infinity") then (infinity64, None)
  else if decide (s = lit "-Infinity") then (2 ^ 63 + infinity64, None)
  else if decide (s = lit "NaN") then (nan64, None)
  else
    match read_decimal s with
    | None => (0, Some (errSyntax s))
    | Some (neg, mant, exp) =>
        let m := round_ratio (decimal_num mant exp) (decimal_den exp) in
        let sign := if neg then 2 ^ 63 else 0 in
        if infinity64 <=? m then (sign + infinity64, Some (errRange s)) else (sign + m, None)
    end.

Definition DecFloat_Float64 (d : DecFloat) : Z * option error := ParseFloat64 (DecFloat_String d).

Example float64_ex :
  DecFloat_Float64 (mkDecFloat decFinite (Some (-1)) 1) = (0xBFB999999999999A, None) /\
  DecFloat_Float64 (mkDecFloat decFinite (Some 9007199254740993) 0) = (0x4340000000000000, None) /\
  DecFloat_Float64 (mkDecFloat decFinite (Some 5) 324) = (1, None) /\
  DecFloat_Float64 (mkDecFloat decFinite (Some 2) 324) = (0, None) /\
  DecFloat_Float64 (mkDecFloat decFinite (Some 22250738585072014) 324) = (2 ^ 52, None) /\
  (DecFloat_Float64 (mkDecFloat decFinite (Some 18) (-307))).1 = infinity64 /\
  DecFloat_Float64 (mkDecFloat decNaN None 0) = (nan64, None).
Proof. vm_compute. done. Qed.

(** ** Powers of two and ratios *)

(** [num / den < 2^k], with both sides brought to integers by any large enough power. *)
Lemma ratio_lt num den k N : 0 <= N -> 0 <= k + N ->
  num * 2 ^ Z.max (- k) 0 < den * 2 ^ Z.max k 0 <-> num * 2 ^ N < den * 2 ^ (k + N).
Proof.
  intros HN Hk. destruct (Z.lt_ge_cases k 0).
  - rewrite (Z.max_l (- k)), (Z.max_r k), Z.mul_1_r by lia.
    replace N with (- k + (k + N)) at 1 by lia. rewrite Z.pow_add_r, Z.mul_assoc by lia.
    apply Z.mul_lt_mono_pos_r. by apply Z.pow_pos_nonneg.
  - rewrite (Z.max_r (- k)), (Z.max_l k), Z.mul_1_r by lia. rewrite Z.pow_add_r, Z.mul_assoc by lia.
    apply Z.mul_lt_mono_pos_r. by apply Z.pow_pos_nonneg.
Qed.

Lemma floor_log2_spec num den N : 0 < num -> 0 < den -> 0 <= N ->
  let l := floor_log2 num den in
  (0 <= l + N -> den * 2 ^ (l + N) <= num * 2 ^ N) /\
  (0 <= l + 1 + N -> num * 2 ^ N < den * 2 ^ (l + 1 + N)).
Proof.
  intros Hn Hd HN. unfold floor_log2. pose proof (Z.log2_spec num Hn) as [Hn1 Hn2]. pose proof (Z.log2_spec den Hd) as [Hd1 Hd2].
  set (a := Z.log2 num) in *. set (b := Z.log2 den) in *.
  assert (0 <= a /\ 0 <= b) as [Ha Hb] by (split; apply Z.log2_nonneg).
  assert (Hup : forall j, a - b <= j -> 0 <= j + 1 + N -> num * 2 ^ N < den * 2 ^ (j + 1 + N)).
  { intros j Hj Hj0. apply Z.lt_le_trans with (2 ^ Z.succ a * 2 ^ N).
    - apply Z.mul_lt_mono_pos_r; [by apply Z.pow_pos_nonneg|done].
    - apply Z.le_trans with (2 ^ b * 2 ^ (j + 1 + N)).
      + rewrite <- !Z.pow_add_r by lia. apply Z.pow_le_mono_r; lia.
      + apply Z.mul_le_mono_nonneg_r; [apply Z.pow_nonneg; lia|done]. }
  assert (Hlo : forall j, j <= a - b - 1 -> 0 <= j + N -> den * 2 ^ (j + N) <= num * 2 ^ N).
  { intros j Hj Hj0. apply Z.le_trans with (2 ^ Z.succ b * 2 ^ (j + N)).
    - apply Z.mul_le_mono_nonneg_r; [apply Z.pow_nonneg; lia|lia].
    - apply Z.le_trans with (2 ^ a * 2 ^ N).
      + rewrite <- !Z.pow_add_r by lia. apply Z.pow_le_mono_r; lia.
      + apply Z.mul_le_mono_nonneg_r; [apply Z.pow_nonneg; lia|done]. }
  destruct (_ <? _) eqn:E; cbv zeta.
  - apply Z.ltb_lt in E. split; intros HN'; [apply Hlo; lia|].
    replace (a - b - 1 + 1 + N) with (a - b + N) by lia. by apply (ratio_lt num den (a - b) N); [done|lia|].
  - apply Z.ltb_ge in E. split; intros HN'; [|apply Hup; lia].
    apply Z.nlt_ge. rewrite <- (ratio_lt num den (a - b) N) by lia. lia.
Qed.

Lemma floor_log2_upper num den k N : 0 < num -> 0 < den -> 0 <= N -> floor_log2 num den < k -> 0 <= k + N ->
  num * 2 ^ N < den * 2 ^ (k + N).
Proof.
  intros Hn Hd HN Hk Hk0. set (l := floor_log2 num den) in *. set (N' := Z.max N (- (l + 1))).
  apply (ratio_lt num den k N); [done|done|]. apply (ratio_lt num den k N'); [lia|lia|].
  destruct (floor_log2_spec num den N' Hn Hd ltac:(lia)) as [_ Hup]. eapply Z.lt_le_trans; [apply Hup; fold l; lia|].
  fold l. apply Z.mul_le_mono_nonneg_l; [lia|]. apply Z.pow_le_mono_r; lia.
Qed.

Lemma round_div_spec a b : 0 < b ->
  let q := round_div a b in
  2 * Z.abs (a - q * b) <= b /\ (2 * Z.abs (a - q * b) = b -> Z.even q = true) /\
  (forall z, z * b <= a -> z <= q) /\ (forall z, a < z * b -> q <= z).
Proof.
  intros Hb. unfold round_div. pose proof (Z.div_mod a b ltac:(lia)) as Hdm. pose proof (Z.mod_pos_bound a b Hb) as Hr.
  set (q := a / b) in *. set (r := a mod b) in *.
  assert (Hz1 : forall z, z * b <= a -> z <= q) by (intros z Hz; apply Z.div_le_lower_bound; lia).
  assert (Hz2 : forall z, a < z * b -> q < z) by (intros z Hz; apply Z.div_lt_upper_bound; lia).
  destruct ((b <? 2 * r) || ((2 * r =? b) && Z.odd q)) eqn:E; cbv zeta.
  - replace (a - (q + 1) * b) with (r - b) by lia. split; [lia|]. split.
    + intros H. rewrite Z.even_add. change (Z.even 1) with false. rewrite <- Z.negb_odd.
      destruct (Z.odd q); [done|]. rewrite andb_false_r, orb_false_r in E. lia.
    + split; intros z Hz; [specialize (Hz1 z Hz); lia|specialize (Hz2 z Hz); lia].
  - replace (a - q * b) with r by lia. split; [lia|]. split.
    + intros H. rewrite <- Z.negb_odd. destruct (Z.odd q); [lia|done].
    + split; intros z Hz; [by apply Hz1|specialize (Hz2 z Hz); lia].
Qed.

(** The nearest multiple, and the only one but for ties. *)
Lemma round_div_nearest a b z : 0 < b ->
  let q := round_div a b in
  Z.abs (a - q * b) <= Z.abs (a - z * b) /\ (Z.abs (a - q * b) = Z.abs (a - z * b) -> z <> q -> Z.even q = true).
Proof.
  intros Hb q. destruct (round_div_spec a b Hb) as (H1 & H2 & _). fold q in H1, H2.
  destruct (Z.eq_dec z q) as [->|Hne]; [split; [lia|done]|].
  assert (Hd : b <= Z.abs (a - q * b) + Z.abs (a - z * b)).
  { assert (b <= Z.abs ((z - q) * b)) by (rewrite Z.abs_mul, (Z.abs_eq b) by lia; nia).
    replace ((z - q) * b) with ((a - q * b) - (a - z * b)) in * by lia. lia. }
  split; [lia|]. intros He _. apply H2. lia.
Qed.

(** ** The value of a float64 *)

(** A float64 that is no infinity and no NaN, from its bits without the sign, in units of
    [2^-1074], the smallest positive one. The formula goes on beyond the largest float64,
    as if the exponent had no bound. *)
Definition f64_units (m : Z) : Z :=
  if m <? 2 ^ 52 then m else (2 ^ 52 + m mod 2 ^ 52) * 2 ^ (m / 2 ^ 52 - 1).

Lemma f64_units_compose e q : 0 <= e -> 0 <= q <= 2 ^ 53 -> e = 0 \/ 2 ^ 52 <= q ->
  f64_units (e * 2 ^ 52 + q) = q * 2 ^ e.
Proof.
  intros He Hq Hn. unfold f64_units. destruct (Z.lt_ge_cases q (2 ^ 52)).
  { destruct Hn as [->|]; [|lia]. replace (_ <? _) with true by lia. lia. }
  replace (_ <? _) with false by (symmetry; apply Z.ltb_ge; nia).
  destruct (Z.eq_dec q (2 ^ 53)) as [->|Hne].
  - replace (e * 2 ^ 52 + 2 ^ 53) with (0 + (e + 2) * 2 ^ 52) by lia. rewrite Z.mod_add, Z.div_add by lia.
    change (0 mod 2 ^ 52) with 0. change (0 / 2 ^ 52) with 0. replace (0 + (e + 2) - 1) with (Z.succ e) by lia.
    rewrite Z.pow_succ_r by lia. lia.
  - replace (e * 2 ^ 52 + q) with ((q - 2 ^ 52) + (e + 1) * 2 ^ 52) by lia. rewrite Z.mod_add, Z.div_add by lia.
    rewrite Z.mod_small, Z.div_small by lia. replace (0 + (e + 1) - 1) with e by lia. f_equal. lia.
Qed.

(** From some exponent on all values are multiples of its unit; below it they are less
    than its first. *)
Lemma f64_units_above m e : 0 <= e -> (e + 1) * 2 ^ 52 <= m -> exists z, f64_units m = z * 2 ^ e.
Proof.
  intros He Hm. unfold f64_units. replace (m <? 2 ^ 52) with false by lia.
  assert (e + 1 <= m / 2 ^ 52) by (apply Z.div_le_lower_bound; lia).
  exists ((2 ^ 52 + m mod 2 ^ 52) * 2 ^ (m / 2 ^ 52 - 1 - e)).
  rewrite <- Z.mul_assoc, <- Z.pow_add_r by lia. do 2 f_equal. lia.
Qed.

Lemma f64_units_below m e : 0 <= e -> 0 <= m -> m < (e + 1) * 2 ^ 52 -> 0 <= f64_units m < 2 ^ 52 * 2 ^ e.
Proof.
  intros He Hm0 Hm. unfold f64_units. destruct (m <? 2 ^ 52) eqn:E.
  - assert (1 <= 2 ^ e) by (apply (Z.pow_le_mono_r 2 0 e); lia). nia.
  - pose proof (Z.mod_pos_bound m (2 ^ 52) ltac:(lia)).
    assert (1 <= m / 2 ^ 52) by (apply Z.div_le_lower_bound; lia).
    assert (m / 2 ^ 52 < e + 1) by (apply Z.div_lt_upper_bound; lia).
    pose proof (Z.pow_pos_nonneg 2 (m / 2 ^ 52 - 1) ltac:(lia) ltac:(lia)).
    split; [nia|]. apply Z.lt_le_trans with (2 ^ 53 * 2 ^ (m / 2 ^ 52 - 1)); [nia|].
    rewrite <- !Z.pow_add_r by lia. apply Z.pow_le_mono_r; lia.
Qed.

(** ** Rounding *)

(** What the rounding works with: the mantissa, the exponent, and how the distances of
    the scaled number to the multiples of its unit compare with those of the float. *)
Lemma round_ratio_shape num den : 0 < num -> 0 < den ->
  exists e a b K, let q := round_div a b in
    0 <= e /\ 0 < b /\ 0 < K /\ round_ratio num den = e * 2 ^ 52 + q /\ 0 <= q <= 2 ^ 53 /\
    (e = 0 \/ 2 ^ 52 <= q /\ 2 ^ 52 * b <= a) /\
    (forall z, num * 2 ^ 1074 - z * 2 ^ e * den = K * (a - z * b)).
Proof.
  intros Hn Hd. unfold round_ratio. replace (num =? 0) with false by lia.
  set (l := floor_log2 num den). set (T := Z.max (l - 52) (-1074)).
  set (a := num * 2 ^ Z.max (- T) 0). set (b := den * 2 ^ Z.max T 0).
  assert (Hp : forall k, 0 <= k -> 0 < 2 ^ k) by (intros; by apply Z.pow_pos_nonneg).
  assert (Hb : 0 < b) by (apply Z.mul_pos_pos; [done|apply Hp; lia]).
  assert (Ha : 0 <= a) by (apply Z.mul_nonneg_nonneg; [lia|apply Z.lt_le_incl, Hp; lia]).
  destruct (floor_log2_spec num den (Z.max (- T) 0) Hn Hd ltac:(lia)) as [Hlo _]. fold l in Hlo.
  assert (Hbpow : forall k, 0 <= k -> den * 2 ^ (k + T + Z.max (- T) 0) = 2 ^ k * b).
  { intros k Hk. unfold b. rewrite (Z.mul_comm den (2 ^ Z.max T 0)), Z.mul_assoc, <- Z.pow_add_r by lia.
    rewrite Z.mul_comm. do 2 f_equal. lia. }
  assert (Hsmall : a < 2 ^ 53 * b).
  { rewrite <- Hbpow by lia. apply floor_log2_upper; fold l; lia. }
  assert (Hbig : T + 1074 = 0 \/ 2 ^ 52 * b <= a).
  { destruct (Z.eq_dec (T + 1074) 0); [by left|right]. rewrite <- Hbpow by lia.
    replace (52 + T) with l by lia. apply Hlo. lia. }
  destruct (round_div_spec a b Hb) as (_ & _ & Hge & Hle).
  exists (T + 1074), a, b, (2 ^ Z.min (T + 1074) 1074). cbv zeta. split_and!; try done; try lia.
  - apply Hge. lia.
  - apply Hle. lia.
  - destruct Hbig as [?|Hbig]; [by left|right]. split; [by apply Hge|done].
  - intros z. unfold a, b. destruct (Z.lt_ge_cases T 0).
    + rewrite Z.min_l, (Z.max_l (- T)), (Z.max_r T) by lia.
      replace 1074 with (- T + (T + 1074)) at 1 by lia. rewrite Z.pow_add_r by lia. ring.
    + rewrite Z.min_r, (Z.max_r (- T)), (Z.max_l T) by lia. rewrite (Z.pow_add_r 2 T 1074) by lia. ring.
Qed.

Lemma round_ratio_nearest num den m' : 0 <= num -> 0 < den -> 0 <= m' ->
  let m := round_ratio num den in
  let dist x := Z.abs (num * 2 ^ 1074 - f64_units x * den) in
  0 <= m /\ dist m <= dist m' /\ (dist m = dist m' -> f64_units m' <> f64_units m -> Z.even m = true).
Proof.
  intros Hn Hd Hm' m dist. destruct (Z.eq_dec num 0) as [->|Hn0].
  { unfold m, dist, round_ratio. cbn -[Z.pow Z.even]. change (f64_units 0) with 0.
    rewrite !Z.mul_0_l. split; [done|]. split; [lia|done]. }
  destruct (round_ratio_shape num den ltac:(lia) Hd) as (e & a & b & K & He & Hb & HK & Hm & Hq & Hnorm & HX).
  set (q := round_div a b) in *. fold m in Hm.
  assert (Hu : f64_units m = q * 2 ^ e).
  { rewrite Hm. apply f64_units_compose; [done|done|]. destruct Hnorm as [?|[? _]]; auto. }
  assert (Hdm : dist m = K * Z.abs (a - q * b)) by (unfold dist; rewrite Hu, HX, Z.abs_mul; f_equal; lia).
  assert (Heven : Z.even q = true -> Z.even m = true).
  { intros H. rewrite Hm, Z.even_add, Z.even_mul, H. change (Z.even (2 ^ 52)) with true. by rewrite orb_true_r. }
  split; [nia|].
  assert (Hmult : forall z, f64_units m' = z * 2 ^ e ->
    dist m <= dist m' /\ (dist m = dist m' -> f64_units m' <> f64_units m -> Z.even m = true)).
  { intros z Hz. destruct (round_div_nearest a b z Hb) as [H1 H2]. fold q in H1, H2.
    assert (Hd' : dist m' = K * Z.abs (a - z * b)) by (unfold dist; rewrite Hz, HX, Z.abs_mul; f_equal; lia).
    rewrite Hdm, Hd'. split; [nia|]. intros Heq Hne. apply Heven, H2; [nia|]. intros ->. congruence. }
  destruct (Z.eq_dec e 0) as [->|He0]; [apply (Hmult (f64_units m')); lia|].
  destruct Hnorm as [?|[_ Hbig]]; [done|].
  destruct (Z.le_gt_cases ((e + 1) * 2 ^ 52) m') as [Hab|Hbe].
  { destruct (f64_units_above m' e He Hab) as [z Hz]. by apply (Hmult z). }
  destruct (f64_units_below m' e He Hm' Hbe) as [Hu0 Hub].
  destruct (round_div_nearest a b (2 ^ 52) Hb) as [H1 _]. fold q in H1. specialize (HX (2 ^ 52)).
  assert (Hlt : dist m < dist m').
  { rewrite Hdm. unfold dist. assert (f64_units m' * den < 2 ^ 52 * 2 ^ e * den) by (by apply Z.mul_lt_mono_pos_r).
    assert (K * Z.abs (a - q * b) <= K * (a - 2 ^ 52 * b)) by (apply Z.mul_le_mono_nonneg_l; lia). lia. }
  split; [lia|]. intros Heq. lia.
Qed.

(** The half-way point between the largest float64 and the next number its exponent
    would allow. *)
Definition f64_limit : Z := (2 ^ 54 - 1) * 2 ^ 970.

Lemma limit_scaled num den P : P = 2 ^ 2045 ->
  den * f64_limit <= num <-> (2 ^ 54 - 1) * P * den <= 2 * (num * 2 ^ 1074).
Proof.
  intros ->. unfold f64_limit. replace 2045 with (970 + 1075) by lia. rewrite (Z.pow_add_r 2 970 1075) by lia.
  replace (2 * (num * 2 ^ 1074)) with (num * 2 ^ 1075) by (change 1075 with (Z.succ 1074); rewrite Z.pow_succ_r by lia; ring).
  replace ((2 ^ 54 - 1) * (2 ^ 970 * 2 ^ 1075) * den) with (den * ((2 ^ 54 - 1) * 2 ^ 970) * 2 ^ 1075) by ring.
  apply Z.mul_le_mono_pos_r. by apply Z.pow_pos_nonneg.
Qed.

Lemma round_ratio_range num den : 0 <= num -> 0 < den ->
  infinity64 <= round_ratio num den <-> den * f64_limit <= num.
Proof.
  intros Hn Hd. destruct (Z.eq_dec num 0) as [->|Hn0].
  { split; [by vm_compute|]. intros H. assert (0 < den * f64_limit) by (by apply Z.mul_pos_pos). lia. }
  destruct (round_ratio_shape num den ltac:(lia) Hd) as (e & a & b & K & He & Hb & HK & Hm & Hq & Hnorm & HX).
  destruct (round_div_spec a b Hb) as (Hhalf & Htie & _). set (q := round_div a b) in *.
  rewrite Hm. remember (2 ^ 2045) as P eqn:EP. rewrite (limit_scaled num den P EP).
  pose proof (HX 0) as HX0. pose proof (HX 1) as HX1. remember (num * 2 ^ 1074) as X. remember (2 ^ e) as U eqn:EU.
  assert (HP : 0 < P) by (subst P; by apply Z.pow_pos_nonneg). assert (HU : 0 < U) by (subst U; by apply Z.pow_pos_nonneg).
  assert (HXa : X = K * a) by lia. assert (HUb : U * den = K * b) by lia. clear HX HX0 HX1 HeqX Hm.
  unfold infinity64. destruct (Z.lt_trichotomy e 2045) as [Hlt|[->|Hgt]].
  - assert (2 * U <= P).
    { subst. rewrite <- Z.pow_succ_r by lia. apply Z.pow_le_mono_r; lia. }
    split; [lia|]. intros Hl. exfalso.
    assert (2 * a <= (2 ^ 54 + 1) * b) by nia. assert (K * (2 * a) <= K * ((2 ^ 54 + 1) * b)) by (apply Z.mul_le_mono_nonneg_l; lia).
    assert (2 * (U * den) <= P * den) by nia. assert (0 < U * den) by nia. lia.
  - assert (U = P) as -> by congruence. split.
    + intros Hl. assert (q = 2 ^ 53) as Eq by lia. rewrite Eq in Hhalf.
      assert ((2 ^ 54 - 1) * b <= 2 * a) by lia. assert (K * ((2 ^ 54 - 1) * b) <= K * (2 * a)) by (apply Z.mul_le_mono_nonneg_l; lia). lia.
    + intros Hl. assert ((2 ^ 54 - 1) * b <= 2 * a) by nia.
      assert (2 * a <= (2 * q + 1) * b) by lia. assert (2 ^ 53 - 1 <= q) by nia.
      destruct (Z.eq_dec q (2 ^ 53 - 1)) as [Eq|]; [|lia]. exfalso. rewrite Eq in *.
      assert (Hev : Z.even (2 ^ 53 - 1) = true) by (apply Htie; lia). by vm_compute in Hev.
  - destruct Hnorm as [?|[Hqn Hbig]]; [lia|]. split; [|lia]. intros _.
    assert (2 * P <= U). { subst. rewrite <- Z.pow_succ_r by lia. apply Z.pow_le_mono_r; lia. }
    assert (K * (2 ^ 52 * b) <= K * a) by (apply Z.mul_le_mono_nonneg_l; lia).
    assert (2 * (P * den) <= U * den) by nia. lia.
Qed.

(** ** The text is read as it was written *)

Lemma read_number neg intd frac exp n :
  intd <> [] -> digit_string intd -> digit_string (default [] frac) ->
  digits_val 10 0 (intd ++ default [] frac) = Some n ->
  let s := number_text neg intd frac exp in
  s <> lit "Infinity" /\ s <> lit "-Infinity" /\ s <> lit "NaN" /\
  read_decimal s = Some (neg, n, default 0 exp - zlen (default [] frac)).
Proof.
  intros Hne Hi Hf Hv s. destruct (number_text_cut neg intd frac exp Hne Hi Hf) as (H1 & H2 & H3 & Hsg & Hsp & Hfr).
  split_and!; try done. unfold read_decimal. unfold s. rewrite Hsg, Hsp, Hfr.
  replace (zlen _ =? 0) with false
    by (rewrite zlen_app; pose proof (zlen_nonneg (default [] frac)); destruct intd; [done|]; rewrite zlen_cons; pose proof (zlen_nonneg intd); lia).
  rewrite Hv. clear Hsg Hsp Hfr. cbn -[exp_text span digits_val zlen].
  destruct exp as [x|]; [|done]. cbn -[span digits_val zlen digits take_sign]. unfold FormatInt.
  assert (Hdig : forall k (neg' : bool), 0 <= k ->
    take_sign ((if neg' then "-"%byte else "+"%byte) :: digits 10 k) = (neg', digits 10 k) /\
    span is_digit (digits 10 k) = (digits 10 k, []) /\ zlen (digits 10 k) =? 0 = false /\ digits_val 10 0 (digits 10 k) = Some k).
  { intros k neg' Hk. destruct (digits_spells 10 k) as [Hpos Hval _ _ _]; [lia..|]. split_and!.
    - by destruct neg'. - rewrite <- (app_nil_r (digits 10 k)) at 1. by apply span_app; [apply digit_string_digits|].
    - lia. - by rewrite Hval. }
  destruct (0 <=? x) eqn:Ex; [destruct (Hdig x false ltac:(lia)) as (Hs1 & Hs2 & Hs3 & Hs4)|
    destruct (Hdig (- x) true ltac:(lia)) as (Hs1 & Hs2 & Hs3 & Hs4)].
  - replace (x <? 0) with false by lia.
    cbn -[span digits_val zlen digits take_sign] in *. rewrite Hs1, Hs2, Hs3, Hs4. done.
  - replace (- x <? 0) with false by lia.
    cbn -[span digits_val zlen digits take_sign] in *. rewrite Hs1, Hs2, Hs3, Hs4. cbn -[zlen]. by rewrite Z.opp_involutive.
Qed.

(** The magnitude of a finite value, as a ratio. *)
Definition dec_num (d : DecFloat) : Z := decimal_num (Z.abs (default 0 (unscaled d))) (- scale d).
Definition dec_den (d : DecFloat) : Z := decimal_den (- scale d).

Lemma dec_ratio d : 0 <= dec_num d /\ 0 < dec_den d.
Proof.
  unfold dec_num, dec_den, decimal_num, decimal_den.
  split; [apply Z.mul_nonneg_nonneg; [lia|apply Z.pow_nonneg; lia]|apply Z.pow_pos_nonneg; lia].
Qed.

Lemma Float64_run d :
  special d = decFinite -> in_int32 (scale d) -> zlen (dec_digits d) <= 2 ^ 31 ->
  let sign := if dec_neg d then 2 ^ 63 else 0 in
  let m := round_ratio (dec_num d) (dec_den d) in
  DecFloat_Float64 d =
  if infinity64 <=? m then (sign + infinity64, Some (errRange (DecFloat_String d))) else (sign + m, None).
Proof.
  intros Hs Hsc Hlen. destruct (String_spelled d Hs Hsc Hlen) as (intd & frac & exp & Hstr & [Hne Hi Hf Hv Hscale _]).
  unfold DecFloat_Float64. rewrite Hstr.
  destruct (read_number (dec_neg d) intd frac exp _ Hne Hi Hf Hv)
    as (H1 & H2 & H3 & Hr).
  unfold ParseFloat64. rewrite !decide_False by done. rewrite Hr.
  replace (default 0 exp - zlen (default [] frac)) with (- scale d) by lia. reflexivity.
Qed.

(** C32 (functional). [Float64] of a finite DECFLOAT has its sign and is the float64
    nearest to it: no other is nearer, and between two equally near ones it is the one
    with the even mantissa. From the half-way point beyond the largest float64 on, and
    only from there on, it is an infinity with a range error. Distances are compared as
    integers, in units of [2^-1074] and times the denominator of the value. *)
Theorem Float64_is_nearest d m' :
  special d = decFinite -> in_int32 (scale d) -> zlen (dec_digits d) <= 2 ^ 31 -> 0 <= m' ->
  let '(bits, err) := DecFloat_Float64 d in
  let m := bits mod 2 ^ 63 in
  let dist x := Z.abs (dec_num d * 2 ^ 1074 - f64_units x * dec_den d) in
  bits / 2 ^ 63 = (if dec_neg d then 1 else 0) /\
  match err with
  | None => dec_num d < dec_den d * f64_limit /\ m < infinity64 /\ dist m <= dist m' /\
            (dist m = dist m' -> f64_units m' <> f64_units m -> Z.even m = true)
  | Some _ => dec_den d * f64_limit <= dec_num d /\ m = infinity64
  end.
Proof.
  intros Hs Hsc Hlen Hm'. rewrite Float64_run by done. destruct (dec_ratio d) as [Hn Hd].
  pose proof (round_ratio_range (dec_num d) (dec_den d) Hn Hd) as Hrange.
  destruct (round_ratio_nearest (dec_num d) (dec_den d) m' Hn Hd Hm') as (H0 & H1 & H2).
  assert (Hparts : forall x, 0 <= x < 2 ^ 63 ->
    ((if dec_neg d then 2 ^ 63 else 0) + x) / 2 ^ 63 = (if dec_neg d then 1 else 0) /\
    ((if dec_neg d then 2 ^ 63 else 0) + x) mod 2 ^ 63 = x).
  { intros x Hx. destruct (dec_neg d); Z.div_mod_to_equations; lia. }
  cbv zeta. destruct (infinity64 <=? _) eqn:E.
  - destruct (Hparts infinity64) as [-> ->]; [by unfold infinity64|]. split; [done|]. split; [apply Hrange; lia|done].
  - destruct (Hparts (round_ratio (dec_num d) (dec_den d))) as [-> ->]; [unfold infinity64 in E; lia|].
    split_and!; [done|lia|lia|done|done].
Qed.

Lemma Float64_is_nearest_witness :
  let d := mkDecFloat decFinite (Some 9007199254740993) 0 in
  let dist x := Z.abs (9007199254740993 * 2 ^ 1074 - f64_units x) in
  DecFloat_Float64 d = (0x4340000000000000, None) /\
  dist 0x4340000000000000 <= dist 0x4340000000000001.
Proof.
  intros d dist. split; [by vm_compute|].
  assert (Hsc : in_int32 (scale d)) by (unfold in_int32, in_intN; cbn; lia).
  assert (Hlen : zlen (dec_digits d) <= 2 ^ 31) by (vm_compute; discriminate).
  pose proof (Float64_is_nearest d 0x4340000000000001 eq_refl Hsc Hlen ltac:(lia)) as H.
  replace (DecFloat_Float64 d) with (0x4340000000000000, @None error) in H by (by vm_compute).
  destruct H as (_ & _ & _ & H & _). unfold dec_num, dec_den in H. vm_compute in H |- *. exact H.
Defined.
