(* ===== verification/ValueText.v ===== *)
(** * UUID and INTERVAL values as text (value_read.go, value_write.go) *)

From Stdlib Require Import Strings.Byte.
From S2P Require Import Prelude.
From S2P Require Import GoText.

(** ** UUIDs *)

(** Shifts of a signed 64-bit value; the conversions keep the low bits. *)
Definition formatUUID (high low : Z) : gostring :=
  fmt_0x 8 (uint32 (Z.shiftr high 32)) ++ lit "-" ++
  fmt_0x 4 (uint16 (Z.shiftr high 16)) ++ lit "-" ++
  fmt_0x 4 (uint16 high) ++ lit "-" ++
  fmt_0x 4 (uint16 (Z.shiftr low 48)) ++ lit "-" ++
  fmt_0x 12 (Z.land (uint64 low) 0x0000FFFFFFFFFFFF).

Definition is_hyphen (s : gostring) (i : nat) : bool := bool_decide (s !! i = Some "-"%byte).

(** The [*strconv.NumError] of a failed [ParseUint]. *)
Definition errParseUint (s : gostring) : error :=
  EErrorf "strconv.ParseUint: parsing %q: invalid syntax" [AStr s].

(** The two halves of the compact form. *)
Definition parseUUIDHalves (uuid : gostring) : res (Z * Z) :=
  match ParseUint 16 (take 16 uuid) with
  | None => Err (EWrapf "invalid UUID high bits: %w" [] [errParseUint (take 16 uuid)])
  | Some h =>
      match ParseUint 16 (drop 16 uuid) with
      | None => Err (EWrapf "invalid UUID low bits: %w" [] [errParseUint (drop 16 uuid)])
      | Some l => Ok (int64 h, int64 l)
      end
  end.

Definition parseUUIDString (s : gostring) : res (Z * Z) :=
  let uuid := TrimSpace s in
  if zlen uuid =? 36 then
    if negb (is_hyphen uuid 8) || negb (is_hyphen uuid 13) || negb (is_hyphen uuid 18)
       || negb (is_hyphen uuid 23)
    then Err (EErrorf "expected canonical UUID hyphen positions" [])
    else parseUUIDHalves (remove_byte "-"%byte uuid)
  else if zlen uuid =? 32 then parseUUIDHalves uuid
  else Err (EErrorf "expected 32 or 36 characters, got %d" [AInt (zlen uuid)]).

(** ** Intervals *)

Record intervalQual := mkIntervalQual { iq_name : gostring; hasRemaining : bool }.

Definition intervalQualifier (ordinal : Z) : intervalQual :=
  if ordinal =? 0 then mkIntervalQual (lit "YEAR") false
  else if ordinal =? 1 then mkIntervalQual (lit "MONTH") false
  else if ordinal =? 2 then mkIntervalQual (lit "DAY") false
  else if ordinal =? 3 then mkIntervalQual (lit "HOUR") false
  else if ordinal =? 4 then mkIntervalQual (lit "MINUTE") false
  else if ordinal =? 5 then mkIntervalQual (lit "SECOND") true
  else if ordinal =? 6 then mkIntervalQual (lit "YEAR TO MONTH") true
  else if ordinal =? 7 then mkIntervalQual (lit "DAY TO HOUR") true
  else if ordinal =? 8 then mkIntervalQual (lit "DAY TO MINUTE") true
  else if ordinal =? 9 then mkIntervalQual (lit "DAY TO SECOND") true
  else if ordinal =? 10 then mkIntervalQual (lit "HOUR TO MINUTE") true
  else if ordinal =? 11 then mkIntervalQual (lit "HOUR TO SECOND") true
  else if ordinal =? 12 then mkIntervalQual (lit "MINUTE TO SECOND") true
  else mkIntervalQual (lit "UNKNOWN") false.

Definition intervalNanosPerSecond : Z := 1000000000.
Definition intervalNanosPerMinute : Z := 60 * intervalNanosPerSecond.

Definition formatIntervalNanos (nanos : Z) : gostring :=
  if nanos <=? 0 then [] else lit "." ++ TrimRight1 (fmt_0d 9 nanos) "0"%byte.

(** The switch compares the qualifier's name; division truncates as Go's does. *)
Definition formatInterval (qualifier : gostring) (leading remaining : Z) : gostring :=
  let neg := if leading <? 0 then lit "-" else [] in
  let leading := if leading <? 0 then int64 (- leading) else leading in
  let text body := lit "INTERVAL '" ++ neg ++ FormatInt leading ++ body ++ lit "' " ++ qualifier in
  if decide (qualifier = lit "SECOND") then text (formatIntervalNanos remaining)
  else if decide (qualifier = lit "YEAR TO MONTH") then text (lit "-" ++ FormatInt remaining)
  else if decide (qualifier = lit "DAY TO HOUR") then text (lit " " ++ fmt_0d 2 remaining)
  else if decide (qualifier = lit "DAY TO MINUTE") then
    text (lit " " ++ fmt_0d 2 (Z.quot remaining 60) ++ lit ":" ++ fmt_0d 2 (Z.rem remaining 60))
  else if decide (qualifier = lit "DAY TO SECOND") then
    let minutes := Z.quot remaining intervalNanosPerMinute in
    let nanos := Z.rem remaining intervalNanosPerMinute in
    text (lit " " ++ fmt_0d 2 (Z.quot minutes 60) ++ lit ":" ++ fmt_0d 2 (Z.rem minutes 60) ++
          lit ":" ++ fmt_0d 2 (Z.quot nanos intervalNanosPerSecond) ++
          formatIntervalNanos (Z.rem nanos intervalNanosPerSecond))
  else if decide (qualifier = lit "HOUR TO MINUTE") then text (lit ":" ++ fmt_0d 2 remaining)
  else if decide (qualifier = lit "HOUR TO SECOND") then
    let minutes := Z.quot remaining intervalNanosPerMinute in
    let secPart := Z.rem remaining intervalNanosPerMinute in
    text (lit ":" ++ fmt_0d 2 minutes ++ lit ":" ++ fmt_0d 2 (Z.quot secPart intervalNanosPerSecond) ++
          formatIntervalNanos (Z.rem secPart intervalNanosPerSecond))
  else if decide (qualifier = lit "MINUTE TO SECOND") then
    text (lit ":" ++ fmt_0d 2 (Z.quot remaining intervalNanosPerSecond) ++
          formatIntervalNanos (Z.rem remaining intervalNanosPerSecond))
  else text [].

Example uuid_ex : formatUUID (-2) 0x8000000000000001 = lit "ffffffff-ffff-fffe-8000-000000000001"
  /\ parseUUIDString (lit " FFFFFFFFfffffffe8000000000000001 ") = Ok (-2, - 2 ^ 63 + 1).
Proof. vm_compute. split; reflexivity. Qed.
Example interval_ex :
  formatInterval (lit "DAY TO SECOND") (-1) 7384500000000 = lit "INTERVAL '-1 02:03:04.5' DAY TO SECOND"
  /\ formatInterval (lit "YEAR TO MONTH") 1 6 = lit "INTERVAL '1-6' YEAR TO MONTH".
Proof. vm_compute. split; reflexivity. Qed.

(** ** Lemmas *)

Definition hex_digit (b : byte) : Prop := exists d, 0 <= d < 16 /\ b = digit_char d.

Lemma hex_digit_range b : hex_digit b -> between 48 (b2z b) 57 = true \/ between 97 (b2z b) 102 = true.
Proof.
  intros (d & Hd & ->). unfold digit_char, between. destruct (d <? 10) eqn:E;
    rewrite b2z_z2b_small by lia; lia.
Qed.

Record padded_hex (w n : Z) (s : gostring) : Prop := {
  padded_len : zlen s = w;
  padded_val acc : digits_val 16 acc s = Some (acc * 16 ^ w + n);
  padded_digits : Forall hex_digit s
}.

Lemma repeat_zeros_acc base k acc ds :
  2 <= base <= 16 -> digits_val base acc (repeat "0"%byte k ++ ds) = digits_val base (acc * base ^ Z.of_nat k) ds.
Proof.
  intros Hb. revert acc. induction k as [|k IH]; intros acc.
  { cbn. by rewrite Z.mul_1_r. }
  cbn [repeat app digits_val]. change "0"%byte with (digit_char 0) at 1.
  rewrite digit_val_char by lia. rewrite IH. f_equal. rewrite Nat2Z.inj_succ, Z.pow_succ_r by lia. ring.
Qed.

Lemma fmt_0x_padded w n : 1 <= w -> 0 <= n < 16 ^ w -> padded_hex w n (fmt_0x w n).
Proof.
  intros Hw Hn. destruct (digits_spells 16 n) as [H1 H2 H3 H4 H5]; [lia..|].
  set (ds := digits 16 n) in *.
  assert (zlen ds <= w).
  { destruct H4 as [H4|H4]; [lia|]. apply Z.nlt_ge. intros Hlt.
    assert (16 ^ w <= 16 ^ (zlen ds - 1)) by (apply Z.pow_le_mono_r; lia). lia. }
  unfold fmt_0x, zero_pad, Repeat. fold ds. split.
  - rewrite zlen_app. unfold zlen at 1. rewrite repeat_length. lia.
  - intros acc. rewrite repeat_zeros_acc, H2 by lia. f_equal.
    rewrite <- Z.mul_assoc, <- Z.pow_add_r by lia. do 3 f_equal. lia.
  - apply Forall_app. split; [|done]. apply Forall_forall. intros b Hb.
    apply list_elem_of_In, repeat_spec in Hb as ->. exists 0. split; [lia|reflexivity].
Qed.

Lemma padded_app w1 n1 s1 w2 n2 s2 :
  0 <= w1 -> 0 <= w2 -> padded_hex w1 n1 s1 -> padded_hex w2 n2 s2 ->
  padded_hex (w1 + w2) (n1 * 16 ^ w2 + n2) (s1 ++ s2).
Proof.
  intros Hw1 Hw2 [L1 V1 D1] [L2 V2 D2]. split.
  - rewrite zlen_app. lia.
  - intros acc. rewrite digits_val_app, V1, V2. f_equal. rewrite Z.pow_add_r by lia. ring.
  - by apply Forall_app.
Qed.

Lemma remove_hyphens s : Forall hex_digit s -> remove_byte "-"%byte s = s.
Proof.
  unfold remove_byte. induction 1 as [|b s Hb _ IH]; [done|].
  rewrite filter_cons_True, IH; [done|]. intros ->. by destruct (hex_digit_range _ Hb).
Qed.

Lemma remove_byte_app c s1 s2 : remove_byte c (s1 ++ s2) = remove_byte c s1 ++ remove_byte c s2.
Proof. apply filter_app. Qed.

(** Trimming does nothing to printable ASCII without spaces. *)
Lemma drop_while_all {A} (p : A -> bool) l : Forall (fun x => p x = false) l -> drop_while p l = l.
Proof. destruct 1 as [|x l Hx _]; [done|]. cbn. by rewrite Hx. Qed.

Lemma TrimSpace_printable s : Forall (fun b => between 33 (b2z b) 126 = true) s -> TrimSpace s = s.
Proof.
  intros H. unfold TrimSpace. rewrite <- (chunks_concat s) at 2. f_equal.
  rewrite chunks_ascii by (eapply Forall_impl; [exact H|]; unfold between; intros b Hb; cbv beta in Hb; lia).
  assert (Forall (fun c : Z * gostring => is_space c.1 = false) (map (fun b => (b2z b, [b])) s)) as Hs.
  { apply Forall_map. eapply Forall_impl; [exact H|]. intros b Hb. cbv beta in Hb.
    cbn. unfold is_space, between in *. lia. }
  unfold drop_while_end. rewrite (drop_while_all _ _ Hs).
  rewrite drop_while_all by (by apply Forall_reverse). apply reverse_involutive.
Qed.

Lemma parseUUIDHalves_ok s h l :
  padded_hex 16 (uint64 h) (take 16 s) -> padded_hex 16 (uint64 l) (drop 16 s) ->
  in_intN 64 h -> in_intN 64 l -> parseUUIDHalves s = Ok (h, l).
Proof.
  intros [L1 V1 _] [L2 V2 _] Hh Hl. unfold parseUUIDHalves, ParseUint.
  rewrite L1, L2, V1, V2, !Z.mul_0_l, !Z.add_0_l. change (16 =? 0) with false. cbv iota.
  pose proof (uintN_range 64 h ltac:(lia)). pose proof (uintN_range 64 l ltac:(lia)).
  replace (uint64 h <? _) with true by lia. replace (uint64 l <? _) with true by lia.
  unfold uintN. rewrite !intN_mod, !intN_small by (done || lia). done.
Qed.

Lemma uint_split k n z :
  0 <= k -> 0 <= n -> uintN n (Z.shiftr z k) * 2 ^ k + uintN k z = uintN (n + k) z.
Proof.
  intros Hk Hn. unfold uintN. rewrite Z.shiftr_div_pow2, Z.add_comm by done.
  rewrite (Z.add_comm n k), Z.pow_add_r, Z.rem_mul_r by lia. lia.
Qed.

Lemma uint_low48 z : Z.land (uint64 z) 0x0000FFFFFFFFFFFF = uintN 48 z.
Proof.
  change 0x0000FFFFFFFFFFFF with (2 ^ 48 - 1). rewrite land_ones_mod by lia.
  unfold uintN. change (2 ^ 64) with (2 ^ 48 * 2 ^ 16).
  rewrite Z.rem_mul_r, (Z.mul_comm (2 ^ 48)), Z.mod_add by lia. apply Z.mod_mod. lia.
Qed.

(** The five groups of a UUID and the halves they make. *)
Lemma uuid_groups high low :
  exists g1 g2 g3 g4 g5,
    formatUUID high low = g1 ++ lit "-" ++ g2 ++ lit "-" ++ g3 ++ lit "-" ++ g4 ++ lit "-" ++ g5 /\
    padded_hex 8 (uint32 (Z.shiftr high 32)) g1 /\ padded_hex 4 (uint16 (Z.shiftr high 16)) g2 /\
    padded_hex 4 (uint16 high) g3 /\ padded_hex 4 (uint16 (Z.shiftr low 48)) g4 /\
    padded_hex 12 (uintN 48 low) g5.
Proof.
  unfold formatUUID. rewrite uint_low48. do 5 eexists. split; [reflexivity|].
  split_and!; apply fmt_0x_padded; try lia; apply uintN_range; lia.
Qed.

Lemma uuid_high high g1 g2 g3 :
  padded_hex 8 (uint32 (Z.shiftr high 32)) g1 -> padded_hex 4 (uint16 (Z.shiftr high 16)) g2 ->
  padded_hex 4 (uint16 high) g3 -> padded_hex 16 (uint64 high) (g1 ++ g2 ++ g3).
Proof.
  intros H1 H2 H3. change (uint64 high) with (uintN (32 + 32) high).
  rewrite <- (uint_split 32 32 high) by lia. change (uintN 32 high) with (uintN (16 + 16) high).
  rewrite <- (uint_split 16 16 high) by lia.
  change (2 ^ 32) with (16 ^ (4 + 4)). change (2 ^ 16) with (16 ^ 4).
  apply (padded_app 8 _ _ (4 + 4)); [lia..|done|]. by apply (padded_app 4 _ _ 4).
Qed.

Lemma uuid_low low g4 g5 :
  padded_hex 4 (uint16 (Z.shiftr low 48)) g4 -> padded_hex 12 (uintN 48 low) g5 ->
  padded_hex 16 (uint64 low) (g4 ++ g5).
Proof.
  intros H1 H2. change (uint64 low) with (uintN (16 + 48) low).
  rewrite <- (uint_split 48 16 low) by lia. change (2 ^ 48) with (16 ^ 12).
  by apply (padded_app 4 _ _ 12).
Qed.

(** ** Correctness *)

(** Any UUID the server sends is rendered in the canonical form of 36
    characters, and binding that text to a UUID parameter sends back the same 128 bits. *)
Theorem UUID_roundtrip high low :
  in_intN 64 high -> in_intN 64 low ->
  zlen (formatUUID high low) = 36 /\ parseUUIDString (formatUUID high low) = Ok (high, low).
Proof.
  intros Hh Hl. destruct (uuid_groups high low) as (g1 & g2 & g3 & g4 & g5 & E & P1 & P2 & P3 & P4 & P5).
  pose proof (uuid_high _ _ _ _ P1 P2 P3) as PH. pose proof (uuid_low _ _ _ P4 P5) as PL.
  destruct P1 as [L1 _ D1], P2 as [L2 _ D2], P3 as [L3 _ D3], P4 as [L4 _ D4], P5 as [L5 _ D5].
  assert (Hlen : zlen (formatUUID high low) = 36) by (rewrite E, !zlen_app, L1, L2, L3, L4, L5; done).
  split; [done|]. unfold parseUUIDString. rewrite TrimSpace_printable.
  2:{ rewrite E. repeat apply Forall_app_2; try (by repeat constructor);
      (eapply Forall_impl; [eassumption|]); intros b [Hb|Hb]%hex_digit_range; unfold between in *; lia. }
  rewrite Hlen. change (36 =? 36) with true. cbv iota.
  unfold zlen in L1, L2, L3, L4.
  assert (is_hyphen (formatUUID high low) 8 = true /\ is_hyphen (formatUUID high low) 13 = true /\
          is_hyphen (formatUUID high low) 18 = true /\ is_hyphen (formatUUID high low) 23 = true)
    as (-> & -> & -> & ->).
  { rewrite E. unfold is_hyphen. split_and!; apply bool_decide_eq_true_2;
      repeat (rewrite lookup_app_r by (cbn [length lit]; cbn; lia)); cbn [length lit];
      match goal with |- (lit "-" ++ _) !! ?i = _ => replace i with O by (cbn; lia) end; done. }
  cbn [negb orb]. rewrite E, !remove_byte_app.
  rewrite (remove_hyphens g1), (remove_hyphens g2), (remove_hyphens g3), (remove_hyphens g4),
    (remove_hyphens g5) by done.
  change (remove_byte "-"%byte (lit "-")) with (@nil byte). cbn [app].
  replace (g1 ++ g2 ++ g3 ++ g4 ++ g5) with ((g1 ++ g2 ++ g3) ++ g4 ++ g5) by (by rewrite !app_assoc).
  apply parseUUIDHalves_ok; [|..|done|done].
  - rewrite take_app_length'; [done|]. rewrite !length_app. lia.
  - rewrite drop_app_length'; [done|]. rewrite !length_app. lia.
Qed.

Lemma UUID_roundtrip_witness :
  parseUUIDString (formatUUID (-2) 1311768467463790320) = Ok (-2, 1311768467463790320).
Proof. apply (UUID_roundtrip (-2) 1311768467463790320); unfold in_intN; lia. Defined.

(** The time part of INTERVAL DAY TO SECOND, which the server sends as
    one count of nanoseconds, is split into hours, minutes, seconds and a fraction that
    add up to it; the hours stay below 24 and the sign is in front of the days only. *)
Theorem formatInterval_day_to_second leading remaining :
  in_intN 64 leading -> leading <> - 2 ^ 63 -> 0 <= remaining < 86400 * intervalNanosPerSecond ->
  exists h m s n,
    0 <= h < 24 /\ 0 <= m < 60 /\ 0 <= s < 60 /\ 0 <= n < intervalNanosPerSecond /\
    (h * 3600 + m * 60 + s) * intervalNanosPerSecond + n = remaining /\
    formatInterval (lit "DAY TO SECOND") leading remaining =
      lit "INTERVAL '" ++ FormatInt leading ++ lit " " ++ fmt_0d 2 h ++ lit ":" ++ fmt_0d 2 m ++ lit ":"
      ++ fmt_0d 2 s ++ formatIntervalNanos n ++ lit "' DAY TO SECOND".
Proof.
  unfold in_intN, intervalNanosPerSecond. intros Hl Hmin Hr.
  unfold formatInterval, intervalNanosPerMinute, intervalNanosPerSecond. do 4 eexists.
  do 5 (split; [shelve|]).
  assert (forall body : gostring, (if leading <? 0 then lit "-" else []) ++ FormatInt (if leading <? 0 then int64 (- leading) else leading) ++ body
          = FormatInt leading ++ body) as Hs.
  { intros body. unfold FormatInt. destruct (leading <? 0) eqn:E.
    - rewrite intN_small by (unfold in_intN; lia). by replace (- leading <? 0) with false by lia.
    - by rewrite E. }
  cbv zeta. do 4 rewrite decide_False by done. rewrite decide_True, Hs by done.
  by rewrite <- !app_assoc.
  Unshelve. all: Z.to_euclidean_division_equations; lia.
Qed.

Lemma formatInterval_day_to_second_witness :
  exists h m s n, 0 <= h < 24 /\ 0 <= m < 60 /\ 0 <= s < 60 /\ 0 <= n < intervalNanosPerSecond.
Proof.
  destruct (formatInterval_day_to_second (-3) 7384500000000) as (h & m & s & n & H1 & H2 & H3 & H4 & _);
    [unfold in_intN; lia|lia|unfold intervalNanosPerSecond; lia|by exists h, m, s, n].
Defined.
