(* ===== verification/ErrorText.v ===== *)
(** * How a server error prints (errors.go: [Error.Error], [Error.Format])

    The text of a server error quotes the statement it is about with the [%q] of package
    fmt, that is with [strconv.Quote], which is modelled here. Which characters beyond
    ASCII are printable is the table of package strconv, a parameter. *)

From S2P Require Import Prelude.
From S2P Require Import GoText.
From S2P Require Import ValueText.
From S2P Require Import Errors.
From Stdlib Require Import Strings.Byte.
Local Open Scope Z_scope.

(** ** [strconv.Quote] *)

(** [strconv.IsPrint] from U+0080 on. *)
Class Printable := print_beyond : Z -> bool.

Definition backslash : byte := Byte.x5c.
Definition dquote : byte := Byte.x22.

Section Quote.
Context `{Printable}.

Definition IsPrint (r : Z) : bool := if r <? 0x80 then between 0x20 r 0x7E else print_beyond r.

(** The letter of the escape of a control character that has one. *)
Definition control_letter (r : Z) : option byte :=
  match r with
  | 7 => Some "a"%byte
  | 8 => Some "b"%byte
  | 12 => Some "f"%byte
  | 10 => Some "n"%byte
  | 13 => Some "r"%byte
  | 9 => Some "t"%byte
  | 11 => Some "v"%byte
  | _ => None
  end.

(** [appendEscapedRune] with the double quote. *)
Definition escape_rune (r : Z) : gostring :=
  if (r =? b2z dquote) || (r =? b2z backslash) then [backslash; z2b r]
  else if IsPrint r then encode_rune r
  else
    match control_letter r with
    | Some c => [backslash; c]
    | None =>
        if (r <? 0x20) || (r =? 0x7F) then backslash :: "x"%byte :: fmt_0x 2 r
        else
          let r := if valid_rune r then r else RuneError in
          if r <? 0x10000 then backslash :: "u"%byte :: fmt_0x 4 r
          else backslash :: "U"%byte :: fmt_0x 8 r
    end.

(** One step of [appendQuotedWith]: a byte that starts no rune is escaped by its value. *)
Definition quote_chunk (c : Z * gostring) : gostring :=
  match c with
  | (r, [b]) => if r =? RuneError then backslash :: "x"%byte :: fmt_0x 2 (b2z b) else escape_rune r
  | (r, _) => escape_rune r
  end.

Definition Quote (s : gostring) : gostring := dquote :: flat_map quote_chunk (chunks s) ++ [dquote].

(** ** The text of an error *)

Definition Error_Error (e : option Error) : gostring :=
  match e with
  | None => lit "h2go: <nil> H2 error"
  | Some e =>
      lit "h2go: H2 error"
      ++ (if bool_decide (SQLState e <> []) || negb (Code e =? 0)
          then lit " [" ++ SQLState e ++ lit "/" ++ FormatInt (Code e) ++ lit "]" else [])
      ++ (if decide (Message e <> []) then lit ": " ++ Message e else [])
      ++ (if decide (SQL e <> []) then lit " (sql=" ++ Quote (SQL e) ++ lit ")" else [])
  end.

(** What [Format] prints for a verb; [plus]: the [+] flag. *)
Definition Error_Format (e : option Error) (verb : byte) (plus : bool) : gostring :=
  if bool_decide (verb = "v"%byte) || bool_decide (verb = "s"%byte) then
    match e with
    | None => lit "<nil>"
    | Some e' =>
        Error_Error e
        ++ (if bool_decide (verb = "v"%byte) && plus && bool_decide (StackTrace e' <> [])
            then Byte.x0a :: StackTrace e' else [])
    end
  else if bool_decide (verb = "q"%byte) then
    match e with
    | None => lit "<nil>"
    | Some _ => Quote (Error_Error e)
    end
  else [].

End Quote.

(** No character beyond ASCII is printable. *)
Definition ascii_only : Printable := fun _ => false.

Example error_text_ex :
  let e := mkError (lit "42S02") (lit "Table not found") (lit "SELECT 'a" ++ [dquote] ++ lit "b'" ++ [Byte.x0a; Byte.xc3; Byte.xa9; Byte.xff]) 42102 (lit "at X") in
  @Error_Error ascii_only (Some e)
  = lit "h2go: H2 error [42S02/42102]: Table not found (sql=" ++ [dquote] ++ lit "SELECT 'a"
    ++ [backslash; dquote] ++ lit "b'" ++ [backslash] ++ lit "n" ++ [backslash] ++ lit "u00e9" ++ [backslash] ++ lit "xff"
    ++ [dquote] ++ lit ")" /\
  @Error_Format ascii_only (Some e) "v"%byte true = @Error_Error ascii_only (Some e) ++ [Byte.x0a] ++ lit "at X" /\
  @Error_Format ascii_only None "q"%byte true = lit "<nil>".
Proof. vm_compute. done. Qed.

(** ** Reading a quoted string back *)

(** The escapes of a Go string literal that are one letter. *)
Definition letter_escape (c : byte) : option byte :=
  match c with
  | "a"%byte => Some (z2b 7)
  | "b"%byte => Some (z2b 8)
  | "f"%byte => Some (z2b 12)
  | "n"%byte => Some (z2b 10)
  | "r"%byte => Some (z2b 13)
  | "t"%byte => Some (z2b 9)
  | "v"%byte => Some (z2b 11)
  | _ => if bool_decide (c = backslash) || bool_decide (c = dquote) then Some c else None
  end.

(** The literal after its first quote; a newline is not allowed in it. *)
Fixpoint unquote_body (s : gostring) : option gostring :=
  match s with
  | [] => None
  | b :: s' =>
      if bool_decide (b = dquote) then match s' with [] => Some [] | _ => None end
      else if bool_decide (b = Byte.x0a) then None
      else if bool_decide (b = backslash) then
        match s' with
        | "x"%byte :: h1 :: h2 :: s1 =>
            n ← digits_val 16 0 [h1; h2]; app [z2b n] <$> unquote_body s1
        | "u"%byte :: h1 :: h2 :: h3 :: h4 :: s1 =>
            n ← digits_val 16 0 [h1; h2; h3; h4]; app (encode_rune n) <$> unquote_body s1
        | "U"%byte :: h1 :: h2 :: h3 :: h4 :: h5 :: h6 :: h7 :: h8 :: s1 =>
            n ← digits_val 16 0 [h1; h2; h3; h4; h5; h6; h7; h8]; app (encode_rune n) <$> unquote_body s1
        | c :: s1 => x ← letter_escape c; app [x] <$> unquote_body s1
        | [] => None
        end
      else app [b] <$> unquote_body s'
  end.

Definition Unquote (s : gostring) : option gostring :=
  match s with
  | b :: s' => if bool_decide (b = dquote) then unquote_body s' else None
  | [] => None
  end.

Section Facts.
Context `{Printable}.

Lemma unquote_ascii b rest : b2z b < 0x80 ->
  unquote_body (escape_rune (b2z b) ++ rest) = app [b] <$> unquote_body rest.
Proof using.
  intros Hb. destruct b; try (exfalso; vm_compute in Hb; discriminate Hb); reflexivity.
Qed.

Lemma unquote_bad b rest : 0x80 <= b2z b ->
  unquote_body (quote_chunk (RuneError, [b]) ++ rest) = app [b] <$> unquote_body rest.
Proof using.
  intros Hb. destruct b; try (exfalso; vm_compute in Hb; by destruct Hb); reflexivity.
Qed.

Lemma encode_rune_high r : valid_rune r = true -> 0x80 <= r ->
  (2 <= length (encode_rune r))%nat /\ Forall (fun b => 0x80 <= b2z b) (encode_rune r).
Proof using.
  intros Hv Hr. pose proof (encode_rune_arith r Hv) as Ha. unfold valid_rune, MaxRune in Hv.
  replace (r <? 0x80) with false in Ha by lia.
  pose proof (Z.div_pos r 64 ltac:(lia) ltac:(lia)). pose proof (Z.div_pos r 4096 ltac:(lia) ltac:(lia)).
  pose proof (Z.div_pos r 262144 ltac:(lia) ltac:(lia)). pose proof (Z.mod_pos_bound r 64 ltac:(lia)).
  pose proof (Z.mod_pos_bound (r / 64) 64 ltac:(lia)). pose proof (Z.mod_pos_bound (r / 4096) 64 ltac:(lia)).
  destruct (r <? 0x800); [|destruct (r <? 0x10000)];
    destruct (encode_rune r) as [|b0 [|b1 [|b2 [|b3 [|]]]]]; try discriminate Ha; injection Ha as Ha;
    (split; [cbn; lia|]); repeat constructor; lia.
Qed.

(** A byte beyond ASCII stands for itself. *)
Lemma unquote_plain bs rest :
  Forall (fun b => 0x80 <= b2z b) bs -> unquote_body (bs ++ rest) = app bs <$> unquote_body rest.
Proof using.
  induction 1 as [|b bs Hb _ IH]; cbn [app]; [by destruct (unquote_body rest)|].
  assert (Hne : forall x, b2z x < 0x80 -> bool_decide (b = x) = false).
  { intros x Hx. apply bool_decide_false. intros ->. lia. }
  transitivity (app [b] <$> unquote_body (bs ++ rest)).
  - unfold unquote_body at 1. by rewrite !Hne.
  - rewrite IH. by destruct (unquote_body rest).
Qed.

(** Four or eight hexadecimal digits. *)
Lemma hex_four r rest : 0 <= r < 0x10000 ->
  unquote_body (backslash :: "u"%byte :: fmt_0x 4 r ++ rest) = app (encode_rune r) <$> unquote_body rest.
Proof using.
  intros Hr. destruct (fmt_0x_padded 4 r) as [Hl Hv _]; [lia|done|]. specialize (Hv 0).
  destruct (fmt_0x 4 r) as [|h1 [|h2 [|h3 [|h4 [|]]]]]; unfold zlen in Hl; try (cbn in Hl; lia).
  transitivity (n ← digits_val 16 0 [h1; h2; h3; h4]; app (encode_rune n) <$> unquote_body rest); [reflexivity|].
  by rewrite Hv.
Qed.

Lemma hex_eight r rest : 0 <= r < 0x100000000 ->
  unquote_body (backslash :: "U"%byte :: fmt_0x 8 r ++ rest) = app (encode_rune r) <$> unquote_body rest.
Proof using.
  intros Hr. destruct (fmt_0x_padded 8 r) as [Hl Hv _]; [lia|done|]. specialize (Hv 0).
  destruct (fmt_0x 8 r) as [|h1 [|h2 [|h3 [|h4 [|h5 [|h6 [|h7 [|h8 [|]]]]]]]]]; unfold zlen in Hl; try (cbn in Hl; lia).
  transitivity (n ← digits_val 16 0 [h1; h2; h3; h4; h5; h6; h7; h8]; app (encode_rune n) <$> unquote_body rest);
    [reflexivity|]. by rewrite Hv.
Qed.

(** The three forms of a character beyond ASCII. *)
Lemma escape_rune_high r : valid_rune r = true -> 0x80 <= r ->
  escape_rune r = if print_beyond r then encode_rune r
                  else if r <? 0x10000 then backslash :: "u"%byte :: fmt_0x 4 r
                  else backslash :: "U"%byte :: fmt_0x 8 r.
Proof using.
  intros Hv Hr. unfold escape_rune, IsPrint. rewrite Hv.
  change (b2z dquote) with 0x22. change (b2z backslash) with 0x5C.
  replace ((r =? 0x22) || (r =? 0x5C)) with false by lia. replace (r <? 0x80) with false by lia.
  destruct (print_beyond r); [done|].
  assert (control_letter r = None) as ->.
  { unfold control_letter. destruct r as [|p|p]; try done. do 4 (destruct p as [p|p|]; try done); lia. }
  by replace ((r <? 0x20) || (r =? 0x7F)) with false by lia.
Qed.

Lemma unquote_rune r rest : valid_rune r = true -> 0x80 <= r ->
  unquote_body (escape_rune r ++ rest) = app (encode_rune r) <$> unquote_body rest.
Proof using.
  intros Hv Hr. destruct (encode_rune_high r Hv Hr) as [_ Hb]. rewrite escape_rune_high by done.
  unfold valid_rune, MaxRune in Hv.
  destruct (print_beyond r); [by apply unquote_plain|]. destruct (r <? 0x10000) eqn:E.
  - apply (hex_four r). lia. - apply (hex_eight r). lia.
Qed.

Lemma quote_chunk_high r : valid_rune r = true -> 0x80 <= r -> quote_chunk (r, encode_rune r) = escape_rune r.
Proof using.
  intros Hv Hr. destruct (encode_rune_high r Hv Hr) as [Hl _]. unfold quote_chunk.
  destruct (encode_rune r) as [|? [|]]; [done|cbn in Hl; lia|done].
Qed.

Lemma Unquote_Quote s : Unquote (Quote s) = Some s.
Proof using.
  unfold Quote, Unquote. rewrite bool_decide_true by done.
  apply (chunks_ind (fun s cs => unquote_body (flat_map quote_chunk cs ++ [dquote]) = Some s)); [done|..]; clear s.
  - intros b s Hb IH. cbn [flat_map]. rewrite <- app_assoc. unfold quote_chunk at 1.
    replace (b2z b =? RuneError) with false by (unfold RuneError; lia). by rewrite unquote_ascii, IH.
  - intros b s Hb IH. cbn [flat_map]. rewrite <- app_assoc. by rewrite unquote_bad, IH.
  - intros r bs s Hv Hr -> IH. cbn [flat_map]. rewrite <- app_assoc.
    by rewrite quote_chunk_high, unquote_rune, IH.
Qed.

(** A byte that is no control character. *)
Definition not_control (b : byte) : bool := (0x20 <=? b2z b) && negb (b2z b =? 0x7F).

Lemma not_control_ascii b : b2z b < 0x80 -> forallb not_control (escape_rune (b2z b)) = true.
Proof using. intros Hb. destruct b; try (exfalso; vm_compute in Hb; discriminate Hb); reflexivity. Qed.
Lemma not_control_bad b : forallb not_control (backslash :: "x"%byte :: fmt_0x 2 (b2z b)) = true.
Proof using. by destruct b. Qed.

Lemma not_control_hex w r : 1 <= w -> 0 <= r < 16 ^ w -> forallb not_control (fmt_0x w r) = true.
Proof using.
  intros Hw Hr. destruct (fmt_0x_padded w r Hw Hr) as [_ _ Hd]. induction Hd as [|b l (d & Hb & ->) _ IH]; [done|].
  cbn [forallb]. rewrite IH, andb_true_r. unfold not_control, digit_char. destruct (d <? 10) eqn:E;
    rewrite b2z_z2b_small by lia; lia.
Qed.

Lemma not_control_rune r : valid_rune r = true -> 0x80 <= r -> forallb not_control (escape_rune r) = true.
Proof using.
  intros Hv Hr. rewrite escape_rune_high by done. destruct (print_beyond r).
  - destruct (encode_rune_high r Hv Hr) as [_ Hb]. induction Hb as [|b l Hb _ IH]; [done|].
    cbn [forallb]. rewrite IH, andb_true_r. unfold not_control. lia.
  - unfold valid_rune, MaxRune in Hv. destruct (r <? 0x10000) eqn:E; cbn [forallb].
    + rewrite not_control_hex by lia. reflexivity. + rewrite not_control_hex by lia. reflexivity.
Qed.

Lemma Quote_not_control s : forallb not_control (Quote s) = true.
Proof using.
  unfold Quote. cbn [forallb]. rewrite forallb_app. change (forallb not_control [dquote]) with true.
  change (not_control dquote) with true. rewrite andb_true_r, andb_true_l.
  apply (chunks_ind (fun s cs => forallb not_control (flat_map quote_chunk cs) = true)); [done|..]; clear s.
  - intros b s Hb IH. cbn [flat_map]. rewrite forallb_app, IH, andb_true_r. unfold quote_chunk.
    replace (b2z b =? RuneError) with false by (unfold RuneError; lia). by apply not_control_ascii.
  - intros b s Hb IH. cbn [flat_map]. rewrite forallb_app, IH, andb_true_r. apply not_control_bad.
  - intros r bs s Hv Hr -> IH. cbn [flat_map]. rewrite forallb_app, IH, andb_true_r, quote_chunk_high by done.
    by apply not_control_rune.
Qed.

(** C24 (safety). The text of a server error quotes the statement so that the quoted
    part has no control character, whatever bytes the statement holds, so it cannot
    break out of a line of a log, and reads back as exactly the statement. *)
Theorem error_text_quotes_the_statement e :
  SQL e <> [] ->
  exists prefix, Error_Error (Some e) = prefix ++ lit " (sql=" ++ Quote (SQL e) ++ lit ")" /\
    forallb not_control (Quote (SQL e)) = true /\ Unquote (Quote (SQL e)) = Some (SQL e).
Proof using.
  intros Hs. unfold Error_Error. destruct (decide (SQL e <> [])) as [_|]; [|done].
  eexists. split; [rewrite !app_assoc; reflexivity|]. split; [apply Quote_not_control|apply Unquote_Quote].
Qed.

(** Two server errors that differ in their stack trace only. *)
Definition same_but_trace (e e' : Error) : Prop :=
  SQLState e = SQLState e' /\ Message e = Message e' /\ SQL e = SQL e' /\ Code e = Code e'.

(** The stack trace of the server is hidden: it makes no difference to
    [Error()] nor to any verb, except that [%+v] appends it, when there is one, after a
    newline to the text of [Error()]. *)
Theorem stack_trace_only_with_plus e e' verb plus :
  same_but_trace e e' ->
  Error_Error (Some e) = Error_Error (Some e') /\
  Error_Format (Some e) verb plus =
    if bool_decide (verb = "v"%byte) && plus
    then Error_Error (Some e') ++ (if bool_decide (StackTrace e = []) then [] else Byte.x0a :: StackTrace e)
    else Error_Format (Some e') verb plus.
Proof using.
  intros (H1 & H2 & H3 & H4).
  assert (He : Error_Error (Some e) = Error_Error (Some e')) by (unfold Error_Error; by rewrite H1, H2, H3, H4).
  split; [done|]. unfold Error_Format. rewrite He.
  destruct (decide (verb = "v"%byte)) as [->|Hv]; cbn.
  - destruct plus; cbn; [|done]. destruct (decide (StackTrace e = [])) as [->|Ht]; [done|].
    rewrite (bool_decide_true _ Ht), (bool_decide_false _ Ht). done.
  - by rewrite (bool_decide_false (verb = "v"%byte)).
Qed.
End Facts.

Lemma error_text_quotes_the_statement_witness :
  let e := mkError (lit "42000") (lit "Syntax error") (lit "SELECT" ++ [Byte.x0a; dquote]) 42000 (lit "at X") in
  exists prefix, @Error_Error ascii_only (Some e) = prefix ++ lit " (sql=" ++ @Quote ascii_only (SQL e) ++ lit ")" /\
    Unquote (@Quote ascii_only (SQL e)) = Some (SQL e).
Proof.
  intros e. destruct (@error_text_quotes_the_statement ascii_only e) as (prefix & H1 & _ & H2); [done|].
  by exists prefix.
Defined.

Lemma stack_trace_only_with_plus_witness :
  let e trace := mkError (lit "42000") (lit "Syntax error") [] 42000 trace in
  @Error_Error ascii_only (Some (e (lit "at X"))) = @Error_Error ascii_only (Some (e [])) /\
  @Error_Format ascii_only (Some (e (lit "at X"))) "v"%byte true
  = lit "h2go: H2 error [42000/42000]: Syntax error" ++ Byte.x0a :: lit "at X".
Proof.
  intros e. destruct (@stack_trace_only_with_plus ascii_only (e (lit "at X")) (e []) "v"%byte true) as [H1 H2]; [done|].
  split; [exact H1|exact H2].
Defined.
