(* ===== verification/Value.v ===== *)
(** * Values of the driver ([driver.Value]) and deferred LOBs

    The dynamic types a column or parameter can have. A row under construction can
    also hold a pointer to a [pendingLob]: the placeholder of a LOB that the server
    did not send inline and that is fetched when the batch has been read. *)

From S2P Require Import Prelude.
From S2P Require Import GoText.
From S2P Require Import GoTime.
From S2P Require Import GoFloat.

Record pendingLob := mkPendingLob {
  pl_typeCode : Z;
  pl_lobID : Z;
  pl_hmac : option (list byte);
  pl_octetLength : Z;
  pl_precision : Z;
  pl_row : Z;
  pl_col : Z
}.

Record lobCollector := mkLobCollector {
  lc_pending : list pendingLob;
  lc_reject : bool;
  lc_curRow : Z;
  lc_curCol : Z
}.

(** [VFloat64]: the bit pattern; [VBytes None]: a nil slice; [VOther]: a value of a
    type the driver does not know, of which only the type name matters. *)
Inductive Value :=
| VNil
| VBool (b : bool)
| VInt64 (z : Z)
| VFloat64 (bits : Z)
| VString (s : gostring)
| VBytes (b : option (list byte))
| VTime (t : Time)
| VPendingLob (p : pendingLob)
| VOther (goType : gostring).

(** [fmt.Sprintf("%v", x)] of a decoded value; [None] for a pointer, whose text is an
    address. *)
Definition fmt_v (v : Value) : option gostring :=
  match v with
  | VNil => Some (lit "<nil>")
  | VBool b => Some (if b then lit "true" else lit "false")
  | VInt64 z => Some (FormatInt z)
  | VFloat64 bits => Some (FormatFloat bits)
  | VString s => Some s
  | VBytes b => Some (lit "[" ++ Join (lit " ") (map (fun x => FormatInt (b2z x)) (default [] b)) ++ lit "]")
  | VTime t => Some (Time_String t)
  | VPendingLob _ | VOther _ => None
  end.

Definition is_pending (v : Value) : bool :=
  match v with
  | VPendingLob _ => true
  | _ => false
  end.

Definition lc_append (p : pendingLob) (lc : lobCollector) : lobCollector :=
  mkLobCollector (lc_pending lc ++ [p]) (lc_reject lc) (lc_curRow lc) (lc_curCol lc).

(** [var nestedLOBs = &lobCollector{reject: true}]; it is never appended to. *)
Definition nestedLOBs : lobCollector := mkLobCollector [] true 0 0.

Example fmt_v_ex : fmt_v (VBytes (Some [z2b 1; z2b 255])) = Some (lit "[1 255]").
Proof. reflexivity. Qed.
