(* ===== verification/ValueRead.v ===== *)
(** * Decoding values (value_read.go)

    [readValueInternal] decodes one value. A LOB that is not sent inline is recorded
    in the collector it is given, rejected inside ARRAY and ROW, or fetched at once by
    [LOB_READ] requests when there is no collector. The collector is passed in and
    returned: it changes only where the code appends to it. *)

From Stdlib Require Import Strings.Byte.
From S2P Require Import Prelude.
From S2P Require Import GoText.
From S2P Require Import Protocol.
From S2P Require Import Transfer.
From S2P Require Import Fuel.
From S2P Require Import TypeInfo.
From S2P Require Import Metadata.
From S2P Require Import DecFloat.
From S2P Require Import GoTime.
From S2P Require Import GoFloat.
From S2P Require Import ValueText.
From S2P Require Import Value.

(** ** Scalars *)

Definition readBooleanValue : M Tr Value :=
  v <- wrapf "h2go: readBooleanValue: %w" [] ReadBool ;; ret (VBool v).

Definition readTinyintValue : M Tr Value :=
  b <- wrapf "h2go: readTinyintValue: %w" [] ReadByte ;; ret (VInt64 (int8 (b2z b))).

Definition readSmallintValue : M Tr Value :=
  v <- wrapf "h2go: readSmallintValue: %w" [] ReadInt16 ;; ret (VInt64 v).

Definition readIntegerValue : M Tr Value :=
  v <- wrapf "h2go: readIntegerValue: %w" [] ReadInt32 ;; ret (VInt64 v).

Definition readBigintValue : M Tr Value :=
  v <- wrapf "h2go: readBigintValue: %w" [] ReadInt64 ;; ret (VInt64 v).

Definition readRealValue : M Tr Value :=
  v <- wrapf "h2go: readRealValue: %w" [] ReadFloat32 ;; ret (VFloat64 (float64_of_float32 v)).

Definition readDoubleValue : M Tr Value :=
  v <- wrapf "h2go: readDoubleValue: %w" [] ReadFloat64 ;; ret (VFloat64 v).

Definition string_value (s : option gostring) : Value :=
  match s with
  | None => VNil
  | Some s => VString s
  end.

Definition readNumericValue : M Tr Value :=
  s <- wrapf "h2go: readNumericValue: %w" [] ReadString ;; ret (string_value s).

Definition readStringValue : M Tr Value :=
  s <- wrapf "h2go: readStringValue: %w" [] ReadString ;; ret (string_value s).

(** The DECFLOAT case of [readValueInternal]: the text is validated, then returned. *)
Definition readDecfloatValue : M Tr Value :=
  v <- readStringValue ;;
  match v with
  | VString str =>
      match ParseDecFloat str with
      | Err perr => fail (EWrapf "h2go: ReadValue: invalid DECFLOAT: %w" [] [perr])
      | Ok _ => ret v
      end
  | _ => ret v
  end.

Definition readEnumValue : M Tr Value :=
  ordinal <- wrapf "h2go: readEnumValue: %w" [] ReadInt32 ;; ret (VInt64 ordinal).

Definition readIntervalValue : M Tr Value :=
  x <- wrapf "h2go: readIntervalValue: failed to read ordinal: %w" [] ReadByte ;;
  let negative := 128 <=? b2z x in
  let qualifierOrdinal := if negative then Z.land (255 - b2z x) 0x7f else b2z x in
  let qualifier := intervalQualifier qualifierOrdinal in
  leading <- wrapf "h2go: readIntervalValue: failed to read leading: %w" [] ReadInt64 ;;
  let leading := if negative then int64 (- leading) else leading in
  if hasRemaining qualifier then
    remaining <- wrapf "h2go: readIntervalValue: failed to read remaining: %w" [] ReadInt64 ;;
    ret (VString (formatInterval (iq_name qualifier) leading remaining))
  else ret (VString (formatInterval (iq_name qualifier) leading 0)).

Definition readBytesValue : M Tr Value :=
  b <- wrapf "h2go: readBytesValue: %w" [] ReadBytes ;; ret (VBytes b).

Definition readUUIDValue : M Tr Value :=
  high <- wrapf "h2go: readUUIDValue: failed to read high: %w" [] ReadInt64 ;;
  low <- wrapf "h2go: readUUIDValue: failed to read low: %w" [] ReadInt64 ;;
  ret (VString (formatUUID high low)).

Definition readDateValue : M Tr Value :=
  dateValue <- wrapf "h2go: readDateValue: %w" [] ReadInt64 ;;
  ret (VTime (dateValueToTime dateValue)).

Definition readTimeValue : M Tr Value :=
  nanos <- wrapf "h2go: readTimeValue: %w" [] ReadInt64 ;;
  ret (VTime (nanosOfDayToTime nanos)).

Definition readTimeTZValue : M Tr Value :=
  nanos <- wrapf "h2go: readTimeTZValue: failed to read nanos: %w" [] ReadInt64 ;;
  offsetSec <- wrapf "h2go: readTimeTZValue: failed to read offset: %w" [] ReadInt32 ;;
  ret (VTime (nanosOfDayToTimeTZ nanos offsetSec)).

Definition readTimestampValue : M Tr Value :=
  dateValue <- wrapf "h2go: readTimestampValue: failed to read dateValue: %w" [] ReadInt64 ;;
  nanos <- wrapf "h2go: readTimestampValue: failed to read nanos: %w" [] ReadInt64 ;;
  ret (VTime (timestampToTime dateValue nanos)).

Definition readTimestampTZValue : M Tr Value :=
  dateValue <- wrapf "h2go: readTimestampTZValue: failed to read dateValue: %w" [] ReadInt64 ;;
  nanos <- wrapf "h2go: readTimestampTZValue: failed to read nanos: %w" [] ReadInt64 ;;
  offsetSec <- wrapf "h2go: readTimestampTZValue: failed to read offset: %w" [] ReadInt32 ;;
  ret (VTime (timestampToTimeTZ dateValue nanos offsetSec)).

(** ** Large objects *)

Definition lobReadChunkSize : Z := 16 * 4096.
Definition lobMagic : Z := 0x1234.
Definition maxInlineClobChars : Z := MaxWireLength.

(** One [LOB_READ] request. *)
Definition writeLobRead (p : pendingLob) (offset : Z) : M Tr unit :=
  wrapf "h2go: fetchLob: write op: %w" [] (WriteInt32 LobRead) ;;
  wrapf "h2go: fetchLob: write lobID: %w" [] (WriteInt64 (pl_lobID p)) ;;
  wrapf "h2go: fetchLob: write hmac: %w" [] (WriteBytes (pl_hmac p)) ;;
  wrapf "h2go: fetchLob: write offset: %w" [] (WriteInt64 offset) ;;
  wrapf "h2go: fetchLob: write length: %w" [] (WriteInt32 lobReadChunkSize) ;;
  wrapf "h2go: fetchLob: flush: %w" [] Flush.

(** The loop of [fetchLob]: what the buffer holds when the server answers with an
    empty chunk. An answer has at least eight bytes, so the fuel of [fetchLob], one
    more than the bytes the peer will send, is enough. *)
Fixpoint fetchLob_loop (fuel : nat) (p : pendingLob) (offset : Z) (buf : list byte) : M Tr (list byte) :=
  match fuel with
  | O => fail EFuel
  | S fuel' =>
      writeLobRead p offset ;;
      status <- wrapf "h2go: fetchLob: read status: %w" [] ReadInt32 ;;
      if negb (status =? StatusOK) then fail (EErrorf "h2go: fetchLob: unexpected status %d" [AInt status])
      else
        actualLen <- wrapf "h2go: fetchLob: read actual length: %w" [] ReadInt32 ;;
        if actualLen =? 0 then ret buf
        else if (actualLen <? 0) || (lobReadChunkSize <? actualLen) then
          fail (EErrorf "h2go: fetchLob: chunk length %d outside expected range" [AInt actualLen])
        else
          chunk <- wrapf "h2go: fetchLob: read chunk: %w" [] (ReadFull actualLen) ;;
          fetchLob_loop fuel' p (int64 (offset + actualLen)) (buf ++ chunk)
  end.

(** [buf.Bytes()] of a buffer that was never written or grown is a nil slice. *)
Definition fetchLob (p : pendingLob) : M Tr Value :=
  let totalBytes := if pl_typeCode p =? ValueTypeBlob then pl_precision p else pl_octetLength p in
  if MaxWireLength <? totalBytes then
    fail (EErrorf "h2go: fetchLob: LOB length %d exceeds cap %d" [AInt totalBytes; AInt MaxWireLength])
  else
    buf <- fueled (fun fuel => fetchLob_loop fuel p 0 []) ;;
    if pl_typeCode p =? ValueTypeClob then ret (VString buf)
    else ret (VBytes (if (zlen buf =? 0) && (totalBytes <=? 0) then None else Some buf)).

Definition readClobChar : M Tr Z :=
  x <- ReadByte ;;
  if b2z x <? 0x80 then ret (b2z x)
  else if 0xe0 <=? b2z x then
    b1 <- ReadByte ;;
    b2 <- ReadByte ;;
    ret (Z.lor (Z.lor (Z.shiftl (Z.land (b2z x) 0x0f) 12) (Z.shiftl (Z.land (b2z b1) 0x3f) 6))
           (Z.land (b2z b2) 0x3f))
  else
    b1 <- ReadByte ;;
    ret (Z.lor (Z.shiftl (Z.land (b2z x) 0x1f) 6) (Z.land (b2z b1) 0x3f)).

Definition readInlineClob (length_ : Z) : M Tr Value :=
  if maxInlineClobChars <? length_ then
    fail (EErrorf "h2go: readInlineClob: CLOB char length %d exceeds cap %d"
            [AInt length_; AInt maxInlineClobChars])
  else
    cs <- for_range (Z.to_nat length_) 0 (fun i =>
            wrapf "h2go: readInlineClob: failed to read char %d of %d: %w" [AInt i; AInt length_]
              readClobChar) ;;
    magic <- wrapf "h2go: readInlineClob: failed to read CLOB magic: %w" [] ReadInt32 ;;
    if negb (magic =? lobMagic) then
      fail (EErrorf "h2go: readInlineClob: invalid CLOB magic %d" [AInt magic])
    else ret (VString (utf8_encode cs)).

(** The frame of a LOB that is fetched on demand, after its length of -1. *)
Definition readPendingLob (typeCode : Z) (lc : option lobCollector) : M Tr pendingLob :=
  wrapf "h2go: readLOBValue: failed to read tableID: %w" [] ReadInt32 ;;
  let row := from_option lc_curRow 0 lc in
  let col := from_option lc_curCol 0 lc in
  lobID <- wrapf "h2go: readLOBValue: failed to read lobID: %w" [] ReadInt64 ;;
  hmac <- wrapf "h2go: readLOBValue: failed to read hmac: %w" [] ReadBytes ;;
  if typeCode =? ValueTypeClob then
    octetLength <- wrapf "h2go: readLOBValue: failed to read octetLength: %w" [] ReadInt64 ;;
    precision <- wrapf "h2go: readLOBValue: failed to read charLength: %w" [] ReadInt64 ;;
    ret (mkPendingLob typeCode lobID hmac octetLength precision row col)
  else
    precision <- wrapf "h2go: readLOBValue: failed to read precision: %w" [] ReadInt64 ;;
    ret (mkPendingLob typeCode lobID hmac 0 precision row col).

Definition errNestedLob : error :=
  EWrapf "h2go: ReadValue: %w: %w is not supported" [] [ESent ErrUnsupportedType; ESent errNestedOnDemandLOB].

Definition readInlineBlob (length_ : Z) : M Tr Value :=
  if MaxWireLength <? length_ then
    fail (EErrorf "h2go: readLOBValue: inline BLOB length %d exceeds wire cap %d"
            [AInt length_; AInt MaxWireLength])
  else
    data <- wrapf "h2go: readLOBValue: failed to read BLOB data: %w" [] (ReadFull length_) ;;
    magic <- wrapf "h2go: readLOBValue: failed to read BLOB magic: %w" [] ReadInt32 ;;
    if negb (magic =? lobMagic) then
      fail (EErrorf "h2go: readLOBValue: invalid BLOB magic %d" [AInt magic])
    else ret (VBytes (Some data)).

Definition readLOBValue (typeCode : Z) (lc : option lobCollector) : M Tr (Value * option lobCollector) :=
  length_ <- wrapf "h2go: readLOBValue: failed to read length: %w" [] ReadInt64 ;;
  if length_ =? -1 then
    p <- readPendingLob typeCode lc ;;
    match lc with
    | None => v <- fetchLob p ;; ret (v, lc)
    | Some c => if lc_reject c then fail errNestedLob else ret (VPendingLob p, Some (lc_append p c))
    end
  else if length_ <? 0 then fail (EErrorf "h2go: readLOBValue: invalid LOB length %d" [AInt length_])
  else if typeCode =? ValueTypeBlob then v <- readInlineBlob length_ ;; ret (v, lc)
  else if typeCode =? ValueTypeClob then v <- readInlineClob length_ ;; ret (v, lc)
  else fail (EWrapf "h2go: readLOBValue: %w: type code %d" [AInt typeCode] [ESent ErrUnsupportedType]).

(** ** Containers, with the decoder of values for their elements *)

(** [fmt.Sprintf("%v", elem)]; the text of a pointer is never asked for, because a
    nested LOB is rejected. *)
Definition render (v : Value) : M Tr gostring :=
  match fmt_v v with
  | Some s => ret s
  | None => fail (EPanic "text of a pointer")
  end.

Definition reading := option TypeInfo -> option lobCollector -> M Tr (Value * option lobCollector).

(** The body of the two loops: one element, as text. *)
Definition readElement (readValue : reading) (fmt : string) (elemType : option TypeInfo) (i : Z)
  : M Tr gostring :=
  elem <- wrapf fmt [AInt i] (readValue elemType (Some nestedLOBs)) ;;
  render elem.1.

Definition readArrayValue (readValue : reading) (colType : option TypeInfo) : M Tr Value :=
  length_ <- wrapf "h2go: readArrayValue: failed to read length: %w" [] ReadInt32 ;;
  let tooMany n :=
    fail (EErrorf "h2go: readArrayValue: element count %d exceeds cap %d"
            [AInt n; AInt maxWireCollectionElements]) in
  n <- (if length_ <? 0 then
          let n := - length_ - 1 in
          if maxWireCollectionElements <? n then tooMany n
          else
            wrapf "h2go: readArrayValue: failed to skip legacy type name: %w" [] ReadString ;; ret n
        else if maxWireCollectionElements <? length_ then tooMany length_
        else ret length_) ;;
  if n =? 0 then ret (VString (lit "[]"))
  else
    let elemType := match colType with Some ti => ExtTypeInfo ti | None => None end in
    elems <- for_range (Z.to_nat n) 0
               (readElement readValue "h2go: readArrayValue: element %d: %w" elemType) ;;
    ret (VString (lit "[" ++ Join (lit ",") elems ++ lit "]")).

Definition readRowValue (readValue : reading) : M Tr Value :=
  length_ <- wrapf "h2go: readRowValue: failed to read length: %w" [] ReadInt32 ;;
  if length_ <? 0 then fail (EErrorf "h2go: readRowValue: invalid field count %d" [AInt length_])
  else if maxWireCollectionElements <? length_ then
    fail (EErrorf "h2go: readRowValue: field count %d exceeds cap %d"
            [AInt length_; AInt maxWireCollectionElements])
  else
    fields <- for_range (Z.to_nat length_) 0
                (readElement readValue "h2go: readRowValue: field %d: %w" None) ;;
    ret (VString (lit "(" ++ Join (lit ",") fields ++ lit ")")).

(** ** The dispatch on the type code *)

Definition keeping {A} (lc : option lobCollector) (m : M Tr A) : M Tr (A * option lobCollector) :=
  v <- m ;; ret (v, lc).

Definition readTyped (readValue : reading) (typeCode : Z) (colType : option TypeInfo)
  (lc : option lobCollector) : M Tr (Value * option lobCollector) :=
  if typeCode =? ValueTypeNull then ret (VNil, lc)
  else if typeCode =? ValueTypeBoolean then keeping lc readBooleanValue
  else if typeCode =? ValueTypeTinyint then keeping lc readTinyintValue
  else if typeCode =? ValueTypeSmallint then keeping lc readSmallintValue
  else if typeCode =? ValueTypeInteger then keeping lc readIntegerValue
  else if typeCode =? ValueTypeBigint then keeping lc readBigintValue
  else if typeCode =? ValueTypeReal then keeping lc readRealValue
  else if typeCode =? ValueTypeDouble then keeping lc readDoubleValue
  else if typeCode =? ValueTypeNumeric then keeping lc readNumericValue
  else if typeCode =? ValueTypeDate then keeping lc readDateValue
  else if typeCode =? ValueTypeTime then keeping lc readTimeValue
  else if typeCode =? ValueTypeTimeTZ then keeping lc readTimeTZValue
  else if typeCode =? ValueTypeTimestamp then keeping lc readTimestampValue
  else if typeCode =? ValueTypeTimestampTZ then keeping lc readTimestampTZValue
  else if one_of typeCode [ValueTypeVarchar; ValueTypeChar; ValueTypeVarcharIgnoreCase]
  then keeping lc readStringValue
  else if one_of typeCode [ValueTypeVarbinary; ValueTypeBinary] then keeping lc readBytesValue
  else if typeCode =? ValueTypeUUID then keeping lc readUUIDValue
  else if one_of typeCode [ValueTypeBlob; ValueTypeClob] then readLOBValue typeCode lc
  else if typeCode =? ValueTypeDecfloat then keeping lc readDecfloatValue
  else if one_of typeCode [ValueTypeJSON; ValueTypeGeometry; ValueTypeJavaObject]
  then keeping lc readBytesValue
  else if typeCode =? ValueTypeEnum then keeping lc readEnumValue
  else if typeCode =? ValueTypeInterval then keeping lc readIntervalValue
  else if typeCode =? ValueTypeArray then keeping lc (readArrayValue readValue colType)
  else if typeCode =? ValueTypeRow then keeping lc (readRowValue readValue)
  else fail (EWrapf "h2go: ReadValue: %w: unknown type code %d" [AInt typeCode] [ESent ErrUnsupportedType]).

Fixpoint readValueInternal_fuel (fuel : nat) (colType : option TypeInfo) (lc : option lobCollector)
  : M Tr (Value * option lobCollector) :=
  match fuel with
  | O => fail EFuel
  | S fuel' =>
      typeCode <- wrapf "h2go: ReadValue: failed to read type code: %w" [] ReadInt32 ;;
      readTyped (readValueInternal_fuel fuel') typeCode colType lc
  end.

(** The fuel is one more than the number of unread bytes. *)
Definition readValueInternal (colType : option TypeInfo) (lc : option lobCollector)
  : M Tr (Value * option lobCollector) :=
  fueled (fun fuel => readValueInternal_fuel fuel colType lc).

Definition ReadValue (colType : option TypeInfo) : M Tr Value :=
  r <- readValueInternal colType None ;; ret r.1.

Definition valueTypeName (vt : Z) : gostring :=
  if vt =? ValueTypeNull then lit "NULL"
  else if vt =? ValueTypeBoolean then lit "BOOLEAN"
  else if vt =? ValueTypeTinyint then lit "TINYINT"
  else if vt =? ValueTypeSmallint then lit "SMALLINT"
  else if vt =? ValueTypeInteger then lit "INTEGER"
  else if vt =? ValueTypeBigint then lit "BIGINT"
  else if vt =? ValueTypeNumeric then lit "NUMERIC"
  else if vt =? ValueTypeDouble then lit "DOUBLE"
  else if vt =? ValueTypeReal then lit "REAL"
  else if vt =? ValueTypeTime then lit "TIME"
  else if vt =? ValueTypeDate then lit "DATE"
  else if vt =? ValueTypeTimestamp then lit "TIMESTAMP"
  else if vt =? ValueTypeTimestampTZ then lit "TIMESTAMP_TZ"
  else if vt =? ValueTypeTimeTZ then lit "TIME_TZ"
  else if vt =? ValueTypeVarbinary then lit "VARBINARY"
  else if vt =? ValueTypeBinary then lit "BINARY"
  else if vt =? ValueTypeVarchar then lit "VARCHAR"
  else if vt =? ValueTypeVarcharIgnoreCase then lit "VARCHAR_IGNORECASE"
  else if vt =? ValueTypeChar then lit "CHAR"
  else if vt =? ValueTypeBlob then lit "BLOB"
  else if vt =? ValueTypeClob then lit "CLOB"
  else if vt =? ValueTypeArray then lit "ARRAY"
  else if vt =? ValueTypeJavaObject then lit "JAVA_OBJECT"
  else if vt =? ValueTypeUUID then lit "UUID"
  else if vt =? ValueTypeGeometry then lit "GEOMETRY"
  else if vt =? ValueTypeEnum then lit "ENUM"
  else if vt =? ValueTypeInterval then lit "INTERVAL"
  else if vt =? ValueTypeRow then lit "ROW"
  else if vt =? ValueTypeJSON then lit "JSON"
  else if vt =? ValueTypeDecfloat then lit "DECFLOAT"
  else lit "UNKNOWN(" ++ FormatInt vt ++ lit ")".

(** ** Readers: with a collector, decoding a value never writes *)

Create HintDb scalars.
#[export] Hint Unfold readBooleanValue readTinyintValue readSmallintValue readIntegerValue
  readBigintValue readRealValue readDoubleValue readNumericValue readStringValue readDecfloatValue
  readEnumValue readIntervalValue readBytesValue readUUIDValue readDateValue readTimeValue
  readTimeTZValue readTimestampValue readTimestampTZValue readClobChar readInlineClob readInlineBlob
  keeping : scalars.

Lemma reader_readPendingLob tc lc : reader (readPendingLob tc lc).
Proof. unfold readPendingLob. solve_reader. Qed.
#[export] Hint Resolve reader_readPendingLob : h2go.

Lemma reader_readClobChar : reader readClobChar.
Proof. unfold readClobChar. solve_reader. Qed.
#[export] Hint Resolve reader_readClobChar : h2go.

Lemma reader_readLOBValue tc lc : reader (readLOBValue tc (Some lc)).
Proof. unfold readLOBValue, readInlineBlob, readInlineClob. solve_reader. Qed.
#[export] Hint Resolve reader_readLOBValue : h2go.

(** A decoder of values that only reads when it has a collector. *)
Definition reads_collected (rv : reading) : Prop := forall ct lc, reader (rv ct (Some lc)).

Lemma reader_render v : reader (render v).
Proof. unfold render. solve_reader. Qed.
#[export] Hint Resolve reader_render : h2go.

Lemma reader_readElement rv fmt ct i : reads_collected rv -> reader (readElement rv fmt ct i).
Proof. intros H. unfold readElement. solve_reader. Qed.

Lemma reader_readArrayValue rv ct : reads_collected rv -> reader (readArrayValue rv ct).
Proof. intros H. pose proof (fun f c i => reader_readElement rv f c i H). unfold readArrayValue. solve_reader. Qed.

Lemma reader_readRowValue rv : reads_collected rv -> reader (readRowValue rv).
Proof. intros H. pose proof (fun f c i => reader_readElement rv f c i H). unfold readRowValue. solve_reader. Qed.

Lemma reader_readTyped rv tc ct lc : reads_collected rv -> reader (readTyped rv tc ct (Some lc)).
Proof.
  intros H. pose proof (reader_readArrayValue rv ct H). pose proof (reader_readRowValue rv H).
  unfold readTyped. autounfold with scalars. solve_reader.
Qed.

Lemma reader_readValueInternal_fuel f : reads_collected (readValueInternal_fuel f).
Proof.
  induction f as [|f IH]; intros ct lc; cbn [readValueInternal_fuel]; [apply reader_fail|].
  apply reader_bind; [auto with h2go|]. intros tc. by apply reader_readTyped.
Qed.

(** ** Fuel *)

(** Two decoders that agree on streams of fewer than [n] bytes, given a collector. *)
Definition agree_collected (n : nat) (rv1 rv2 : reading) : Prop :=
  forall ct lc, agree n (rv1 ct (Some lc)) (rv2 ct (Some lc)).

Lemma agree_readElement n rv1 rv2 fmt ct i :
  reads_collected rv1 -> agree_collected n rv1 rv2 ->
  agree n (readElement rv1 fmt ct i) (readElement rv2 fmt ct i).
Proof. intros Hr Ha. unfold readElement. solve_agree. apply Ha. Qed.

Lemma agree_readArrayValue n rv1 rv2 ct :
  reads_collected rv1 -> agree_collected n rv1 rv2 ->
  agree n (readArrayValue rv1 ct) (readArrayValue rv2 ct).
Proof.
  intros Hr Ha. pose proof (fun f c i => reader_readElement rv1 f c i Hr).
  unfold readArrayValue. solve_agree. by apply agree_readElement.
Qed.

Lemma agree_readRowValue n rv1 rv2 :
  reads_collected rv1 -> agree_collected n rv1 rv2 -> agree n (readRowValue rv1) (readRowValue rv2).
Proof.
  intros Hr Ha. pose proof (fun f c i => reader_readElement rv1 f c i Hr).
  unfold readRowValue. solve_agree. by apply agree_readElement.
Qed.

Lemma agree_readTyped n rv1 rv2 tc ct lc :
  reads_collected rv1 -> agree_collected n rv1 rv2 ->
  agree n (readTyped rv1 tc ct lc) (readTyped rv2 tc ct lc).
Proof.
  intros Hr Ha. unfold readTyped, keeping.
  repeat match goal with
  | |- agree _ (if ?b then _ else _) _ => destruct b; [try apply agree_refl|]
  end; [..|apply agree_refl].
  - apply agree_bind; [by apply reader_readArrayValue|by apply agree_readArrayValue|].
    intros. apply agree_refl.
  - apply agree_bind; [by apply reader_readRowValue|by apply agree_readRowValue|].
    intros. apply agree_refl.
Qed.

Lemma stable_readValueInternal ct lc : stable (fun f => readValueInternal_fuel f ct lc).
Proof.
  intros n f. revert n ct lc.
  induction f as [|f IH]; intros n ct lc [|g] Hf Hg; try by (intros t Ht; lia).
  destruct n as [|n]; [intros t Ht; lia|]. cbn [readValueInternal_fuel].
  apply (agree_weaken (n + 4)); [lia|].
  apply agree_bind_consume; [apply consumes_wrapf, consumes_ReadInt32|]. intros tc.
  apply agree_readTyped; [apply reader_readValueInternal_fuel|].
  intros ct' lc'. apply (IH n ct' (Some lc') g); lia.
Qed.

Lemma reader_readValueInternal ct lc : reader (readValueInternal ct (Some lc)).
Proof.
  apply reader_fueled; [intros f; apply reader_readValueInternal_fuel|apply stable_readValueInternal].
Qed.
#[export] Hint Resolve reader_readValueInternal : h2go.

Lemma consumes_readValueInternal ct lc : consumes (readValueInternal ct (Some lc)) 4.
Proof.
  apply consumes_fueled. intros [|f]; cbn [readValueInternal_fuel]; [by intros t a t' [=]|].
  apply consumes_bind_l; [apply consumes_wrapf, consumes_ReadInt32|].
  intros. apply reader_readTyped, reader_readValueInternal_fuel.
Qed.

(** ** What a collector gets *)

(** The value and the collector a decoding leaves: a placeholder is exactly what was
    appended last, any other value leaves the collector as it was and has a text. *)
Definition collected (c : lobCollector) (r : Value * option lobCollector) : Prop :=
  match r with
  | (VPendingLob p, lc') =>
      lc_reject c = false /\ lc' = Some (lc_append p c) /\ pl_row p = lc_curRow c /\ pl_col p = lc_curCol c
  | (v, lc') => is_Some (fmt_v v) /\ lc' = Some c
  end.

(** Run a decoder of the file symbolically to the value it returns. *)
Ltac read_inv :=
  repeat match goal with
  | H : keeping _ _ _ = (Ok _, _) |- _ => unfold keeping in H
  | H : _ = (Ok _, _) |- _ => progress (autounfold with scalars in H)
  | H : (if ?b then _ else _) _ = (Ok _, _) |- _ => destruct b eqn:?
  | H : (match ?x with _ => _ end) _ = (Ok _, _) |- _ => destruct x eqn:?
  | _ => progress m_inv
  end.

Lemma collected_readLOBValue tc c t r t' :
  readLOBValue tc (Some c) t = (Ok r, t') -> collected c r.
Proof.
  unfold readLOBValue, readPendingLob. intros H. read_inv; cbn; eauto.
Qed.

Lemma collected_readTyped rv tc ct c t r t' :
  readTyped rv tc ct (Some c) t = (Ok r, t') -> collected c r.
Proof.
  unfold readTyped. intros H.
  repeat match type of H with
  | (if ?b then _ else _) _ = _ => destruct b
  end; try (by apply collected_readLOBValue in H);
    unfold readArrayValue, readRowValue in H; read_inv; cbn; eauto.
  all: try (match goal with H : string_value ?s = _ |- _ => destruct s; cbn in H; simplify_eq end);
    try (match goal with s : option gostring |- _ => destruct s end); cbn; eauto.
Qed.

Lemma collected_readValueInternal_fuel f ct c t r t' :
  readValueInternal_fuel f ct (Some c) t = (Ok r, t') -> collected c r.
Proof.
  destruct f; cbn [readValueInternal_fuel]; intros H; m_inv. by eapply collected_readTyped.
Qed.

(** ** Errors: no panic, and never out of fuel *)

Lemma plain_ParseDecFloat s e : ParseDecFloat s = Err e -> plain e = true.
Proof.
  unfold ParseDecFloat, parse_exponent. intros H. repeat (case_match; simplify_eq; try done).
Qed.

Lemma plain_errs_readDecfloatValue : plain_errs readDecfloatValue.
Proof.
  apply plain_errs_bind; [unfold readStringValue; solve_plain_errs|]. intros [| | | |s| | | |]; try apply plain_errs_ret.
  destruct (ParseDecFloat s) as [d|e] eqn:E; [apply plain_errs_ret|].
  apply plain_errs_fail. cbn. by rewrite (plain_ParseDecFloat _ _ E).
Qed.

Lemma plain_errs_writeLobRead p off : plain_errs (writeLobRead p off).
Proof. unfold writeLobRead. solve_plain_errs. Qed.
#[export] Hint Resolve plain_errs_readDecfloatValue plain_errs_writeLobRead : h2go.

Lemma plain_errs_readLOBValue tc lc : plain_errs (readLOBValue tc (Some lc)).
Proof.
  unfold readLOBValue, readPendingLob, readInlineBlob, readInlineClob, readClobChar. solve_plain_errs.
Qed.
#[export] Hint Resolve plain_errs_readLOBValue : h2go.

(** A decoder fit for the elements of a container: what it returns has a text. *)
Definition texts (rv : reading) : Prop :=
  forall ct t r t', rv ct (Some nestedLOBs) t = (Ok r, t') -> is_Some (fmt_v r.1).

Lemma texts_readValueInternal_fuel f : texts (readValueInternal_fuel f).
Proof.
  intros ct t [v lc] t' H%collected_readValueInternal_fuel. destruct v; try apply H. by destruct H.
Qed.

Lemma plain_below_readElement n rv ct fmt i :
  reads_collected rv -> texts rv -> (forall ct lc, plain_below n (rv ct (Some lc))) ->
  plain_below n (readElement rv fmt ct i).
Proof.
  intros Hr Ht Hp t e t' Hlt [H|(r & t1 & H1 & H2)]%bind_Err_inv.
  - by eapply plain_below_wrapf.
  - apply wrapf_Ok, Ht in H1 as [s Hs]. unfold render in H2. by rewrite Hs in H2.
Qed.

Lemma plain_below_readTyped n rv tc ct lc :
  reads_collected rv -> texts rv -> (forall ct lc, plain_below n (rv ct (Some lc))) ->
  plain_errs (readLOBValue tc lc) -> plain_below n (readTyped rv tc ct lc).
Proof.
  intros Hr Ht Hp Hlob.
  pose proof (fun f c i => reader_readElement rv f c i Hr).
  assert (Ha : plain_below n (readArrayValue rv ct)).
  { unfold readArrayValue. solve_plain_below. by apply plain_below_readElement. }
  assert (Hw : plain_below n (readRowValue rv)).
  { unfold readRowValue. solve_plain_below. by apply plain_below_readElement. }
  pose proof (reader_readArrayValue rv ct Hr). pose proof (reader_readRowValue rv Hr).
  unfold readTyped, keeping.
  repeat match goal with
  | |- plain_below _ (if ?b then _ else _) => destruct b
  end; try (apply plain_below_mono; first [solve [solve_plain_errs] | solve [autounfold with scalars; solve_plain_errs]]).
  all: apply plain_below_bind; [done..|]; intros; apply plain_below_mono, plain_errs_ret.
Qed.

Lemma plain_below_readValueInternal_fuel n ct lc :
  plain_below n (readValueInternal_fuel n ct (Some lc)).
Proof.
  revert ct lc. induction n as [|n IH]; intros ct lc; [intros t e t' Ht; lia|].
  cbn [readValueInternal_fuel].
  assert (plain_below (n + 4) (readValueInternal_fuel (S n) ct (Some lc))) as H;
    [|intros t e t' Ht; apply H; lia].
  apply plain_below_bind_consume; [apply consumes_wrapf, consumes_ReadInt32| |].
  - apply plain_errs_wrapf. auto with h2go.
  - intros tc. apply plain_below_readTyped;
      [apply reader_readValueInternal_fuel|apply texts_readValueInternal_fuel|done|auto with h2go].
Qed.

Lemma plain_errs_readValueInternal ct lc : plain_errs (readValueInternal ct (Some lc)).
Proof. apply plain_errs_fueled. intros n. apply plain_below_readValueInternal_fuel. Qed.
#[export] Hint Resolve plain_errs_readValueInternal : h2go.
