(* ===== verification/Lob.v ===== *)
(** * Fetching large objects ([fetchLob] of value_read.go)

    The conversation of a [LOB_READ] loop, its termination whatever the server sends,
    and the reassembly of the chunks. *)

From S2P Require Import Prelude.
From S2P Require Import Protocol.
From S2P Require Import Transfer.
From S2P Require Import Fuel.
From S2P Require Import Value.
From S2P Require Import ValueRead.

(** The bytes of one request and of one reply. *)
Definition enc_LobRead (p : pendingLob) (offset : Z) : list byte :=
  enc_int32 LobRead ++ enc_int64 (pl_lobID p) ++ enc_bytes (pl_hmac p) ++ enc_int64 offset
  ++ enc_int32 lobReadChunkSize.

Definition enc_lob_reply (chunk : list byte) : list byte :=
  enc_int32 StatusOK ++ enc_int32 (zlen chunk) ++ chunk.

(** The requests for a LOB whose chunks are [cs] and that ends at an empty reply. *)
Fixpoint lob_requests (p : pendingLob) (offset : Z) (cs : list (list byte)) : list byte :=
  enc_LobRead p offset ++
  match cs with
  | [] => []
  | c :: cs' => lob_requests p (offset + zlen c) cs'
  end.

(** The server never sends more than was asked for, and an empty reply is the last. *)
Definition chunk_ok (c : list byte) : Prop := 1 <= zlen c <= lobReadChunkSize.

Lemma sends_writeLobRead p off : sends (writeLobRead p off) (enc_LobRead p off).
Proof.
  unfold writeLobRead, enc_LobRead.
  repeat (apply sends_bind; [auto with h2go|]).
  rewrite <- (app_nil_r (enc_int32 lobReadChunkSize)). apply sends_bind; auto with h2go.
Qed.

(** A decoder run after a request that left the input as it was. *)
Lemma decodes_run {A} (m : M Tr A) bs a t suf :
  decodes m bs a -> tr_r t = true -> input t = bs ++ suf -> m t = (Ok a, set_in suf t).
Proof. intros H. apply H. Qed.

Lemma healthy_set_in l t : healthy t -> healthy (set_in l t).
Proof. intros [[H1 H2] H3]. by repeat split. Qed.

Lemma emitted_set_in l t : emitted (set_in l t) = emitted t.
Proof. done. Qed.

(** A round trip with the server: the state after one request and the status. *)
Lemma fetchLob_loop_step fuel p off buf n rest t :
  healthy t -> tr_r t = true -> 0 <= n <= lobReadChunkSize ->
  input t = enc_int32 StatusOK ++ enc_int32 n ++ rest ->
  exists t', healthy t' /\ tr_r t' = true /\ input t' = rest /\
    net_out (tr_net t') = emitted t ++ enc_LobRead p off /\
    emitted t' = emitted t ++ enc_LobRead p off /\
    fetchLob_loop (S fuel) p off buf t =
    (if n =? 0 then ret buf
     else chunk <- wrapf "h2go: fetchLob: read chunk: %w" [] (ReadFull n) ;;
          fetchLob_loop fuel p (int64 (off + n)) (buf ++ chunk)) t'.
Proof.
  unfold lobReadChunkSize. intros Hh Hr Hn Hin. destruct (sends_healthy _ _ t (sends_writeLobRead p off) Hh)
    as (t1 & E1 & Hh1 & Hs1 & Ho1 & He1). destruct Hs1 as (Hr1 & _ & _ & Hin1 & _).
  rewrite Hin in Hin1. rewrite Hr in Hr1.
  exists (set_in rest t1). split_and!; [by apply healthy_set_in|done|done|done|done|].
  cbn [fetchLob_loop]. rewrite (bind_Ok _ _ _ _ _ E1).
  rewrite (bind_Ok _ _ t1 StatusOK (set_in (enc_int32 n ++ rest) t1)).
  2:{ apply (decodes_run _ (enc_int32 StatusOK)); [|done|done].
      apply decodes_wrapf, decodes_ReadInt32. by vm_compute. }
  change (negb (StatusOK =? StatusOK)) with false. cbv iota.
  rewrite (bind_Ok _ _ _ n (set_in rest t1)).
  2:{ apply (decodes_run _ (enc_int32 n) _ (set_in (enc_int32 n ++ rest) t1)); [|done|done].
      apply decodes_wrapf, decodes_ReadInt32. unfold in_intN. lia. }
  unfold lobReadChunkSize. destruct (n =? 0) eqn:E0; [done|].
  by replace ((n <? 0) || (16 * 4096 <? n)) with false by lia.
Qed.

Lemma length_enc_lob_reply c : length (enc_lob_reply c) = (8 + length c)%nat.
Proof. unfold enc_lob_reply. rewrite !length_app. unfold enc_int32. by rewrite !length_be_enc. Qed.

Lemma fetchLob_loop_chunks p cs rest : forall fuel off buf t,
  Forall chunk_ok cs -> healthy t -> tr_r t = true ->
  input t = flat_map enc_lob_reply cs ++ enc_lob_reply [] ++ rest ->
  (length cs < fuel)%nat -> 0 <= off -> off + zlen (concat cs) < 2 ^ 63 ->
  exists t', fetchLob_loop fuel p off buf t = (Ok (buf ++ concat cs), t') /\
    healthy t' /\ tr_r t' = true /\ input t' = rest /\
    net_out (tr_net t') = emitted t ++ lob_requests p off cs /\
    emitted t' = emitted t ++ lob_requests p off cs.
Proof.
  induction cs as [|c cs IH]; intros [|fuel] off buf t Hok Hh Hr Hin Hf Hoff Htot; try (cbn in Hf; lia).
  - destruct (fetchLob_loop_step fuel p off buf 0 rest t) as (t' & H1 & H2 & H3 & H4 & H5 & ->);
      [done|done|unfold lobReadChunkSize; lia|by rewrite Hin; cbn|].
    exists t'. cbn. rewrite !app_nil_r. split_and!; done.
  - inversion Hok as [|? ? Hc Hok']; subst. unfold chunk_ok in Hc.
    cbn [flat_map concat lob_requests] in *. rewrite zlen_app in Htot.
    pose proof (zlen_nonneg (concat cs)).
    destruct (fetchLob_loop_step fuel p off buf (zlen c)
                (c ++ flat_map enc_lob_reply cs ++ enc_lob_reply [] ++ rest) t)
      as (t1 & H1 & H2 & H3 & H4 & H5 & ->); [done|done|lia| |].
    { rewrite Hin. unfold enc_lob_reply at 1. by rewrite <- !app_assoc. }
    replace (zlen c =? 0) with false by lia.
    rewrite (bind_Ok _ _ _ c (set_in (flat_map enc_lob_reply cs ++ enc_lob_reply [] ++ rest) t1)).
    2:{ apply (decodes_run _ c); [|done|done]. by apply decodes_wrapf, decodes_ReadFullChecked. }
    rewrite intN_small by (unfold in_intN; lia).
    destruct (IH fuel (off + zlen c) (buf ++ c)
                (set_in (flat_map enc_lob_reply cs ++ enc_lob_reply [] ++ rest) t1))
      as (t' & -> & K1 & K2 & K3 & K4 & K5);
      [done|by apply healthy_set_in|done|done|cbn in Hf; lia|lia|lia|].
    rewrite emitted_set_in, H5 in K4, K5. exists t'. rewrite <- !app_assoc in *. split_and!; done.
Qed.

Lemma reader_after_write fuel p off buf t e t' :
  (length (input t) < fuel)%nat -> fetchLob_loop fuel p off buf t = (Err e, t') -> plain e = true.
Proof.
  revert off buf t. induction fuel as [|fuel IH]; intros off buf t Hf; [lia|]. cbn [fetchLob_loop].
  assert (Hr : forall A fmt args (m : M Tr A) t t1 a, reader m -> wrapf fmt args m t = (Ok a, t1) ->
            (length (input t1) <= length (input t))%nat).
  { intros A fmt args m t0 t1 a Hm H%wrapf_Ok. by eapply reader_shrinks. }
  intros [H|([] & t1 & H1 & H)]%bind_Err_inv; [by eapply plain_errs_writeLobRead|].
  pose proof (sends_writeLobRead p off t) as Hs. rewrite H1 in Hs.
  destruct Hs as ((_ & _ & _ & Hin & _) & _).
  apply bind_Err_inv in H as [H|(st & t2 & H2 & H)].
  { apply wrapf_Err_inv in H as (e' & He & ->). cbn. by rewrite (plain_errs_ReadInt32 _ _ _ He). }
  pose proof (consumes_wrapf _ _ _ _ consumes_ReadInt32 _ _ _ H2) as Hc.
  destruct (negb _); [by unfold fail in H; simplify_eq|].
  apply bind_Err_inv in H as [H|(n & t3 & H3 & H)].
  { apply wrapf_Err_inv in H as (e' & He & ->). cbn. by rewrite (plain_errs_ReadInt32 _ _ _ He). }
  apply Hr in H3; [|auto with h2go].
  destruct (n =? 0); [done|]. destruct (_ || _); [by unfold fail in H; simplify_eq|].
  apply bind_Err_inv in H as [H|(c & t4 & H4 & H)].
  { apply wrapf_Err_inv in H as (e' & He & ->). cbn. by rewrite (plain_errs_ReadFull _ _ _ _ He). }
  apply Hr in H4; [|auto with h2go]. eapply IH; [|exact H]. rewrite Hin in Hc. lia.
Qed.

Definition lob_total (p : pendingLob) : Z :=
  if pl_typeCode p =? ValueTypeBlob then pl_precision p else pl_octetLength p.

Definition lob_value (p : pendingLob) (data : list byte) : Value :=
  if pl_typeCode p =? ValueTypeClob then VString data
  else VBytes (if (zlen data =? 0) && (lob_total p <=? 0) then None else Some data).

Lemma plain_errs_fetchLob p : plain_errs (fetchLob p).
Proof.
  unfold fetchLob. destruct (_ <? _); [apply plain_errs_fail; reflexivity|].
  apply plain_errs_bind.
  - intros t e t' H. unfold fueled in H. eapply reader_after_write; [|exact H]. lia.
  - intros. destruct (_ =? _); apply plain_errs_ret.
Qed.
#[export] Hint Resolve plain_errs_fetchLob : h2go.

(** Decoding without a collector, LOB requests included. *)
Lemma plain_errs_readValueInternal_direct ct : plain_errs (readValueInternal ct None).
Proof.
  intros t e t'. unfold readValueInternal, fueled. cbn [readValueInternal_fuel].
  set (n := length (input t)).
  assert (plain_below (n + 4) (readValueInternal_fuel (S n) ct None)) as H.
  { cbn [readValueInternal_fuel].
    apply plain_below_bind_consume; [apply consumes_wrapf, consumes_ReadInt32| |].
    - apply plain_errs_wrapf. auto with h2go.
    - intros tc. apply plain_below_readTyped.
      + apply reader_readValueInternal_fuel.
      + apply texts_readValueInternal_fuel.
      + intros. apply plain_below_readValueInternal_fuel.
      + unfold readLOBValue, readPendingLob, readInlineBlob, readInlineClob, readClobChar. solve_plain_errs. }
  apply H. unfold n. lia.
Qed.

Lemma length_flat_map_ge {A B} (f : A -> list B) l :
  (forall x, (1 <= length (f x))%nat) -> (length l <= length (flat_map f l))%nat.
Proof.
  intros H. induction l as [|x l IH]; [done|]. cbn [flat_map length]. rewrite length_app.
  specialize (H x). lia.
Qed.

Lemma fetchLob_chunks p cs rest t :
  lob_total p <= MaxWireLength -> Forall chunk_ok cs -> zlen (concat cs) < 2 ^ 63 ->
  healthy t -> tr_r t = true ->
  input t = flat_map enc_lob_reply cs ++ enc_lob_reply [] ++ rest ->
  exists t', fetchLob p t = (Ok (lob_value p (concat cs)), t') /\
    healthy t' /\ tr_r t' = true /\ input t' = rest /\
    net_out (tr_net t') = emitted t ++ lob_requests p 0 cs /\ emitted t' = emitted t ++ lob_requests p 0 cs.
Proof.
  intros Htot Hok Hlen Hh Hr Hin. unfold fetchLob, lob_total in *.
  replace (MaxWireLength <? _) with false by lia.
  destruct (fetchLob_loop_chunks p cs rest (S (length (input t))) 0 [] t) as (t' & E & H1 & H2 & H3 & H4 & H5);
    [done|done|done|done| |lia|lia|].
  { rewrite Hin, length_app. pose proof (length_flat_map_ge enc_lob_reply cs) as Hl.
    specialize (Hl ltac:(intros c; rewrite length_enc_lob_reply; lia)). lia. }
  exists t'. unfold bind, fueled. rewrite E. cbn [app]. unfold lob_value, lob_total.
  split; [by destruct (_ =? ValueTypeClob)|done].
Qed.

(** ** Correctness *)

(** [fetchLob] reassembles a LOB from any sequence of chunks the
    server cuts it into: the value holds the chunks in order, each request asks for the
    offset reached so far, the requests are on the wire before their replies are
    read, and the stream is left after the empty reply that ends the LOB. *)
Theorem fetchLob_reassembles p cs rest t :
  lob_total p <= MaxWireLength -> Forall chunk_ok cs -> zlen (concat cs) < 2 ^ 63 ->
  healthy t -> tr_r t = true ->
  input t = flat_map enc_lob_reply cs ++ enc_lob_reply [] ++ rest ->
  exists t', fetchLob p t = (Ok (lob_value p (concat cs)), t') /\
    healthy t' /\ tr_r t' = true /\ input t' = rest /\
    net_out (tr_net t') = emitted t ++ lob_requests p 0 cs.
Proof.
  intros. destruct (fetchLob_chunks p cs rest t) as (t' & ? & ? & ? & ? & ? & _); try done. by exists t'.
Qed.

Definition sample_lob : pendingLob := mkPendingLob ValueTypeClob 7 (Some [z2b 1]) 5 5 0 0.
Definition sample_chunks : list (list byte) := [lit "he"; lit "llo"].

Lemma fetchLob_reassembles_witness :
  exists t', fetchLob sample_lob (stream (flat_map enc_lob_reply sample_chunks ++ enc_lob_reply [] ++ lit "x"))
             = (Ok (VString (lit "hello")), t') /\ input t' = lit "x".
Proof.
  destruct (fetchLob_reassembles sample_lob sample_chunks (lit "x")
              (stream (flat_map enc_lob_reply sample_chunks ++ enc_lob_reply [] ++ lit "x")))
    as (t' & H1 & _ & _ & H2 & _).
  - vm_compute. discriminate.
  - repeat constructor; vm_compute; discriminate.
  - reflexivity.
  - split; [by split|]. by exists (mkWriter [] None).
  - reflexivity.
  - reflexivity.
  - exists t'. exact (conj H1 H2).
Defined.

(** [fetchLob] ends whatever the server sends: with more fuel than the
    peer has bytes to send, its loop neither runs out of fuel nor panics. *)
Theorem fetchLob_terminates p off buf t fuel :
  (length (input t) < fuel)%nat ->
  match fetchLob_loop fuel p off buf t with
  | (Ok data, _) => buf `prefix_of` data
  | (Err e, _) => plain e = true
  end.
Proof.
  intros Hf. destruct (fetchLob_loop fuel p off buf t) as [[d|e] t'] eqn:E;
    [|by eapply reader_after_write].
  clear Hf. revert off buf t E. induction fuel as [|fuel IH]; intros off buf t E; [done|].
  cbn [fetchLob_loop] in E. read_inv; [done|].
  apply IH in E. by apply prefix_app_l in E.
Qed.

Lemma fetchLob_terminates_witness :
  match fetchLob_loop 5 sample_lob 0 [] (stream (enc_int32 5)) with
  | (Ok data, _) => [] `prefix_of` data
  | (Err e, _) => plain e = true
  end.
Proof. apply fetchLob_terminates. vm_compute. lia. Defined.

(** C28 (termination). Decoding a value always ends, whatever the bytes and with or
    without a collector: the recursion into ARRAY and ROW never needs more fuel than
    there are unread bytes, more fuel changes nothing, and neither running out of it
    nor a panic (the text of a placeholder inside a container) is ever the outcome. *)
Theorem readValueInternal_enough_fuel ct lc t :
  (forall f, (length (input t) < f)%nat -> readValueInternal_fuel f ct lc t = readValueInternal ct lc t) /\
  (forall e t', readValueInternal ct lc t = (Err e, t') -> plain e = true).
Proof.
  split.
  - intros f Hf. symmetry. apply (fueled_run (fun f => readValueInternal_fuel f ct lc));
      [apply stable_readValueInternal|done].
  - destruct lc; [apply plain_errs_readValueInternal|apply plain_errs_readValueInternal_direct].
Qed.
