(* ===== verification/ScanTypes.v ===== *)
(** * The Go types of decoded values

    [TypeInfo.ScanType] tells the callers of [database/sql] which Go type the values of
    a column have. This file shows that the decoder keeps that promise. *)

From S2P Require Import Prelude.
From S2P Require Import Protocol.
From S2P Require Import Transfer.
From S2P Require Import Errors.
From S2P Require Import Fuel.
From S2P Require Import TypeInfo.
From S2P Require Import Value.
From S2P Require Import ValueRead.

(** ** Types of values *)

(** A value of the Go type; SQL NULL is [nil] whatever the column. *)
Definition has_type (v : Value) (st : scanType) : Prop :=
  match v, st with
  | VNil, _ | VBool _, scanTypeBool | VInt64 _, scanTypeInt64 | VFloat64 _, scanTypeFloat64
  | VString _, scanTypeString | VBytes _, scanTypeBytes | VTime _, scanTypeTime => True
  | _, _ => False
  end.

(** What the decoder may return for a value of type code [tc]: a value of the type that
    is promised for it, text for a CLOB, for which nothing is promised, or the
    placeholder of a LOB of that type. *)
Definition typed (tc : Z) (v : Value) : Prop :=
  match v with
  | VPendingLob p => pl_typeCode p = tc /\ (tc = ValueTypeBlob \/ tc = ValueTypeClob)
  | _ => if tc =? ValueTypeClob then has_type v scanTypeString
         else forall ti, ValueType ti = tc -> has_type v (ScanType (Some ti))
  end.

(** The promise for a type code, evaluated. *)
Lemma typed_code tc v :
  is_pending v = false -> (tc =? ValueTypeClob) = false ->
  has_type v (ScanType (Some (mkTypeInfo tc 0 0 0 None))) -> typed tc v.
Proof.
  intros Hv Hc H. destruct v; try done; cbn [typed]; rewrite Hc; intros ti <-; exact H.
Qed.

Lemma yields_keeping lc (m : M Tr Value) P : yields m P -> yields (keeping lc m) (fun x => P x.1).
Proof. intros Hm. eapply yields_bind; [exact Hm|]. intros v Hv. by apply yields_ret. Qed.

(** A decoder of scalars. *)
Lemma yields_scalar tc lc (m : M Tr Value) :
  (tc =? ValueTypeClob) = false ->
  yields m (fun v => is_pending v = false /\ has_type v (ScanType (Some (mkTypeInfo tc 0 0 0 None)))) ->
  yields (keeping lc m) (fun x => typed tc x.1).
Proof. intros Hc Hm. apply (yields_keeping lc m (typed tc)). intros t v t' H. apply Hm in H as []. by apply typed_code. Qed.

Lemma yields_fetchLob p :
  pl_typeCode p = ValueTypeBlob \/ pl_typeCode p = ValueTypeClob -> yields (fetchLob p) (typed (pl_typeCode p)).
Proof.
  intros Hp. unfold fetchLob. destruct (_ <? _); [apply yields_fail|].
  eapply yields_bind; [apply yields_any|]. intros buf _. destruct Hp as [-> | ->]; cbn.
  - apply yields_ret, typed_code; done.
  - apply yields_ret. done.
Qed.

Lemma yields_readPendingLob tc lc : yields (readPendingLob tc lc) (fun p => pl_typeCode p = tc).
Proof. unfold readPendingLob. solve_yields. Qed.

Lemma yields_readLOBValue tc lc :
  tc = ValueTypeBlob \/ tc = ValueTypeClob -> yields (readLOBValue tc lc) (fun x => typed tc x.1).
Proof.
  intros Htc. unfold readLOBValue. eapply yields_bind; [apply yields_any|]. intros n _.
  destruct (n =? -1).
  { eapply yields_bind; [apply yields_readPendingLob|]. intros p <-. destruct lc as [c|].
    - destruct (lc_reject c); [apply yields_fail|by apply yields_ret].
    - eapply yields_bind; [by apply yields_fetchLob|]. intros v Hv. by apply yields_ret. }
  destruct (n <? 0); [apply yields_fail|].
  assert (Hk : forall m : M Tr Value, yields m (typed tc) -> yields (v <- m ;; ret (v, lc)) (fun x => typed tc x.1))
    by (intros m; apply yields_keeping).
  destruct Htc as [-> | ->]; apply Hk; unfold readInlineBlob, readInlineClob; solve_yields. by apply typed_code.
Qed.

Lemma one_of_inv x l : one_of x l = true -> x ∈ l.
Proof. unfold one_of. intros (y & Hy & E)%existsb_exists. apply Z.eqb_eq in E as ->. by apply list_elem_of_In. Qed.

(** Text, or NULL. *)
Definition is_text (v : Value) : Prop := match v with VNil | VString _ => True | _ => False end.

Lemma yields_readNumericValue : yields readNumericValue is_text.
Proof. eapply yields_bind; [apply yields_any|]. intros [s|] _; by apply yields_ret. Qed.
Lemma yields_readStringValue : yields readStringValue is_text.
Proof. eapply yields_bind; [apply yields_any|]. intros [s|] _; by apply yields_ret. Qed.
Lemma yields_readDecfloatValue : yields readDecfloatValue is_text.
Proof.
  eapply yields_bind; [apply yields_readStringValue|].
  intros [] Hv; try done; solve_yields.
Qed.

Lemma yields_text tc lc m :
  (tc =? ValueTypeClob) = false -> ScanType (Some (mkTypeInfo tc 0 0 0 None)) = scanTypeString ->
  yields m is_text -> yields (keeping lc m) (fun x => typed tc x.1).
Proof. intros Hc Hs Hm. apply yields_scalar; [done|]. intros t v t' H. apply Hm in H. rewrite Hs. by destruct v. Qed.

Lemma yields_readTyped rv tc ct lc : yields (readTyped rv tc ct lc) (fun x => typed tc x.1).
Proof.
  unfold readTyped.
  repeat match goal with
  | |- yields (if tc =? ?c then _ else _) _ => destruct (tc =? c) eqn:E; [apply Z.eqb_eq in E as ->|clear E]
  | |- yields (if one_of tc ?l then _ else _) _ => destruct (one_of tc l) eqn:E; [apply one_of_inv in E|clear E]
  end.
  all: try apply yields_fail; try (by apply yields_ret).
  all: repeat (apply elem_of_cons in E as [->|E]); try (by apply elem_of_nil in E).
  all: try (apply yields_text; [reflexivity|reflexivity|];
            first [apply yields_readNumericValue|apply yields_readStringValue|apply yields_readDecfloatValue]).
  all: try (apply yields_readLOBValue; auto).
  all: apply yields_scalar; [reflexivity|]; autounfold with scalars; unfold readArrayValue, readRowValue;
    cbv zeta; solve_yields.
Qed.

(** ** Correctness *)

(** C21 (type). Whatever the stream holds, a value that is decoded has the Go type which
    [ScanType] promises for its type code: [nil] for NULL, otherwise bool, int64,
    float64, string, []byte or time.Time. A BLOB or CLOB that is deferred is a
    placeholder of its type, and what is fetched for it has the same type as the inline
    value; a CLOB is text although [ScanType] promises nothing for it. *)
Theorem decoded_values_have_scan_type ct lc t v lc' t' :
  readValueInternal ct lc t = (Ok (v, lc'), t') ->
  exists tc, (ReadInt32 t).1 = Ok tc /\ typed tc v /\
    (forall p, v = VPendingLob p -> yields (fetchLob p) (typed tc)).
Proof.
  intros H. unfold readValueInternal, fueled in H. cbn [readValueInternal_fuel] in H.
  apply bind_Ok_inv in H as (tc & t1 & H1%wrapf_Ok & H2). exists tc. rewrite H1.
  pose proof (yields_readTyped _ _ _ _ _ _ _ H2) as Ht. cbn [fst] in *. split; [done|]. split; [done|].
  intros p ->. destruct Ht as [<- Hp]. by apply yields_fetchLob.
Qed.

Definition sample_time_stream : list byte := enc_int32 ValueTypeDate ++ enc_int64 1035000 ++ enc_int32 7.

Lemma decoded_values_have_scan_type_witness :
  exists v t', readValueInternal None None (stream sample_time_stream) = (Ok (v, None), t') /\
    has_type v (ScanType (Some (mkTypeInfo ValueTypeDate 0 0 0 None))).
Proof.
  destruct (readValueInternal None None (stream sample_time_stream)) as [x t'] eqn:E.
  assert (exists v, x = Ok (v, None)) as [v ->] by (vm_compute in E; injection E as <- _; by eexists).
  destruct (decoded_values_have_scan_type None None (stream sample_time_stream) v None t' E) as (tc & H1 & H2 & _).
  vm_compute in H1. injection H1 as <-. exists v, t'. split; [reflexivity|].
  vm_compute in E. injection E as <- _. apply H2. reflexivity.
Defined.
