(* ===== verification/ValueWire.v ===== *)
(** * The values a server sends

    [wire_value] is the value grammar of protocol 21 as data; [enc_value] is its byte
    sequence and [value_meaning] the Go value the driver makes of it. *)

From Stdlib Require Import Strings.Byte.
From S2P Require Import Prelude.
From S2P Require Import GoText.
From S2P Require Import Protocol.
From S2P Require Import Transfer.
From S2P Require Import Fuel.
From S2P Require Import TypeInfo.
From S2P Require Import Metadata.
From S2P Require Import DecFloat.
From S2P Require Import GoTime.
From S2P Require Import GoFloat.
From S2P Require Import ValueText.
From S2P Require Import Value.
From S2P Require Import ValueRead.

Inductive wire_value :=
| WireNull
| WireBoolean (b : bool)
| WireTinyint (z : Z)
| WireSmallint (z : Z)
| WireInteger (z : Z)
| WireBigint (z : Z)
| WireReal (bits : Z)
| WireDouble (bits : Z)
| WireNumeric (s : option gostring)
| WireText (tc : Z) (s : option gostring)
| WireDecfloat (d : DecFloat)
| WireBinary (tc : Z) (b : option (list byte))
| WireDate (dateValue : Z)
| WireTime (nanos : Z)
| WireTimeTZ (nanos offset : Z)
| WireTimestamp (dateValue nanos : Z)
| WireTimestampTZ (dateValue nanos offset : Z)
| WireUUID (high low : Z)
| WireEnum (ordinal : Z)
| WireInterval (negative : bool) (ordinal leading remaining : Z)
| WireBlob (data : list byte)
| WireClob (chars : list Z)
| WireArray (elems : list wire_value)
| WireRow (fields : list wire_value).

(** A char (UTF-16 code unit) as [Data.copyString] writes it. *)
Definition enc_char (c : Z) : list byte :=
  if c <? 0x80 then [z2b c]
  else if 0x800 <=? c then
    [z2b (Z.lor 0xe0 (Z.shiftr c 12)); z2b (Z.land (Z.shiftr c 6) 0x3f); z2b (Z.land c 0x3f)]
  else [z2b (Z.lor 0xc0 (Z.shiftr c 6)); z2b (Z.land c 0x3f)].

Fixpoint enc_value (w : wire_value) : list byte :=
  match w with
  | WireNull => enc_int32 ValueTypeNull
  | WireBoolean b => enc_int32 ValueTypeBoolean ++ enc_bool b
  | WireTinyint z => enc_int32 ValueTypeTinyint ++ [z2b z]
  | WireSmallint z => enc_int32 ValueTypeSmallint ++ enc_int16 z
  | WireInteger z => enc_int32 ValueTypeInteger ++ enc_int32 z
  | WireBigint z => enc_int32 ValueTypeBigint ++ enc_int64 z
  | WireReal bits => enc_int32 ValueTypeReal ++ enc_int32 bits
  | WireDouble bits => enc_int32 ValueTypeDouble ++ enc_int64 bits
  | WireNumeric s => enc_int32 ValueTypeNumeric ++ enc_ostring s
  | WireText tc s => enc_int32 tc ++ enc_ostring s
  | WireDecfloat d => enc_int32 ValueTypeDecfloat ++ enc_string (DecFloat_String d)
  | WireBinary tc b => enc_int32 tc ++ enc_bytes b
  | WireDate dv => enc_int32 ValueTypeDate ++ enc_int64 dv
  | WireTime n => enc_int32 ValueTypeTime ++ enc_int64 n
  | WireTimeTZ n off => enc_int32 ValueTypeTimeTZ ++ enc_int64 n ++ enc_int32 off
  | WireTimestamp dv n => enc_int32 ValueTypeTimestamp ++ enc_int64 dv ++ enc_int64 n
  | WireTimestampTZ dv n off =>
      enc_int32 ValueTypeTimestampTZ ++ enc_int64 dv ++ enc_int64 n ++ enc_int32 off
  | WireUUID h l => enc_int32 ValueTypeUUID ++ enc_int64 h ++ enc_int64 l
  | WireEnum o => enc_int32 ValueTypeEnum ++ enc_int32 o
  | WireInterval neg o l r =>
      enc_int32 ValueTypeInterval ++ [z2b (if neg then 255 - o else o)] ++ enc_int64 l
      ++ (if 5 <=? o then enc_int64 r else [])
  | WireBlob data =>
      enc_int32 ValueTypeBlob ++ enc_int64 (zlen data) ++ data ++ enc_int32 lobMagic
  | WireClob cs =>
      enc_int32 ValueTypeClob ++ enc_int64 (zlen cs) ++ flat_map enc_char cs ++ enc_int32 lobMagic
  | WireArray es => enc_int32 ValueTypeArray ++ enc_list enc_value es
  | WireRow fs => enc_int32 ValueTypeRow ++ enc_list enc_value fs
  end.

Definition text_of (v : Value) : gostring := default [] (fmt_v v).

Fixpoint value_meaning (w : wire_value) : Value :=
  match w with
  | WireNull => VNil
  | WireBoolean b => VBool b
  | WireTinyint z | WireSmallint z | WireInteger z | WireBigint z | WireEnum z => VInt64 z
  | WireReal bits => VFloat64 (float64_of_float32 bits)
  | WireDouble bits => VFloat64 bits
  | WireNumeric s | WireText _ s => string_value (sanitize <$> s)
  | WireDecfloat d => VString (DecFloat_String d)
  | WireBinary _ b => VBytes b
  | WireDate dv => VTime (dateValueToTime dv)
  | WireTime n => VTime (nanosOfDayToTime n)
  | WireTimeTZ n off => VTime (nanosOfDayToTimeTZ n off)
  | WireTimestamp dv n => VTime (timestampToTime dv n)
  | WireTimestampTZ dv n off => VTime (timestampToTimeTZ dv n off)
  | WireUUID h l => VString (formatUUID h l)
  | WireInterval neg o l r =>
      VString (formatInterval (iq_name (intervalQualifier o)) (if neg then int64 (- l) else l)
                 (if 5 <=? o then r else 0))
  | WireBlob data => VBytes (Some data)
  | WireClob cs => VString (utf8_encode cs)
  | WireArray es => VString (lit "[" ++ Join (lit ",") (map (fun e => text_of (value_meaning e)) es) ++ lit "]")
  | WireRow fs => VString (lit "(" ++ Join (lit ",") (map (fun f => text_of (value_meaning f)) fs) ++ lit ")")
  end.

Definition fits_ostring (s : option gostring) : bool := from_option fits_string true s.
Definition in_range (n z : Z) : bool := (0 <=? z) && (z <? 2 ^ n).

(** Field ranges, type codes of the right kind, and lengths within the caps. *)
Fixpoint wf_value (w : wire_value) : bool :=
  match w with
  | WireNull | WireBoolean _ => true
  | WireTinyint z => fits 8 z
  | WireSmallint z => fits 16 z
  | WireInteger z | WireEnum z => fits 32 z
  | WireBigint z => fits 64 z
  | WireReal bits => in_range 32 bits
  | WireDouble bits => in_range 64 bits
  | WireNumeric s => fits_ostring s
  | WireText tc s =>
      one_of tc [ValueTypeVarchar; ValueTypeChar; ValueTypeVarcharIgnoreCase] && fits_ostring s
  | WireDecfloat d =>
      fits 32 (scale d) && (zlen (dec_digits d) <=? 2 ^ 31) && fits_string (DecFloat_String d)
  | WireBinary tc b =>
      one_of tc [ValueTypeVarbinary; ValueTypeBinary; ValueTypeJSON; ValueTypeGeometry; ValueTypeJavaObject]
      && (zlen (default [] b) <=? MaxWireLength)
  | WireDate dv => fits 64 dv
  | WireTime n => fits 64 n
  | WireTimeTZ n off => fits 64 n && fits 32 off
  | WireTimestamp dv n => fits 64 dv && fits 64 n
  | WireTimestampTZ dv n off => fits 64 dv && fits 64 n && fits 32 off
  | WireUUID h l => fits 64 h && fits 64 l
  | WireInterval _ o l r => between 0 o 12 && fits 64 l && fits 64 r
  | WireBlob data => zlen data <=? MaxWireLength
  | WireClob cs => (zlen cs <=? maxInlineClobChars) && forallb (fun c => between 0 c 0xFFFF) cs
  | WireArray es => (zlen es <=? maxWireCollectionElements) && forallb wf_value es
  | WireRow fs => (zlen fs <=? maxWireCollectionElements) && forallb wf_value fs
  end.

(** A value that is not a container. *)
Definition scalar (w : wire_value) : bool :=
  match w with
  | WireArray _ | WireRow _ => false
  | _ => true
  end.

(** Induction that reaches the elements of containers. *)
Lemma wire_value_ind_nested (P : wire_value -> Prop)
  (Hs : forall w, scalar w = true -> P w)
  (Ha : forall es, Forall P es -> P (WireArray es)) (Hr : forall fs, Forall P fs -> P (WireRow fs)) :
  forall w, P w.
Proof.
  fix IH 1. intros w.
  destruct w; try (by apply Hs); [apply Ha|apply Hr];
    match goal with l : list wire_value |- _ => induction l as [|x l IHl]; constructor; [apply IH|exact IHl] end.
Qed.

(** ** Decoding *)

(** The value of a char from the bytes [enc_char] gives. *)
Lemma decodes_readClobChar c : 0 <= c <= 0xFFFF -> decodes readClobChar (enc_char c) c.
Proof.
  intros Hc. unfold enc_char, readClobChar.
  assert (H3f : forall x, Z.land x 0x3f = x mod 64) by (intros; by apply (land_ones_mod x 6)).
  assert (Hshr : forall k, 0 <= k -> Z.shiftr c k = c / 2 ^ k) by (intros; by apply Z.shiftr_div_pow2).
  rewrite !H3f, !Hshr by lia. change (2 ^ 6) with 64. change (2 ^ 12) with 4096.
  destruct (c <? 0x80) eqn:E1; [|destruct (0x800 <=? c) eqn:E2].
  - eapply decodes_bind_ret; [apply decodes_ReadByte|]. rewrite b2z_z2b_small by lia. by rewrite E1.
  - assert (0 <= c / 4096 < 16) by (Z.div_mod_to_equations; lia).
    rewrite lor_E0 by lia.
    change (?a :: ?b :: ?d :: ?l) with ([a] ++ [b] ++ [d] ++ l).
    eapply decodes_bind; [apply decodes_ReadByte|]. rewrite b2z_z2b_small by lia.
    replace (224 + c / 4096 <? 128) with false by lia. replace (224 <=? 224 + c / 4096) with true by lia.
    eapply decodes_bind; [apply decodes_ReadByte|].
    eapply decodes_bind_ret; [apply decodes_ReadByte|].
    rewrite !b2z_z2b_small by (Z.div_mod_to_equations; lia). f_equal.
    rewrite !H3f, land_0F, Z.mod_mod, Z.mod_mod by lia.
    rewrite <- Z.lor_assoc, lor_shiftl6, lor_shiftl12 by (Z.div_mod_to_equations; lia).
    Z.div_mod_to_equations; lia.
  - assert (0 <= c / 64 < 32) by (Z.div_mod_to_equations; lia).
    rewrite lor_C0 by lia. change (?a :: ?b :: ?l) with ([a] ++ [b] ++ l).
    eapply decodes_bind; [apply decodes_ReadByte|]. rewrite b2z_z2b_small by lia.
    replace (192 + c / 64 <? 128) with false by lia. replace (224 <=? 192 + c / 64) with false by lia.
    eapply decodes_bind_ret; [apply decodes_ReadByte|].
    rewrite !b2z_z2b_small by (Z.div_mod_to_equations; lia). f_equal.
    rewrite H3f, land_1F, Z.mod_mod by lia. rewrite lor_shiftl6 by (Z.div_mod_to_equations; lia).
    Z.div_mod_to_equations; lia.
Qed.

Lemma decodes_readInlineClob cs :
  zlen cs <= maxInlineClobChars -> forallb (fun c => between 0 c 0xFFFF) cs = true ->
  decodes (readInlineClob (zlen cs)) (flat_map enc_char cs ++ enc_int32 lobMagic)
    (VString (utf8_encode cs)).
Proof.
  intros Hl Hc. unfold readInlineClob. replace (_ <? _) with false by lia.
  unfold zlen at 1. rewrite Nat2Z.id. rewrite <- (map_id cs) at 3.
  eapply decodes_bind.
  - apply (decodes_for_range _ _ id). intros c j Hin. apply decodes_wrapf, decodes_readClobChar.
    rewrite forallb_forall in Hc. apply list_elem_of_In, Hc in Hin. unfold between in Hin. unfold id. lia.
  - eapply decodes_bind_ret; [apply decodes_wrapf, decodes_ReadInt32; by vm_compute|]. done.
Qed.

Lemma decodes_readInlineBlob data :
  zlen data <= MaxWireLength ->
  decodes (readInlineBlob (zlen data)) (data ++ enc_int32 lobMagic) (VBytes (Some data)).
Proof.
  intros Hl. unfold readInlineBlob. replace (_ <? _) with false by lia.
  eapply decodes_bind; [by apply decodes_wrapf, decodes_ReadFullChecked|].
  eapply decodes_bind_ret; [apply decodes_wrapf, decodes_ReadInt32; by vm_compute|]. done.
Qed.

Lemma decodes_keeping {A} lc (m : M Tr A) bs a : decodes m bs a -> decodes (keeping lc m) bs (a, lc).
Proof. intros H. eapply decodes_bind_ret; [exact H|done]. Qed.

Lemma decodes_type_code tc f ct lc bs r :
  fits 32 tc = true -> decodes (readTyped (readValueInternal_fuel f) tc ct lc) bs r ->
  decodes (readValueInternal_fuel (S f) ct lc) (enc_int32 tc ++ bs) r.
Proof.
  intros Htc Hk. cbn [readValueInternal_fuel].
  eapply decodes_bind; [by apply decodes_wrapf, decodes_ReadInt32, fits_in_intN|exact Hk].
Qed.

(** Steps of a decoding proof: the last field, and a field before others. *)
Ltac last_field tac := eapply decodes_bind_ret; [apply decodes_wrapf; tac|try done].
Ltac field tac := eapply decodes_bind; [apply decodes_wrapf; tac|].

Lemma in_range_spec n z : in_range n z = true -> 0 <= z < 2 ^ n.
Proof. unfold in_range. lia. Qed.

Lemma decodes_text s fmt :
  fits_ostring s = true ->
  decodes (x <- wrapf fmt [] ReadString ;; ret (string_value x)) (enc_ostring s) (string_value (sanitize <$> s)).
Proof. intros Hs. last_field ltac:(by apply decodes_ostring). Qed.

(** The qualifiers from SECOND on have a second field. *)
Lemma hasRemaining_ordinal o : 0 <= o <= 12 -> hasRemaining (intervalQualifier o) = (5 <=? o).
Proof.
  intros Ho. assert (o = 0 \/ o = 1 \/ o = 2 \/ o = 3 \/ o = 4 \/ o = 5 \/ o = 6 \/ o = 7 \/ o = 8 \/
    o = 9 \/ o = 10 \/ o = 11 \/ o = 12) as Hc by lia.
  by repeat destruct Hc as [->|Hc]; [reflexivity..|subst].
Qed.

Lemma decodes_readIntervalValue (neg : bool) o l r :
  0 <= o <= 12 -> in_intN 64 l -> in_intN 64 r ->
  decodes readIntervalValue
    ([z2b (if neg then 255 - o else o)] ++ enc_int64 l
     ++ (if 5 <=? o then enc_int64 r else []))
    (VString (formatInterval (iq_name (intervalQualifier o)) (if neg then int64 (- l) else l)
                (if 5 <=? o then r else 0))).
Proof.
  intros Ho Hl Hr. unfold readIntervalValue.
  field ltac:(apply decodes_ReadByte).
  replace (128 <=? b2z (z2b (if neg then 255 - o else o))) with neg
    by (destruct neg; rewrite b2z_z2b_small by lia; symmetry; [apply Z.leb_le|apply Z.leb_gt]; lia).
  assert ((if neg then Z.land (255 - b2z (z2b (if neg then 255 - o else o))) 127
           else b2z (z2b (if neg then 255 - o else o))) = o) as ->.
  { destruct neg; rewrite b2z_z2b_small by lia; [|done].
    change 127 with (2 ^ 7 - 1). rewrite land_ones_mod, Z.mod_small; lia. }
  field ltac:(by apply decodes_ReadInt64).
  rewrite hasRemaining_ordinal by done.
  destruct (5 <=? o); [last_field ltac:(by apply decodes_ReadInt64)|apply decodes_ret].
Qed.

Lemma dec_text_ascii d : isASCII (DecFloat_String d) = true.
Proof.
  apply isASCII_Forall. destruct (special d) eqn:Hs;
    [|by unfold DecFloat_String; rewrite Hs; repeat constructor..].
  rewrite String_number_text by done. cbv zeta.
  assert (Hd : forall s, digit_string s -> Forall (fun b => b2z b < 128) s).
  { intros s H. eapply Forall_impl; [exact H|]. unfold is_digit, between. intros b Hb. cbv beta in Hb. lia. }
  pose proof (digit_string_digits (Z.abs (default 0 (unscaled d))) ltac:(lia)) as Hds.
  change (digits 10 _) with (dec_digits d) in Hds.
  assert (forall a, Forall (fun b => b2z b < 128) (exp_text a)) as He.
  { intros a. unfold exp_text, FormatInt. repeat apply Forall_app_2; [by repeat constructor|].
    destruct (0 <=? a) eqn:E.
    - replace (a <? 0) with false by lia. apply Forall_app_2; [by repeat constructor|].
      apply Hd, digit_string_digits. lia.
    - replace (- a <? 0) with false by lia. apply Forall_app_2; [by repeat constructor|].
      apply Hd, digit_string_digits. lia. }
  assert (forall neg i f e, digit_string i -> digit_string (default [] f) ->
            Forall (fun b => b2z b < 128) (number_text neg i f e)) as Hn.
  { intros neg i f e Hi Hf. unfold number_text. repeat apply Forall_app_2.
    - destruct neg; by repeat constructor.
    - by apply Hd.
    - destruct f as [f|]; cbn; [|constructor]. constructor; [done|by apply Hd].
    - destruct e; cbn; [apply He|constructor]. }
  repeat case_match; apply Hn; cbn; try done; try (by apply Forall_take); try (by apply Forall_drop);
    try (by repeat constructor). apply Forall_app_2; [apply Forall_zeros|done].
Qed.

Lemma decodes_readDecfloatValue d :
  in_int32 (scale d) -> zlen (dec_digits d) <= 2 ^ 31 -> fits_string (DecFloat_String d) = true ->
  decodes readDecfloatValue (enc_string (DecFloat_String d)) (VString (DecFloat_String d)).
Proof.
  intros Hsc Hl Hf. unfold readDecfloatValue. eapply decodes_bind_ret.
  - apply (decodes_text (Some (DecFloat_String d))). done.
  - cbn [fmap option_fmap option_map string_value].
    rewrite sanitize_ascii by (apply isASCII_Forall, dec_text_ascii).
    by rewrite (parse_String d Hsc Hl).
Qed.

(** Elements of containers are decoded without a collector of their own. *)
Lemma decodes_readElement rv fmt ct i w lc' :
  decodes (rv ct (Some nestedLOBs)) (enc_value w) (value_meaning w, lc') ->
  is_Some (fmt_v (value_meaning w)) ->
  decodes (readElement rv fmt ct i) (enc_value w) (text_of (value_meaning w)).
Proof.
  intros H [s Hs]. unfold readElement. eapply decodes_bind_ret; [by apply decodes_wrapf|].
  unfold render, text_of. cbn [fst]. by rewrite Hs.
Qed.

Lemma meaning_has_text w : is_Some (fmt_v (value_meaning w)).
Proof. destruct w; cbn; try done; destruct s; done. Qed.

(** A scalar decodes with whatever collector; the decoder of elements is not used. *)
Lemma decodes_scalar w f ct lc :
  scalar w = true -> wf_value w = true ->
  decodes (readValueInternal_fuel (S f) ct lc) (enc_value w) (value_meaning w, lc).
Proof.
  intros Hsc Hwf. destruct w; try discriminate Hsc; clear Hsc; cbn [wf_value enc_value value_meaning] in *;
    try (split_wf Hwf).
  1: rewrite <- (app_nil_r (enc_int32 _)).
  all: try (apply decodes_type_code; [reflexivity|]).
  - apply decodes_ret.
  - apply decodes_keeping. last_field ltac:(apply decodes_ReadBool).
  - apply decodes_keeping. last_field ltac:(apply decodes_ReadByte).
    rewrite b2z_z2b. change 256 with (2 ^ 8). rewrite intN_mod, intN_small by (lia || by apply fits_in_intN). done.
  - apply decodes_keeping. last_field ltac:(by apply decodes_ReadInt16, fits_in_intN).
  - apply decodes_keeping. last_field ltac:(by apply decodes_ReadInt32, fits_in_intN).
  - apply decodes_keeping. last_field ltac:(by apply decodes_ReadInt64, fits_in_intN).
  - apply decodes_keeping. last_field ltac:(by apply decodes_ReadFloat32, in_range_spec).
  - apply decodes_keeping. last_field ltac:(by apply decodes_ReadFloat64, in_range_spec).
  - by apply decodes_keeping, decodes_text.
  - vt_cases Hwf; (apply decodes_type_code; [reflexivity|]); by apply decodes_keeping, decodes_text.
  - apply decodes_keeping, decodes_readDecfloatValue; [by apply fits_in_intN|lia|done].
  - vt_cases Hwf; (apply decodes_type_code; [reflexivity|]); apply decodes_keeping;
      (last_field ltac:(apply decodes_ReadBytes; lia)).
  - apply decodes_keeping. last_field ltac:(by apply decodes_ReadInt64, fits_in_intN).
  - apply decodes_keeping. last_field ltac:(by apply decodes_ReadInt64, fits_in_intN).
  - apply decodes_keeping. field ltac:(by apply decodes_ReadInt64, fits_in_intN).
    last_field ltac:(by apply decodes_ReadInt32, fits_in_intN).
  - apply decodes_keeping. field ltac:(by apply decodes_ReadInt64, fits_in_intN).
    last_field ltac:(by apply decodes_ReadInt64, fits_in_intN).
  - apply decodes_keeping. do 2 field ltac:(by apply decodes_ReadInt64, fits_in_intN).
    last_field ltac:(by apply decodes_ReadInt32, fits_in_intN).
  - apply decodes_keeping. field ltac:(by apply decodes_ReadInt64, fits_in_intN).
    last_field ltac:(by apply decodes_ReadInt64, fits_in_intN).
  - apply decodes_keeping. last_field ltac:(by apply decodes_ReadInt32, fits_in_intN).
  - apply decodes_keeping, decodes_readIntervalValue; [unfold between in *; lia|by apply fits_in_intN..].
  - pose proof (zlen_nonneg data). field ltac:(apply decodes_ReadInt64; rewrite MaxWireLength_eq in *; unfold in_intN; lia).
    replace (zlen data =? -1) with false by lia. replace (zlen data <? 0) with false by lia.
    apply (decodes_keeping lc), decodes_readInlineBlob. lia.
  - pose proof (zlen_nonneg chars).
    field ltac:(apply decodes_ReadInt64; unfold maxInlineClobChars in *; rewrite MaxWireLength_eq in *; unfold in_intN; lia).
    replace (zlen chars =? -1) with false by lia. replace (zlen chars <? 0) with false by lia.
    apply (decodes_keeping lc), decodes_readInlineClob; [lia|done].
Qed.

(** The elements of a container, each decoded with less fuel. *)
Lemma decodes_elements f fmt ct ws :
  Forall (fun w => forall f ct lc, wf_value w = true -> (length (enc_value w) < f)%nat ->
            decodes (readValueInternal_fuel f ct lc) (enc_value w) (value_meaning w, lc)) ws ->
  forallb wf_value ws = true -> (length (flat_map enc_value ws) < f)%nat ->
  decodes (for_range (length ws) 0 (readElement (readValueInternal_fuel f) fmt ct))
    (flat_map enc_value ws) (map (fun w => text_of (value_meaning w)) ws).
Proof.
  intros IH Hwf Hf. apply decodes_for_range. intros w j Hin.
  rewrite Forall_forall in IH. rewrite forallb_forall in Hwf.
  eapply decodes_readElement; [|apply meaning_has_text]. apply IH; [done| |].
  - apply Hwf. by apply list_elem_of_In.
  - apply (length_flat_map_elem enc_value) in Hin. lia.
Qed.

Lemma decodes_value_fuel w : forall f ct lc,
  wf_value w = true -> (length (enc_value w) < f)%nat ->
  decodes (readValueInternal_fuel f ct lc) (enc_value w) (value_meaning w, lc).
Proof.
  induction w as [w Hs|es IH|fs IH] using wire_value_ind_nested; intros [|f] ct lc Hwf Hf; try lia.
  - by apply decodes_scalar.
  - cbn [wf_value enc_value value_meaning] in *. split_wf Hwf. unfold enc_list in *.
    pose proof (zlen_nonneg es). rewrite !length_app, !length_enc_int32 in Hf.
    assert (zlen es <= 1048576) by (change 1048576 with maxWireCollectionElements; lia).
    apply decodes_type_code; [reflexivity|]. apply decodes_keeping. unfold readArrayValue.
    field ltac:(apply decodes_ReadInt32; unfold in_intN; lia).
    replace (zlen es <? 0) with false by lia.
    replace (maxWireCollectionElements <? zlen es) with false by lia.
    eapply decodes_bind_nil; [apply decodes_ret|].
    destruct es as [|e es']; [apply decodes_ret|]. set (es := e :: es') in *.
    replace (zlen es =? 0) with false by (unfold es; rewrite zlen_cons; pose proof (zlen_nonneg es'); lia).
    unfold zlen at 1. rewrite Nat2Z.id.
    eapply decodes_bind_ret; [apply decodes_elements; [done|done|lia]|done].
  - cbn [wf_value enc_value value_meaning] in *. split_wf Hwf. unfold enc_list in *.
    pose proof (zlen_nonneg fs). rewrite !length_app, !length_enc_int32 in Hf.
    assert (zlen fs <= 1048576) by (change 1048576 with maxWireCollectionElements; lia).
    apply decodes_type_code; [reflexivity|]. apply decodes_keeping. unfold readRowValue.
    field ltac:(apply decodes_ReadInt32; unfold in_intN; lia).
    replace (zlen fs <? 0) with false by lia.
    replace (maxWireCollectionElements <? zlen fs) with false by lia.
    unfold zlen at 1. rewrite Nat2Z.id.
    eapply decodes_bind_ret; [apply decodes_elements; [done|done|lia]|done].
Qed.

Lemma decodes_value w ct lc :
  wf_value w = true -> decodes (readValueInternal ct lc) (enc_value w) (value_meaning w, lc).
Proof.
  intros Hw. apply decodes_fueled; [apply stable_readValueInternal|].
  intros f Hf. by apply decodes_value_fuel.
Qed.

(** The frame of a LOB that is fetched on demand. *)
Definition enc_pending (tableID : Z) (p : pendingLob) : list byte :=
  enc_int32 (pl_typeCode p) ++ enc_int64 (-1) ++ enc_int32 tableID ++ enc_int64 (pl_lobID p)
  ++ enc_bytes (pl_hmac p)
  ++ (if pl_typeCode p =? ValueTypeClob then enc_int64 (pl_octetLength p) else [])
  ++ enc_int64 (pl_precision p).

Definition wf_pending (p : pendingLob) : bool :=
  one_of (pl_typeCode p) [ValueTypeBlob; ValueTypeClob] && fits 64 (pl_lobID p)
  && (zlen (default [] (pl_hmac p)) <=? MaxWireLength)
  && fits 64 (pl_octetLength p) && fits 64 (pl_precision p)
  && ((pl_typeCode p =? ValueTypeClob) || (pl_octetLength p =? 0)).

Definition at_position (row col : Z) (p : pendingLob) : pendingLob :=
  mkPendingLob (pl_typeCode p) (pl_lobID p) (pl_hmac p) (pl_octetLength p) (pl_precision p) row col.

(** Decoding the frame up to the point where the collector decides. *)
Lemma decodes_readPendingLob tableID p lc :
  wf_pending p = true -> in_intN 32 tableID ->
  exists bs, enc_pending tableID p = enc_int32 (pl_typeCode p) ++ enc_int64 (-1) ++ bs /\
    decodes (readPendingLob (pl_typeCode p) lc) bs
      (at_position (from_option lc_curRow 0 lc) (from_option lc_curCol 0 lc) p).
Proof.
  unfold wf_pending. intros Hw Ht. split_wf Hw. eexists. split; [reflexivity|].
  unfold readPendingLob. field ltac:(by apply decodes_ReadInt32).
  field ltac:(by apply decodes_ReadInt64, fits_in_intN).
  field ltac:(apply decodes_ReadBytes; lia).
  destruct (pl_typeCode p =? ValueTypeClob) eqn:E.
  - field ltac:(by apply decodes_ReadInt64, fits_in_intN).
    last_field ltac:(by apply decodes_ReadInt64, fits_in_intN).
  - cbn [app]. last_field ltac:(by apply decodes_ReadInt64, fits_in_intN).
    unfold at_position. by replace (pl_octetLength p) with 0 by lia.
Qed.

Lemma decodes_lob_head rv tc ct lc bs r :
  one_of tc [ValueTypeBlob; ValueTypeClob] = true ->
  decodes (p <- readPendingLob tc lc ;;
           match lc with
           | None => v <- fetchLob p ;; ret (v, lc)
           | Some c => if lc_reject c then fail errNestedLob else ret (VPendingLob p, Some (lc_append p c))
           end) bs r ->
  decodes (readTyped rv tc ct lc) (enc_int64 (-1) ++ bs) r.
Proof.
  intros Htc. vt_cases Htc; intros Hd;
    (eapply decodes_bind; [apply decodes_wrapf, decodes_ReadInt64; unfold in_intN; lia|exact Hd]).
Qed.

Lemma decodes_pending tableID p c ct :
  wf_pending p = true -> in_intN 32 tableID -> lc_reject c = false ->
  let q := at_position (lc_curRow c) (lc_curCol c) p in
  decodes (readValueInternal ct (Some c)) (enc_pending tableID p) (VPendingLob q, Some (lc_append q c)).
Proof.
  intros Hw Ht Hc q. destruct (decodes_readPendingLob tableID p (Some c) Hw Ht) as (bs & -> & Hd).
  assert (Htc : one_of (pl_typeCode p) [ValueTypeBlob; ValueTypeClob] = true)
    by (unfold wf_pending in Hw; by split_wf Hw).
  apply decodes_fueled; [apply stable_readValueInternal|]. intros [|f] Hf; [lia|].
  apply decodes_type_code; [by vt_cases Htc|]. apply decodes_lob_head; [done|].
  eapply decodes_bind_ret; [exact Hd|]. by rewrite Hc.
Qed.

(** ** On-demand LOBs inside containers *)

Lemma nested_lob_rejected tableID p f ct t suf :
  wf_pending p = true -> in_intN 32 tableID -> tr_r t = true ->
  input t = enc_pending tableID p ++ suf ->
  exists t', readValueInternal_fuel (S f) ct (Some nestedLOBs) t = (Err errNestedLob, t').
Proof.
  intros Hw Ht Hr Hin. destruct (decodes_readPendingLob tableID p (Some nestedLOBs) Hw Ht) as (bs & E & Hd).
  assert (Htc : one_of (pl_typeCode p) [ValueTypeBlob; ValueTypeClob] = true)
    by (unfold wf_pending in Hw; by split_wf Hw).
  rewrite E, <- !app_assoc in Hin. clear E Hw.
  cbn [readValueInternal_fuel]. erewrite bind_Ok.
  2:{ apply wrapf_Ok, (decodes_ReadInt32 (pl_typeCode p)); [|done|exact Hin].
      apply fits_in_intN. by vt_cases Htc. }
  revert Hd Hin. vt_cases Htc; intros Hd Hin.
  all: change (readTyped _ _ _ _) with (readLOBValue ValueTypeBlob (Some nestedLOBs)) ||
       change (readTyped _ _ _ _) with (readLOBValue ValueTypeClob (Some nestedLOBs)).
  all: unfold readLOBValue; erewrite bind_Ok;
    [|apply wrapf_Ok, (decodes_ReadInt64 (-1)); [unfold in_intN; lia|done|reflexivity]];
    change (-1 =? -1) with true; cbv iota; erewrite bind_Ok; [|apply Hd; [done|reflexivity]];
    eexists; reflexivity.
Qed.

Lemma for_range_stops f fmt ct (ws : list wire_value) i n t suf e t1 :
  (length ws < n)%nat ->
  (forall w j, w ∈ ws -> decodes (readElement f fmt ct j) (enc_value w) (text_of (value_meaning w))) ->
  tr_r t = true -> input t = flat_map enc_value ws ++ suf ->
  readElement f fmt ct (i + zlen ws) (set_in suf t) = (Err e, t1) ->
  for_range n i (readElement f fmt ct) t = (Err e, t1).
Proof.
  revert i n t. induction ws as [|w ws IH]; intros i n t Hn Hd Hr Hin He.
  - destruct n as [|n]; [cbn in Hn; lia|]. cbn [for_range]. cbn in Hin. subst.
    rewrite set_in_input in He. change (zlen (@nil wire_value)) with 0 in He. rewrite Z.add_0_r in He. by apply bind_Err.
  - destruct n as [|n]; [cbn in Hn; lia|]. cbn [for_range flat_map] in *. rewrite <- app_assoc in Hin.
    erewrite bind_Ok; [|apply (Hd w); [left|done|exact Hin]].
    apply bind_Err. apply (IH _ _ (set_in (flat_map enc_value ws ++ suf) t)); [cbn in Hn; lia| |done|done|].
    + intros w' j Hw'. apply Hd. by right.
    + rewrite zlen_cons in He. rewrite set_in_set_in. by replace (i + 1 + zlen ws) with (i + (1 + zlen ws)) by lia.
Qed.

(** ** Correctness *)

Lemma decodes_ReadValue w ct :
  wf_value w = true -> decodes (ReadValue ct) (enc_value w) (value_meaning w).
Proof. intros Hw. eapply decodes_bind_ret; [by apply decodes_value|done]. Qed.

(** With a collector, decoding a value only reads: whatever the bytes, also
    when it fails, it consumes a prefix of the stream and writes nothing (so no
    request is sent in the middle of a batch); the result depends on that prefix
    alone; and the collector gets exactly one placeholder, for the cell being read,
    when and only when the value returned is that placeholder. *)
Theorem readValueInternal_only_reads ct c t r t' :
  readValueInternal ct (Some c) t = (r, t') ->
  (exists pre, input t = pre ++ input t' /\ t' = set_in (input t') t /\
               (forall a, r = Ok a -> decodes (readValueInternal ct (Some c)) pre a)) /\
  (forall a, r = Ok a -> collected c a).
Proof.
  intros H. split; [by apply reader_readValueInternal|].
  intros a ->. by eapply collected_readValueInternal_fuel.
Qed.

Lemma readValueInternal_only_reads_witness :
  exists pre, enc_value WireNull ++ lit "x" = pre ++ lit "x".
Proof.
  destruct (readValueInternal_only_reads None (mkLobCollector [] false 0 0)
              (stream (enc_value WireNull ++ lit "x")) (Ok (VNil, Some (mkLobCollector [] false 0 0)))
              (stream (lit "x"))) as [(pre & H & _) _]; [vm_compute; reflexivity|].
  by exists pre.
Defined.

(** A LOB that is not sent inline is deferred when there is a
    collector: its frame is consumed exactly, nothing is requested, and the placeholder
    that stands for it carries the identifier, the MAC and the lengths of the frame
    and the row and column being read. *)
Theorem on_demand_lob_is_deferred tableID p c ct :
  wf_pending p = true -> in_intN 32 tableID -> lc_reject c = false ->
  let q := at_position (lc_curRow c) (lc_curCol c) p in
  decodes (readValueInternal ct (Some c)) (enc_pending tableID p) (VPendingLob q, Some (lc_append q c)).
Proof. apply decodes_pending. Qed.

Definition sample_pending : pendingLob := mkPendingLob ValueTypeBlob 42 (Some [z2b 9]) 0 100000 0 0.

Lemma on_demand_lob_is_deferred_witness :
  decodes (readValueInternal None (Some (mkLobCollector [] false 3 1))) (enc_pending 5 sample_pending)
    (VPendingLob (mkPendingLob ValueTypeBlob 42 (Some [z2b 9]) 0 100000 3 1),
     Some (mkLobCollector [mkPendingLob ValueTypeBlob 42 (Some [z2b 9]) 0 100000 3 1] false 3 1)).
Proof.
  apply (on_demand_lob_is_deferred 5 sample_pending (mkLobCollector [] false 3 1) None);
    [vm_compute; reflexivity|unfold in_intN; lia|reflexivity].
Defined.

(** An on-demand LOB inside an ARRAY is refused, whatever precedes it and
    whatever the collector: the error matches both [ErrUnsupportedType] and the marker
    by which row readers know that the batch was left half read. *)
Theorem nested_on_demand_lob_is_refused ws n tableID p ct lc t suf :
  forallb wf_value ws = true -> wf_pending p = true -> in_intN 32 tableID ->
  zlen ws < n <= maxWireCollectionElements -> tr_r t = true ->
  input t = enc_int32 ValueTypeArray ++ enc_int32 n ++ flat_map enc_value ws ++ enc_pending tableID p ++ suf ->
  exists e t', readValueInternal ct lc t = (Err e, t') /\
    errors_Is e ErrUnsupportedType = true /\ errors_Is e errNestedOnDemandLOB = true.
Proof.
  intros Hws Hp Ht Hn Hr Hin. pose proof (zlen_nonneg ws).
  assert (n <= 1048576) by (change 1048576 with maxWireCollectionElements; lia).
  unfold readValueInternal, fueled.
  assert (exists f, length (input t) = S f) as [f Hf].
  { rewrite Hin, length_app, length_enc_int32. by eexists. }
  rewrite Hf. cbn [readValueInternal_fuel].
  erewrite bind_Ok; [|apply wrapf_Ok, (decodes_ReadInt32 ValueTypeArray); [by vm_compute|done|exact Hin]].
  change (readTyped _ _ _ _) with (keeping lc (readArrayValue (readValueInternal_fuel (S f)) ct)).
  set (t1 := set_in _ t).
  enough (exists e t', readArrayValue (readValueInternal_fuel (S f)) ct t1 = (Err e, t') /\
    errors_Is e ErrUnsupportedType = true /\ errors_Is e errNestedOnDemandLOB = true) as (e & t' & He & Hs).
  { exists e, t'. split; [|done]. unfold keeping. by apply bind_Err. }
  unfold readArrayValue.
  erewrite bind_Ok; [|apply wrapf_Ok, (decodes_ReadInt32 n); [unfold in_intN; lia|done|reflexivity]].
  replace (n <? 0) with false by lia. replace (maxWireCollectionElements <? n) with false by lia.
  erewrite bind_Ok; [|reflexivity]. replace (n =? 0) with false by lia.
  set (et := match ct with Some ti => ExtTypeInfo ti | None => None end).
  destruct (nested_lob_rejected tableID p f et (set_in (enc_pending tableID p ++ suf) t) suf) as (t' & He);
    [done|done|done|done|].
  do 2 eexists. split.
  - apply bind_Err. eapply (for_range_stops _ _ _ ws); [unfold zlen in *; lia| |done|reflexivity|].
    + intros w j Hw. eapply decodes_readElement; [|apply meaning_has_text].
      apply decodes_value_fuel; [rewrite forallb_forall in Hws; by apply Hws, list_elem_of_In|].
      apply (length_flat_map_elem enc_value) in Hw. rewrite Hin, !length_app, !length_enc_int32 in Hf. lia.
    + unfold readElement. apply bind_Err. rewrite wrapf_run. unfold t1. rewrite !set_in_set_in, He. reflexivity.
  - split; reflexivity.
Qed.

Lemma nested_on_demand_lob_is_refused_witness :
  exists e t', readValueInternal None None
    (stream (enc_int32 ValueTypeArray ++ enc_int32 3 ++ flat_map enc_value [WireInteger 1]
             ++ enc_pending 5 sample_pending ++ [])) = (Err e, t') /\
    errors_Is e ErrUnsupportedType = true /\ errors_Is e errNestedOnDemandLOB = true.
Proof.
  apply (nested_on_demand_lob_is_refused [WireInteger 1] 3 5 sample_pending None None _ []);
    [reflexivity|reflexivity|unfold in_intN; lia|vm_compute; split; congruence|reflexivity|reflexivity].
Defined.

(** An inline CLOB of characters outside the surrogate range decodes to
    the UTF-8 text of those characters, in order: the rune list of the result is the
    list of characters sent. *)
Theorem inline_clob_text cs :
  zlen cs <= maxInlineClobChars ->
  Forall (fun c => 0 <= c <= 0xFFFF /\ ~ (0xD800 <= c <= 0xDFFF)) cs ->
  exists s, decodes (ReadValue None) (enc_value (WireClob cs)) (VString s) /\ runes s = cs.
Proof.
  intros Hl Hc. exists (utf8_encode cs). split.
  - eapply decodes_bind_ret; [apply decodes_value|done]. cbn [wf_value].
    apply andb_true_iff. split; [lia|]. apply forallb_forall. intros c Hin.
    rewrite List.Forall_forall in Hc. specialize (Hc c Hin). unfold between. lia.
  - apply runes_utf8_encode. eapply Forall_impl; [exact Hc|]. intros c Hr. cbv beta in Hr.
    unfold valid_rune, MaxRune. lia.
Qed.

Lemma inline_clob_text_witness :
  exists s, decodes (ReadValue None) (enc_value (WireClob [0x41; 0x10D; 0x20AC])) (VString s) /\
            runes s = [0x41; 0x10D; 0x20AC].
Proof. apply inline_clob_text; [vm_compute; discriminate|repeat constructor; lia]. Defined.

Lemma encode_rune_surrogate r : 0xD800 <= r <= 0xDFFF -> encode_rune r = encode_rune 0xFFFD.
Proof.
  intros Hr. unfold encode_rune. replace ((0 <=? r) && (r <=? 0x7F)) with false by lia.
  replace ((0 <=? r) && (r <=? 0x7FF)) with false by lia.
  assert (valid_rune r = false) as -> by (unfold valid_rune, MaxRune; lia). reflexivity.
Qed.

(** In an inline CLOB every surrogate becomes U+FFFD, the two halves
    of a well-formed pair too: a supplementary character, which H2 sends as such a
    pair, is decoded to two replacement characters and its text is lost, where
    [ReadString] combines the pair. *)
Theorem inline_clob_loses_supplementary hi lo :
  0xD800 <= hi <= 0xDBFF -> 0xDC00 <= lo <= 0xDFFF ->
  decodes (ReadValue None) (enc_value (WireClob [hi; lo])) (VString (utf8_encode [0xFFFD; 0xFFFD])) /\
  utf16Decode [hi; lo] = encode_rune (0x10000 + (hi - 0xD800) * 0x400 + (lo - 0xDC00)).
Proof.
  intros Hh Hl. split.
  - replace (utf8_encode [0xFFFD; 0xFFFD]) with (utf8_encode [hi; lo]).
    2:{ unfold utf8_encode. cbn [flat_map]. by rewrite (encode_rune_surrogate hi), (encode_rune_surrogate lo) by lia. }
    eapply decodes_bind_ret; [apply decodes_value|done]. cbn [wf_value forallb].
    unfold between. apply andb_true_iff. split; [by vm_compute|lia].
  - cbn [utf16Decode]. replace ((0xD800 <=? hi) && (hi <=? 0xDBFF)) with true by lia.
    replace ((0xDC00 <=? lo) && (lo <=? 0xDFFF)) with true by lia.
    rewrite app_nil_r. f_equal. rewrite Z.shiftl_mul_pow2 by lia. lia.
Qed.

Lemma inline_clob_loses_supplementary_witness :
  decodes (ReadValue None) (enc_value (WireClob [0xD83D; 0xDE00])) (VString (utf8_encode [0xFFFD; 0xFFFD])).
Proof. apply (inline_clob_loses_supplementary 0xD83D 0xDE00); lia. Defined.

(** An interval keeps its sign in text exactly when its leading field
    is not zero: with leading field 0 the negative and the positive interval of the
    server decode to the same text, so INTERVAL '-0.5' SECOND reads as '0.5'. *)
Theorem interval_sign_lost_at_zero o r :
  0 <= o <= 12 -> in_intN 64 r ->
  exists text, decodes (ReadValue None) (enc_value (WireInterval true o 0 r)) (VString text) /\
               decodes (ReadValue None) (enc_value (WireInterval false o 0 r)) (VString text) /\
               exists rest, text = lit "INTERVAL '0" ++ rest.
Proof.
  intros Ho Hr. set (q := intervalQualifier o).
  exists (formatInterval (iq_name q) 0 (if 5 <=? o then r else 0)).
  assert (forall neg, wf_value (WireInterval neg o 0 r) = true) as Hwf
    by (intros; cbn [wf_value]; unfold between, fits; unfold in_intN in Hr; lia).
  split_and!; [eapply decodes_bind_ret; [by apply decodes_value|done]..|].
  unfold formatInterval. change (0 <? 0) with false. cbv iota zeta. change (FormatInt 0) with (lit "0").
  repeat case_decide; eexists; reflexivity.
Qed.

Lemma interval_sign_lost_at_zero_witness :
  exists text, decodes (ReadValue None) (enc_value (WireInterval true 5 0 500000000)) (VString text) /\
               decodes (ReadValue None) (enc_value (WireInterval false 5 0 500000000)) (VString text) /\
               exists rest, text = lit "INTERVAL '0" ++ rest.
Proof. apply interval_sign_lost_at_zero; [lia|unfold in_intN; lia]. Defined.
