(* ===== verification/SqlValue.v ===== *)
(** * The SQL values a server sends, and what the driver makes of them

    The grammar of values of protocol 21 stated without the driver's own code: a
    [sql_value] has the fields a value has in SQL (year, month and day; the fields of
    an interval; the groups of a UUID; the characters of a text), [enc_sql] is the
    byte sequence the protocol gives it, with type codes, ordinals and packed forms
    written out, and [go_value] the Go value it stands for: an instant counted by
    a calendar of its own, a text composed from the fields. *)

From Stdlib Require Import Strings.Byte.
From S2P Require Import Prelude.
From S2P Require Import GoText.
From S2P Require Import Protocol.
From S2P Require Import Transfer.
From S2P Require Import TypeInfo.
From S2P Require Import Metadata.
From S2P Require Import DecFloat.
From S2P Require Import GoTime.
From S2P Require Import GoFloat.
From S2P Require Import ValueText.
From S2P Require Import Value.
From S2P Require Import ValueRead.
From S2P Require Import ValueWire.

(** ** The values *)

Inductive text_type := Varchar | VarcharIgnoreCase | Char.
Inductive binary_type := Varbinary | Binary | JavaObject | Geometry | Json.

(** The thirteen kinds of interval, with the fields each has. *)
Inductive interval :=
| IYear (y : Z)
| IMonth (m : Z)
| IDay (d : Z)
| IHour (h : Z)
| IMinute (mi : Z)
| ISecond (s ns : Z)
| IYearToMonth (y m : Z)
| IDayToHour (d h : Z)
| IDayToMinute (d h mi : Z)
| IDayToSecond (d h mi s ns : Z)
| IHourToMinute (h mi : Z)
| IHourToSecond (h mi s ns : Z)
| IMinuteToSecond (mi s ns : Z).

Inductive decimal :=
| DNaN
| DInfinity (neg : bool)
| DNumber (unscaled scale : Z).

Inductive sql_value :=
| SqlNull
| SqlBoolean (b : bool)
| SqlTinyint (z : Z)
| SqlSmallint (z : Z)
| SqlInteger (z : Z)
| SqlBigint (z : Z)
| SqlReal (bits : Z)
| SqlDouble (bits : Z)
| SqlNumeric (chars : list Z)
| SqlText (t : text_type) (chars : list Z)
| SqlDecfloat (d : decimal)
| SqlBinary (t : binary_type) (b : list byte)
| SqlDate (y m d : Z)
| SqlTime (h mi s ns : Z)
| SqlTimeTZ (h mi s ns off : Z)
| SqlTimestamp (y m d h mi s ns : Z)
| SqlTimestampTZ (y m d h mi s ns off : Z)
| SqlUUID (g1 g2 g3 g4 g5 : Z)
| SqlEnum (ordinal : Z)
| SqlInterval (neg : bool) (i : interval)
| SqlBlob (data : list byte)
| SqlClob (units : list Z)
| SqlArray (elems : list sql_value)
| SqlRow (fields : list sql_value).

(** ** The bytes *)

Definition text_code (t : text_type) : Z :=
  match t with Varchar => 13 | VarcharIgnoreCase => 14 | Char => 21 end.
Definition binary_code (t : binary_type) : Z :=
  match t with Varbinary => 12 | JavaObject => 19 | Geometry => 22 | Json => 28 | Binary => 30 end.

(** A text: the number of its UTF-16 code units, then the units. *)
Definition text_units (chars : list Z) : list Z := flat_map rune_units chars.
Definition enc_text (chars : list Z) : list byte :=
  enc_int32 (zlen (text_units chars)) ++ flat_map (be_enc 2) (text_units chars).

Definition packed_date (y m d : Z) : Z := y * 512 + m * 32 + d.
Definition nano_of_day (h mi s ns : Z) : Z := ((h * 60 + mi) * 60 + s) * 1000000000 + ns.

(** The ordinal of an interval type, the leading field, and the fields after it as
    one number in the unit of the last one; seconds are counted in nanoseconds. *)
Definition interval_fields (i : interval) : Z * Z * option Z :=
  match i with
  | IYear y => (0, y, None)
  | IMonth m => (1, m, None)
  | IDay d => (2, d, None)
  | IHour h => (3, h, None)
  | IMinute mi => (4, mi, None)
  | ISecond s ns => (5, s, Some ns)
  | IYearToMonth y m => (6, y, Some m)
  | IDayToHour d h => (7, d, Some h)
  | IDayToMinute d h mi => (8, d, Some (h * 60 + mi))
  | IDayToSecond d h mi s ns => (9, d, Some (nano_of_day h mi s ns))
  | IHourToMinute h mi => (10, h, Some mi)
  | IHourToSecond h mi s ns => (11, h, Some (nano_of_day 0 mi s ns))
  | IMinuteToSecond mi s ns => (12, mi, Some (nano_of_day 0 0 s ns))
  end.

Definition enc_interval (neg : bool) (i : interval) : list byte :=
  let '(ordinal, leading, rest) := interval_fields i in
  [z2b (if neg then 255 - ordinal else ordinal)] ++ enc_int64 leading ++ from_option enc_int64 [] rest.

(** A decimal number in the notation of [BigDecimal.toString]: plain when the scale
    is not negative and the number is not below 10^-6, with an exponent otherwise. *)
Definition decimal_text (d : decimal) : gostring :=
  match d with
  | DNaN => lit "NaN"
  | DInfinity neg => if neg then lit "-Infinity" else lit "Infinity"
  | DNumber u sc =>
      let ds := digits 10 (Z.abs u) in
      let p := zlen ds in
      let exponent := p - 1 - sc in
      let sign := u <? 0 in
      if (0 <=? sc) && (-6 <=? exponent) then
        if sc =? 0 then number_text sign ds None None
        else if sc <? p then
          number_text sign (take (Z.to_nat (p - sc)) ds) (Some (drop (Z.to_nat (p - sc)) ds)) None
        else number_text sign (lit "0") (Some (Repeat "0"%byte (sc - p) ++ ds)) None
      else if 1 <? p then number_text sign (take 1 ds) (Some (drop 1 ds)) (Some exponent)
      else number_text sign ds None (Some exponent)
  end.

Fixpoint enc_sql (v : sql_value) : list byte :=
  match v with
  | SqlNull => enc_int32 0
  | SqlBoolean b => enc_int32 1 ++ [z2b (if b then 1 else 0)]
  | SqlTinyint z => enc_int32 2 ++ [z2b z]
  | SqlSmallint z => enc_int32 3 ++ enc_int16 z
  | SqlInteger z => enc_int32 4 ++ enc_int32 z
  | SqlBigint z => enc_int32 5 ++ enc_int64 z
  | SqlNumeric cs => enc_int32 6 ++ enc_text cs
  | SqlDouble bits => enc_int32 7 ++ enc_int64 bits
  | SqlReal bits => enc_int32 8 ++ enc_int32 bits
  | SqlTime h mi s ns => enc_int32 9 ++ enc_int64 (nano_of_day h mi s ns)
  | SqlDate y m d => enc_int32 10 ++ enc_int64 (packed_date y m d)
  | SqlTimestamp y m d h mi s ns =>
      enc_int32 11 ++ enc_int64 (packed_date y m d) ++ enc_int64 (nano_of_day h mi s ns)
  | SqlText t cs => enc_int32 (text_code t) ++ enc_text cs
  | SqlBinary t b => enc_int32 (binary_code t) ++ enc_int32 (zlen b) ++ b
  | SqlBlob data => enc_int32 15 ++ enc_int64 (zlen data) ++ data ++ enc_int32 0x1234
  | SqlClob us => enc_int32 16 ++ enc_int64 (zlen us) ++ flat_map enc_char us ++ enc_int32 0x1234
  | SqlArray es => enc_int32 17 ++ enc_int32 (zlen es) ++ flat_map enc_sql es
  | SqlUUID g1 g2 g3 g4 g5 =>
      enc_int32 20 ++ enc_int64 (g1 * 2 ^ 32 + g2 * 2 ^ 16 + g3) ++ enc_int64 (g4 * 2 ^ 48 + g5)
  | SqlTimestampTZ y m d h mi s ns off =>
      enc_int32 24 ++ enc_int64 (packed_date y m d) ++ enc_int64 (nano_of_day h mi s ns) ++ enc_int32 off
  | SqlEnum o => enc_int32 25 ++ enc_int32 o
  | SqlInterval neg i => enc_int32 26 ++ enc_interval neg i
  | SqlRow fs => enc_int32 27 ++ enc_int32 (zlen fs) ++ flat_map enc_sql fs
  | SqlTimeTZ h mi s ns off => enc_int32 29 ++ enc_int64 (nano_of_day h mi s ns) ++ enc_int32 off
  | SqlDecfloat d => enc_int32 31 ++ enc_string (decimal_text d)
  end.

(** ** The Go values *)

(** Days from 1970-01-01: the days of the years before, leap days counted, the days
    of the months before, and the day of the month. *)
Definition days_before_year (y : Z) : Z := 365 * (y - 1) + (y - 1) / 4 - (y - 1) / 100 + (y - 1) / 400.
Definition days_before_month (y m : Z) : Z :=
  foldr Z.add 0 (map (days_in_month y) (seqZ 1 (m - 1))).
Definition unix_day (y m d : Z) : Z :=
  days_before_year y + days_before_month y m + d - (days_before_year 1970 + 1).

(** The instant at which clocks of the zone show this date and time. *)
Definition instant (y m d h mi s ns : Z) (zone : gostring) (off : Z) : Value :=
  VTime (mkTime (unix_day y m d * 86400 + (h * 60 + mi) * 60 + s - off) ns zone off).

(** Two digits; a fraction of a second to the nanosecond, without trailing zeros. *)
Definition dd (z : Z) : gostring := fmt_0d 2 z.
Definition fraction (ns : Z) : gostring :=
  if ns =? 0 then [] else lit "." ++ TrimRight1 (fmt_0d 9 ns) "0"%byte.

(** What stands between the quotes, and after them. *)
Definition interval_body (i : interval) : gostring * gostring :=
  match i with
  | IYear y => (FormatInt y, lit "YEAR")
  | IMonth m => (FormatInt m, lit "MONTH")
  | IDay d => (FormatInt d, lit "DAY")
  | IHour h => (FormatInt h, lit "HOUR")
  | IMinute mi => (FormatInt mi, lit "MINUTE")
  | ISecond s ns => (FormatInt s ++ fraction ns, lit "SECOND")
  | IYearToMonth y m => (FormatInt y ++ lit "-" ++ FormatInt m, lit "YEAR TO MONTH")
  | IDayToHour d h => (FormatInt d ++ lit " " ++ dd h, lit "DAY TO HOUR")
  | IDayToMinute d h mi => (FormatInt d ++ lit " " ++ dd h ++ lit ":" ++ dd mi, lit "DAY TO MINUTE")
  | IDayToSecond d h mi s ns =>
      (FormatInt d ++ lit " " ++ dd h ++ lit ":" ++ dd mi ++ lit ":" ++ dd s ++ fraction ns, lit "DAY TO SECOND")
  | IHourToMinute h mi => (FormatInt h ++ lit ":" ++ dd mi, lit "HOUR TO MINUTE")
  | IHourToSecond h mi s ns =>
      (FormatInt h ++ lit ":" ++ dd mi ++ lit ":" ++ dd s ++ fraction ns, lit "HOUR TO SECOND")
  | IMinuteToSecond mi s ns => (FormatInt mi ++ lit ":" ++ dd s ++ fraction ns, lit "MINUTE TO SECOND")
  end.

Definition interval_text (neg : bool) (i : interval) : gostring :=
  lit "INTERVAL '" ++ (if neg then lit "-" else []) ++ (interval_body i).1 ++ lit "' " ++ (interval_body i).2.

Definition uuid_text (g1 g2 g3 g4 g5 : Z) : gostring :=
  fmt_0x 8 g1 ++ lit "-" ++ fmt_0x 4 g2 ++ lit "-" ++ fmt_0x 4 g3 ++ lit "-" ++ fmt_0x 4 g4 ++ lit "-" ++ fmt_0x 12 g5.

(** A code unit that is half of a surrogate pair is no character. *)
Definition is_surrogate (u : Z) : bool := between 0xD800 u 0xDFFF.
Definition unit_char (u : Z) : Z := if is_surrogate u then 0xFFFD else u.

Fixpoint go_value (v : sql_value) : Value :=
  match v with
  | SqlNull => VNil
  | SqlBoolean b => VBool b
  | SqlTinyint z | SqlSmallint z | SqlInteger z | SqlBigint z | SqlEnum z => VInt64 z
  | SqlReal bits => VFloat64 (float64_of_float32 bits)
  | SqlDouble bits => VFloat64 bits
  | SqlNumeric cs | SqlText _ cs => VString (utf8_encode cs)
  | SqlDecfloat d => VString (decimal_text d)
  | SqlBinary _ b | SqlBlob b => VBytes (Some b)
  | SqlDate y m d => instant y m d 0 0 0 0 UTC 0
  | SqlTime h mi s ns => instant 0 1 1 h mi s ns UTC 0
  | SqlTimeTZ h mi s ns off => instant 0 1 1 h mi s ns [] off
  | SqlTimestamp y m d h mi s ns => instant y m d h mi s ns UTC 0
  | SqlTimestampTZ y m d h mi s ns off => instant y m d h mi s ns [] off
  | SqlUUID g1 g2 g3 g4 g5 => VString (uuid_text g1 g2 g3 g4 g5)
  | SqlInterval neg i => VString (interval_text neg i)
  | SqlClob us => VString (utf8_encode (map unit_char us))
  | SqlArray es => VString (lit "[" ++ Join (lit ",") (map (fun e => text_of (go_value e)) es) ++ lit "]")
  | SqlRow fs => VString (lit "(" ++ Join (lit ",") (map (fun f => text_of (go_value f)) fs) ++ lit ")")
  end.

(** ** Well-formed values *)

(** Dates of the calendar with years of up to nine digits, as H2 has them. *)
Definition wf_date (y m d : Z) : bool := valid_date y m d && (Z.abs y <=? 1000000000).
Definition below (n z : Z) : bool := (0 <=? z) && (z <? n).
Definition wf_clock (h mi s ns : Z) : bool := below 24 h && below 60 mi && below 60 s && below 1000000000 ns.
Definition wf_text (cs : list Z) : bool :=
  forallb valid_rune cs && (zlen (text_units cs) <=? MaxWireLength / 2).

(** Fields in range; the sign is kept with a leading field that is not 0. *)
Definition wf_interval (neg : bool) (i : interval) : bool :=
  below (10 ^ 18) (interval_fields i).1.2 && negb (neg && ((interval_fields i).1.2 =? 0)) &&
  match i with
  | IYear _ | IMonth _ | IDay _ | IHour _ | IMinute _ => true
  | ISecond _ ns => below 1000000000 ns
  | IYearToMonth _ m => below 12 m
  | IDayToHour _ h => below 24 h
  | IDayToMinute _ h mi => wf_clock h mi 0 0
  | IDayToSecond _ h mi s ns => wf_clock h mi s ns
  | IHourToMinute _ mi => below 60 mi
  | IHourToSecond _ mi s ns => wf_clock 0 mi s ns
  | IMinuteToSecond _ s ns => wf_clock 0 0 s ns
  end.

(** No code unit of a first half is followed by one of a second half. *)
Fixpoint no_pair (us : list Z) : bool :=
  match us with
  | hi :: ((lo :: _) as rest) => negb (between 0xD800 hi 0xDBFF && between 0xDC00 lo 0xDFFF) && no_pair rest
  | _ => true
  end.

Definition wf_decimal (d : decimal) : bool :=
  match d with
  | DNumber u sc => fits 32 sc && (zlen (digits 10 (Z.abs u)) <=? 2 ^ 31)
  | _ => true
  end && fits_string (decimal_text d).

Fixpoint wf_sql (v : sql_value) : bool :=
  match v with
  | SqlNull | SqlBoolean _ => true
  | SqlTinyint z => fits 8 z
  | SqlSmallint z => fits 16 z
  | SqlInteger z | SqlEnum z => fits 32 z
  | SqlBigint z => fits 64 z
  | SqlReal bits => below (2 ^ 32) bits
  | SqlDouble bits => below (2 ^ 64) bits
  | SqlNumeric cs | SqlText _ cs => wf_text cs
  | SqlDecfloat d => wf_decimal d
  | SqlBinary _ b | SqlBlob b => zlen b <=? MaxWireLength
  | SqlDate y m d => wf_date y m d
  | SqlTime h mi s ns => wf_clock h mi s ns
  | SqlTimeTZ h mi s ns off => wf_clock h mi s ns && fits 32 off
  | SqlTimestamp y m d h mi s ns => wf_date y m d && wf_clock h mi s ns
  | SqlTimestampTZ y m d h mi s ns off => wf_date y m d && wf_clock h mi s ns && fits 32 off
  | SqlUUID g1 g2 g3 g4 g5 =>
      below (2 ^ 32) g1 && below (2 ^ 16) g2 && below (2 ^ 16) g3 && below (2 ^ 16) g4 && below (2 ^ 48) g5
  | SqlInterval neg i => wf_interval neg i
  | SqlClob us => (zlen us <=? MaxWireLength) && forallb (fun u => between 0 u 0xFFFF) us && no_pair us
  | SqlArray es | SqlRow es => (zlen es <=? maxWireCollectionElements) && forallb wf_sql es
  end.

(** ** The same values in the driver's terms *)

Definition wire_of_decimal (d : decimal) : DecFloat :=
  match d with
  | DNaN => mkDecFloat decNaN None 0
  | DInfinity neg => mkDecFloat (if neg then decNegInf else decPosInf) None 0
  | DNumber u sc => mkDecFloat decFinite (Some u) sc
  end.

Fixpoint wire_of (v : sql_value) : wire_value :=
  match v with
  | SqlNull => WireNull
  | SqlBoolean b => WireBoolean b
  | SqlTinyint z => WireTinyint z
  | SqlSmallint z => WireSmallint z
  | SqlInteger z => WireInteger z
  | SqlBigint z => WireBigint z
  | SqlReal bits => WireReal bits
  | SqlDouble bits => WireDouble bits
  | SqlNumeric cs => WireNumeric (Some (utf8_encode cs))
  | SqlText t cs => WireText (text_code t) (Some (utf8_encode cs))
  | SqlDecfloat d => WireDecfloat (wire_of_decimal d)
  | SqlBinary t b => WireBinary (binary_code t) (Some b)
  | SqlDate y m d => WireDate (packed_date y m d)
  | SqlTime h mi s ns => WireTime (nano_of_day h mi s ns)
  | SqlTimeTZ h mi s ns off => WireTimeTZ (nano_of_day h mi s ns) off
  | SqlTimestamp y m d h mi s ns => WireTimestamp (packed_date y m d) (nano_of_day h mi s ns)
  | SqlTimestampTZ y m d h mi s ns off =>
      WireTimestampTZ (packed_date y m d) (nano_of_day h mi s ns) off
  | SqlUUID g1 g2 g3 g4 g5 => WireUUID (int64 (g1 * 2 ^ 32 + g2 * 2 ^ 16 + g3)) (int64 (g4 * 2 ^ 48 + g5))
  | SqlEnum o => WireEnum o
  | SqlInterval neg i =>
      let '(o, l, r) := interval_fields i in WireInterval neg o l (default 0 r)
  | SqlBlob data => WireBlob data
  | SqlClob us => WireClob us
  | SqlArray es => WireArray (map wire_of es)
  | SqlRow fs => WireRow (map wire_of fs)
  end.

(** *** Dates and times *)

(** The days of whole years, by eras of 400 years and counted one by one. *)
Lemma era_years y :
  y / 400 * 146097 + day_of_era (y mod 400) 0 = days_before_year (y + 1).
Proof.
  unfold days_before_year, day_of_era. replace (y + 1 - 1) with y by lia.
  set (e := y / 400). set (r := y mod 400).
  assert (Hy : y = e * 400 + r) by (pose proof (Z.div_mod y 400 ltac:(lia)); unfold e, r; lia).
  assert (y / 4 = e * 100 + r / 4) as ->
    by (rewrite Hy; replace (e * 400 + r) with (r + e * 100 * 4) by lia; rewrite Z.div_add; lia).
  assert (y / 100 = e * 4 + r / 100) as ->
    by (rewrite Hy; replace (e * 400 + r) with (r + e * 4 * 100) by lia; rewrite Z.div_add; lia).
  lia.
Qed.

Lemma div_succ y n : 0 < n -> y / n = (y - 1) / n + (if y mod n =? 0 then 1 else 0).
Proof. intros Hn. destruct (y mod n =? 0) eqn:E; Z.div_mod_to_equations; nia. Qed.

Definition leap_day (y : Z) : Z := if is_leap y then 1 else 0.

Lemma days_of_year y : days_before_year (y + 1) = days_before_year y + 365 + leap_day y.
Proof.
  unfold days_before_year, leap_day, is_leap. replace (y + 1 - 1) with y by lia.
  rewrite (div_succ y 4), (div_succ y 100), (div_succ y 400) by lia.
  assert (y mod 400 = 0 -> y mod 100 = 0) by (Z.div_mod_to_equations; lia).
  assert (y mod 100 = 0 -> y mod 4 = 0) by (Z.div_mod_to_equations; lia).
  destruct (y mod 4 =? 0) eqn:E4, (y mod 100 =? 0) eqn:E100, (y mod 400 =? 0) eqn:E400; cbn [andb orb negb]; lia.
Qed.

Lemma february y : days_in_month y 2 = 28 + leap_day y.
Proof. unfold days_in_month, leap_day. cbn. by destruct (is_leap y). Qed.

Lemma unix_day_days_from_civil y m d : 1 <= m <= 12 -> unix_day y m d = days_from_civil y m d.
Proof.
  intros Hm. unfold days_from_civil. cbv zeta.
  assert (forall k doy, day_of_era k doy = day_of_era k 0 + doy) as Hdoe by (intros; unfold day_of_era; lia).
  rewrite Hdoe, Z.add_assoc, era_years.
  assert (m = 1 \/ m = 2 \/ m = 3 \/ m = 4 \/ m = 5 \/ m = 6 \/ m = 7 \/ m = 8 \/ m = 9 \/ m = 10 \/ m = 11 \/
    m = 12) as Hc by lia.
  unfold unix_day, days_before_month. change (days_before_year 1970) with 719162.
  repeat destruct Hc as [->|Hc]; try subst m;
    (match goal with |- context [seqZ ?a ?b] => let l := eval vm_compute in (seqZ a b) in change (seqZ a b) with l end);
    cbn [map foldr]; rewrite ?february, ?days_of_year;
    repeat match goal with |- context [days_in_month y ?k] => let v := eval compute in (days_in_month y k) in change (days_in_month y k) with v end;
    unfold day_of_year;
    repeat match goal with |- context [?a / 5] => let v := eval vm_compute in (a / 5) in change (a / 5) with v end.
  all: pose proof (days_of_year (y - 1)) as Hy; rewrite Z.sub_add in Hy; cbn; lia.
Qed.

Lemma wf_date_parts y m d :
  wf_date y m d = true ->
  1 <= m <= 12 /\ fits 64 (packed_date y m d) = true /\ unpackDateValue (packed_date y m d) = (y, m, d).
Proof.
  unfold wf_date, valid_date. intros H.
  assert (days_in_month y m <= 31) by (unfold days_in_month; repeat case_match; lia).
  assert (1 <= m <= 12 /\ 1 <= d <= 31 /\ - 1000000000 <= y <= 1000000000) as (Hm & Hd & Hy) by lia.
  split_and!; [lia..|unfold packed_date, fits; lia|].
  rewrite <- (unpack_pack y m d) by (unfold year_fits; lia).
  by rewrite packDateValue_arith by (unfold year_fits; lia).
Qed.

Lemma wf_clock_parts h mi s ns :
  wf_clock h mi s ns = true ->
  (0 <= h < 24 /\ 0 <= mi < 60 /\ 0 <= s < 60 /\ 0 <= ns < 1000000000) /\
  fits 64 (nano_of_day h mi s ns) = true /\ split_nanos (nano_of_day h mi s ns) = (h, mi, s, ns).
Proof.
  unfold wf_clock, below. intros H. split; [lia|]. split; [unfold nano_of_day, fits; lia|].
  destruct (split_nanos_parts (nano_of_day h mi s ns)) as (h' & mi' & s' & ns' & -> & Hr);
    [unfold nano_of_day; lia|].
  unfold nano_of_day in Hr. assert (h' = h /\ mi' = mi /\ s' = s /\ ns' = ns) as (-> & -> & -> & ->) by lia. done.
Qed.

Lemma instant_Date y m d h mi s ns zone off :
  1 <= m <= 12 -> 0 <= h < 24 /\ 0 <= mi < 60 /\ 0 <= s < 60 /\ 0 <= ns < 1000000000 ->
  VTime (time_Date y m d h mi s ns zone off) = instant y m d h mi s ns zone off.
Proof.
  intros Hm (Hh & Hmi & Hs & Hns). unfold instant. rewrite time_Date_in_range by done.
  rewrite unix_day_days_from_civil by done. do 2 f_equal. unfold secondsPerDay. lia.
Qed.

(** *** Texts *)

Lemma wf_text_parts cs :
  wf_text cs = true ->
  fits_string (utf8_encode cs) = true /\ enc_string (utf8_encode cs) = enc_text cs /\
  sanitize (utf8_encode cs) = utf8_encode cs.
Proof.
  unfold wf_text. intros H. apply andb_true_iff in H as [Hv Hl].
  assert (Forall (fun r => valid_rune r = true) cs) as Hf
    by (apply Forall_forall; intros r Hr; rewrite forallb_forall in Hv; by apply Hv, list_elem_of_In).
  unfold fits_string, enc_string, sanitize, enc_text, text_units in *.
  by rewrite utf16Encode_units, runes_utf8_encode.
Qed.

Lemma decimal_text_String d : DecFloat_String (wire_of_decimal d) = decimal_text d.
Proof.
  destruct d as [|[]|u sc]; [done..|]. rewrite String_number_text by done. cbn [wire_of_decimal scale decimal_text].
  unfold plain_notation, adjusted, dec_digits, dec_neg. cbn [unscaled scale default from_option id]. cbv zeta.
  destruct (_ && _); [done|]. destruct (1 <? _) eqn:E; [done|]. f_equal.
  apply take_ge. unfold zlen in E. lia.
Qed.

Lemma wf_decimal_parts d : wf_decimal d = true -> wf_value (WireDecfloat (wire_of_decimal d)) = true.
Proof.
  unfold wf_decimal. intros H. apply andb_true_iff in H as [Hd Hf]. cbn [wf_value].
  rewrite decimal_text_String, Hf, andb_true_r. by destruct d as [|[]|u sc].
Qed.

Lemma encode_unit_char u : 0 <= u <= 0xFFFF -> encode_rune u = encode_rune (unit_char u).
Proof.
  intros Hu. unfold unit_char, is_surrogate. destruct (between _ _ _) eqn:E; [|done].
  apply encode_rune_surrogate. unfold between in E. lia.
Qed.

Lemma utf8_encode_units us :
  forallb (fun u => between 0 u 0xFFFF) us = true -> utf8_encode us = utf8_encode (map unit_char us).
Proof.
  unfold utf8_encode. induction us as [|u us IH]; [done|]. cbn [forallb flat_map map]. intros H.
  apply andb_true_iff in H as [Hu Hus]. rewrite encode_unit_char, IH by (done || unfold between in Hu; lia). done.
Qed.

Lemma uuid_text_format g1 g2 g3 g4 g5 :
  wf_sql (SqlUUID g1 g2 g3 g4 g5) = true ->
  formatUUID (int64 (g1 * 2 ^ 32 + g2 * 2 ^ 16 + g3)) (int64 (g4 * 2 ^ 48 + g5)) = uuid_text g1 g2 g3 g4 g5.
Proof.
  cbn [wf_sql]. unfold below. intros H.
  assert (0 <= g1 < 2 ^ 32 /\ 0 <= g2 < 2 ^ 16 /\ 0 <= g3 < 2 ^ 16 /\ 0 <= g4 < 2 ^ 16 /\ 0 <= g5 < 2 ^ 48)
    as (H1 & H2 & H3 & H4 & H5) by lia. clear H.
  unfold formatUUID, uuid_text. rewrite uint_low48, !Z.shiftr_div_pow2 by lia.
  unfold uintN, intN. cbn -[Z.div Z.modulo fmt_0x app].
  repeat f_equal; Z.div_mod_to_equations; lia.
Qed.

(** *** Intervals *)

(** The sign and the leading field of [formatInterval]. *)
Lemma signed_leading (neg : bool) l :
  below (10 ^ 18) l = true -> negb (neg && (l =? 0)) = true ->
  let x := if neg then int64 (- l) else l in
  (if x <? 0 then lit "-" else []) = (if neg then lit "-" else []) /\
  (if x <? 0 then int64 (- x) else x) = l.
Proof.
  unfold below. intros Hl Hn. destruct neg; cbn [andb negb] in *; cbv zeta.
  - rewrite (intN_small 64 (- l)) by (unfold in_intN; lia). replace (- l <? 0) with true by lia.
    split; [done|]. rewrite intN_small by (unfold in_intN; lia). lia.
  - by replace (l <? 0) with false by lia.
Qed.

Lemma fraction_nanos ns : 0 <= ns -> formatIntervalNanos ns = fraction ns.
Proof. intros H. unfold formatIntervalNanos, fraction. by replace (ns <=? 0) with (ns =? 0) by lia. Qed.

Lemma interval_parts neg i :
  wf_interval neg i = true ->
  let '(o, l, r) := interval_fields i in
  wf_value (WireInterval neg o l (default 0 r)) = true /\
  enc_interval neg i = [z2b (if neg then 255 - o else o)] ++ enc_int64 l
                       ++ (if 5 <=? o then enc_int64 (default 0 r) else []) /\
  formatInterval (iq_name (intervalQualifier o)) (if neg then int64 (- l) else l)
    (if 5 <=? o then default 0 r else 0) = interval_text neg i.
Proof.
  unfold wf_interval. intros H. apply andb_true_iff in H as [H Hf]. apply andb_true_iff in H as [Hl Hn].
  pose proof (signed_leading neg _ Hl Hn) as [Hs Hx]. unfold below in Hl.
  destruct i; cbn [interval_fields fst snd] in *; unfold wf_clock, below in Hf;
    (split_and!; [cbn [wf_value]; unfold between, fits, nano_of_day; cbn [from_option default id] in *; lia|reflexivity|]);
    unfold formatInterval; rewrite Hs, Hx; unfold interval_text, interval_body, dd;
    cbn -[FormatInt fmt_0d app lit Z.quot Z.rem fraction formatIntervalNanos nano_of_day];
    rewrite <- ?fraction_nanos by lia;
    repeat (rewrite decide_False by discriminate); rewrite ?decide_True by done;
    rewrite ?app_nil_l, <- ?app_assoc; unfold nano_of_day, intervalNanosPerMinute, intervalNanosPerSecond;
    repeat f_equal; Z.to_euclidean_division_equations; lia.
Qed.

(** *** Every value *)

Definition sql_scalar (v : sql_value) : bool :=
  match v with
  | SqlArray _ | SqlRow _ => false
  | _ => true
  end.

Lemma sql_value_ind_nested (P : sql_value -> Prop)
  (Hs : forall v, sql_scalar v = true -> P v)
  (Ha : forall es, Forall P es -> P (SqlArray es)) (Hr : forall fs, Forall P fs -> P (SqlRow fs)) :
  forall v, P v.
Proof.
  fix IH 1. intros v.
  destruct v; try (by apply Hs); [apply Ha|apply Hr];
    match goal with l : list sql_value |- _ => induction l as [|x l IHl]; constructor; [apply IH|exact IHl] end.
Qed.

(** The driver's account of a value agrees with the grammar. *)
Record agrees (v : sql_value) : Prop := {
  agrees_wf : wf_value (wire_of v) = true;
  agrees_bytes : enc_value (wire_of v) = enc_sql v;
  agrees_meaning : value_meaning (wire_of v) = go_value v
}.

(** Compute the grammar's functions only. *)
Ltac sql_cbn :=
  cbn [wire_of wf_value enc_value value_meaning enc_sql go_value enc_ostring fits_ostring from_option
       fmap option_fmap option_map string_value].

Lemma scalar_agrees v : sql_scalar v = true -> wf_sql v = true -> agrees v.
Proof.
  intros Hs Hw. destruct v; try discriminate Hs; clear Hs; try (by split; [exact Hw|..]).
  - cbn [wf_sql] in Hw. apply wf_text_parts in Hw as (H1 & H2 & H3).
    split; sql_cbn; [done|by rewrite H2|by rewrite H3].
  - cbn [wf_sql] in Hw. apply wf_text_parts in Hw as (H1 & H2 & H3).
    split; sql_cbn; [rewrite H1; by destruct t|by rewrite H2|by rewrite H3].
  - cbn [wf_sql] in Hw. split; cbn [wire_of]; [by apply wf_decimal_parts|..]; sql_cbn; by rewrite decimal_text_String.
  - split; [|done..]. sql_cbn. cbn [wf_sql] in Hw. rewrite andb_true_iff. split; [by destruct t|exact Hw].
  - cbn [wf_sql] in Hw. apply wf_date_parts in Hw as (Hm & H1 & H2).
    split; sql_cbn; [done..|]. unfold dateValueToTime. rewrite H2. apply instant_Date; lia.
  - cbn [wf_sql] in Hw. apply wf_clock_parts in Hw as (Hr & H1 & H2).
    split; sql_cbn; [done..|]. unfold nanosOfDayToTime. rewrite H2. apply instant_Date; lia.
  - cbn [wf_sql] in Hw. split_wf Hw. apply wf_clock_parts in Hw as (Hr & H1 & H2).
    split; sql_cbn; [by rewrite H1|done|]. unfold nanosOfDayToTimeTZ. rewrite H2. apply instant_Date; lia.
  - cbn [wf_sql] in Hw. split_wf Hw. apply wf_date_parts in Hw as (Hm & H1 & H2).
    destruct (wf_clock_parts h mi s ns) as (Hr & H3 & H4); [done|].
    split; sql_cbn; [by rewrite H1|done|]. unfold timestampToTime. rewrite H2, H4. by apply instant_Date.
  - cbn [wf_sql] in Hw. split_wf Hw. apply wf_date_parts in Hw as (Hm & H1 & H2).
    destruct (wf_clock_parts h mi s ns) as (Hr & H3 & H4); [done|].
    split; sql_cbn; [by rewrite H1, H3|done|]. unfold timestampToTimeTZ. rewrite H2, H4. by apply instant_Date.
  - split; cbn [wire_of].
    + cbn [wf_value]. rewrite !fits_of_in_intN by (apply intN_range; lia). done.
    + cbn [enc_value enc_sql]. by rewrite !enc_int64_int64.
    + cbn [value_meaning go_value]. by rewrite uuid_text_format.
  - cbn [wf_sql] in Hw. apply interval_parts in Hw.
    assert (Hwire : wire_of (SqlInterval neg i) =
      let '(o, l, r) := interval_fields i in WireInterval neg o l (default 0 r)) by done.
    destruct (interval_fields i) as [[o l] r] eqn:E. destruct Hw as (H1 & H2 & H3).
    split; rewrite Hwire; [done|..].
    + cbn [enc_value enc_sql]. by rewrite H2.
    + cbn [value_meaning go_value]. by rewrite H3.
  - cbn [wf_sql] in Hw. split_wf Hw. split; sql_cbn; [|done|by rewrite utf8_encode_units].
    unfold maxInlineClobChars. by apply andb_true_iff.
Qed.

Lemma list_agrees vs :
  Forall (fun v => wf_sql v = true -> agrees v) vs -> forallb wf_sql vs = true ->
  forallb wf_value (map wire_of vs) = true /\
  flat_map enc_value (map wire_of vs) = flat_map enc_sql vs /\
  map (fun w => text_of (value_meaning w)) (map wire_of vs) = map (fun v => text_of (go_value v)) vs.
Proof.
  induction 1 as [|v vs Hv _ IH]; [done|]. cbn [forallb map flat_map]. intros H.
  apply andb_true_iff in H as [H1 H2]. destruct (Hv H1) as [Hw Hb Hm]. destruct (IH H2) as (-> & -> & ->).
  by rewrite Hw, Hb, Hm.
Qed.

Lemma zlen_map {A B} (f : A -> B) l : zlen (map f l) = zlen l.
Proof. unfold zlen. by rewrite length_map. Qed.

Lemma value_agrees v : wf_sql v = true -> agrees v.
Proof.
  induction v as [v Hs|es IH|fs IH] using sql_value_ind_nested; [by apply scalar_agrees|..];
    cbn [wf_sql]; intros Hw; split_wf Hw; destruct (list_agrees _ IH) as (H1 & H2 & H3); try done;
    split; cbn [wire_of wf_value enc_value value_meaning enc_sql go_value];
    unfold enc_list; rewrite ?zlen_map, ?Hw, ?H1, ?H2, ?H3; done.
Qed.

(** ** Correctness *)

(** C7 (roundtrip). [ReadValue] decodes every well-formed SQL value, containers nested
    to any depth included: it consumes exactly the bytes the protocol gives the value
    and returns the Go value its fields stand for. The grammar is written without
    the driver's code: literal type codes and interval ordinals, a calendar of its
    own, texts from the fields. Well-formed are dates of the calendar with years of
    up to nine digits, times and interval fields in range, texts and lengths within
    the caps. Two kinds of value are not: a negative interval with leading field 0
    and an inline CLOB with a surrogate pair, which the driver decodes to something
    else ([interval_sign_lost_at_zero], [inline_clob_loses_supplementary]). *)
Theorem ReadValue_decodes_grammar v ct :
  wf_sql v = true -> decodes (ReadValue ct) (enc_sql v) (go_value v).
Proof.
  intros Hw. destruct (value_agrees v Hw) as [H1 <- <-]. by apply decodes_ReadValue.
Qed.

(** ARRAY[ROW(7, 1.50, DATE '2024-02-29', INTERVAL '-1 02:03:04.5' DAY TO SECOND), NULL] *)
Definition sample_sql : sql_value :=
  SqlArray [SqlRow [SqlInteger 7; SqlNumeric [49; 46; 53; 48]; SqlDate 2024 2 29;
                    SqlInterval true (IDayToSecond 1 2 3 4 500000000)];
            SqlNull].

Lemma ReadValue_decodes_grammar_witness :
  decodes (ReadValue None) (enc_sql sample_sql)
    (VString (lit "[(7,1.50,2024-02-29 00:00:00 +0000 UTC,INTERVAL '-1 02:03:04.5' DAY TO SECOND),<nil>]")).
Proof.
  apply (ReadValue_decodes_grammar sample_sql None). vm_compute. reflexivity.
Defined.
