(* ===== verification/ValueWrite.v ===== *)
(** * Encoding parameters (value_write.go) *)

From Stdlib Require Import Strings.Byte.
From S2P Require Import Prelude.
From S2P Require Import GoText.
From S2P Require Import Protocol.
From S2P Require Import Transfer.
From S2P Require Import Fuel.
From S2P Require Import TypeInfo.
From S2P Require Import Metadata.
From S2P Require Import DecFloat.
From S2P Require Import GoTime.
From S2P Require Import GoFloat.
From S2P Require Import ValueText.
From S2P Require Import Value.
From S2P Require Import ValueRead.
From S2P Require Import ValueWire.

(** [paramType.ValueType], if there is metadata for the parameter. *)
Definition param_vt (paramType : option TypeInfo) : option Z := ValueType <$> paramType.

Definition param_is (paramType : option TypeInfo) (vt : Z) : bool :=
  match paramType with
  | Some ti => ValueType ti =? vt
  | None => false
  end.

Definition writeStringValue (s : gostring) (paramType : option TypeInfo) : M Tr unit :=
  if param_is paramType ValueTypeUUID then
    match parseUUIDString s with
    | Err e => fail (EWrapf "h2go: WriteValue: invalid UUID %q: %w" [AStr s] [e])
    | Ok (high, low) =>
        wrapf "h2go: WriteValue: failed to write UUID type: %w" [] (WriteInt32 ValueTypeUUID) ;;
        wrapf "h2go: WriteValue: failed to write UUID high: %w" [] (WriteInt64 high) ;;
        wrapf "h2go: WriteValue: failed to write UUID low: %w" [] (WriteInt64 low)
    end
  else
    let valueType :=
      if param_is paramType ValueTypeNumeric then ValueTypeNumeric
      else if param_is paramType ValueTypeDecfloat then ValueTypeDecfloat
      else if param_is paramType ValueTypeChar then ValueTypeChar
      else if param_is paramType ValueTypeVarcharIgnoreCase then ValueTypeVarcharIgnoreCase
      else ValueTypeVarchar in
    wrapf "h2go: WriteValue: failed to write string type: %w" [] (WriteInt32 valueType) ;;
    wrapf "h2go: WriteValue: failed to write string value: %w" [] (WriteString s).

(** The temporal type written: the parameter's when it is temporal, else TIMESTAMP. *)
Definition time_type (paramType : option TypeInfo) : Z :=
  match paramType with
  | Some ti =>
      if one_of (ValueType ti) [ValueTypeDate; ValueTypeTime; ValueTypeTimeTZ; ValueTypeTimestamp;
                                ValueTypeTimestampTZ]
      then ValueType ti else ValueTypeTimestamp
  | None => ValueTypeTimestamp
  end.

Definition writeTimeValue (ts : Time) (paramType : option TypeInfo) : M Tr unit :=
  let valueType := time_type paramType in
  let '(y, m, d) := Date ts in
  let dateValue := packDateValue y m d in
  let nanos := nanosOfDay ts in
  let offset := (Zone ts).2 in
  if valueType =? ValueTypeDate then
    wrapf "h2go: WriteValue: failed to write DATE type: %w" [] (WriteInt32 ValueTypeDate) ;;
    wrapf "h2go: WriteValue: failed to write DATE value: %w" [] (WriteInt64 dateValue)
  else if valueType =? ValueTypeTime then
    wrapf "h2go: WriteValue: failed to write TIME type: %w" [] (WriteInt32 ValueTypeTime) ;;
    wrapf "h2go: WriteValue: failed to write TIME value: %w" [] (WriteInt64 nanos)
  else if valueType =? ValueTypeTimeTZ then
    wrapf "h2go: WriteValue: failed to write TIME_TZ type: %w" [] (WriteInt32 ValueTypeTimeTZ) ;;
    wrapf "h2go: WriteValue: failed to write TIME_TZ nanos: %w" [] (WriteInt64 nanos) ;;
    wrapf "h2go: WriteValue: failed to write TIME_TZ offset: %w" [] (WriteInt32 (int32 offset))
  else if valueType =? ValueTypeTimestampTZ then
    wrapf "h2go: WriteValue: failed to write TIMESTAMP_TZ type: %w" [] (WriteInt32 ValueTypeTimestampTZ) ;;
    wrapf "h2go: WriteValue: failed to write TIMESTAMP_TZ date: %w" [] (WriteInt64 dateValue) ;;
    wrapf "h2go: WriteValue: failed to write TIMESTAMP_TZ nanos: %w" [] (WriteInt64 nanos) ;;
    wrapf "h2go: WriteValue: failed to write TIMESTAMP_TZ offset: %w" [] (WriteInt32 (int32 offset))
  else
    wrapf "h2go: WriteValue: failed to write TIMESTAMP type: %w" [] (WriteInt32 ValueTypeTimestamp) ;;
    wrapf "h2go: WriteValue: failed to write TIMESTAMP date: %w" [] (WriteInt64 dateValue) ;;
    wrapf "h2go: WriteValue: failed to write TIMESTAMP nanos: %w" [] (WriteInt64 nanos).

(** Parameters that get numbers as text. *)
Definition exact_decimal (paramType : option TypeInfo) : bool :=
  param_is paramType ValueTypeNumeric || param_is paramType ValueTypeDecfloat.

Definition errUnsupportedValue (goType : gostring) : error :=
  EWrapf "h2go: WriteValue: %w: unsupported driver.Value type %T" [AStr goType] [ESent ErrUnsupportedType].

Definition WriteValue (v : Value) (paramType : option TypeInfo) : M Tr unit :=
  match v with
  | VNil => WriteInt32 ValueTypeNull
  | VBool x =>
      wrapf "h2go: WriteValue: failed to write BOOLEAN type: %w" [] (WriteInt32 ValueTypeBoolean) ;;
      wrapf "h2go: WriteValue: failed to write BOOLEAN value: %w" [] (WriteBool x)
  | VInt64 x =>
      if exact_decimal paramType then writeStringValue (FormatInt x) paramType
      else
        wrapf "h2go: WriteValue: failed to write BIGINT type: %w" [] (WriteInt32 ValueTypeBigint) ;;
        wrapf "h2go: WriteValue: failed to write BIGINT value: %w" [] (WriteInt64 x)
  | VFloat64 x =>
      if exact_decimal paramType then writeStringValue (FormatFloat x) paramType
      else if param_is paramType ValueTypeReal then
        wrapf "h2go: WriteValue: failed to write REAL type: %w" [] (WriteInt32 ValueTypeReal) ;;
        wrapf "h2go: WriteValue: failed to write REAL value: %w" [] (WriteFloat32 (float32_of_float64 x))
      else
        wrapf "h2go: WriteValue: failed to write DOUBLE type: %w" [] (WriteInt32 ValueTypeDouble) ;;
        wrapf "h2go: WriteValue: failed to write DOUBLE value: %w" [] (WriteFloat64 x)
  | VString x => writeStringValue x paramType
  | VBytes None => WriteInt32 ValueTypeNull
  | VBytes (Some x) =>
      let valueType := if param_is paramType ValueTypeBinary then ValueTypeBinary else ValueTypeVarbinary in
      wrapf "h2go: WriteValue: failed to write BINARY/VARBINARY type: %w" [] (WriteInt32 valueType) ;;
      wrapf "h2go: WriteValue: failed to write BINARY/VARBINARY value: %w" [] (WriteBytes (Some x))
  | VTime x => writeTimeValue x paramType
  | VPendingLob _ => fail (errUnsupportedValue (lit "*h2go.pendingLob"))
  | VOther goType => fail (errUnsupportedValue goType)
  end.

(** ** The frame of a parameter *)

Definition string_type (pt : option TypeInfo) : Z :=
  if param_is pt ValueTypeNumeric then ValueTypeNumeric
  else if param_is pt ValueTypeDecfloat then ValueTypeDecfloat
  else if param_is pt ValueTypeChar then ValueTypeChar
  else if param_is pt ValueTypeVarcharIgnoreCase then ValueTypeVarcharIgnoreCase
  else ValueTypeVarchar.

Definition string_frame (s : gostring) (pt : option TypeInfo) : option (list byte) :=
  if param_is pt ValueTypeUUID then
    match parseUUIDString s with
    | Ok (h, l) => Some (enc_value (WireUUID h l))
    | Err _ => None
    end
  else Some (enc_int32 (string_type pt) ++ enc_string s).

Definition time_wire (t : Time) (pt : option TypeInfo) : wire_value :=
  let dv := let '(y, m, d) := Date t in packDateValue y m d in
  let n := nanosOfDay t in
  let vt := time_type pt in
  if vt =? ValueTypeDate then WireDate dv
  else if vt =? ValueTypeTime then WireTime n
  else if vt =? ValueTypeTimeTZ then WireTimeTZ n (int32 (t_offset t))
  else if vt =? ValueTypeTimestampTZ then WireTimestampTZ dv n (int32 (t_offset t))
  else WireTimestamp dv n.

(** The bytes of a parameter; [None] when it cannot be encoded. *)
Definition value_frame (v : Value) (pt : option TypeInfo) : option (list byte) :=
  match v with
  | VNil | VBytes None => Some (enc_value WireNull)
  | VBool b => Some (enc_value (WireBoolean b))
  | VInt64 z =>
      if exact_decimal pt then string_frame (FormatInt z) pt else Some (enc_value (WireBigint z))
  | VFloat64 x =>
      if exact_decimal pt then string_frame (FormatFloat x) pt
      else if param_is pt ValueTypeReal then Some (enc_value (WireReal (float32_of_float64 x)))
      else Some (enc_value (WireDouble x))
  | VString s => string_frame s pt
  | VBytes (Some b) =>
      Some (enc_value (WireBinary (if param_is pt ValueTypeBinary then ValueTypeBinary else ValueTypeVarbinary) (Some b)))
  | VTime t => Some (enc_value (time_wire t pt))
  | VPendingLob _ | VOther _ => None
  end.

(** ** Lemmas *)

Lemma writes_typed fmt1 fmt2 tc m bs :
  writes m bs ->
  writes (wrapf fmt1 [] (WriteInt32 tc) ;; wrapf fmt2 [] m) (enc_int32 tc ++ bs).
Proof. intros H. apply writes_bind; auto with h2go. Qed.

Lemma writes_writeStringValue s pt bs :
  string_frame s pt = Some bs -> writes (writeStringValue s pt) bs.
Proof.
  unfold string_frame, writeStringValue. destruct (param_is pt ValueTypeUUID).
  - destruct (parseUUIDString s) as [[h l]|e]; [|done]. intros <-%(inj Some). cbn [enc_value].
    repeat (apply writes_bind; [auto with h2go|]). auto with h2go.
  - intros <-%(inj Some). apply writes_typed, writes_WriteString.
Qed.

Lemma writes_writeTimeValue t pt : writes (writeTimeValue t pt) (enc_value (time_wire t pt)).
Proof.
  unfold writeTimeValue, time_wire. destruct (Date t) as [[y m] d]. cbn [Zone snd].
  repeat case_match; cbn [enc_value]; repeat (apply writes_bind; [auto with h2go|]); auto with h2go.
Qed.

Lemma writes_WriteValue v pt bs : value_frame v pt = Some bs -> writes (WriteValue v pt) bs.
Proof.
  destruct v as [|b|z|x|s|[b|]|t|p|o]; cbn [value_frame WriteValue]; try discriminate.
  - intros <-%(inj Some). apply writes_WriteInt32.
  - intros <-%(inj Some). apply writes_typed. auto with h2go.
  - destruct (exact_decimal pt); [apply writes_writeStringValue|].
    intros <-%(inj Some). apply writes_typed. auto with h2go.
  - destruct (exact_decimal pt); [apply writes_writeStringValue|].
    destruct (param_is pt ValueTypeReal); intros <-%(inj Some); apply writes_typed; auto with h2go.
  - apply writes_writeStringValue.
  - intros <-%(inj Some). cbn [enc_value]. apply writes_typed. auto with h2go.
  - intros <-%(inj Some). apply writes_WriteInt32.
  - intros <-%(inj Some). apply writes_writeTimeValue.
Qed.

Lemma plain_parseUUID s e : parseUUIDString s = Err e -> plain e = true.
Proof.
  unfold parseUUIDString, parseUUIDHalves. intros H. repeat (case_match; simplify_eq; try done).
Qed.

Lemma WriteValue_refused v pt :
  value_frame v pt = None -> exists e, plain e = true /\ forall t, WriteValue v pt t = (Err e, t).
Proof.
  assert (forall s, string_frame s pt = None -> exists e, plain e = true /\ forall t, writeStringValue s pt t = (Err e, t)) as Hs.
  { intros s. unfold string_frame, writeStringValue. destruct (param_is pt ValueTypeUUID); [|done].
    destruct (parseUUIDString s) as [[h l]|e] eqn:E; [done|]. intros _. eexists. split; [|done].
    cbn. by rewrite (plain_parseUUID _ _ E). }
  destruct v as [|b|z|x|s|[b|]|t|p|o]; cbn [value_frame WriteValue]; try discriminate.
  - destruct (exact_decimal pt); [apply Hs|done].
  - destruct (exact_decimal pt); [apply Hs|]. by destruct (param_is pt ValueTypeReal).
  - apply Hs.
  - intros _. eexists. split; [|intros; reflexivity]. done.
  - intros _. eexists. split; [|intros; reflexivity]. done.
Qed.

(** ** What comes back *)

(** The value a string parameter reads back as; [None] when it is refused on the way. *)
Definition string_back (s : gostring) (pt : option TypeInfo) : option Value :=
  if param_is pt ValueTypeUUID then
    match parseUUIDString s with
    | Ok (h, l) => Some (VString (formatUUID h l))
    | Err _ => None
    end
  else if string_type pt =? ValueTypeDecfloat then
    match ParseDecFloat (sanitize s) with
    | Ok _ => Some (VString (sanitize s))
    | Err _ => None
    end
  else Some (VString (sanitize s)).

(** The time a temporal parameter reads back as: only the types with a time zone keep
    the instant, the others keep the wall clock and call it UTC. *)
Definition time_back (t : Time) (pt : option TypeInfo) : Time :=
  let midnight := wall t - wall t mod secondsPerDay in
  let day0 := days_from_civil 0 1 1 * secondsPerDay + wall t mod secondsPerDay in
  let vt := time_type pt in
  if vt =? ValueTypeDate then mkTime midnight 0 UTC 0
  else if vt =? ValueTypeTime then mkTime day0 (t_nsec t) UTC 0
  else if vt =? ValueTypeTimeTZ then mkTime (day0 - t_offset t) (t_nsec t) [] (t_offset t)
  else if vt =? ValueTypeTimestampTZ then mkTime (t_sec t) (t_nsec t) [] (t_offset t)
  else mkTime (wall t) (t_nsec t) UTC 0.

Definition value_back (v : Value) (pt : option TypeInfo) : option Value :=
  match v with
  | VNil | VBytes None => Some VNil
  | VBool b => Some (VBool b)
  | VInt64 z => if exact_decimal pt then string_back (FormatInt z) pt else Some (VInt64 z)
  | VFloat64 x =>
      if exact_decimal pt then string_back (FormatFloat x) pt
      else if param_is pt ValueTypeReal then Some (VFloat64 (float64_of_float32 (float32_of_float64 x)))
      else Some (VFloat64 x)
  | VString s => string_back s pt
  | VBytes (Some b) => Some (VBytes (Some b))
  | VTime t => Some (VTime (time_back t pt))
  | VPendingLob _ | VOther _ => None
  end.

(** A Go value of the right shape: widths, lengths within the caps, a time whose year
    fits and whose zone offset fits 32 bits. *)
Definition wf_param (v : Value) : Prop :=
  match v with
  | VInt64 z => in_intN 64 z /\ fits_string (FormatInt z) = true
  | VFloat64 x => 0 <= x < 2 ^ 64 /\ fits_string (FormatFloat x) = true
  | VString s => fits_string s = true
  | VBytes (Some b) => zlen b <= MaxWireLength
  | VTime t => wf_time t /\ in_intN 32 (t_offset t)
  | _ => True
  end.

Lemma parseUUID_range s h l : parseUUIDString s = Ok (h, l) -> in_intN 64 h /\ in_intN 64 l.
Proof.
  unfold parseUUIDString, parseUUIDHalves. intros H.
  repeat (case_match; simplify_eq); split; apply intN_range; lia.
Qed.

Lemma decodes_ReadValue_typed tc ct bs v :
  fits 32 tc = true ->
  (forall f, decodes (readTyped (readValueInternal_fuel f) tc ct None) bs (v, None)) ->
  decodes (ReadValue ct) (enc_int32 tc ++ bs) v.
Proof.
  intros Htc H. apply (decodes_bind_ret _ _ _ (v, None)); [|reflexivity].
  apply decodes_fueled; [apply stable_readValueInternal|]. intros [|f] Hf; [lia|].
  by apply decodes_type_code.
Qed.

(** The string types that are not DECFLOAT. *)
Lemma string_roundtrip_plain s pt ct :
  fits_string s = true -> (string_type pt =? ValueTypeDecfloat) = false ->
  decodes (ReadValue ct) (enc_int32 (string_type pt) ++ enc_string s) (VString (sanitize s)).
Proof.
  intros Hf Hd. unfold string_type in *.
  repeat case_match; try discriminate Hd;
    [apply (decodes_ReadValue (WireNumeric (Some s)))|apply (decodes_ReadValue (WireText _ (Some s)))..];
    cbn; by rewrite Hf.
Qed.

Lemma string_value_back s pt ct v' :
  fits_string s = true -> string_back s pt = Some v' ->
  exists bs, string_frame s pt = Some bs /\ decodes (ReadValue ct) bs v'.
Proof.
  intros Hf. unfold string_back, string_frame. destruct (param_is pt ValueTypeUUID).
  - destruct (parseUUIDString s) as [[h l]|e] eqn:E; [|done]. intros <-%(inj Some).
    eexists. split; [reflexivity|]. apply (decodes_ReadValue (WireUUID h l)). cbn.
    apply parseUUID_range in E as [? ?]. by rewrite !fits_of_in_intN.
  - destruct (string_type pt =? ValueTypeDecfloat) eqn:E.
    + destruct (ParseDecFloat (sanitize s)) as [d|] eqn:Ep; [|done]. intros <-%(inj Some).
      eexists. split; [reflexivity|]. apply Z.eqb_eq in E. rewrite E.
      apply decodes_ReadValue_typed; [reflexivity|]. intros f. apply decodes_keeping.
      eapply decodes_bind_ret; [by apply (decodes_text (Some s))|]. cbn. by rewrite Ep.
    + intros <-%(inj Some). eexists. split; [reflexivity|]. by apply string_roundtrip_plain.
Qed.

Lemma Date_value_range t : in_intN 64 (let '(y, m, d) := Date t in packDateValue y m d).
Proof. destruct (Date t) as [[y m] d]. apply intN_range. lia. Qed.

Ltac time_cases pt :=
  destruct (time_type pt =? ValueTypeDate); [|destruct (time_type pt =? ValueTypeTime);
    [|destruct (time_type pt =? ValueTypeTimeTZ); [|destruct (time_type pt =? ValueTypeTimestampTZ)]]].

(** The conversions of [time_wire], field by field. *)
Lemma time_wire_meaning t pt :
  wf_time t -> in_intN 32 (t_offset t) -> value_meaning (time_wire t pt) = VTime (time_back t pt).
Proof.
  intros Hw Ho. pose proof (wall_clock_again t 0 UTC Hw) as Hutc.
  pose proof (wall_clock_again t (t_offset t) [] Hw) as Hoff.
  pose proof (Z.div_mod (wall t) secondsPerDay ltac:(done)) as Hdm.
  pose proof (civil_ranges (wall t / secondsPerDay)) as Hr.
  pose proof (days_from_civil_from_days (wall t / secondsPerDay)) as Hd.
  destruct Hw as [Hn Hy].
  destruct (split_nanos_parts (nanosOfDay t)) as (h & mi & s & ns & E & H1 & H2 & H3 & H4 & H5);
    [by apply nanosOfDay_range|]. rewrite nanosOfDay_wall in H5.
  assert (t_nsec t = ns /\ wall t mod secondsPerDay = h * 3600 + mi * 60 + s) as [Hns Hs] by lia.
  unfold time_wire, time_back. rewrite intN_small by (done || lia).
  time_cases pt; cbn [value_meaning]; f_equal.
  - unfold dateValueToTime, Date in *. destruct (civil_from_days _) as [[y m] d]. cbn in Hy.
    rewrite unpack_pack, time_Date_in_range by (done || lia). f_equal. lia.
  - unfold nanosOfDayToTime. rewrite E, time_Date_in_range by lia. f_equal; lia.
  - unfold nanosOfDayToTimeTZ. rewrite E, time_Date_in_range by lia. f_equal; lia.
  - unfold timestampToTimeTZ. rewrite Hoff. f_equal. unfold wall. lia.
  - unfold timestampToTime. rewrite Hutc. f_equal. lia.
Qed.

Lemma wf_time_wire t pt :
  wf_time t -> in_intN 32 (t_offset t) -> wf_value (time_wire t pt) = true.
Proof.
  intros [Hn _] Ho. assert (fits 64 (let '(y, m, d) := Date t in packDateValue y m d) = true) as Hdv
    by apply fits_of_in_intN, Date_value_range.
  assert (fits 64 (nanosOfDay t) = true) as Hnn.
  { apply fits_of_in_intN. pose proof (nanosOfDay_range t Hn). unfold in_intN. lia. }
  assert (fits 32 (int32 (t_offset t)) = true) as Hoo by (apply fits_of_in_intN, intN_range; lia).
  unfold time_wire. time_cases pt; cbn [wf_value]; by rewrite ?Hdv, ?Hnn, ?Hoo.
Qed.

Lemma value_back_frame v pt ct v' :
  wf_param v -> value_back v pt = Some v' ->
  exists bs, value_frame v pt = Some bs /\ decodes (ReadValue ct) bs v'.
Proof.
  assert (forall w v', wf_value w = true -> value_meaning w = v' ->
            exists bs, Some (enc_value w) = Some bs /\ decodes (ReadValue ct) bs v') as Hw.
  { intros w ? Hwf <-. eexists. split; [reflexivity|by apply decodes_ReadValue]. }
  destruct v as [|b|z|x|s|[b|]|t|p|o]; cbn [wf_param value_back value_frame]; try discriminate.
  - intros _ <-%(inj Some). by apply Hw.
  - intros _ <-%(inj Some). by apply Hw.
  - intros [Hz Hf]. destruct (exact_decimal pt); [by apply string_value_back|].
    intros <-%(inj Some). apply Hw; [by apply fits_of_in_intN|done].
  - intros [Hx Hf]. destruct (exact_decimal pt); [by apply string_value_back|].
    destruct (param_is pt ValueTypeReal); intros <-%(inj Some).
    + apply Hw; [|done]. cbn [wf_value]. unfold in_range. pose proof (float32_of_float64_range x Hx). lia.
    + apply Hw; [|done]. cbn [wf_value]. unfold in_range. lia.
  - intros Hf. by apply string_value_back.
  - intros Hl <-%(inj Some). apply Hw; [|done]. cbn [wf_value from_option id]. destruct (param_is pt _); cbn; lia.
  - intros _ <-%(inj Some). by apply Hw.
  - intros [Ht Ho] <-%(inj Some). apply Hw; [by apply wf_time_wire|by apply time_wire_meaning].
Qed.

(** ** Correctness *)


Definition timestampTZ_param : TypeInfo := mkTypeInfo ValueTypeTimestampTZ (-1) 6 ColumnNullableUnknown None.


(** A parameter is encoded completely or not at all: when it has no frame
    (an unsupported Go type, text that is no UUID bound to a UUID parameter) the call
    fails, on any connection, with an error that carries no server error, and the
    transfer is left exactly as it was; otherwise the frame is what is written. *)
Theorem WriteValue_all_or_nothing v pt :
  match value_frame v pt with
  | Some bs => writes (WriteValue v pt) bs
  | None => exists e, plain e = true /\ forall t, WriteValue v pt t = (Err e, t)
  end.
Proof.
  destruct (value_frame v pt) as [bs|] eqn:E; [by apply writes_WriteValue|by apply WriteValue_refused].
Qed.

(** The parameter metadata of a DECFLOAT column. *)
Definition decfloat_param : TypeInfo := mkTypeInfo ValueTypeDecfloat 34 (-1) ColumnNullableUnknown None.

(** A float64 infinity bound to a DECFLOAT parameter is sent as the
    text Go gives it, [+Inf] or [-Inf], which is not a DECFLOAT: the spellings are
    [Infinity] and [-Infinity], and [ParseDecFloat] itself refuses what was sent. *)
Theorem infinite_double_as_decfloat (neg : bool) :
  let bits := f64_make (if neg then 1 else 0) 2047 0 in
  let text := if neg then lit "-Inf" else lit "+Inf" in
  writes (WriteValue (VFloat64 bits) (Some decfloat_param)) (enc_int32 ValueTypeDecfloat ++ enc_string text) /\
  (exists e, ParseDecFloat text = Err e) /\
  DecFloat_String (mkDecFloat (if neg then decNegInf else decPosInf) None 0) <> text.
Proof.
  split_and!.
  - apply writes_WriteValue. by destruct neg.
  - destruct neg; eexists; vm_compute; reflexivity.
  - by destruct neg.
Qed.

Definition real_param : TypeInfo := mkTypeInfo ValueTypeReal 24 (-1) ColumnNullableUnknown None.

(** A REAL read from the server and bound to a REAL parameter goes back
    bit for bit, the detour through float64 notwithstanding: subnormal numbers,
    infinities, signed zeros and quiet NaNs included. *)
Theorem REAL_echo bits ct :
  0 <= bits < 2 ^ 32 -> signalling32 bits = false ->
  exists v, decodes (ReadValue ct) (enc_value (WireReal bits)) v /\
            writes (WriteValue v (Some real_param)) (enc_value (WireReal bits)).
Proof.
  intros Hb Hs. exists (VFloat64 (float64_of_float32 bits)). split.
  - apply (decodes_ReadValue (WireReal bits)). cbn [wf_value]. unfold in_range. lia.
  - apply writes_WriteValue. cbn [value_frame]. change (exact_decimal (Some real_param)) with false.
    change (param_is (Some real_param) ValueTypeReal) with true. cbv iota.
    by rewrite float32_through_float64.
Qed.

Lemma REAL_echo_witness :
  exists v, decodes (ReadValue None) (enc_value (WireReal 0x80000003)) v /\
            writes (WriteValue v (Some real_param)) (enc_value (WireReal 0x80000003)).
Proof. apply REAL_echo; [lia|vm_compute; reflexivity]. Defined.
