(* ===== verification/Dsn.v ===== *)
(** * Data source names (dsn.go)

    A Go map is the list of its entries. [range] visits the entries of a map in an order
    the language leaves open: [range_map] is that order, any rearrangement, and the
    theorems hold for every one of them. *)

From S2P Require Import Prelude.
From S2P Require Import GoText.
From S2P Require Import GoUrl.
From S2P Require Import Protocol.
From stdpp Require Import sorting.
From Stdlib Require Import Strings.Byte.
Local Open Scope Z_scope.

Class MapOrder := { range_map : forall {A}, list A -> list A }.
Class MapOrderLaw `(MapOrder) := { range_perm : forall {A} (l : list A), range_map l ≡ₚ l }.

Abbreviation ParamMap := (list (gostring * gostring)).

(** A logger and a certificate pool are only compared with nil by the code modelled. *)
Record Config := mkConfig {
  cfg_Host : gostring;
  cfg_Port : gostring;
  cfg_Database : gostring;
  cfg_User : gostring;
  cfg_Password : gostring;
  cfg_Params : ParamMap;
  cfg_OriginalURL : gostring;
  cfg_Logger : bool;
  cfg_MaxRows : Z;
  cfg_FetchSize : Z;
  cfg_GeneratedKeysMode : Z;
  cfg_GeneratedKeysModeSet : bool;
  cfg_GeneratedKeysColumns : option (list Z);
  cfg_GeneratedKeysColumnNames : option (list gostring);
  cfg_TLS : bool;
  cfg_TLSServerName : gostring;
  cfg_TLSInsecureSkipVerify : bool;
  cfg_TLSRootCAs : bool
}.

(** What ParseDSN fills in; every other field keeps its zero value. *)
Definition parsed_config (url host port db user password : gostring) (params : ParamMap) (tls : bool) : Config :=
  mkConfig host port db user password params url false 0 0 0 false None None tls [] false false.

Definition set_credentials (user password : gostring) (c : Config) : Config :=
  mkConfig (cfg_Host c) (cfg_Port c) (cfg_Database c) user password (cfg_Params c) (cfg_OriginalURL c)
    (cfg_Logger c) (cfg_MaxRows c) (cfg_FetchSize c) (cfg_GeneratedKeysMode c) (cfg_GeneratedKeysModeSet c)
    (cfg_GeneratedKeysColumns c) (cfg_GeneratedKeysColumnNames c) (cfg_TLS c) (cfg_TLSServerName c)
    (cfg_TLSInsecureSkipVerify c) (cfg_TLSRootCAs c).

Definition set_port (port : gostring) (c : Config) : Config :=
  mkConfig (cfg_Host c) port (cfg_Database c) (cfg_User c) (cfg_Password c) (cfg_Params c) (cfg_OriginalURL c)
    (cfg_Logger c) (cfg_MaxRows c) (cfg_FetchSize c) (cfg_GeneratedKeysMode c) (cfg_GeneratedKeysModeSet c)
    (cfg_GeneratedKeysColumns c) (cfg_GeneratedKeysColumnNames c) (cfg_TLS c) (cfg_TLSServerName c)
    (cfg_TLSInsecureSkipVerify c) (cfg_TLSRootCAs c).

Definition MergeCredentials (cfg : Config) (user password : gostring) : Config :=
  set_credentials (if decide (cfg_User cfg = []) then user else cfg_User cfg)
    (if decide (cfg_Password cfg = []) then password else cfg_Password cfg) cfg.

(** A shallow copy: a struct is a value here, and the map of parameters is never
    changed once it is parsed. *)
Definition cloneConfig (cfg : option Config) : option Config :=
  match cfg with
  | None => None
  | Some c => let cloned := c in Some cloned
  end.

(** ** The order of strings: [sort.Strings] and [sort.Slice] *)

Fixpoint str_le (a b : gostring) : bool :=
  match a, b with
  | [], _ => true
  | _ :: _, [] => false
  | x :: a', y :: b' => (b2z x <? b2z y) || (bool_decide (x = y) && str_le a' b')
  end.

Definition le_str (a b : gostring) : Prop := str_le a b = true.
Definition le_key (a b : gostring * gostring) : Prop := le_str a.1 b.1.

#[export] Instance le_str_dec : RelDecision le_str.
Proof. intros a b. unfold le_str. apply _. Defined.
#[export] Instance le_key_dec : RelDecision le_key.
Proof. intros a b. unfold le_key. apply _. Defined.

(** ** Settings *)

Definition forwardSettings : list gostring :=
  [lit "ACCESS_MODE_DATA"; lit "FORBID_CREATION"; lit "IFEXISTS"; lit "INIT"; lit "LOCK_TIMEOUT"; lit "MODE"].

Definition localOnlySettings : list gostring :=
  [lit "AUTO_RECONNECT"; lit "AUTO_SERVER"; lit "CIPHER"; lit "DB_CLOSE_DELAY"; lit "DB_CLOSE_ON_EXIT";
   lit "FILE_LOCK"; lit "JMX"; lit "NETWORK_TIMEOUT"; lit "NON_KEYWORDS"; lit "OLD_INFORMATION_SCHEMA";
   lit "OPEN_NEW"; lit "PAGE_SIZE"; lit "RECOVER"; lit "STATEMENT_CACHE_SIZE"; lit "TRACE_LEVEL_FILE";
   lit "TRACE_LEVEL_SYSTEM_OUT"].

(** [c == '\\' && i < len(s)-1], [c == ';'] and the other characters; [seg] is the builder. *)
Fixpoint split_loop (seg s : gostring) : list gostring :=
  match s with
  | [] => [seg]
  | c :: s' =>
      if decide (c = "\"%byte) then
        match s' with
        | d :: s'' => split_loop (seg ++ [d]) s''
        | [] => [seg ++ [c]]
        end
      else if decide (c = ";"%byte) then seg :: split_loop [] s'
      else split_loop (seg ++ [c]) s'
  end.

Definition splitSettingSegments (s : gostring) : list gostring := split_loop [] s.

Section Dsn.
Context `{Unicode} `{MapOrder}.

Definition isTruthy (v : gostring) : bool :=
  bool_decide (ToUpper (TrimSpace v) ∈ [lit "1"; lit "TRUE"; lit "YES"; lit "ON"]).

(** The first entry whose key is the given one up to case, in the order of the iteration. *)
Definition find_param (key : gostring) (params : ParamMap) : option (gostring * gostring) :=
  List.find (fun kv => EqualFold kv.1 key) (range_map params).

Definition setParam (params : ParamMap) (key value : gostring) : res ParamMap :=
  match find_param key params with
  | Some (_, v) =>
      if decide (v = value) then Ok params
      else Err (EErrorf "duplicate DSN setting %q with conflicting values %q and %q" [AStr key; AStr v; AStr value])
  | None => Ok (params ++ [(key, value)])
  end.

(** What one entry does to [ignoreUnknown] and [unknown]. *)
Definition validateParam (st : bool * list gostring) (kv : gostring * gostring) : res (bool * list gostring) :=
  let '(ignoreUnknown, unknown) := st in
  let '(k, v) := kv in
  let up := ToUpper k in
  if decide (up = lit "IGNORE_UNKNOWN_SETTINGS") then Ok (isTruthy v, unknown)
  else if decide (up = lit "USER" \/ up = lit "PASSWORD") then Ok st
  else if decide (up = lit "QUERY_TIMEOUT") then
    match ParseInt (TrimSpace v) with
    | Some _ => Ok st
    | None => Err (EErrorf "invalid DSN setting QUERY_TIMEOUT=%q: must be a non-negative integer (milliseconds)" [AStr v])
    end
  else if decide ((up ∉ forwardSettings) /\ (up ∉ localOnlySettings)) then Ok (ignoreUnknown, unknown ++ [k])
  else Ok st.

Fixpoint foldR {A B} (f : A -> B -> res A) (a : A) (l : list B) : res A :=
  match l with
  | [] => Ok a
  | b :: l' => let? a' := f a b in foldR f a' l'
  end.

Definition validateParams (params : ParamMap) : res unit :=
  let? (ignoreUnknown, unknown) := foldR validateParam (false, []) (range_map params) in
  if decide (unknown = []) then Ok tt
  else if ignoreUnknown then Ok tt
  else Err (EErrorf "unsupported DSN setting(s): %s (prefix the DSN with IGNORE_UNKNOWN_SETTINGS=TRUE to allow unknown settings, as with H2 JDBC)"
              [AStr (GoText.Join (lit ", ") (merge_sort le_str unknown))]).

Definition validate (cfg : Config) : res Config :=
  if decide (cfg_Host cfg = []) then Err (EErrorf "missing host in DSN" [])
  else match ParseInt (cfg_Port cfg) with
       | None => Err (EWrapf "invalid port %q: %w" [AStr (cfg_Port cfg)] [EErrorf "strconv.Atoi: parsing %q" [AStr (cfg_Port cfg)]])
       | Some port =>
           if (port <? 1) || (65535 <? port) then
             Err (EErrorf "invalid port %q: must be in range 1-65535" [AStr (cfg_Port cfg)])
           else
             let? _ := validateParams (cfg_Params cfg) in Ok cfg
       end.

(** ** The JDBC form *)

(** One setting of the path: the parameters, the user and the password afterwards. *)
Definition parseSetting (st : ParamMap * gostring * gostring) (p : gostring) : res (ParamMap * gostring * gostring) :=
  let '(params, user, password) := st in
  if decide (p = []) then Ok st
  else match cut "="%byte p with
       | None => Err (EErrorf "invalid DSN setting %q: expected key=value form (H2 rejects bare settings with URL format error 90046)" [AStr p])
       | Some (key, val) =>
           let? params' := setParam params key val in
           Ok (params', (if EqualFold key (lit "USER") then val else user),
               (if negb (EqualFold key (lit "USER")) && EqualFold key (lit "PASSWORD") then val else password))
       end.

Definition parseJDBC (input : gostring) : res Config :=
  let inner := TrimPrefix input (lit "jdbc:h2:") in
  if HasPrefix inner (lit "mem:") || HasPrefix inner (lit "file:") then
    Err (EErrorf "unsupported H2 connection mode: %q (only tcp and ssl are supported)" [AStr inner])
  else if negb (HasPrefix inner (lit "ssl:")) && negb (HasPrefix inner (lit "tcp:")) then
    Err (EErrorf "unsupported H2 protocol: expected tcp:// or ssl://, got %q" [AStr inner])
  else
    match Parse inner with
    | Err e => Err (EWrapf "invalid URL after jdbc:h2: prefix: %w" [] [e])
    | Ok u =>
        let port := if decide (Port u = []) then DefaultTCPPortStr else Port u in
        let parts := splitSettingSegments (URL_Path u) in
        let db := TrimPrefix (hd [] parts) (lit "/") in
        let? (params, user, password) := foldR parseSetting ([], [], []) (tail parts) in
        validate (parsed_config input (Hostname u) port db user password params (HasPrefix inner (lit "ssl:")))
    end.

(** ** The native form *)

Definition parseQueryParam (params : ParamMap) (kv : gostring * list gostring) : res ParamMap :=
  match kv.2 with
  | v :: _ => setParam params kv.1 v
  | [] => Ok params
  end.

Definition parseNative (input : gostring) : res Config :=
  match Parse input with
  | Err e => Err (EWrapf "invalid native DSN: %w" [] [e])
  | Ok u =>
      let port := if decide (Port u = []) then DefaultTCPPortStr else Port u in
      let db := TrimPrefix (URL_Path u) (lit "/") in
      let '(user, password) :=
        match URL_User u with
        | Some (user, pw) => (user, default [] pw)
        | None => ([], [])
        end in
      let? params :=
        (if decide (URL_RawQuery u = []) then Ok []
         else foldR parseQueryParam [] (range_map (Query u))) in
      validate (parsed_config input (Hostname u) port db user password params (HasPrefix input (lit "h2+ssl://")))
  end.

Definition ParseDSN (input : gostring) : res Config :=
  if decide (input = []) then Err (EErrorf "empty DSN" [])
  else if HasPrefix input (lit "jdbc:h2:") then parseJDBC input
  else if HasPrefix input (lit "h2://") || HasPrefix input (lit "h2+tcp://") || HasPrefix input (lit "h2+ssl://")
  then parseNative input
  else Err (EErrorf "unsupported DSN scheme: %q (supported: jdbc:h2:, h2://, h2+tcp://, h2+ssl://)" [AStr input]).

(** ** The properties sent to the server *)

Definition forwarded (kv : gostring * gostring) : list (gostring * gostring) :=
  let up := ToUpper kv.1 in
  if decide (up = lit "IGNORE_UNKNOWN_SETTINGS") then []
  else if decide (up ∈ forwardSettings) then [(up, kv.2)] else [].

Definition sessionPropertyMap (params : ParamMap) : list (gostring * gostring) :=
  merge_sort le_key (flat_map forwarded (range_map params)).

End Dsn.

(** ** Instances to run the code with *)

(** The case mapping of the Latin-1 letters. *)
Definition latin1 : Unicode := {|
  upper_beyond r := if GoText.between 0xE0 r 0xFE && negb (r =? 0xF7) then r - 32 else if r =? 0xFF then 0x178 else r;
  lower_beyond r := if GoText.between 0xC0 r 0xDE && negb (r =? 0xD7) then r + 32 else r;
  fold_beyond lo hi := GoText.between 0xC0 lo 0xDE && negb (lo =? 0xD7) && (hi =? lo + 32)
|}.

Definition in_order : MapOrder := {| range_map A l := l |}.
Definition backwards : MapOrder := {| range_map A l := reverse l |}.

#[export] Instance in_order_law : MapOrderLaw in_order.
Proof. constructor. by intros. Qed.
#[export] Instance backwards_law : MapOrderLaw backwards.
Proof. constructor. intros A l. apply reverse_Permutation. Qed.

Example ParseDSN_jdbc_ex :
  @ParseDSN latin1 in_order (lit "jdbc:h2:ssl://db.example:1234/~/test;USER=sa;Password=p;INIT=SET A 1\;SET B 2;Mode=MySQL")
  = Ok (parsed_config (lit "jdbc:h2:ssl://db.example:1234/~/test;USER=sa;Password=p;INIT=SET A 1\;SET B 2;Mode=MySQL")
          (lit "db.example") (lit "1234") (lit "~/test") (lit "sa") (lit "p")
          [(lit "USER", lit "sa"); (lit "Password", lit "p"); (lit "INIT", lit "SET A 1;SET B 2"); (lit "Mode", lit "MySQL")]
          true).
Proof. vm_compute. reflexivity. Qed.
Example ParseDSN_native_ex :
  @ParseDSN latin1 in_order (lit "h2://sa:p%40@localhost/test?MODE=x&QUERY_TIMEOUT=5")
  = Ok (parsed_config (lit "h2://sa:p%40@localhost/test?MODE=x&QUERY_TIMEOUT=5")
          (lit "localhost") (lit "9092") (lit "test") (lit "sa") (lit "p@")
          [(lit "MODE", lit "x"); (lit "QUERY_TIMEOUT", lit "5")] false).
Proof. vm_compute. reflexivity. Qed.
Example ParseDSN_unknown_ex :
  @ParseDSN latin1 backwards (lit "jdbc:h2:tcp://h/db;FOO=1;BAR=2")
  = Err (EErrorf "unsupported DSN setting(s): %s (prefix the DSN with IGNORE_UNKNOWN_SETTINGS=TRUE to allow unknown settings, as with H2 JDBC)" [AStr (lit "BAR, FOO")]).
Proof. vm_compute. reflexivity. Qed.
