(* ===== verification/DsnFacts.v ===== *)
(** * What a data source name means: round trip, validation, and the properties sent *)

From S2P Require Import Prelude.
From S2P Require Import GoText.
From S2P Require Import GoUrl.
From S2P Require Import Protocol.
From S2P Require Import Dsn.
From stdpp Require Import sorting.
From Stdlib Require Import Strings.Byte.
Local Open Scope Z_scope.

(** ** Cutting *)

Lemma cut_app c x y : c ∉ x -> cut c (x ++ c :: y) = Some (x, y).
Proof.
  induction x as [|b x IH]; intros Hc; cbn; [by rewrite decide_True|].
  apply not_elem_of_cons in Hc as [Hb Hx]. rewrite decide_False by congruence. by rewrite IH.
Qed.

Lemma cut_none c x : c ∉ x -> cut c x = None.
Proof.
  induction x as [|b x IH]; intros Hc; cbn; [done|].
  apply not_elem_of_cons in Hc as [Hb Hx]. rewrite decide_False by congruence. by rewrite IH.
Qed.

Lemma cut_inv c s x y : cut c s = Some (x, y) -> s = x ++ c :: y /\ c ∉ x.
Proof.
  revert x y. induction s as [|b s IH]; intros x y; cbn; [done|].
  destruct (decide (b = c)) as [->|Hb]; [intros [= <- <-]; split; [done|apply not_elem_of_nil]|].
  destruct (cut c s) as [[x' y']|]; [|done]. intros [= <- <-]. destruct (IH _ _ eq_refl) as [-> Hx].
  split; [done|]. apply not_elem_of_cons. split; congruence.
Qed.

Lemma cut_last_none c x : c ∉ x -> cut_last c x = None.
Proof.
  induction x as [|b x IH]; intros Hc; cbn; [done|].
  apply not_elem_of_cons in Hc as [Hb Hx]. rewrite IH by done. by rewrite decide_False by congruence.
Qed.

Lemma cut_last_app c x y : c ∉ y -> cut_last c (x ++ c :: y) = Some (x, y).
Proof.
  intros Hy. induction x as [|b x IH]; cbn; [by rewrite cut_last_none, decide_True|by rewrite IH].
Qed.

Lemma HasPrefix_app p s : HasPrefix (p ++ s) p = true.
Proof. induction p as [|b p IH]; [by destruct s|]. cbn. by rewrite bool_decide_true. Qed.

Lemma TrimPrefix_app p s : TrimPrefix (p ++ s) p = s.
Proof. unfold TrimPrefix. by rewrite HasPrefix_app, drop_app_length. Qed.

(** ** Settings in a path *)

(** A setting with the separator and the escape character escaped. *)
Definition escape_setting (s : gostring) : gostring :=
  flat_map (fun b => if decide (b = "\"%byte \/ b = ";"%byte) then ["\"%byte; b] else [b]) s.

Lemma split_loop_escaped seg x rest : split_loop seg (escape_setting x ++ rest) = split_loop (seg ++ x) rest.
Proof.
  revert seg. induction x as [|b x IH]; intros seg; [by rewrite app_nil_r|].
  cbn [escape_setting flat_map]. fold (escape_setting x). rewrite <- app_assoc.
  replace (seg ++ b :: x) with ((seg ++ [b]) ++ x) by by rewrite <- app_assoc.
  destruct (decide (b = "\"%byte \/ b = ";"%byte)) as [Hb|Hb]; cbn [app split_loop].
  - by rewrite decide_True.
  - rewrite !decide_False by tauto. done.
Qed.

(** Splitting undoes escaping and joining, whatever the settings contain. *)
Lemma splitSettingSegments_join s segs :
  splitSettingSegments (escape_setting s ++ flat_map (fun x => ";"%byte :: escape_setting x) segs) = s :: segs.
Proof.
  unfold splitSettingSegments. change s with ([] ++ s) at 2. generalize (@nil byte) as seg.
  revert s. induction segs as [|x segs IH]; intros s seg; rewrite split_loop_escaped; [done|].
  cbn [flat_map app split_loop]. rewrite decide_False, decide_True by done. f_equal. apply (IH x []).
Qed.

(** ** Escapes in a path *)

Definition path_safe (b : byte) : bool := alnum (b2z b) || bool_decide (b ∈ lit "/;=\-_.~").

Definition pct (b : byte) : gostring := ["%"%byte; digit_char (b2z b / 16); digit_char (b2z b mod 16)].

Definition path_escape (s : gostring) : gostring := flat_map (fun b => if path_safe b then [b] else pct b) s.

(** A byte that ends neither the path nor the URL. *)
Definition path_byte (b : byte) : bool := negb (is_ctl b) && negb (bool_decide (b ∈ lit "#?")).

Lemma escaped_byte b :
  forallb path_byte (if path_safe b then [b] else pct b) = true /\
  (path_safe b = true -> b <> "%"%byte /\ b <> "+"%byte) /\
  digit_val 16 (digit_char (b2z b / 16)) = Some (b2z b / 16) /\
  digit_val 16 (digit_char (b2z b mod 16)) = Some (b2z b mod 16) /\
  z2b (16 * (b2z b / 16) + b2z b mod 16) = b.
Proof. destruct b; vm_compute; split_and!; try reflexivity; done. Qed.

Lemma path_escape_bytes s : forallb path_byte (path_escape s) = true.
Proof.
  induction s as [|b s IH]; [done|]. cbn [path_escape flat_map]. fold (path_escape s).
  rewrite forallb_app, IH, andb_true_r. apply (escaped_byte b).
Qed.

Lemma unescape_path s : unescape encodePath (path_escape s) = Ok s.
Proof.
  induction s as [|b s IH]; [done|]. cbn [path_escape flat_map]. fold (path_escape s).
  destruct (escaped_byte b) as (_ & Hs & H1 & H2 & Hz).
  destruct (path_safe b); cbn [app pct unescape].
  - destruct Hs as [Hp Hq]; [done|]. rewrite decide_False by done. rewrite decide_False by (intros [? [=]]).
    cbn. by rewrite IH.
  - rewrite decide_True by done. rewrite H1, H2. cbn [escape_forbidden]. rewrite IH. cbn. by rewrite Hz.
Qed.

Lemma forallb_not_elem {A} (f : A -> bool) l x : forallb f l = true -> f x = false -> x ∉ l.
Proof. intros Hl Hx Hin. rewrite forallb_forall in Hl. apply list_elem_of_In, Hl in Hin. congruence. Qed.

Lemma forallb_mono {A} (f g : A -> bool) l :
  (forall x, f x = true -> g x = true) -> forallb f l = true -> forallb g l = true.
Proof. rewrite !forallb_forall. auto. Qed.

(** ** The URL of a server *)

(** A host name: letters, digits, and the other characters of names and IPv4 addresses. *)
Definition name_byte (b : byte) : bool := alnum (b2z b) || bool_decide (b ∈ lit "-._").

Lemma name_byte_host b : name_byte b = true -> host_char b = true /\ is_ctl b = false /\ b <> "%"%byte /\ b <> "+"%byte.
Proof. intros H. destruct b; vm_compute in H; try discriminate; split_and!; done. Qed.

Definition digit_byte (b : byte) : bool := GoText.between 48 (b2z b) 57.

Lemma digit_byte_name b : digit_byte b = true -> name_byte b = true.
Proof. intros H. destruct b; vm_compute in H; try discriminate; done. Qed.

Lemma unescape_host s :
  forallb (fun b => name_byte b || bool_decide (b = ":"%byte)) s = true -> unescape encodeHost s = Ok s.
Proof.
  induction s as [|b s IH]; [done|]. cbn [forallb]. intros [Hb Hs]%andb_true_iff. cbn [unescape].
  assert (H : host_char b = true /\ b <> "%"%byte).
  { apply orb_true_iff in Hb as [Hb|Hb]; [destruct (name_byte_host b Hb) as (?&?&?&?); done|].
    apply bool_decide_eq_true in Hb as ->. by vm_compute. }
  destruct H as [H1 H2]. rewrite decide_False by done. rewrite decide_False by (intros [? [=]]).
  rewrite H1. cbn [negb]. rewrite andb_false_r, IH by done. done.
Qed.

Definition scheme_of (tls : bool) : gostring := if tls then lit "ssl" else lit "tcp".

Section ServerUrl.
Context (host port : gostring).
Context (Hhost : host <> []) (Hname : forallb name_byte host = true) (Hport : forallb digit_byte port = true).

Lemma port_names : forallb name_byte port = true.
Proof using Hport. exact (forallb_mono _ _ _ digit_byte_name Hport). Qed.

Lemma server_not_elem c : name_byte c = false -> c <> ":"%byte -> c ∉ host ++ ":"%byte :: port.
Proof using Hname Hport.
  intros Hc Hne. rewrite not_elem_of_app, not_elem_of_cons. split_and!;
    [by eapply forallb_not_elem|done|eapply forallb_not_elem; [apply port_names|done]].
Qed.

Lemma parseHost_server : parseHost (host ++ ":"%byte :: port) = Ok (host ++ ":"%byte :: port).
Proof using Hhost Hname Hport.
  unfold parseHost.
  assert (Hb : HasPrefix (host ++ ":"%byte :: port) (lit "[") = false).
  { destruct host as [|b h]; [done|]. cbn. rewrite bool_decide_false; [done|]. intros <-. by cbn in Hname. }
  rewrite Hb, cut_last_app by (eapply forallb_not_elem; [apply port_names|done]).
  cbn [validOptionalPort]. rewrite bool_decide_true by done. unfold digit_byte in Hport. rewrite Hport. cbn [andb negb].
  apply unescape_host. rewrite forallb_app. cbn [forallb]. rewrite bool_decide_true, orb_true_r by done.
  apply andb_true_iff. split; [|cbn [andb]]; (eapply (forallb_mono name_byte); [|exact Hname || exact port_names]);
    by intros x ->.
Qed.

Lemma splitHostPort_server : splitHostPort (host ++ ":"%byte :: port) = (host, port).
Proof using Hhost Hname Hport.
  unfold splitHostPort. rewrite cut_last_app by (eapply forallb_not_elem; [apply port_names|done]).
  cbn [validOptionalPort]. rewrite bool_decide_true by done. unfold digit_byte in Hport. rewrite Hport. cbn [andb].
  replace (HasPrefix host (lit "[")) with false; [done|].
  destruct host as [|b h]; [done|]. cbn. rewrite bool_decide_false; [done|]. intros <-. by cbn in Hname.
Qed.

Lemma existsb_false {A} (f : A -> bool) l : forallb (fun x => negb (f x)) l = true -> existsb f l = false.
Proof using. induction l as [|x l IH]; [done|]. cbn. rewrite andb_true_iff, negb_true_iff. intros [-> H]. auto. Qed.

(** The part of a server URL that follows the scheme. *)
Definition authority_path (path : gostring) : gostring :=
  host ++ ":"%byte :: port ++ "/"%byte :: path_escape path.

Lemma authority_path_bytes path : forallb path_byte (authority_path path) = true.
Proof using Hname Hport.
  unfold authority_path. rewrite forallb_app. cbn [forallb]. rewrite forallb_app. cbn [forallb].
  rewrite path_escape_bytes. assert (Hn : forall b, name_byte b = true -> path_byte b = true) by (intros []; done).
  rewrite (forallb_mono _ _ _ Hn Hname), (forallb_mono _ _ _ Hn port_names). done.
Qed.

Lemma parse_server tls path :
  parse (scheme_of tls ++ lit "://" ++ authority_path path)
  = Ok (mkURL (scheme_of tls) [] None (host ++ ":"%byte :: port) ("/"%byte :: path) []).
Proof using Hhost Hname Hport.
  pose proof (authority_path_bytes path) as Hbytes. unfold parse.
  rewrite existsb_false.
  2:{ rewrite !forallb_app. apply andb_true_iff. split; [by destruct tls|]. cbn [andb lit].
      apply andb_true_iff. split; [done|]. eapply forallb_mono; [|exact Hbytes]. unfold path_byte. intros b.
      by rewrite andb_true_iff; intros []. }
  rewrite decide_False by (destruct tls; done).
  replace (getScheme (scheme_of tls ++ lit "://" ++ authority_path path))
    with (Ok (scheme_of tls, lit "//" ++ authority_path path)) by (by destruct tls).
  cbn [bindR]. unfold splitQuery, Cut.
  rewrite cut_none.
  2:{ rewrite not_elem_of_app. split; [by apply (bool_decide_unpack _)|].
      eapply forallb_not_elem; [exact Hbytes|done]. }
  replace (lower_ascii (scheme_of tls)) with (scheme_of tls) by (by destruct tls).
  cbn [default from_option]. replace (bool_decide (scheme_of tls = [])) with false by (by destruct tls).
  rewrite (HasPrefix_app (lit "//")). change (HasPrefix (lit "//" ++ authority_path path) (lit "/")) with true.
  change (drop 2 (lit "//" ++ authority_path path)) with (authority_path path). cbn [negb andb orb].
  replace (authority_path path) with ((host ++ ":"%byte :: port) ++ "/"%byte :: path_escape path)
    by (unfold authority_path; by rewrite <- app_assoc).
  rewrite cut_app by (by apply server_not_elem). unfold parseAuthority.
  rewrite cut_last_none by (by apply server_not_elem). rewrite parseHost_server. cbn [bindR].
  replace (unescape encodePath ("/"%byte :: path_escape path)) with (Ok ("/"%byte :: path)); [done|].
  symmetry. apply (unescape_path ("/"%byte :: path)).
Qed.

Lemma Parse_server tls path :
  Parse (scheme_of tls ++ lit "://" ++ authority_path path)
  = Ok (mkURL (scheme_of tls) [] None (host ++ ":"%byte :: port) ("/"%byte :: path) []).
Proof using Hhost Hname Hport.
  unfold Parse, Cut. rewrite cut_none; [cbn [default from_option]; by rewrite parse_server|].
  rewrite !not_elem_of_app. split_and!; [destruct tls; by apply (bool_decide_unpack _)..|].
  eapply forallb_not_elem; [apply authority_path_bytes|done].
Qed.
End ServerUrl.

(** ** Settings up to case *)

Lemma foldR_app {A B} (f : A -> B -> res A) a l1 l2 :
  foldR f a (l1 ++ l2) = bindR (foldR f a l1) (fun a' => foldR f a' l2).
Proof. revert a. induction l1 as [|b l1 IH]; intros a; [done|]. cbn. destruct (f a b); [apply IH|done]. Qed.

Section Settings.
Context `{HU : Unicode} `{HO : MapOrder} `{HL : !MapOrderLaw HO}.

Lemma EqualFold_sym a b : EqualFold a b = EqualFold b a.
Proof using.
  unfold EqualFold. generalize (runes a) as x, (runes b) as y. induction x as [|r x IH]; intros [|r' y]; try done.
  cbn. rewrite IH. f_equal. unfold fold_rune. by rewrite Z.min_comm, Z.max_comm.
Qed.

Lemma EqualFold_length a b : EqualFold a b = true -> length (runes a) = length (runes b).
Proof using.
  unfold EqualFold. generalize (runes a) as x, (runes b) as y. induction x as [|r x IH]; intros [|r' y]; try done.
  cbn. rewrite andb_true_iff. intros [_ H]. f_equal. auto.
Qed.

Lemma user_not_password k : EqualFold k (lit "USER") = true -> EqualFold k (lit "PASSWORD") = false.
Proof using.
  intros Hu%EqualFold_length. apply not_true_iff_false. intros Hp%EqualFold_length. by rewrite Hu in Hp.
Qed.

(** No two keys are the same up to case. *)
Definition distinct_keys (params : ParamMap) : Prop :=
  ForallOrdPairs (fun a b => EqualFold a.1 b.1 = false) params.

Definition fresh_key (k : gostring) (params : ParamMap) : Prop := Forall (fun kv => EqualFold kv.1 k = false) params.

Lemma setParam_cases params k v :
  (fresh_key k params /\ setParam params k v = Ok (params ++ [(k, v)])) \/
  (exists k' v', (k', v') ∈ params /\ EqualFold k' k = true /\
     setParam params k v = if decide (v' = v) then Ok params
       else Err (EErrorf "duplicate DSN setting %q with conflicting values %q and %q" [AStr k; AStr v'; AStr v])).
Proof using HL.
  unfold setParam, find_param. destruct (List.find _ (range_map params)) as [[k' v']|] eqn:E.
  - right. apply List.find_some in E as [Hin%list_elem_of_In Hf]. exists k', v'. by rewrite range_perm in Hin.
  - left. split; [|done]. apply Forall_forall. intros kv Hin. rewrite <- (range_perm params) in Hin.
    by apply (List.find_none _ _ E), list_elem_of_In.
Qed.

Lemma setParam_fresh params k v : fresh_key k params -> setParam params k v = Ok (params ++ [(k, v)]).
Proof using HL.
  intros Hf. destruct (setParam_cases params k v) as [[_ E]|(k' & v' & Hin & Hk & _)]; [done|].
  pose proof (proj1 (Forall_forall _ _) Hf _ Hin) as Hn. cbn [fst] in Hn. congruence.
Qed.

Lemma distinct_keys_snoc params kv : distinct_keys (params ++ [kv]) <-> distinct_keys params /\ fresh_key kv.1 params.
Proof using.
  unfold distinct_keys, fresh_key. induction params as [|x params IH]; cbn.
  { split; [by repeat constructor|]. intros _. repeat constructor. }
  split.
  - intros H. inversion H as [|? ? Hx Hp]; subst. apply Forall_app in Hx as [Hx Hkv]. apply IH in Hp as [Hp Hf].
    rewrite Forall_singleton in Hkv. split; by constructor.
  - intros [H Hf]. inversion H; subst. inversion Hf; subst. constructor; [|by apply IH].
    apply Forall_app. split; [done|]. by rewrite Forall_singleton.
Qed.

Lemma setParam_distinct params k v params' :
  distinct_keys params -> setParam params k v = Ok params' -> distinct_keys params'.
Proof using HL.
  intros Hd. destruct (setParam_cases params k v) as [[Hf ->]|(k' & v' & _ & _ & ->)].
  - intros [= <-]. by apply distinct_keys_snoc.
  - destruct (decide (v' = v)); [by intros [= <-]|done].
Qed.

(** ** Validation *)

Definition consumed : list gostring := [lit "IGNORE_UNKNOWN_SETTINGS"; lit "USER"; lit "PASSWORD"].

(** A setting the driver or the server knows, with a number where one is needed. *)
Definition accepted (kv : gostring * gostring) : Prop :=
  ToUpper kv.1 ∈ consumed ++ forwardSettings ++ localOnlySettings \/
  (ToUpper kv.1 = lit "QUERY_TIMEOUT" /\ is_Some (ParseInt (TrimSpace kv.2))).

Definition ignores_unknown (kv : gostring * gostring) : Prop :=
  ToUpper kv.1 = lit "IGNORE_UNKNOWN_SETTINGS" /\ isTruthy kv.2 = true.

Definition timeout_ok (kv : gostring * gostring) : Prop :=
  ToUpper kv.1 = lit "QUERY_TIMEOUT" -> is_Some (ParseInt (TrimSpace kv.2)).

(** What one entry does, by the kind of setting it is. *)
Lemma validateParam_cases ig unk kv :
  (accepted kv /\ timeout_ok kv /\
     exists ig', validateParam (ig, unk) kv = Ok (ig', unk) /\ (ig' = true -> ig = true \/ ignores_unknown kv)) \/
  (~ accepted kv /\ timeout_ok kv /\ validateParam (ig, unk) kv = Ok (ig, unk ++ [kv.1])) \/
  (~ accepted kv /\ ~ timeout_ok kv /\ exists e, validateParam (ig, unk) kv = Err e).
Proof using.
  clear HL HO. destruct kv as [k v]. unfold validateParam, accepted, timeout_ok, ignores_unknown, consumed. cbn [fst snd].
  set (up := ToUpper k). rewrite !elem_of_app.
  destruct (decide (up = lit "IGNORE_UNKNOWN_SETTINGS")) as [E|H1].
  { left. rewrite E. split_and!; [left; left; left|done|eexists; split; [done|auto]]. }
  destruct (decide (up = lit "USER" \/ up = lit "PASSWORD")) as [E|H2].
  { left. split_and!; [left; left; destruct E as [-> | ->]; set_solver|destruct E as [-> | ->]; done|eauto]. }
  destruct (decide (up = lit "QUERY_TIMEOUT")) as [E|H3].
  { destruct (ParseInt (TrimSpace v)) as [n|] eqn:En; [left; split_and!; eauto|].
    right; right. rewrite E. split_and!; [intros [Hin|[_ [? ?]]]; [|done]| |eauto].
    - revert Hin. rewrite <- !elem_of_app. by apply (bool_decide_unpack (~ _)).
    - intros Ht. by destruct (Ht eq_refl). }
  destruct (decide ((up ∉ forwardSettings) /\ (up ∉ localOnlySettings))) as [[H4 H5]|H4].
  - right; left. split_and!; [|done|done]. intros [[Hin|[?|?]]|[? _]]; [set_solver|done|done|done].
  - left. split_and!; [|done|eauto]. left. right.
    destruct (decide (up ∈ forwardSettings)); [by left|]. destruct (decide (up ∈ localOnlySettings)); [by right|tauto].
Qed.

Lemma validate_loop l ig unk :
  match foldR validateParam (ig, unk) l with
  | Ok (ig', unk') =>
      Forall timeout_ok l /\ (ig' = true -> ig = true \/ Exists ignores_unknown l) /\
      (unk' = [] <-> unk = [] /\ Forall accepted l)
  | Err _ => ~ Forall accepted l
  end.
Proof using.
  revert ig unk. induction l as [|kv l IH]; intros ig unk; cbn [foldR].
  { split_and!; [constructor|by left|]. split; [by intros ->|by intros []]. }
  destruct (validateParam_cases ig unk kv) as [(Ha & Ht & ig1 & -> & Hig)|[(Ha & Ht & ->)|(Ha & Ht & e & ->)]];
    cbn [bindR]; [..|rewrite Forall_cons; tauto].
  - specialize (IH ig1 unk). destruct (foldR validateParam (ig1, unk) l) as [[ig' unk']|e'].
    + destruct IH as (H1 & H2 & H3). split_and!; [by constructor| |].
      * intros Hi. destruct (H2 Hi) as [Hi1|Hx]; [|by right; right]. destruct (Hig Hi1); [by left|by right; left].
      * rewrite H3, Forall_cons. tauto.
    + rewrite Forall_cons. tauto.
  - specialize (IH ig (unk ++ [kv.1])). destruct (foldR validateParam (ig, unk ++ [kv.1]) l) as [[ig' unk']|e'].
    + destruct IH as (H1 & H2 & H3). split_and!; [by constructor| |].
      * intros Hi. destruct (H2 Hi) as [Hi1|Hx]; [by left|by right; right].
      * rewrite H3, Forall_cons. split; [|tauto]. intros [Hn _]. by destruct unk.
    + rewrite Forall_cons. tauto.
Qed.

(** Known settings pass; what passes is known, or the text asks to ignore the rest. *)
Lemma validateParams_accepts params : Forall accepted params -> validateParams params = Ok tt.
Proof using HL.
  intros Ha. unfold validateParams. pose proof (validate_loop (range_map params) false []) as H.
  assert (Ha' : Forall accepted (range_map params)) by (by rewrite range_perm).
  destruct (foldR validateParam (false, []) (range_map params)) as [[ig unk]|e]; [|done].
  cbn [bindR]. by rewrite decide_True by (by apply H).
Qed.

Lemma validateParams_sound params :
  validateParams params = Ok tt ->
  Forall timeout_ok params /\ (Forall accepted params \/ Exists ignores_unknown params).
Proof using HL.
  unfold validateParams. pose proof (validate_loop (range_map params) false []) as H.
  destruct (foldR validateParam (false, []) (range_map params)) as [[ig unk]|e]; [|done].
  cbn [bindR]. destruct H as (H1 & H2 & H3). rewrite !range_perm in H1, H3. intros Hok. split; [done|].
  destruct (decide (unk = [])) as [Hn|Hn]; [left; by apply H3|right].
  destruct ig; [|done]. destruct (H2 eq_refl) as [?|Hx]; [done|]. by rewrite range_perm in Hx.
Qed.

Lemma validate_inv cfg cfg' :
  validate cfg = Ok cfg' ->
  cfg' = cfg /\ cfg_Host cfg <> [] /\ (exists p, ParseInt (cfg_Port cfg) = Some p /\ 1 <= p <= 65535) /\
  Forall timeout_ok (cfg_Params cfg) /\ (Forall accepted (cfg_Params cfg) \/ Exists ignores_unknown (cfg_Params cfg)).
Proof using HL.
  unfold validate. destruct (decide (cfg_Host cfg = [])) as [?|Hh]; [done|].
  destruct (ParseInt (cfg_Port cfg)) as [p|]; [|done].
  destruct ((p <? 1) || (65535 <? p)) eqn:Ep; [done|]. destruct (validateParams (cfg_Params cfg)) as [[]|e] eqn:Ev; [|done].
  intros [= <-]. apply validateParams_sound in Ev as [H1 H2]. split_and!; [done|done| |done|done].
  exists p. split; [done|]. lia.
Qed.

(** ** The loops over the settings *)

Lemma parseSetting_distinct st p st' :
  distinct_keys st.1.1 -> parseSetting st p = Ok st' -> distinct_keys st'.1.1.
Proof using HL.
  destruct st as [[params user] pw]. unfold parseSetting. intros Hd. destruct (decide (p = [])); [by intros [= <-]|].
  destruct (cut "="%byte p) as [[k v]|]; [|done].
  destruct (setParam params k v) as [params'|] eqn:E; [|done]. intros [= <-]. by eapply setParam_distinct.
Qed.

Lemma foldR_inv {A B} (P : A -> Prop) (f : A -> B -> res A) l a a' :
  (forall a b a', P a -> f a b = Ok a' -> P a') -> P a -> foldR f a l = Ok a' -> P a'.
Proof using.
  intros Hf. revert a. induction l as [|b l IH]; intros a Ha; cbn; [by intros [= <-]|].
  destruct (f a b) as [a1|] eqn:E; [|done]. apply IH. by eapply Hf.
Qed.

(** The value of the setting with this name up to case; the last one, should there be more. *)
Definition credential (name : gostring) (settings : ParamMap) : gostring :=
  fold_left (fun acc kv => if EqualFold kv.1 name then kv.2 else acc) settings [].

Definition spell (kv : gostring * gostring) : gostring := kv.1 ++ "="%byte :: kv.2.

Lemma parseSettings_spelled settings params user pw :
  distinct_keys (params ++ settings) -> Forall (fun kv => "="%byte ∉ kv.1) settings ->
  foldR parseSetting (params, user, pw) (map spell settings)
  = Ok (params ++ settings, fold_left (fun acc kv => if EqualFold kv.1 (lit "USER") then kv.2 else acc) settings user,
        fold_left (fun acc kv => if EqualFold kv.1 (lit "PASSWORD") then kv.2 else acc) settings pw).
Proof using HL.
  revert params user pw. induction settings as [|[k v] settings IH]; intros params user pw Hd Hk; cbn [map foldR].
  { by rewrite app_nil_r. }
  inversion Hk as [|? ? Hk1 Hk2]; subst. unfold parseSetting at 1.
  rewrite decide_False by (unfold spell; by destruct k). unfold spell at 1. cbn [fst snd] in *. rewrite cut_app by done.
  assert (Hd' : distinct_keys ((params ++ [(k, v)]) ++ settings)) by (by rewrite <- app_assoc).
  assert (Hf : fresh_key k params).
  { clear -Hd. unfold distinct_keys in Hd. unfold fresh_key. induction params as [|x params IHp]; [constructor|].
    cbn in Hd. inversion Hd as [|? ? Hx Hp]; subst. constructor; [|auto].
    apply Forall_app in Hx as [_ Hx]. by inversion Hx. }
  rewrite (setParam_fresh _ _ _ Hf). cbn [bindR fold_left fst snd]. rewrite IH by done. rewrite <- app_assoc. cbn [app].
  destruct (EqualFold k (lit "USER")) eqn:Eu; [rewrite (user_not_password _ Eu)|]; done.
Qed.
End Settings.

(** ** Theorems on data source names *)

(** A JDBC URL that names a server, a database and settings. *)
Definition jdbc_url (tls : bool) (host : gostring) (port : Z) (db : gostring) (settings : ParamMap) : gostring :=
  lit "jdbc:h2:" ++ scheme_of tls ++ lit "://" ++
  authority_path host (FormatInt port)
    (escape_setting db ++ flat_map (fun x => ";"%byte :: escape_setting x) (map spell settings)).

Lemma FormatInt_digits port : 0 <= port -> forallb digit_byte (FormatInt port) = true.
Proof.
  intros Hp. unfold FormatInt. replace (port <? 0) with false by lia. apply forallb_forall.
  intros b Hb%list_elem_of_In. by apply (digits_char_range port).
Qed.

Lemma FormatInt_nonempty port : FormatInt port <> [].
Proof.
  unfold FormatInt. destruct (port <? 0) eqn:E; [done|]. intros H.
  destruct (digits_spells 10 port ltac:(lia) ltac:(lia)) as [Hl _ _ _ _]. rewrite H in Hl. by apply (Zle_not_lt _ _ Hl).
Qed.

(** Parsing such a URL. *)
Lemma ParseDSN_jdbc_url `{Unicode} `{MapOrder} `{!MapOrderLaw _} tls host port db settings :
  host <> [] -> forallb name_byte host = true -> 1 <= port <= 65535 ->
  distinct_keys settings -> Forall accepted settings -> Forall (fun kv => "="%byte ∉ kv.1) settings ->
  let url := jdbc_url tls host port db settings in
  ParseDSN url = Ok (parsed_config url host (FormatInt port) db (credential (lit "USER") settings)
                       (credential (lit "PASSWORD") settings) settings tls).
Proof.
  intros Hh Hn Hp Hd Ha Hk url. unfold ParseDSN.
  rewrite decide_False by done. unfold url at 1, jdbc_url at 1. rewrite HasPrefix_app. unfold parseJDBC.
  set (path := escape_setting db ++ flat_map (fun x => ";"%byte :: escape_setting x) (map spell settings)).
  set (inner := scheme_of tls ++ lit "://" ++ authority_path host (FormatInt port) path).
  replace (TrimPrefix url (lit "jdbc:h2:")) with inner by (symmetry; apply TrimPrefix_app).
  replace (HasPrefix inner (lit "mem:")) with false by (by destruct tls).
  replace (HasPrefix inner (lit "file:")) with false by (by destruct tls).
  replace (HasPrefix inner (lit "tcp:")) with (negb tls) by (by destruct tls).
  replace (HasPrefix inner (lit "ssl:")) with tls by (by destruct tls).
  replace (negb tls && negb (negb tls)) with false by (by destruct tls). cbn [orb].
  pose proof (FormatInt_digits port ltac:(lia)) as Hdig. unfold inner. rewrite Parse_server by done.
  unfold Port, Hostname. cbn [URL_Host URL_Path]. rewrite splitHostPort_server by done. cbn [fst snd].
  rewrite decide_False by apply FormatInt_nonempty.
  replace (splitSettingSegments ("/"%byte :: path)) with (("/"%byte :: db) :: map spell settings)
    by (symmetry; apply (splitSettingSegments_join ("/"%byte :: db))).
  cbn [hd tail]. rewrite (parseSettings_spelled settings [] [] []) by done.
  change (TrimPrefix ("/"%byte :: db) (lit "/")) with (TrimPrefix (lit "/" ++ db) (lit "/")). rewrite TrimPrefix_app.
  cbn [bindR app]. unfold validate. cbn [cfg_Host cfg_Port cfg_Params parsed_config].
  rewrite decide_False, ParseInt_FormatInt by (done || unfold in_intN; lia).
  replace ((port <? 1) || (65535 <? port)) with false by lia. by rewrite validateParams_accepts.
Qed.

(** C16 (roundtrip). A JDBC URL written for a server, a port, a database and settings with
    arbitrary values (the reserved characters of paths percent-escaped, the separator and
    the escape character of settings escaped with a backslash) parses to exactly these,
    in every order of iterating over maps: nothing is lost in the database name or the
    values, the user and the password are the settings of these names in any case, and
    TLS is on for the [ssl] scheme only. *)
Theorem ParseDSN_roundtrip `{Unicode} `{MapOrder} `{!MapOrderLaw _} tls host port db settings :
  host <> [] -> forallb name_byte host = true -> 1 <= port <= 65535 ->
  distinct_keys settings -> Forall accepted settings -> Forall (fun kv => "="%byte ∉ kv.1) settings ->
  let url := jdbc_url tls host port db settings in
  ParseDSN url = Ok (parsed_config url host (FormatInt port) db (credential (lit "USER") settings)
                       (credential (lit "PASSWORD") settings) settings tls).
Proof. by apply ParseDSN_jdbc_url. Qed.

Definition sample_settings : ParamMap :=
  [(lit "user", lit "sa"); (lit "Password", lit "p;q#100%"); (lit "INIT", lit "RUNSCRIPT 'a\b'; SET X ?")].

Lemma ParseDSN_roundtrip_witness :
  let url := jdbc_url true (lit "db.example") 9092 (lit "~/my db") sample_settings in
  url = lit "jdbc:h2:ssl://db.example:9092/~/my%20db;user=sa;Password=p\;q%23100%25;INIT=RUNSCRIPT%20%27a\\b%27\;%20SET%20X%20%3f" /\
  @ParseDSN latin1 backwards url
  = Ok (parsed_config url (lit "db.example") (lit "9092") (lit "~/my db") (lit "sa") (lit "p;q#100%") sample_settings true).
Proof.
  split; [vm_compute; reflexivity|].
  apply (@ParseDSN_roundtrip latin1 backwards _ true (lit "db.example") 9092 (lit "~/my db") sample_settings);
    [done|vm_compute; reflexivity|lia| | |].
  - repeat constructor.
  - repeat constructor; (left; apply (bool_decide_unpack _); vm_compute; reflexivity).
  - repeat constructor; (apply (bool_decide_unpack _); vm_compute; reflexivity).
Defined.

(** The settings a parse ends with have distinct keys, in either form. *)
Lemma parseJDBC_inv `{Unicode} `{MapOrder} `{!MapOrderLaw _} input cfg :
  parseJDBC input = Ok cfg -> exists cfg0, validate cfg0 = Ok cfg /\ cfg_OriginalURL cfg0 = input /\ distinct_keys (cfg_Params cfg0).
Proof.
  unfold parseJDBC. destruct (_ || _); [done|]. destruct (_ && _); [done|]. destruct (Parse _) as [u|]; [|done].
  destruct (foldR parseSetting _ _) as [[[params user] pw]|] eqn:E; [|done]. cbn [bindR]. intros Hv.
  eexists. split; [exact Hv|]. split; [done|].
  eapply (foldR_inv (fun st : ParamMap * gostring * gostring => distinct_keys st.1.1) parseSetting _ _ (params, user, pw));
    [exact parseSetting_distinct| |exact E]. constructor.
Qed.

Lemma parseNative_inv `{Unicode} `{MapOrder} `{!MapOrderLaw _} input cfg :
  parseNative input = Ok cfg -> exists cfg0, validate cfg0 = Ok cfg /\ cfg_OriginalURL cfg0 = input /\ distinct_keys (cfg_Params cfg0).
Proof.
  unfold parseNative. destruct (Parse _) as [u|]; [|done].
  destruct (match URL_User u with Some _ => _ | None => _ end) as [user pw].
  match goal with |- context [bindR ?m _] => destruct m as [params|] eqn:E end; [|done]. cbn [bindR]. intros Hv.
  eexists. split; [exact Hv|]. split; [done|]. cbn [cfg_Params parsed_config].
  destruct (decide (URL_RawQuery u = [])); [injection E as <-; constructor|].
  eapply (foldR_inv distinct_keys); [|constructor|exact E].
  intros a [k [|v vs]] a' Hd; cbn; [by intros [= <-]|]. by apply setParam_distinct.
Qed.

(** C22 (invariant). Whatever text is given, a configuration that [ParseDSN] returns has
    a host, a port number between 1 and 65535, the text as its original URL, no two
    settings whose keys are the same up to case, a number for [QUERY_TIMEOUT], and only
    known settings unless one of them is a true [IGNORE_UNKNOWN_SETTINGS]. *)
Theorem ParseDSN_sound `{Unicode} `{MapOrder} `{!MapOrderLaw _} input cfg :
  ParseDSN input = Ok cfg ->
  cfg_Host cfg <> [] /\ (exists p, ParseInt (cfg_Port cfg) = Some p /\ 1 <= p <= 65535) /\
  cfg_OriginalURL cfg = input /\ distinct_keys (cfg_Params cfg) /\ Forall timeout_ok (cfg_Params cfg) /\
  (Forall accepted (cfg_Params cfg) \/ Exists ignores_unknown (cfg_Params cfg)).
Proof.
  unfold ParseDSN. destruct (decide (input = [])); [done|]. intros Hp.
  assert (Hv : exists cfg0, validate cfg0 = Ok cfg /\ cfg_OriginalURL cfg0 = input /\ distinct_keys (cfg_Params cfg0)).
  { destruct (HasPrefix input (lit "jdbc:h2:")); [by apply parseJDBC_inv|].
    destruct (_ || _ || _); [by apply parseNative_inv|done]. }
  destruct Hv as (cfg0 & Hv & Hu & Hd). apply validate_inv in Hv as (-> & H1 & H2 & H3 & H4). done.
Qed.

Lemma ParseDSN_sound_witness :
  exists cfg, @ParseDSN latin1 in_order (lit "h2+ssl://sa@[::1]/db?mode=x&FOO=1&IGNORE_UNKNOWN_SETTINGS=yes") = Ok cfg /\
    cfg_Host cfg = lit "::1" /\ cfg_TLS cfg = true /\ Exists (@ignores_unknown latin1) (cfg_Params cfg).
Proof.
  eexists. split; [vm_compute; reflexivity|]. split; [reflexivity|]. split; [reflexivity|].
  destruct (@ParseDSN_sound latin1 in_order _ (lit "h2+ssl://sa@[::1]/db?mode=x&FOO=1&IGNORE_UNKNOWN_SETTINGS=yes") _
              ltac:(vm_compute; reflexivity)) as (_ & _ & _ & _ & _ & [Ha|Hx]); [|exact Hx].
  exfalso. apply Forall_cons in Ha as [_ [[Hf|[Hf _]] _]%Forall_cons]; [|by vm_compute in Hf].
  revert Hf. apply (bool_decide_unpack (~ _)). vm_compute. reflexivity.
Defined.

(** ** The property map *)

Lemma le_str_antisym a b : le_str a b -> le_str b a -> a = b.
Proof.
  unfold le_str. revert b. induction a as [|x a IH]; intros [|y b]; try done. cbn.
  rewrite !orb_true_iff, !andb_true_iff, !bool_decide_eq_true, !Z.ltb_lt.
  intros [?|[-> ?]] [?|[? ?]]; subst; try lia. f_equal. auto.
Qed.

#[export] Instance le_str_total : Total le_str.
Proof.
  intros a. unfold le_str. induction a as [|x a IH]; intros [|y b]; cbn; auto.
  rewrite !orb_true_iff, !andb_true_iff, !bool_decide_eq_true, !Z.ltb_lt.
  destruct (Z.lt_trichotomy (b2z x) (b2z y)) as [?|[E%b2z_inj|?]]; [auto|subst|auto].
  destruct (IH b); auto.
Qed.

#[export] Instance le_str_trans : Transitive le_str.
Proof.
  intros a. unfold le_str. induction a as [|x a IH]; intros [|y b] [|z c]; try done. cbn.
  rewrite !orb_true_iff, !andb_true_iff, !bool_decide_eq_true, !Z.ltb_lt.
  intros [?|[-> ?]] [?|[-> ?]]; [left; lia|auto|auto|]. right. eauto.
Qed.

#[export] Instance le_key_total : Total le_key.
Proof. intros a b. apply le_str_total. Qed.
#[export] Instance le_key_trans : Transitive le_key.
Proof. intros a b c. apply le_str_trans. Qed.

(** The keys a map of settings is sent with. *)
Definition upper_keys `{Unicode} (params : ParamMap) : list gostring := map (fun kv => ToUpper kv.1) params.

Lemma forwarded_keys `{Unicode} params : NoDup (upper_keys params) -> NoDup (map fst (flat_map forwarded params)).
Proof.
  intros Hn. assert (Hsub : forall l, map fst (flat_map forwarded l) `sublist_of` upper_keys l).
  { induction l as [|kv l IH]; cbn [flat_map upper_keys map]; [constructor|]. rewrite map_app.
    fold (upper_keys l). unfold forwarded at 1. repeat case_decide; cbn; by constructor. }
  by eapply sublist_NoDup.
Qed.

Lemma sorted_by_key_unique l1 l2 :
  NoDup (map fst l1) -> StronglySorted le_key l1 -> StronglySorted le_key l2 -> l1 ≡ₚ l2 -> l1 = l2.
Proof.
  intros Hn H1 H2 Hp. eapply (StronglySorted_unique_strong le_key); eauto.
  intros [k1 v1] [k2 v2] Hi1 Hi2 Ha Hb. rewrite <- Hp in Hi2. unfold le_key in *. cbn in *.
  pose proof (le_str_antisym _ _ Ha Hb) as ->. f_equal.
  apply list_elem_of_lookup in Hi1 as [i Hi], Hi2 as [j Hj].
  assert (Hij : i = j).
  { eapply (NoDup_lookup (map fst l1)); [done| |]; rewrite list_lookup_fmap; [by rewrite Hi|by rewrite Hj]. }
  subst. congruence.
Qed.

(** The property map of a handshake does not depend on the order in
    which Go iterates over the settings, nor on the one they were given in: it holds the
    settings the server enforces, with their keys in upper case and their values as they
    are, in increasing order of the keys. *)
Theorem sessionPropertyMap_canonical `{Unicode} (o1 o2 : MapOrder) `{!MapOrderLaw o1} `{!MapOrderLaw o2} params1 params2 :
  params1 ≡ₚ params2 -> NoDup (upper_keys params1) ->
  @sessionPropertyMap _ o1 params1 = @sessionPropertyMap _ o2 params2 /\
  StronglySorted le_key (@sessionPropertyMap _ o1 params1) /\
  (forall k v, (k, v) ∈ @sessionPropertyMap _ o1 params1 <->
     k ∈ forwardSettings /\ exists k', (k', v) ∈ params1 /\ ToUpper k' = k).
Proof.
  intros Hp Hn. unfold sessionPropertyMap. split_and!.
  - apply sorted_by_key_unique; try apply (StronglySorted_merge_sort le_key).
    + rewrite (merge_sort_Permutation le_key). apply forwarded_keys. unfold upper_keys. by rewrite range_perm.
    + rewrite !(merge_sort_Permutation le_key), !range_perm, Hp. done.
  - apply (StronglySorted_merge_sort le_key).
  - intros k v. rewrite (merge_sort_Permutation le_key), range_perm, list_elem_of_In, in_flat_map. unfold forwarded. split.
    + intros ([k' v'] & Hin & Hf). repeat case_decide; cbn in Hf; [done| |done].
      destruct Hf as [[= <- <-]|[]]. split; [done|]. exists k'. by rewrite list_elem_of_In.
    + intros (Hk & k' & Hin & Hu). exists (k', v). rewrite <- list_elem_of_In. split; [done|]. cbn [fst snd]. rewrite Hu.
      rewrite decide_False, decide_True by (done || (intros ->; revert Hk; by apply (bool_decide_unpack (~ _)))). by left.
Qed.

Lemma sessionPropertyMap_canonical_witness :
  let params := [(lit "user", lit "sa"); (lit "Mode", lit "MySQL"); (lit "IfExists", lit "TRUE")] in
  @sessionPropertyMap latin1 in_order params = [(lit "IFEXISTS", lit "TRUE"); (lit "MODE", lit "MySQL")] /\
  @sessionPropertyMap latin1 in_order params = @sessionPropertyMap latin1 backwards (reverse params).
Proof.
  split; [vm_compute; reflexivity|].
  apply (@sessionPropertyMap_canonical latin1 in_order backwards _ _
           [(lit "user", lit "sa"); (lit "Mode", lit "MySQL"); (lit "IfExists", lit "TRUE")]).
  - symmetry. apply reverse_Permutation.
  - apply (bool_decide_unpack _). vm_compute. reflexivity.
Defined.

(** ** Reserved characters of URLs in the JDBC form *)

Lemma HasPrefix_before c x y p : c ∉ p -> HasPrefix (x ++ c :: y) p = HasPrefix x p.
Proof.
  revert x. induction p as [|b p IH]; intros x Hc; [by destruct x, y|].
  apply not_elem_of_cons in Hc as [Hb Hp]. destruct x as [|a x]; cbn.
  - by rewrite bool_decide_false.
  - by rewrite IH.
Qed.

Lemma unescape_plain mode s : is_host mode = false -> mode <> encodeQueryComponent -> "%"%byte ∉ s -> unescape mode s = Ok s.
Proof.
  intros Hm Hq. induction s as [|b s IH]; intros Hs; [done|]. apply not_elem_of_cons in Hs as [Hb Hs]. cbn [unescape].
  rewrite !decide_False by (congruence || tauto). rewrite Hm. cbn [andb]. by rewrite IH.
Qed.

Lemma Parse_drops_fragment u frag url :
  "#"%byte ∉ u -> "%"%byte ∉ frag -> Parse u = Ok url -> Parse (u ++ "#"%byte :: frag) = Ok url.
Proof.
  intros Hu Hf. unfold Parse, Cut. rewrite (cut_none _ u), cut_app by done. cbn -[parse unescape].
  rewrite (unescape_plain encodeFragment frag) by done. by destruct (parse u).
Qed.

Definition set_url (url : gostring) (c : Config) : Config :=
  mkConfig (cfg_Host c) (cfg_Port c) (cfg_Database c) (cfg_User c) (cfg_Password c) (cfg_Params c) url
    (cfg_Logger c) (cfg_MaxRows c) (cfg_FetchSize c) (cfg_GeneratedKeysMode c) (cfg_GeneratedKeysModeSet c)
    (cfg_GeneratedKeysColumns c) (cfg_GeneratedKeysColumnNames c) (cfg_TLS c) (cfg_TLSServerName c)
    (cfg_TLSInsecureSkipVerify c) (cfg_TLSRootCAs c).

Lemma validate_set_url `{Unicode} `{MapOrder} url c cfg :
  validate c = Ok cfg -> validate (set_url url c) = Ok (set_url url cfg).
Proof.
  unfold validate. cbn [cfg_Host cfg_Port cfg_Params set_url]. destruct (decide _); [done|].
  destruct (ParseInt _); [|done]. destruct (_ || _); [done|]. destruct (validateParams _); [|done]. by intros [= <-].
Qed.

(** In the JDBC form everything from the first [#] on is taken for the
    fragment of a URL and dropped without an error: a password or another value that
    contains a [#] is silently cut there. *)
Theorem jdbc_text_after_hash_is_dropped `{Unicode} `{MapOrder} input rest cfg :
  HasPrefix input (lit "jdbc:h2:") = true -> "#"%byte ∉ input -> "%"%byte ∉ rest ->
  ParseDSN input = Ok cfg ->
  ParseDSN (input ++ "#"%byte :: rest) = Ok (set_url (input ++ "#"%byte :: rest) cfg).
Proof.
  intros Hpre Hh Hr. unfold ParseDSN. destruct (decide (input = [])) as [?|Hne]; [done|].
  rewrite decide_False by (by destruct input). rewrite HasPrefix_before by (by apply (bool_decide_unpack _)).
  rewrite Hpre. unfold parseJDBC.
  assert (Hin : exists inner, input = lit "jdbc:h2:" ++ inner).
  { clear -Hpre. revert Hpre. generalize (lit "jdbc:h2:") as p. intros p. revert input.
    induction p as [|b p IH]; intros input Hp; [by exists input|]. destruct input as [|a input]; [done|].
    cbn in Hp. apply andb_true_iff in Hp as [->%bool_decide_eq_true Hp]. destruct (IH _ Hp) as [x ->]. by exists x. }
  destruct Hin as [inner ->]. rewrite <- app_assoc, !TrimPrefix_app.
  rewrite !HasPrefix_before by (by apply (bool_decide_unpack _)). destruct (_ || _); [done|]. destruct (_ && _); [done|].
  rewrite not_elem_of_app in Hh. destruct Hh as [_ Hh].
  destruct (Parse inner) as [u|] eqn:Ep; [|done]. rewrite (Parse_drops_fragment _ _ _ Hh Hr Ep).
  destruct (foldR parseSetting _ _) as [[[params user] pw]|]; [|done]. cbn [bindR].
  apply (validate_set_url (lit "jdbc:h2:" ++ inner ++ "#"%byte :: rest)).
Qed.

Lemma jdbc_text_after_hash_is_dropped_witness :
  exists cfg, @ParseDSN latin1 in_order (lit "jdbc:h2:tcp://db/test;USER=sa;PASSWORD=pass" ++ "#"%byte :: lit "word;IFEXISTS=TRUE") = Ok cfg /\
    cfg_Password cfg = lit "pass" /\ cfg_Params cfg = [(lit "USER", lit "sa"); (lit "PASSWORD", lit "pass")].
Proof.
  eexists. split.
  - apply (@jdbc_text_after_hash_is_dropped latin1 in_order (lit "jdbc:h2:tcp://db/test;USER=sa;PASSWORD=pass") (lit "word;IFEXISTS=TRUE"));
      [reflexivity|by apply (bool_decide_unpack _)|by apply (bool_decide_unpack _)|vm_compute; reflexivity].
  - split; reflexivity.
Defined.
