(* ===== verification/Network.v ===== *)
(** * Opening connections (tls.go)

    The network and crypto/tls are the environment: [net_dial] is what dialing an address
    gives, [tls_handshake] what a client handshake (with the server name, whether
    verification is skipped, whether root certificates are given) makes of a connection. *)

From S2P Require Import Prelude.
From S2P Require Import GoText.
From S2P Require Import GoUrl.
From S2P Require Import Transfer.
From S2P Require Import Dsn.

Class Network := {
  net_dial : gostring -> res Transport;
  tls_handshake : gostring -> bool -> bool -> M Transport unit
}.

Definition addrForLog (cfg : Config) : gostring := JoinHostPort (cfg_Host cfg) (cfg_Port cfg).

Definition tls_name (cfg : Config) : gostring :=
  if decide (cfg_TLSServerName cfg = []) then cfg_Host cfg else cfg_TLSServerName cfg.

(** The connection becomes the one to use, or the raw one closed. *)
Definition wrapTLS `{Network} (cfg : Config) : M Transport unit := fun raw =>
  match tls_handshake (tls_name cfg) (cfg_TLSInsecureSkipVerify cfg) (cfg_TLSRootCAs cfg) raw with
  | (Ok _, tconn) => (Ok tt, tconn)
  | (Err err, _) =>
      (Err (EWrapf "h2go: tls handshake with %s: %w" [AStr (addrForLog cfg)] [err]), net_close raw)
  end.
