(* ===== verification/Auth.v ===== *)
(** * Password hashes (auth.go), with SHA-256 (crypto/sha256)

    SHA-256 is computed as FIPS 180-4 defines it; its constants are the first 32 bits of
    the fractional parts of square and cube roots of primes, and are computed as such.
    The known answers of the driver's tests evaluate. *)

From S2P Require Import Prelude.
From S2P Require Import GoText.
From S2P Require Import GoUrl.
From S2P Require Import Transfer.
From Stdlib Require Import Strings.Byte.

(** ** SHA-256 *)

Module Sha256.

Definition primes : list Z :=
  [2; 3; 5; 7; 11; 13; 17; 19; 23; 29; 31; 37; 41; 43; 47; 53; 59; 61; 67; 71; 73; 79; 83; 89; 97; 101; 103; 107;
   109; 113; 127; 131; 137; 139; 149; 151; 157; 163; 167; 173; 179; 181; 191; 193; 197; 199; 211; 223; 227; 229;
   233; 239; 241; 251; 257; 263; 269; 271; 277; 281; 283; 293; 307; 311].

(** The largest number whose cube is at most [n], from the bits of its digits. *)
Fixpoint cube_root (bits : nat) (n acc : Z) : Z :=
  match bits with
  | O => acc
  | S k =>
      let x := acc + 2 ^ Z.of_nat k in
      cube_root k n (if x * x * x <=? n then x else acc)
  end.

Definition round_constants : list Z := map (fun p => uint32 (cube_root 36 (p * 2 ^ 96) 0)) primes.
Definition initial_hash : list Z := map (fun p => uint32 (Z.sqrt (p * 2 ^ 64))) (take 8 primes).

Definition rotr (n x : Z) : Z := Z.lor (Z.shiftr x n) (uint32 (Z.shiftl x (32 - n))).
Definition xor3 (x y z : Z) : Z := Z.lxor x (Z.lxor y z).
Definition choose (e f g : Z) : Z := Z.lxor (Z.land e f) (Z.land (Z.ldiff (2 ^ 32 - 1) e) g).
Definition majority (a b c : Z) : Z := xor3 (Z.land a b) (Z.land a c) (Z.land b c).
Definition big0 (x : Z) : Z := xor3 (rotr 2 x) (rotr 13 x) (rotr 22 x).
Definition big1 (x : Z) : Z := xor3 (rotr 6 x) (rotr 11 x) (rotr 25 x).
Definition small0 (x : Z) : Z := xor3 (rotr 7 x) (rotr 18 x) (Z.shiftr x 3).
Definition small1 (x : Z) : Z := xor3 (rotr 17 x) (rotr 19 x) (Z.shiftr x 10).

(** The sixteen words of the schedule that the rounds to come need, from the current one. *)
Definition slide (w : list Z) : list Z :=
  tail w ++ [uint32 (small1 (nth 14 w 0) + nth 9 w 0 + small0 (nth 1 w 0) + nth 0 w 0)].

Definition round (st : list Z * list Z) (k : Z) : list Z * list Z :=
  let '(v, w) := st in
  match v with
  | [a; b; c; d; e; f; g; h] =>
      let t1 := h + big1 e + choose e f g + k + nth 0 w 0 in
      let t2 := big0 a + majority a b c in
      ([uint32 (t1 + t2); a; b; c; uint32 (d + t1); e; f; g], slide w)
  | _ => st
  end.

(** The words of 4 bytes of a text, and one block after the other. *)
Fixpoint words (s : list byte) : list Z :=
  match s with
  | b0 :: b1 :: b2 :: b3 :: s' => be_dec [b0; b1; b2; b3] :: words s'
  | _ => []
  end.

Definition block (hash ws : list Z) : list Z :=
  zip_with (fun x y => uint32 (x + y)) hash (fold_left round round_constants (hash, ws)).1.

Fixpoint blocks (n : nat) (hash ws : list Z) : list Z :=
  match n with
  | O => hash
  | S n' => blocks n' (block hash (take 16 ws)) (drop 16 ws)
  end.

Definition padded (msg : list byte) : list byte :=
  msg ++ "128"%byte :: repeat "000"%byte (Z.to_nat ((55 - zlen msg) mod 64)) ++ be_enc 8 (8 * zlen msg).

(** [sha256.Sum256]. *)
Definition Sum256 (msg : list byte) : list byte :=
  let ws := words (padded msg) in
  flat_map (be_enc 4) (blocks (length ws / 16) initial_hash ws).

End Sha256.

(** ** auth.go *)

(** [utf16.Encode]; a rune of a string is never a surrogate. *)
Definition utf16_Encode (rs : list Z) : list Z := flat_map rune_units rs.

(** [byte(c>>8), byte(c)] for each code unit. *)
Definition unit_bytes (us : list Z) : list byte := flat_map (fun c => [z2b (Z.shiftr c 8); z2b c]) us.

Definition keyPasswordHash (userName password : gostring) : list byte :=
  let u := utf16_Encode (runes (userName ++ lit "@")) in
  let p := utf16_Encode (runes password) in
  Sha256.Sum256 (unit_bytes u ++ unit_bytes p).

Definition userPasswordHash `{Unicode} (user password : gostring) : list byte :=
  if decide (user = [] /\ password = []) then [] else keyPasswordHash (ToUpper user) password.

(** [None] is nil. *)
Definition filePasswordHash (filePassword : gostring) : option (list byte) :=
  if decide (filePassword = []) then None else Some (keyPasswordHash (lit "file") filePassword).

(** ** Facts *)

(** The [@] keeps the runes of the user name and those of the password apart. *)
Lemma runes_at x p : runes (x ++ lit "@" ++ p) = runes (x ++ lit "@") ++ runes p.
Proof.
  unfold runes. change (lit "@" ++ p) with ("@"%byte :: p). change (lit "@") with (["@"%byte] : gostring).
  by rewrite !chunks_app_ascii, !map_app, <- app_assoc by done.
Qed.

Lemma length_round_loop ks v w : length v = 8%nat -> length (fold_left Sha256.round ks (v, w)).1 = 8%nat.
Proof.
  revert v w. induction ks as [|k ks IH]; intros v w Hv; [done|]. cbn [fold_left].
  do 9 (destruct v as [|? v]; try done). apply IH. done.
Qed.

Lemma length_blocks n hash ws : length hash = 8%nat -> length (Sha256.blocks n hash ws) = 8%nat.
Proof.
  revert hash ws. induction n as [|n IH]; intros hash ws Hh; [done|]. cbn [Sha256.blocks]. apply IH.
  unfold Sha256.block. rewrite length_zip_with, length_round_loop by done. lia.
Qed.

Lemma length_words_bytes ws : length (flat_map (be_enc 4) ws) = (4 * length ws)%nat.
Proof. induction ws as [|w ws IH]; [done|]. cbn [flat_map]. rewrite length_app, length_be_enc, IH. simpl. lia. Qed.

Lemma length_Sum256 msg : length (Sha256.Sum256 msg) = 32%nat.
Proof. unfold Sha256.Sum256. by rewrite length_words_bytes, length_blocks. Qed.

Lemma unit_bytes_be us : unit_bytes us = flat_map (be_enc 2) us.
Proof. unfold unit_bytes. apply flat_map_ext. intros c. by rewrite be_enc2. Qed.

(** C33 (equivalence). The hash sent for a user is the one H2 documents: SHA-256 over the
    big-endian UTF-16 code units of the whole text [UPPER(user) @ password], although the
    code encodes the two halves separately, and whatever bytes they consist of. It has 32
    bytes and does not depend on the case the user name is written in; only when both the
    user and the password are empty is it empty. *)
Theorem userPasswordHash_is_H2s `{Unicode} user password :
  (userPasswordHash user password = [] <-> user = [] /\ password = []) /\
  (forall user', ToUpper user' = ToUpper user -> user <> [] -> user' <> [] ->
     userPasswordHash user' password = userPasswordHash user password) /\
  (~ (user = [] /\ password = []) ->
     userPasswordHash user password
     = Sha256.Sum256 (flat_map (be_enc 2) (utf16Encode (ToUpper user ++ lit "@" ++ password))) /\
     length (userPasswordHash user password) = 32%nat).
Proof.
  unfold userPasswordHash. split_and!.
  - destruct (decide _) as [Hd|Hd]; [done|]. split; [|done]. intros Hn. exfalso.
    pose proof (length_Sum256 (unit_bytes (utf16_Encode (runes (ToUpper user ++ lit "@"))) ++ unit_bytes (utf16_Encode (runes password)))) as Hl.
    unfold keyPasswordHash in Hn. by rewrite Hn in Hl.
  - intros user' Hu Hn Hn'. rewrite !decide_False by tauto. by rewrite Hu.
  - intros Hd. rewrite !decide_False by done. unfold keyPasswordHash. split; [|apply length_Sum256]. f_equal.
    rewrite utf16Encode_units, runes_at, flat_map_app, flat_map_app, !unit_bytes_be. done.
Qed.

(** Known answers of the driver's own tests. *)
Lemma userPasswordHash_is_H2s_witness :
  let pinned := {| upper_beyond r := r; lower_beyond r := r; fold_beyond _ _ := false |} in
  EncodeToString (@userPasswordHash pinned (lit "User1") (lit "secret!"))
  = lit "2616d05f7e665a655c082c69ad7c0451c3561b3b4aedc1d684fde2ea302a6521" /\
  @userPasswordHash pinned (lit "sa") (lit "pass") = @userPasswordHash pinned (lit "SA") (lit "pass").
Proof.
  cbv zeta. split; [vm_compute; reflexivity|].
  destruct (@userPasswordHash_is_H2s {| upper_beyond r := r; lower_beyond r := r; fold_beyond _ _ := false |} (lit "SA") (lit "pass"))
    as (_ & Hcase & _).
  exact (Hcase (lit "sa") ltac:(vm_compute; reflexivity) ltac:(discriminate) ltac:(discriminate)).
Defined.

Example filePasswordHash_ex :
  (EncodeToString <$> filePasswordHash (lit "secret"))
  = Some (lit "19bd73c7b6dd777acd9913bfe1d07401af7f6936707aa1fbccfca731328dae2a").
Proof. vm_compute. reflexivity. Qed.
