(* ===== verification/Session.v ===== *)
(** * Sessions (session.go, context_io.go, the commands of command.go)

    A session is an authenticated connection. [s_tr] is the transfer, [None] once the
    session has been closed or aborted; the transfer that was given up is kept in
    [s_gone], so that what happened to its connection can be observed.

    A context is done from some moment on and may have a deadline; [s_now] is the
    clock of these moments, which advances every time the code looks at it. The
    goroutine that watches a context acts on the connection only by moving its
    deadline, that is by making a read fail with a timeout once the peer's bytes are
    used up; that is the [net_in_err] of the transport. The goroutine itself, and the
    interleavings of its steps with those of the caller, are the subject of Watcher.v. *)

From S2P Require Import Prelude.
From S2P Require Import GoText.
From S2P Require Import Protocol.
From S2P Require Import GoUrl.
From S2P Require Import Transfer.
From S2P Require Import Dsn.
From S2P Require Import Network.
From S2P Require Import Errors.
From S2P Require Import TypeInfo.
From S2P Require Import Metadata.

(** ** Generated keys requested for one call (generated_keys_ctx.go) *)

Record GeneratedKeysRequest := mkGeneratedKeysRequest {
  gkr_Mode : Z;
  gkr_Columns : option (list Z);
  gkr_Names : option (list gostring)
}.

(** ** Contexts *)

(** [ctx_done_at]: when [Done] fires, if ever; [ctx_cause]: what [Err] returns then. *)
Record Ctx := mkCtx {
  ctx_done_at : option Z;
  ctx_cause : sentinel;
  ctx_deadline : option Z;
  ctx_genkeys : option GeneratedKeysRequest
}.

Definition Background : Ctx := mkCtx None context_Canceled None None.

Definition ContextWithGeneratedKeys (ctx : Ctx) (req : GeneratedKeysRequest) : Ctx :=
  mkCtx (ctx_done_at ctx) (ctx_cause ctx) (ctx_deadline ctx) (Some req).

Definition ContextWithoutGeneratedKeys (ctx : Ctx) : Ctx :=
  ContextWithGeneratedKeys ctx (mkGeneratedKeysRequest GeneratedKeysNone None None).

(** ** State *)

Record Session := mkSession {
  s_tr : option Tr;
  s_cfg : option Config;
  s_id : gostring;
  s_version : Z;
  s_autoCommit : bool;
  s_dead : bool;
  s_nextID : Z;
  s_gone : option Tr;
  s_now : Z
}.

Definition set_tr (t : option Tr) (s : Session) : Session :=
  mkSession t (s_cfg s) (s_id s) (s_version s) (s_autoCommit s) (s_dead s) (s_nextID s) (s_gone s) (s_now s).
Definition set_autoCommit (b : bool) (s : Session) : Session :=
  mkSession (s_tr s) (s_cfg s) (s_id s) (s_version s) b (s_dead s) (s_nextID s) (s_gone s) (s_now s).
Definition set_nextID (n : Z) (s : Session) : Session :=
  mkSession (s_tr s) (s_cfg s) (s_id s) (s_version s) (s_autoCommit s) (s_dead s) n (s_gone s) (s_now s).
Definition set_now (n : Z) (s : Session) : Session :=
  mkSession (s_tr s) (s_cfg s) (s_id s) (s_version s) (s_autoCommit s) (s_dead s) (s_nextID s) (s_gone s) n.

(** [s.tr = nil; s.dead.Store(true)], the transfer ending as [gone]. *)
Definition set_gone (gone : option Tr) (s : Session) : Session :=
  mkSession None (s_cfg s) (s_id s) (s_version s) (s_autoCommit s) true (s_nextID s)
    (match gone with Some t => Some t | None => s_gone s end) (s_now s).

(** An operation of the transfer through [s.tr]; a nil transfer is a panic. *)
Definition on_tr {A} (m : M Tr A) : M Session A := fun s =>
  match s_tr s with
  | None => (Err (EPanic "nil transfer"), s)
  | Some t => let '(r, t') := m t in (r, set_tr (Some t') s)
  end.

(** [_ = m]: the error is discarded. *)
Definition discard {S A} (m : M S A) : M S unit := fun s => (Ok tt, (m s).2).

(** ** Looking at the clock and at a context *)

Definition tick : M Session Z := fun s => (Ok (s_now s), set_now (s_now s + 1) s).

(** [ctx.Err()] *)
Definition ctx_Err (ctx : Ctx) : M Session (option sentinel) :=
  now <- tick ;;
  ret (match ctx_done_at ctx with
       | Some d => if d <=? now then Some (ctx_cause ctx) else None
       | None => None
       end).

(** [if err = ctx.Err(); err != nil { return err }] *)
Definition check_ctx (ctx : Ctx) : M Session unit :=
  e <- ctx_Err ctx ;;
  match e with
  | Some c => fail (ESent c)
  | None => ret tt
  end.

(** ** Closing *)

(** Moments are counted in nanoseconds. *)
Definition closeStatusTimeout : Z := 2 * 10 ^ 9.

(** The frame and the reply of [Close]; every error is ignored. *)
Definition closeExchange (now : Z) : M Tr unit :=
  discard (SetDeadline (Some (now + closeStatusTimeout))) ;;
  discard (WriteInt32 SessionClose) ;;
  discard Flush ;;
  discard ReadInt32 ;;
  discard (SetDeadline None).

Definition Session_Close : M Session unit := fun s =>
  match s_tr s with
  | None => (Ok tt, set_gone None s)
  | Some tr =>
      let '(_, tr1) := closeExchange (s_now s) tr in
      let '(r, tr2) := Transfer.Close tr1 in
      (r, set_gone (Some tr2) (set_now (s_now s + 1) s))
  end.

Definition Session_Abort : M Session unit := fun s =>
  match s_tr s with
  | None => (Ok tt, set_gone None s)
  | Some tr =>
      let '(r, tr') := Abort tr in
      (r, set_gone (Some tr') s)
  end.

Definition markStreamBroken : M Session unit := discard Session_Abort.

(** With a nil error the code returns at once, which is the caller's [Ok]. *)
Definition markUnlessAlignedH2Error (err : error) : M Session unit :=
  match errors_As err with
  | Some _ => ret tt
  | None => markStreamBroken
  end.

(** ** Cancellation by a side channel *)

(** What is sent on the second connection, which is then closed. *)
Definition cancelFrame (id : gostring) (statementID : Z) : M Tr unit :=
  wrapf "h2go: Session.cancelStatement: write min version: %w" [] (WriteInt32 TCPProtocolVersionMinSupported) ;;
  wrapf "h2go: Session.cancelStatement: write max version: %w" [] (WriteInt32 TCPProtocolVersionMaxSupported) ;;
  wrapf "h2go: Session.cancelStatement: write db: %w" [] WriteNullString ;;
  wrapf "h2go: Session.cancelStatement: write original url: %w" [] WriteNullString ;;
  wrapf "h2go: Session.cancelStatement: write session id: %w" [] (WriteString id) ;;
  wrapf "h2go: Session.cancelStatement: write cancel op: %w" [] (WriteInt32 SessionCancelStatement) ;;
  wrapf "h2go: Session.cancelStatement: write statement id: %w" [] (WriteInt32 statementID) ;;
  Transfer.Close.

(** The second connection, once it is established; the deferred [Abort] runs last. *)
Definition cancelOver (s : Session) (conn : Transport) (statementID : Z) : res unit * option Transport :=
  let '(r, t) := cancelFrame (s_id s) statementID (NewReadWriter conn) in
  (r, Some (tr_net (Abort t).2)).

(** The result is the error and the second connection afterwards, if there was one. *)
Definition cancelStatement `{Network} (s : Session) (statementID : Z) : res unit * option Transport :=
  match s_cfg s with
  | None => (Err (EErrorf "h2go: Session.cancelStatement: missing connection config" []), None)
  | Some cfg =>
      let addr := JoinHostPort (cfg_Host cfg) (cfg_Port cfg) in
      match net_dial addr with
      | Err e => (Err (EWrapf "h2go: Session.cancelStatement: dial %s: %w" [AStr addr] [e]), None)
      | Ok conn =>
          if cfg_TLS cfg then
            match wrapTLS cfg conn with
            | (Ok _, conn') => cancelOver s conn' statementID
            | (Err e, conn') => (Err (EWrapf "h2go: Session.cancelStatement: %w" [] [e]), Some conn')
            end
          else cancelOver s conn statementID
      end
  end.

(** ** The frame of an operation *)

Definition cancelGracePeriod : Z := 5 * 10 ^ 9.

(** [errors.As(err, &ne)] with a [net.Error], and its [Timeout()]. *)
Fixpoint net_timeout (e : error) : option bool :=
  match e with
  | ENet timeout => Some timeout
  | ESent context_DeadlineExceeded => Some true
  | EWrapf _ _ es =>
      (fix first es :=
         match es with
         | [] => None
         | e' :: es' =>
             match net_timeout e' with
             | Some b => Some b
             | None => first es'
             end
         end) es
  | _ => None
  end.

Definition set_deadline (d : option Z) : M Session unit := fun s =>
  match s_tr s with
  | Some t => (Ok tt, set_tr (Some (SetDeadline d t).2) s)
  | None => (Ok tt, s)
  end.

(** The synchronous part of [beginOperationContext]; [cancel]: whether a side-channel
    cancellation was registered. The function it returns is [endOperationContext]. *)
Definition beginOperationContext (ctx : Ctx) (cancel : bool) : M Session unit :=
  match ctx_deadline ctx with
  | Some d => set_deadline (Some (if cancel then d + cancelGracePeriod else d))
  | None => ret tt
  end.

Definition endOperationContext : M Session unit := set_deadline None.

(** [finalizeContext(ctx, &err)] on the outcome of an operation. *)
Definition finalizeContext {A} (ctx : Ctx) (r : res A) : M Session A :=
  match r with
  | Ok a => ret a
  | Err e =>
      done <- ctx_Err ctx ;;
      match done with
      | Some c =>
          match errors_As e with
          | Some h =>
              if Code h =? ErrorCodeStatementWasCanceled then fail (ESent c)
              else discard Session_Abort ;; fail (ESent c)
          | None => discard Session_Abort ;; fail (ESent c)
          end
      | None =>
          match ctx_deadline ctx with
          | None => fail e
          | Some d =>
              match net_timeout e with
              | Some true =>
                  now <- tick ;;
                  if d <? now then discard Session_Abort ;; fail (ESent context_DeadlineExceeded)
                  else fail e
              | _ => fail e
              end
          end
      end
  end.

(** [cleanup := begin(...); defer cleanup(); defer s.finalizeContext(ctx, &err)] *)
Definition operation {A} (ctx : Ctx) (cancel : bool) (body : M Session A) : M Session A :=
  beginOperationContext ctx cancel ;;
  r <- try body ;;
  r' <- try (finalizeContext ctx r) ;;
  endOperationContext ;;
  (match r' with Ok a => ret a | Err e => fail e end).

(** ** Commands *)

Record ParameterMeta := mkParameterMeta { pm_Index : Z; pm_TypeInfo : TypeInfo }.

Record PreparedCommand := mkPreparedCommand {
  cmd_ID : Z;
  cmd_SQL : gostring;
  cmd_IsQuery : bool;
  cmd_ReadOnly : bool;
  cmd_CmdType : Z;
  cmd_ParamCount : Z;
  cmd_Params : list ParameterMeta
}.

Definition CmdUnknown : Z := 0.
Definition CmdSelect : Z := 1.
Definition CmdInsert : Z := 2.
Definition CmdUpdate : Z := 3.
Definition CmdDelete : Z := 4.
Definition CmdCreateTable : Z := 5.
Definition CmdDropTable : Z := 6.
Definition CmdCreateIndex : Z := 7.
Definition CmdDropIndex : Z := 8.
Definition CmdSelectDual : Z := 9.
Definition CmdAlterTable : Z := 10.
Definition CmdTruncateTable : Z := 11.
Definition CmdCommit : Z := 12.
Definition CmdRollback : Z := 13.
Definition CmdGrant : Z := 14.
Definition CmdRevoke : Z := 15.
Definition CmdPrepare : Z := 16.
Definition CmdExecute : Z := 17.
Definition CmdComment : Z := 18.
Definition CmdSavepoint : Z := 19.
Definition CmdProcedure : Z := 20.
Definition CmdExplain : Z := 21.
Definition CmdMerge : Z := 22.
Definition CmdShow : Z := 23.
Definition CmdAlterIndex : Z := 24.
Definition CmdRunScript : Z := 25.
Definition CmdScript : Z := 26.
Definition CmdShutdown : Z := 27.
Definition CmdCheckpoint : Z := 28.
Definition CmdExplainAnalyze : Z := 29.

Definition commandTypeNames : list (Z * string) :=
  [(CmdUnknown, "UNKNOWN");
   (CmdSelect, "SELECT");
   (CmdInsert, "INSERT");
   (CmdUpdate, "UPDATE");
   (CmdDelete, "DELETE");
   (CmdCreateTable, "CREATE TABLE");
   (CmdDropTable, "DROP TABLE");
   (CmdCreateIndex, "CREATE INDEX");
   (CmdDropIndex, "DROP INDEX");
   (CmdSelectDual, "SELECT DUAL");
   (CmdAlterTable, "ALTER TABLE");
   (CmdTruncateTable, "TRUNCATE TABLE");
   (CmdCommit, "COMMIT");
   (CmdRollback, "ROLLBACK");
   (CmdGrant, "GRANT");
   (CmdRevoke, "REVOKE");
   (CmdPrepare, "PREPARE");
   (CmdExecute, "EXECUTE");
   (CmdComment, "COMMENT");
   (CmdSavepoint, "SAVEPOINT");
   (CmdProcedure, "PROCEDURE");
   (CmdExplain, "EXPLAIN");
   (CmdMerge, "MERGE");
   (CmdShow, "SHOW");
   (CmdAlterIndex, "ALTER INDEX");
   (CmdRunScript, "RUNSCRIPT");
   (CmdScript, "SCRIPT");
   (CmdShutdown, "SHUTDOWN");
   (CmdCheckpoint, "CHECKPOINT");
   (CmdExplainAnalyze, "EXPLAIN ANALYZE")].

Definition CommandTypeName (cmdType : Z) : gostring :=
  match List.find (fun kv => kv.1 =? cmdType) commandTypeNames with
  | Some (_, name) => lit name
  | None => lit "UNKNOWN(" ++ FormatInt cmdType ++ lit ")"
  end.

Definition nextCommandID : M Session Z := fun s =>
  let id := int32 (s_nextID s + 1) in (Ok id, set_nextID id s).

Definition session_open (err : error) : M Session unit := fun s =>
  match s_tr s with
  | None => (Err err, s)
  | Some _ => (Ok tt, s)
  end.

Definition PrepareCommand (ctx : Ctx) (sql : gostring) : M Session PreparedCommand :=
  session_open (EErrorf "h2go: PrepareCommand: session closed" []) ;;
  operation ctx false (
    cmdID <- nextCommandID ;;
    wrapf "h2go: PrepareCommand: failed to write op: %w" [] (on_tr (WriteInt32 SessionPrepare)) ;;
    wrapf "h2go: PrepareCommand: failed to write command id: %w" [] (on_tr (WriteInt32 cmdID)) ;;
    wrapf "h2go: PrepareCommand: failed to write SQL: %w" [] (on_tr (WriteString sql)) ;;
    wrapf "h2go: PrepareCommand: flush failed: %w" [] (on_tr Flush) ;;
    wrapE "PrepareCommand" (on_tr readStatus) ;;
    isQuery <- wrapf "h2go: PrepareCommand: failed to read isQuery: %w" [] (on_tr ReadBool) ;;
    readOnly <- wrapf "h2go: PrepareCommand: failed to read readOnly: %w" [] (on_tr ReadBool) ;;
    paramCount <- wrapf "h2go: PrepareCommand: failed to read paramCount: %w" [] (on_tr ReadInt32) ;;
    ret (mkPreparedCommand cmdID sql isQuery readOnly CmdUnknown paramCount [])).

(** One iteration of the loop over the parameters. *)
Definition readParameter (i : Z) : M Session ParameterMeta :=
  typeInfo <- wrapf "h2go: PrepareCommandReadParams: failed to read param %d type: %w" [AInt i]
                (on_tr ReadTypeInfo) ;;
  nullable <- wrapf "h2go: PrepareCommandReadParams: failed to read param %d nullable: %w" [AInt i]
                (on_tr ReadInt32) ;;
  ret (mkParameterMeta i (set_nullable nullable typeInfo)).

Definition PrepareCommandReadParams (ctx : Ctx) (sql : gostring) : M Session PreparedCommand :=
  session_open (EErrorf "h2go: PrepareCommandReadParams: session closed" []) ;;
  operation ctx false (
    cmdID <- nextCommandID ;;
    wrapf "h2go: PrepareCommandReadParams: failed to write op: %w" []
      (on_tr (WriteInt32 SessionPrepareReadParams2)) ;;
    wrapf "h2go: PrepareCommandReadParams: failed to write command id: %w" [] (on_tr (WriteInt32 cmdID)) ;;
    wrapf "h2go: PrepareCommandReadParams: failed to write SQL: %w" [] (on_tr (WriteString sql)) ;;
    wrapf "h2go: PrepareCommandReadParams: flush failed: %w" [] (on_tr Flush) ;;
    wrapE "PrepareCommandReadParams" (on_tr readStatus) ;;
    isQuery <- wrapf "h2go: PrepareCommandReadParams: failed to read isQuery: %w" [] (on_tr ReadBool) ;;
    readOnly <- wrapf "h2go: PrepareCommandReadParams: failed to read readOnly: %w" [] (on_tr ReadBool) ;;
    cmdType <- wrapf "h2go: PrepareCommandReadParams: failed to read cmdType: %w" [] (on_tr ReadInt32) ;;
    paramCount <- wrapf "h2go: PrepareCommandReadParams: failed to read paramCount: %w" [] (on_tr ReadInt32) ;;
    guard_err (paramCount <? 0)
      (EErrorf "h2go: PrepareCommandReadParams: invalid param count %d" [AInt paramCount]) ;;
    guard_err (maxWireCollectionElements <? paramCount)
      (EErrorf "h2go: PrepareCommandReadParams: param count %d exceeds cap %d"
         [AInt paramCount; AInt maxWireCollectionElements]) ;;
    params <- for_range (Z.to_nat paramCount) 0 readParameter ;;
    ret (mkPreparedCommand cmdID sql isQuery readOnly cmdType paramCount params)).

(** [cmd.Close(s)]: no reply is read, COMMAND_CLOSE has none. *)
Definition PreparedCommand_Close (cmd : PreparedCommand) : M Session unit := fun s =>
  match s_tr s with
  | None => (Ok tt, s)
  | Some _ =>
      (wrapf "h2go: PreparedCommand.Close: failed to write op: %w" [] (on_tr (WriteInt32 CommandClose)) ;;
       wrapf "h2go: PreparedCommand.Close: failed to write command id: %w" [] (on_tr (WriteInt32 (cmd_ID cmd))) ;;
       wrapf "h2go: PreparedCommand.Close: flush failed: %w" [] (on_tr Flush)) s
  end.

(** ** Small operations *)

Definition hasPendingTransaction (ctx : Ctx) : M Session bool :=
  session_open (EErrorf "h2go: Session.hasPendingTransaction: session closed" []) ;;
  operation ctx false (
    check_ctx ctx ;;
    wrapf "h2go: Session.hasPendingTransaction: failed to write op: %w" []
      (on_tr (WriteInt32 SessionHasPendingTransaction)) ;;
    wrapf "h2go: Session.hasPendingTransaction: flush failed: %w" [] (on_tr Flush) ;;
    wrapE "Session.hasPendingTransaction" (on_tr readStatus) ;;
    pendingRaw <- wrapf "h2go: Session.hasPendingTransaction: failed to read pending flag: %w" []
                    (on_tr ReadInt32) ;;
    ret (negb (pendingRaw =? 0))).

Definition setAutoCommit (ctx : Ctx) (autoCommit : bool) : M Session unit :=
  session_open (EErrorf "h2go: Session.setAutoCommit: session closed" []) ;;
  operation ctx false (
    check_ctx ctx ;;
    wrapf "h2go: Session.setAutoCommit: failed to write op: %w" [] (on_tr (WriteInt32 SessionSetAutocommit)) ;;
    wrapf "h2go: Session.setAutoCommit: failed to write autocommit: %w" [] (on_tr (WriteBool autoCommit)) ;;
    wrapf "h2go: Session.setAutoCommit: flush failed: %w" [] (on_tr Flush) ;;
    wrapE "Session.setAutoCommit" (on_tr readStatus) ;;
    modify (set_autoCommit autoCommit)).

Definition commitCurrentTransaction (ctx : Ctx) : M Session unit :=
  session_open (EErrorf "h2go: Session.commitCurrentTransaction: session closed" []) ;;
  operation ctx false (
    check_ctx ctx ;;
    wrapf "h2go: Session.commitCurrentTransaction: failed to write op: %w" [] (on_tr (WriteInt32 CommandCommit)) ;;
    wrapf "h2go: Session.commitCurrentTransaction: flush failed: %w" [] (on_tr Flush) ;;
    wrapE "Session.commitCurrentTransaction" (on_tr readStatus)).

(** ** Generated keys requested *)

Definition generatedKeysMode (s : Session) : Z :=
  match s_cfg s with
  | None => GeneratedKeysAuto
  | Some cfg =>
      if negb (cfg_GeneratedKeysModeSet cfg) then GeneratedKeysAuto
      else if one_of (cfg_GeneratedKeysMode cfg) [GeneratedKeysNone; GeneratedKeysAuto;
                GeneratedKeysColumnNumbers; GeneratedKeysColumnNames]
      then cfg_GeneratedKeysMode cfg
      else GeneratedKeysAuto
  end.

(** The configuration's selectors for a mode. *)
Definition configuredKeys (s : Session) : Z * option (list Z) * option (list gostring) :=
  let mode := generatedKeysMode s in
  (mode,
   (if mode =? GeneratedKeysColumnNumbers
    then match s_cfg s with Some cfg => cfg_GeneratedKeysColumns cfg | None => None end else None),
   (if mode =? GeneratedKeysColumnNames
    then match s_cfg s with Some cfg => cfg_GeneratedKeysColumnNames cfg | None => None end else None)).

(** The request that a context carries, if any. *)
Definition generatedKeysOverride (ctx : Ctx) : option GeneratedKeysRequest := ctx_genkeys ctx.

Definition resolveGeneratedKeys (ctx : Ctx) (s : Session)
  : Z * option (list Z) * option (list gostring) :=
  match generatedKeysOverride ctx with
  | Some req =>
      if gkr_Mode req =? GeneratedKeysNone then (GeneratedKeysNone, None, None)
      else if gkr_Mode req =? GeneratedKeysAuto then (GeneratedKeysAuto, None, None)
      else if gkr_Mode req =? GeneratedKeysColumnNumbers then (GeneratedKeysColumnNumbers, gkr_Columns req, None)
      else if gkr_Mode req =? GeneratedKeysColumnNames then (GeneratedKeysColumnNames, None, gkr_Names req)
      else configuredKeys s
  | None => configuredKeys s
  end.
