(* ===== verification/Watcher.v ===== *)
(** * The goroutine that watches a context (context_io.go)

    [beginOperationContext] starts a goroutine for a context that can be done. It waits
    for the context or for the end of the operation, whichever it sees first, and in the
    first case moves the deadline of the connection, so that a read of the operation
    that is blocked comes back. The function that ends the operation closes the channel
    the goroutine waits on and clears the deadline, and does not wait for the goroutine.

    Here the operations of one session run one after the other, each with the
    goroutine of its own, all over the one connection and in any interleaving of their
    steps: [step] is one access to what they share (the deadline, the channel, the
    clock), [reaches] any number of them. A goroutine is a watcher of type [watcher],
    numbered as its operation. *)

From S2P Require Import Prelude.
From S2P Require Import GoText.
From S2P Require Import Protocol.
From S2P Require Import Transfer.
From S2P Require Import Errors.
From S2P Require Import TypeInfo.
From S2P Require Import Session.

(** ** State *)

(** The arguments of a call of [beginOperationContext]; [op_watched]: [ctx.Done()] is
    not nil; [op_cancel]: [cancel] is not nil. *)
Record Operation := mkOperation {
  op_ctx : Ctx;
  op_watched : bool;
  op_cancel : bool
}.

(** Where the goroutine is: not started; in its [select]; in the branch of the context,
    before and after [go cancel()]; with the clock read; with the deadline moved; gone
    by the branch of the channel. *)
Inductive watcher :=
| WNone
| WSelect
| WDone
| WLaunched
| WClock (t : Z)
| WFired (t : Z)
| WStopped.

(** An operation that was begun, whether its channel is closed, its goroutine. *)
Record Watch := mkWatch {
  wt_op : Operation;
  wt_stop : bool;
  wt_pc : watcher
}.

(** Where the caller is: between operations, or in operation [i]: with the deadline
    applied, in the body, with the channel closed. *)
Inductive caller :=
| Idle
| Begun (i : nat)
| Body (i : nat)
| Ending (i : nat).

(** [p_cancels]: the operations whose [cancel] was launched, the last first;
    [p_timeouts]: those a read of which has timed out. *)
Record Process := mkProcess {
  p_sess : Session;
  p_caller : caller;
  p_watches : list Watch;
  p_cancels : list nat;
  p_timeouts : list nat
}.

Definition caller_op (c : caller) : option nat :=
  match c with
  | Idle => None
  | Begun i | Body i | Ending i => Some i
  end.

(** The deadline of a session's connection. *)
Definition deadline_of (s : Session) : option Z := t ← s_tr s; net_deadline (tr_net t).

(** ** Steps *)

(** [<-done] is ready. *)
Definition done_ready (op : Operation) (now : Z) : bool :=
  op_watched op && match ctx_done_at (op_ctx op) with Some d => d <=? now | None => false end.

(** The deadline a goroutine sets that has read the clock as [t]. *)
Definition wake_deadline (op : Operation) (t : Z) : Z :=
  if op_cancel op then t + cancelGracePeriod else t.

(** The deadline [beginOperationContext] applies before it starts the goroutine. *)
Definition planned_deadline (op : Operation) : option Z :=
  d ← ctx_deadline (op_ctx op); Some (if op_cancel op then d + cancelGracePeriod else d).

Inductive event :=
| EvBegin (op : Operation)
| EvSpawn
| EvBody (s' : Session)
| EvTimeout
| EvStop
| EvClear
| EvTick (k : Z)
| EvSelectDone (j : nat)
| EvSelectStop (j : nat)
| EvCancel (j : nat)
| EvClock (j : nat)
| EvDeadline (j : nat).

(** What the body of an operation may do to the session between two looks at the
    deadline: anything but move it, forget that it can be moved, or turn the clock
    back. A session that was given up stays so. *)
Definition body_ok (s s' : Session) : bool :=
  (s_now s <=? s_now s') &&
  match s_tr s, s_tr s' with
  | Some t, Some t' => bool_decide (net_deadline (tr_net t') = net_deadline (tr_net t)) && Bool.eqb (tr_dl t') (tr_dl t)
  | _, None => true
  | None, Some _ => false
  end.

Definition set_pc (j : nat) (w : Watch) (pc : watcher) (l : list Watch) : list Watch :=
  <[j := mkWatch (wt_op w) (wt_stop w) pc]> l.

(** The caller's side; an operation begins only on a session that has its transfer. *)
Definition caller_step (e : event) (p : Process) : option Process :=
  let '(mkProcess s c ws cs ts) := p in
  match e, c with
  | EvBegin op, Idle =>
      _ ← s_tr s;
      Some (mkProcess (beginOperationContext (op_ctx op) (op_cancel op) s).2
              (Begun (length ws)) (ws ++ [mkWatch op false WNone]) cs ts)
  | EvSpawn, Begun i =>
      w ← ws !! i;
      Some (mkProcess s (Body i) (set_pc i w (if op_watched (wt_op w) then WSelect else WNone) ws) cs ts)
  | EvBody s', Body i => if body_ok s s' then Some (mkProcess s' c ws cs ts) else None
  | EvTimeout, Body i =>
      d ← deadline_of s;
      if d <=? s_now s then Some (mkProcess s c ws cs (i :: ts)) else None
  | EvStop, Body i =>
      w ← ws !! i;
      Some (mkProcess s (Ending i) (<[i := mkWatch (wt_op w) true (wt_pc w)]> ws) cs ts)
  | EvClear, Ending i => Some (mkProcess (endOperationContext s).2 Idle ws cs ts)
  | EvTick k, _ => if 0 <=? k then Some (mkProcess (set_now (s_now s + k) s) c ws cs ts) else None
  | _, _ => None
  end.

(** The goroutine of operation [j]. *)
Definition watcher_step (e : event) (p : Process) : option Process :=
  let '(mkProcess s c ws cs ts) := p in
  match e with
  | EvSelectDone j =>
      w ← ws !! j;
      match wt_pc w with
      | WSelect => if done_ready (wt_op w) (s_now s) then Some (mkProcess s c (set_pc j w WDone ws) cs ts) else None
      | _ => None
      end
  | EvSelectStop j =>
      w ← ws !! j;
      match wt_pc w with
      | WSelect => if wt_stop w then Some (mkProcess s c (set_pc j w WStopped ws) cs ts) else None
      | _ => None
      end
  | EvCancel j =>
      w ← ws !! j;
      match wt_pc w with
      | WDone => Some (mkProcess s c (set_pc j w WLaunched ws) (if op_cancel (wt_op w) then j :: cs else cs) ts)
      | _ => None
      end
  | EvClock j =>
      w ← ws !! j;
      match wt_pc w with
      | WLaunched => Some (mkProcess s c (set_pc j w (WClock (s_now s)) ws) cs ts)
      | _ => None
      end
  | EvDeadline j =>
      w ← ws !! j;
      match wt_pc w with
      | WClock t =>
          Some (mkProcess (set_deadline (Some (wake_deadline (wt_op w) t)) s).2 c (set_pc j w (WFired t) ws) cs ts)
      | _ => None
      end
  | _ => None
  end.

Definition is_watcher_event (e : event) : bool :=
  match e with
  | EvSelectDone _ | EvSelectStop _ | EvCancel _ | EvClock _ | EvDeadline _ => true
  | _ => false
  end.

Definition step (e : event) (p : Process) : option Process :=
  if is_watcher_event e then watcher_step e p else caller_step e p.

Fixpoint run_events (es : list event) (p : Process) : option Process :=
  match es with
  | [] => Some p
  | e :: es' => p' ← step e p; run_events es' p'
  end.

Definition reaches (p p' : Process) : Prop := rtc (fun a b => exists e, step e a = Some b) p p'.

(** Before the first operation: no deadline on the connection. *)
Definition start (s : Session) : Process := mkProcess s Idle [] [] [].

Lemma run_reaches es p p' : run_events es p = Some p' -> reaches p p'.
Proof.
  revert p. induction es as [|e es IH]; intros p H; cbn in H; [simplify_eq; apply rtc_refl|].
  destruct (step e p) as [q|] eqn:E; cbn in H; [|done]. eapply rtc_l; [by exists e|]. by apply IH.
Qed.

(** ** The invariant *)

(** The context of [op] was done at a moment the goroutine has seen. *)
Definition fired_at (op : Operation) (t now : Z) : Prop := done_ready op t = true /\ t <= now.

Definition pc_ok (now : Z) (w : Watch) : Prop :=
  match wt_pc w with
  | WNone | WSelect => True
  | WStopped => wt_stop w = true
  | WDone | WLaunched => done_ready (wt_op w) now = true
  | WClock t | WFired t => fired_at (wt_op w) t now
  end.

(** Whether [cancel] has been launched, if there is one. *)
Definition launched (w : Watch) : bool :=
  op_cancel (wt_op w) &&
  match wt_pc w with
  | WLaunched | WClock _ | WFired _ => true
  | _ => false
  end.

(** A deadline [d] comes from the operation the caller is in or from a goroutine that
    has acted. *)
Definition accounted (p : Process) (d : Z) : Prop :=
  (exists i w, caller_op (p_caller p) = Some i /\ p_watches p !! i = Some w /\ planned_deadline (wt_op w) = Some d) \/
  (exists j w t, p_watches p !! j = Some w /\ wt_pc w = WFired t /\ d = wake_deadline (wt_op w) t).

(** The caller has begun operation [j] and not closed its channel. *)
Definition in_operation (c : caller) (j : nat) : bool :=
  match c with
  | Begun i | Body i => Nat.eqb i j
  | _ => false
  end.

(** The connection takes deadlines, as every connection of the network does. *)
Definition timed (s : Session) : Prop := forall t, s_tr s = Some t -> tr_dl t = true.

Record consistent (p : Process) : Prop := {
  cs_current : forall i, caller_op (p_caller p) = Some i -> S i = length (p_watches p);
  cs_stop : forall j w, p_watches p !! j = Some w ->
              wt_stop w = negb (in_operation (p_caller p) j);
  cs_pc : forall j w, p_watches p !! j = Some w -> pc_ok (s_now (p_sess p)) w;
  cs_begun : forall j w, p_watches p !! j = Some w -> p_caller p = Begun j -> wt_pc w = WNone;
  cs_spawned : forall j w, p_watches p !! j = Some w -> p_caller p = Body j -> op_watched (wt_op w) = true ->
              wt_pc w <> WNone;
  cs_cancels : NoDup (p_cancels p) /\
              forall j, j ∈ p_cancels p <-> exists w, p_watches p !! j = Some w /\ launched w = true;
  cs_timed : timed (p_sess p);
  cs_deadline : forall d, deadline_of (p_sess p) = Some d -> accounted p d
}.

(** ** What the steps do to the session *)

Lemma deadline_set d s :
  timed s -> deadline_of (set_deadline d s).2 = (_ ← s_tr s; d).
Proof. intros H. unfold deadline_of, set_deadline, SetDeadline. destruct (s_tr s) as [t|] eqn:E; [|by cbn; rewrite E]. by rewrite (H t E). Qed.

Lemma timed_set d s : timed s -> timed (set_deadline d s).2.
Proof.
  intros H t'. unfold set_deadline, SetDeadline. destruct (s_tr s) as [t|] eqn:E; cbn; [|by rewrite E].
  rewrite (H t E). intros [= <-]. by apply (H t).
Qed.

Lemma now_set d s : s_now (set_deadline d s).2 = s_now s.
Proof. unfold set_deadline. by destruct (s_tr s). Qed.

Lemma begin_planned op s :
  beginOperationContext (op_ctx op) (op_cancel op) s =
  match planned_deadline op with Some d => set_deadline (Some d) s | None => (Ok tt, s) end.
Proof. unfold beginOperationContext, planned_deadline. by destruct (ctx_deadline (op_ctx op)). Qed.

Lemma body_ok_spec s s' :
  body_ok s s' = true -> s_now s <= s_now s' /\
  (timed s -> timed s') /\ (forall d, deadline_of s' = Some d -> deadline_of s = Some d) /\
  (s_tr s' <> None -> deadline_of s' = deadline_of s).
Proof.
  unfold body_ok, timed, deadline_of. intros [Hn H]%andb_true_iff. apply Z.leb_le in Hn. split; [done|].
  destruct (s_tr s) as [t|], (s_tr s') as [t'|]; try done.
  apply andb_true_iff in H as [Hd Hl]. apply bool_decide_eq_true in Hd. apply eqb_prop in Hl. cbn. rewrite Hd.
  split_and!; [|done|done]. intros H' u [= <-]. rewrite Hl. by apply H'.
Qed.

Lemma done_ready_mono op t t' : t <= t' -> done_ready op t = true -> done_ready op t' = true.
Proof.
  unfold done_ready. intros Ht [-> H]%andb_true_iff. destruct (ctx_done_at (op_ctx op)); [|done].
  cbn. apply Z.leb_le in H. apply Z.leb_le. lia.
Qed.

Lemma pc_ok_mono now now' w : now <= now' -> pc_ok now w -> pc_ok now' w.
Proof.
  unfold pc_ok, fired_at. intros Hn. destruct (wt_pc w); try done.
  1, 2: by apply done_ready_mono. all: intros [? ?]; split; [done|lia].
Qed.

(** Deadlines stay accounted for while the caller does not leave its operation and the
    goroutines only move on. *)
Lemma accounted_watches p s' cs' ts' j w w' d :
  accounted p d -> p_watches p !! j = Some w -> wt_op w' = wt_op w ->
  (forall t, wt_pc w = WFired t -> wt_pc w' = WFired t) ->
  accounted (mkProcess s' (p_caller p) (<[j := w']> (p_watches p)) cs' ts') d.
Proof.
  intros H Hj Hop Hpc. assert (Hl : (j < length (p_watches p))%nat) by by eapply lookup_lt_Some.
  destruct H as [(i & v & Hi & Hv & Hd)|(i & v & t & Hv & Ht & Hd)]; [left|right]; cbn.
  - destruct (decide (i = j)) as [->|Hne]; [exists j, w'|exists i, v]; split_and!; try done.
    + by apply list_lookup_insert_eq. + rewrite Hv in Hj. simplify_eq. by rewrite Hop.
    + by rewrite list_lookup_insert_ne.
  - destruct (decide (i = j)) as [->|Hne]; [exists j, w', t|exists i, v, t]; split_and!; try done.
    + by apply list_lookup_insert_eq. + rewrite Hv in Hj. simplify_eq. by apply Hpc.
    + rewrite Hv in Hj. simplify_eq. by rewrite Hop.
    + by rewrite list_lookup_insert_ne.
Qed.

(** ** The steps preserve the invariant *)

(** A look-up after an update, in both cases. *)
Ltac watch_cases j' j Hl H :=
  destruct (decide (j' = j)) as [->|];
  [rewrite list_lookup_insert_eq in H by exact Hl; simplify_eq | rewrite list_lookup_insert_ne in H by done].

(** The list of launched cancellations, when goroutine [j] moves from [w] to [w']. *)
Lemma cancels_move (ws : list Watch) (cs : list nat) j w w' :
  ws !! j = Some w ->
  (NoDup cs /\ forall i, i ∈ cs <-> exists v, ws !! i = Some v /\ launched v = true) ->
  (launched w = true -> launched w' = true) ->
  let cs' := if launched w' && negb (launched w) then j :: cs else cs in
  NoDup cs' /\ forall i, i ∈ cs' <-> exists v, <[j := w']> ws !! i = Some v /\ launched v = true.
Proof.
  intros Hj [Hnd Hin] Hm cs'. assert (Hl : (j < length ws)%nat) by by eapply lookup_lt_Some.
  assert (Hcs : forall i, i ∈ cs' <-> (i = j /\ launched w' = true) \/ (i <> j /\ i ∈ cs)).
  { intros i. assert (j ∈ cs <-> launched w = true) as Hjc.
    { rewrite Hin. split; [by intros (v & Hv & ?); simplify_eq|by exists w]. }
    unfold cs'. destruct (launched w), (launched w'); cbn [andb negb]; rewrite ?elem_of_cons;
      try discriminate (Hm eq_refl); (destruct (decide (i = j)) as [->|]; [rewrite ?Hjc|]); intuition congruence. }
  split.
  - unfold cs'. destruct (launched w' && negb (launched w)) eqn:E; [|done]. constructor; [|done].
    rewrite Hin. intros (v & Hv & Hlv). simplify_eq. by rewrite Hlv, andb_false_r in E.
  - intros i. rewrite Hcs. destruct (decide (i = j)) as [->|Hne].
    + rewrite list_lookup_insert_eq by done. naive_solver.
    + rewrite list_lookup_insert_ne by done. rewrite <- Hin. naive_solver.
Qed.

(** One step of goroutine [j]. *)
Lemma consistent_move p s' cs' j w pc' :
  consistent p -> p_watches p !! j = Some w -> wt_pc w <> WNone -> (forall t, wt_pc w <> WFired t) ->
  let w' := mkWatch (wt_op w) (wt_stop w) pc' in
  pc' <> WNone -> s_now s' = s_now (p_sess p) -> timed s' -> pc_ok (s_now s') w' ->
  (launched w = true -> launched w' = true) ->
  cs' = (if launched w' && negb (launched w) then j :: p_cancels p else p_cancels p) ->
  (forall d, deadline_of s' = Some d ->
     deadline_of (p_sess p) = Some d \/ exists t, pc' = WFired t /\ d = wake_deadline (wt_op w) t) ->
  consistent (mkProcess s' (p_caller p) (set_pc j w pc' (p_watches p)) cs' (p_timeouts p)).
Proof.
  intros [] Hj Hn Hf w' Hn' Hnow Ht Hpc Hm -> Hd. assert (Hl : (j < length (p_watches p))%nat) by by eapply lookup_lt_Some.
  constructor; cbn -[accounted]; unfold set_pc.
  - by rewrite length_insert.
  - intros i v Hv. watch_cases i j Hl Hv; [by apply (cs_stop0 _ _ Hj)|by eapply cs_stop0].
  - intros i v Hv. watch_cases i j Hl Hv; [done|]. rewrite Hnow. by eapply cs_pc0.
  - intros i v Hv Hc. watch_cases i j Hl Hv; [|by eapply cs_begun0]. by destruct Hn; eapply cs_begun0.
  - intros i v Hv Hc Hw. watch_cases i j Hl Hv; [done|by eapply cs_spawned0].
  - by apply cancels_move.
  - done.
  - intros d Hdd. destruct (Hd d Hdd) as [Hold|(t & -> & ->)].
    + eapply accounted_watches; eauto. intros t Hwt. by destruct (Hf t).
    + right. exists j, w', t. cbn. by rewrite list_lookup_insert_eq.
Qed.

Ltac move_goal Hw :=
  unfold launched; rewrite ?Hw; cbn -[set_deadline]; rewrite ?andb_false_r, ?andb_true_r, ?andb_negb_r;
  try solve [done | auto | split; [done|lia]].

Lemma watcher_step_consistent e p p' : consistent p -> watcher_step e p = Some p' -> consistent p'.
Proof.
  intros Hc He. destruct p as [s c ws cs ts]. pose proof (cs_timed _ Hc) as Htm. cbn in Htm.
  destruct e as [| | | | | | |j|j|j|j|j]; try done; cbn in He;
    (destruct (ws !! j) as [w|] eqn:Hj; [|done]); cbn in He; destruct (wt_pc w) eqn:Hw; try done;
    pose proof (cs_pc _ Hc j w Hj) as Hpc; unfold pc_ok in Hpc; rewrite Hw in Hpc; cbn in Hpc.
  - destruct (done_ready _ _) eqn:Hr; [|done]. simplify_eq.
    eapply (consistent_move _ s cs j w WDone Hc Hj); move_goal Hw.
  - destruct (wt_stop w) eqn:Hr; [|done]. simplify_eq.
    eapply (consistent_move _ s cs j w WStopped Hc Hj); move_goal Hw.
  - simplify_eq. eapply (consistent_move _ s _ j w WLaunched Hc Hj); move_goal Hw.
  - simplify_eq. eapply (consistent_move _ s _ j w (WClock (s_now s)) Hc Hj); move_goal Hw.
  - simplify_eq. eapply (consistent_move _ _ _ j w (WFired t) Hc Hj); rewrite ?now_set; move_goal Hw; [by apply timed_set|].
    intros d. rewrite deadline_set by done. destruct (s_tr s); cbn; intros ?; simplify_eq; eauto.
Qed.

(** A step that changes the session and not the goroutines, in the same operation. *)
Lemma consistent_session p s' ts' :
  consistent p -> s_now (p_sess p) <= s_now s' -> timed s' ->
  (forall d, deadline_of s' = Some d -> deadline_of (p_sess p) = Some d) ->
  consistent (mkProcess s' (p_caller p) (p_watches p) (p_cancels p) ts').
Proof.
  intros [] Hn Ht Hd. constructor; cbn -[accounted]; try done.
  - intros j w Hj. eapply pc_ok_mono; [exact Hn|by eapply cs_pc0].
  - intros d Hdd. exact (cs_deadline0 d (Hd d Hdd)).
Qed.

Lemma consistent_begin s ws cs ts op :
  consistent (mkProcess s Idle ws cs ts) -> s_tr s <> None ->
  consistent (mkProcess (beginOperationContext (op_ctx op) (op_cancel op) s).2 (Begun (length ws))
                (ws ++ [mkWatch op false WNone]) cs ts).
Proof.
  intros [] Htr. cbn in *. rewrite begin_planned.
  assert (Hlk : forall j w, (ws ++ [mkWatch op false WNone]) !! j = Some w ->
    (ws !! j = Some w /\ j <> length ws) \/ (j = length ws /\ w = mkWatch op false WNone)).
  { intros j w [Hj|[Hj Hw]]%lookup_app_Some.
    - left. split; [done|]. apply lookup_lt_Some in Hj. lia.
    - right. apply list_lookup_singleton_Some in Hw as [? ?]. split; [lia|done]. }
  constructor; cbn -[accounted planned_deadline].
  - intros i [= <-]. rewrite length_app. cbn. lia.
  - intros j w [[Hj Hne]|[-> ->]]%Hlk; [|by rewrite Nat.eqb_refl]. rewrite (cs_stop0 _ _ Hj).
    by destruct (Nat.eqb_spec (length ws) j).
  - intros j w [[Hj Hne]|[-> ->]]%Hlk; [|done]. destruct (planned_deadline op); cbn -[set_deadline]; rewrite ?now_set; eauto.
  - intros j w [[Hj Hne]|[-> ->]]%Hlk; [|done]. congruence.
  - done.
  - destruct cs_cancels0 as [Hnd Hin]. split; [done|]. intros j. rewrite Hin. split.
    + intros (w & Hw & Hl). exists w. split; [|done]. by apply lookup_app_l_Some.
    + intros (w & [[Hj Hne]|[-> ->]]%Hlk & Hl); [by exists w|]. unfold launched in Hl. cbn in Hl. by rewrite andb_false_r in Hl.
  - destruct (planned_deadline op); [by apply timed_set|done].
  - intros d Hd. destruct (planned_deadline op) as [d'|] eqn:Ep.
    + rewrite deadline_set in Hd by done. destruct (s_tr s); [|done]. cbn in Hd. simplify_eq.
      left. exists (length ws), (mkWatch op false WNone). split_and!; try done. cbn. by apply list_lookup_middle.
    + destruct (cs_deadline0 d Hd) as [(? & ? & ? & _)|(j & w & t & Hj & ? & ?)]; [done|].
      right. exists j, w, t. split_and!; try done. by apply lookup_app_l_Some.
Qed.

(** The caller moves on in its operation [i] and updates its watch. *)
Lemma consistent_caller p c' i w w' :
  consistent p -> caller_op (p_caller p) = Some i -> caller_op c' = Some i -> p_watches p !! i = Some w ->
  (c' = Begun i -> False) -> wt_op w' = wt_op w -> wt_stop w' = negb (in_operation c' i) ->
  (wt_pc w' = wt_pc w \/ wt_pc w = WNone /\ wt_pc w' = WSelect) ->
  (c' = Body i -> op_watched (wt_op w) = true -> wt_pc w' = WSelect) ->
  (wt_pc w = WStopped -> wt_stop w' = true) ->
  consistent (mkProcess (p_sess p) c' (<[i := w']> (p_watches p)) (p_cancels p) (p_timeouts p)).
Proof.
  intros [] Hi Hi' Hw Hb Hop Hst Hpc Hsel Hstop.
  assert (Hl : (i < length (p_watches p))%nat) by by eapply lookup_lt_Some.
  assert (Hother : forall j, j <> i -> in_operation c' j = false /\ in_operation (p_caller p) j = false).
  { intros j Hne. destruct c', (p_caller p); cbn in *; simplify_eq; try done; split; try done; by apply Nat.eqb_neq. }
  assert (Hla : launched w' = launched w).
  { unfold launched. rewrite Hop. by destruct Hpc as [->|[-> ->]]. }
  constructor; cbn -[accounted].
  - rewrite length_insert. intros j Hj. rewrite Hi' in Hj. simplify_eq. by apply cs_current0.
  - intros j v Hv. watch_cases j i Hl Hv; [done|]. destruct (Hother j) as [-> Ho]; [done|]. by rewrite (cs_stop0 _ _ Hv), Ho.
  - intros j v Hv. watch_cases j i Hl Hv; [|by eapply cs_pc0]. pose proof (cs_pc0 _ _ Hw) as Hp. unfold pc_ok in *.
    rewrite Hop. destruct Hpc as [->|[_ ->]]; [|done]. destruct (wt_pc w); try done. by apply Hstop.
  - intros j v Hv ->. watch_cases j i Hl Hv; cbn in Hi'; congruence.
  - intros j v Hv -> Hwt. watch_cases j i Hl Hv; [|cbn in Hi'; congruence]. rewrite Hop in Hwt.
    rewrite (Hsel eq_refl Hwt). done.
  - pose proof (cancels_move _ _ i w w' Hw cs_cancels0) as Hc. rewrite Hla, andb_negb_r in Hc. by apply Hc.
  - done.
  - intros d Hd. pose proof (cs_deadline0 d Hd) as Ha.
    eapply (accounted_watches _ (p_sess p) (p_cancels p) (p_timeouts p) i w w') in Ha; try done.
    + destruct Ha as [(j & v & Hj & Hv & Hp)|(j & v & t & Hv & Ht & Hp)]; [left|right].
      * exists j, v. cbn in *. split_and!; try done. congruence.
      * by exists j, v, t.
    + intros t Ht. destruct Hpc as [->|[H' _]]; [done|congruence].
Qed.

Lemma caller_step_consistent e p p' : consistent p -> caller_step e p = Some p' -> consistent p'.
Proof.
  intros Hc He. destruct p as [s c ws cs ts]. pose proof (cs_timed _ Hc) as Htm. cbn in Htm.
  destruct e as [op| |s'| | | |k|j|j|j|j|j]; try (by destruct c); cbn in He.
  - destruct c; try done. destruct (s_tr s) eqn:Et; [|done]. cbn in He. simplify_eq. apply consistent_begin; congruence.
  - destruct c as [|i| |]; try done. destruct (ws !! i) as [w|] eqn:Hi; [|done]. cbn in He. simplify_eq.
    pose proof (cs_begun _ Hc i w Hi eq_refl) as Hn.
    apply (consistent_caller _ (Body i) i w _ Hc eq_refl eq_refl Hi); cbn; try done.
    + pose proof (cs_stop _ Hc i w Hi) as Hs. cbn in Hs. by rewrite Nat.eqb_refl in *.
    + rewrite Hn. destruct (op_watched _); auto.
    + by intros _ ->.
    + congruence.
  - destruct c as [| |i|]; try done. destruct (body_ok s s') eqn:Eb; [|done]. simplify_eq.
    apply body_ok_spec in Eb as (? & ? & ? & _). by apply (consistent_session _ s' ts Hc); auto.
  - destruct c as [| |i|]; try done. destruct (deadline_of s); [|done]. cbn in He.
    destruct (_ <=? _); [|done]. simplify_eq. by apply (consistent_session _ s (i :: ts) Hc).
  - destruct c as [| |i|]; try done. destruct (ws !! i) as [w|] eqn:Hi; [|done]. cbn in He. simplify_eq.
    apply (consistent_caller _ (Ending i) i w _ Hc eq_refl eq_refl Hi); cbn; auto; done.
  - destruct c as [| | |i]; try done. simplify_eq. unfold endOperationContext.
    destruct Hc. cbn in *. constructor; cbn -[accounted set_deadline]; rewrite ?now_set; try done; [by apply timed_set|].
    intros d. rewrite deadline_set by done. by destruct (s_tr s).
  - destruct (0 <=? k) eqn:Ek; [|by destruct c]. assert (p' = mkProcess (set_now (s_now s + k) s) c ws cs ts) as -> by (destruct c; by simplify_eq).
    apply Z.leb_le in Ek. by apply (consistent_session _ _ ts Hc); cbn; [lia|..].
Qed.

Lemma step_consistent e p p' : consistent p -> step e p = Some p' -> consistent p'.
Proof. unfold step. destruct (is_watcher_event e); [apply watcher_step_consistent|apply caller_step_consistent]. Qed.

Lemma reaches_consistent p p' : consistent p -> reaches p p' -> consistent p'.
Proof. intros Hc Hr. induction Hr as [p|p q p' [e He] _ IH]; [done|]. apply IH. by eapply step_consistent. Qed.

Lemma start_consistent s : timed s -> deadline_of s = None -> consistent (start s).
Proof.
  intros Ht Hd. constructor; cbn; try done.
  - split; [constructor|]. intros j. split; [by intros ?%elem_of_nil|by intros (w & ? & _)].
  - intros d. by rewrite Hd.
Qed.

(** ** A done context wakes the operation *)

(** While the body of an operation runs whose goroutine has acted, the connection has a
    deadline, and a near one. *)
Definition armed (p : Process) : Prop :=
  forall i w t, p_caller p = Body i -> p_watches p !! i = Some w -> wt_pc w = WFired t ->
  s_tr (p_sess p) <> None ->
  exists d, deadline_of (p_sess p) = Some d /\ d <= s_now (p_sess p) + cancelGracePeriod.

Lemma wake_deadline_near op t : wake_deadline op t <= t + cancelGracePeriod.
Proof. unfold wake_deadline, cancelGracePeriod. destruct (op_cancel op); lia. Qed.

(** A goroutine that does not touch the deadline, nor has. *)
Lemma armed_move s c ws cs cs' ts j w pc' :
  armed (mkProcess s c ws cs ts) -> ws !! j = Some w -> (forall t, pc' <> WFired t) ->
  armed (mkProcess s c (set_pc j w pc' ws) cs' ts).
Proof.
  intros Ha Hj Hpc i v t Hc Hv Ht. cbn in *. assert (Hl : (j < length ws)%nat) by by eapply lookup_lt_Some. unfold set_pc in Hv.
  watch_cases i j Hl Hv; [by destruct (Hpc t)|]. by apply (Ha i v t).
Qed.

(** What the step of a goroutine is: it moves on, and the last one sets the deadline. *)
Lemma watcher_step_inv e s c ws cs ts p' :
  watcher_step e (mkProcess s c ws cs ts) = Some p' ->
  exists j w pc' s' cs', ws !! j = Some w /\ (forall t, wt_pc w <> WFired t) /\ p' = mkProcess s' c (set_pc j w pc' ws) cs' ts /\
    ((s' = s /\ forall t, pc' <> WFired t) \/
     exists t, wt_pc w = WClock t /\ pc' = WFired t /\ s' = (set_deadline (Some (wake_deadline (wt_op w) t)) s).2).
Proof.
  intros He. destruct e as [| | | | | | |j|j|j|j|j]; try done; cbn in He;
    (destruct (ws !! j) as [w|] eqn:Hj; [|done]); cbn in He; destruct (wt_pc w) eqn:Hw; try done;
    exists j, w; repeat case_match; simplify_eq; eexists _, _, _; (split; [done|]); (split; [congruence|]); (split; [reflexivity|]); auto.
  right. by exists t.
Qed.

Lemma watcher_step_armed e p p' : consistent p -> armed p -> watcher_step e p = Some p' -> armed p'.
Proof.
  intros Hc Ha He. destruct p as [s c ws cs ts]. pose proof (cs_timed _ Hc) as Htm. cbn in Htm.
  apply watcher_step_inv in He as (j & w & pc' & s' & cs' & Hj & _ & -> & [[-> Hpc]|(t & Hw & -> & ->)]); [by eapply armed_move|].
  pose proof (cs_pc _ Hc j w Hj) as Hpc. unfold pc_ok in Hpc. rewrite Hw in Hpc. destruct Hpc as [_ Hle].
  intros i v t' _ _ _ Htr. cbn -[set_deadline] in *. rewrite deadline_set, now_set by done.
  exists (wake_deadline (wt_op w) t). pose proof (wake_deadline_near (wt_op w) t).
  split; [|lia]. unfold set_deadline in Htr. by destruct (s_tr s) eqn:E; [|cbn in Htr; rewrite E in Htr].
Qed.

Lemma caller_step_armed e p p' : consistent p -> armed p -> caller_step e p = Some p' -> armed p'.
Proof.
  intros Hc Ha He. destruct p as [s c ws cs ts]. pose proof (cs_timed _ Hc) as Htm. cbn in Htm.
  destruct e as [op| |s'| | | |k|j|j|j|j|j]; try (by destruct c); cbn in He.
  - destruct c; try done. destruct (s_tr s); [|done]. cbn in He. by simplify_eq.
  - destruct c as [|i| |]; try done. destruct (ws !! i) as [w|] eqn:Hi; [|done]. cbn in He. simplify_eq.
    intros i' v t Hb Hv Ht. cbn in Hb, Hv. unfold set_pc in Hv. simplify_eq.
    rewrite list_lookup_insert_eq in Hv by (by eapply lookup_lt_Some). simplify_eq. cbn in Ht. by destruct (op_watched _).
  - destruct c as [| |i|]; try done. destruct (body_ok s s') eqn:Eb; [|done]. simplify_eq.
    pose proof Eb as (Hn & _ & _ & Hd)%body_ok_spec. intros i' v t Hb Hv Ht Htr. cbn in *. rewrite (Hd Htr).
    destruct (Ha i' v t Hb Hv Ht) as (d & ? & ?); [|by exists d; split; [|cbn in *; lia]].
    unfold body_ok in Eb. apply andb_true_iff in Eb as [_ Eb]. cbn. by destruct (s_tr s), (s_tr s').
  - destruct c as [| |i|]; try done. destruct (deadline_of s); [|done]. cbn in He. by destruct (_ <=? _); simplify_eq.
  - destruct c as [| |i|]; try done. destruct (ws !! i) as [w|] eqn:Hi; [|done]. cbn in He. by simplify_eq.
  - destruct c as [| | |i]; try done. by simplify_eq.
  - destruct (0 <=? k) eqn:Ek; [|by destruct c]. apply Z.leb_le in Ek.
    assert (p' = mkProcess (set_now (s_now s + k) s) c ws cs ts) as -> by (destruct c; by simplify_eq).
    intros i v t Hb Hv Ht Htr. destruct (Ha i v t Hb Hv Ht Htr) as (d & ? & ?). exists d. split; [done|]. cbn in *. lia.
Qed.

Lemma reaches_armed p p' : consistent p -> armed p -> reaches p p' -> armed p'.
Proof.
  intros Hc Ha Hr. induction Hr as [p|p q p' [e He] _ IH]; [done|].
  apply IH; [by eapply step_consistent|]. unfold step in He. destruct (is_watcher_event e).
  - by eapply watcher_step_armed. - by eapply caller_step_armed.
Qed.

(** A goroutine that has acted is done with. *)
Lemma step_fired e p p' i w t :
  consistent p -> step e p = Some p' -> p_watches p !! i = Some w -> wt_pc w = WFired t ->
  exists w', p_watches p' !! i = Some w' /\ wt_pc w' = WFired t.
Proof.
  intros Hc He Hi Hw. unfold step in He. destruct p as [s c ws cs ts]. cbn in Hi.
  assert (Hl : (i < length ws)%nat) by by eapply lookup_lt_Some.
  destruct (is_watcher_event e).
  - apply watcher_step_inv in He as (j & v & pc' & s' & cs' & Hj & Hf & -> & _). cbn. unfold set_pc.
    rewrite list_lookup_insert_ne; [by exists w|]. intros ->. simplify_eq. by destruct (Hf t).
  - destruct e as [op| |s'| | | |k0|j|j|j|j|j], c as [|k|k|k]; cbn in He; try done;
      try (by exists w; repeat case_match; simplify_eq).
    + destruct (s_tr s); [|done]. cbn in He. simplify_eq. exists w. split; [|done]. by apply lookup_app_l_Some.
    + destruct (ws !! k) as [v|] eqn:Hk; [|done]. cbn in He. simplify_eq. cbn. unfold set_pc.
      rewrite list_lookup_insert_ne; [by exists w|]. intros ->. rewrite Hi in Hk.
      pose proof (cs_begun _ Hc i w Hi eq_refl). congruence.
    + destruct (deadline_of s); [|done]. cbn in He. repeat case_match; simplify_eq. by exists w.
    + destruct (ws !! k) as [v|] eqn:Hk; [|done]. cbn in He. simplify_eq. cbn.
      destruct (decide (k = i)) as [->|]; [|rewrite list_lookup_insert_ne by done; by exists w].
      rewrite list_lookup_insert_eq by done. simplify_eq. by eexists.
Qed.

Lemma reaches_fired p q i w t :
  consistent p -> reaches p q -> p_watches p !! i = Some w -> wt_pc w = WFired t ->
  exists w', p_watches q !! i = Some w' /\ wt_pc w' = WFired t.
Proof.
  intros Hc Hr. revert w. induction Hr as [p|p p' q [e He] _ IH]; intros w Hi Hw; [by exists w|].
  destruct (step_fired _ _ _ _ _ _ Hc He Hi Hw) as (w' & Hi' & Hw'). eapply IH; eauto using step_consistent.
Qed.

(** The steps a goroutine has left to take once its context is done. *)
Definition wake_events (i : nat) (pc : watcher) : list event :=
  match pc with
  | WSelect => [EvSelectDone i; EvCancel i; EvClock i; EvDeadline i]
  | WDone => [EvCancel i; EvClock i; EvDeadline i]
  | WLaunched => [EvClock i; EvDeadline i]
  | WClock _ => [EvDeadline i]
  | _ => []
  end.

(** They can be taken in every state, one after the other. *)
Lemma wake_events_run s c ws cs ts i w :
  ws !! i = Some w -> wt_pc w <> WNone -> wt_pc w <> WStopped -> done_ready (wt_op w) (s_now s) = true ->
  exists s' w' cs' t, run_events (wake_events i (wt_pc w)) (mkProcess s c ws cs ts) =
      Some (mkProcess s' c (<[i := w']> ws) cs' ts) /\
    wt_pc w' = WFired t /\ s_now s' = s_now s /\ (s_tr s <> None -> s_tr s' <> None).
Proof.
  intros Hi Hn Hs Hd. assert (Hl : (i < length ws)%nat) by by eapply lookup_lt_Some.
  assert (Hset : forall d, s_tr s <> None -> s_tr (set_deadline d s).2 <> None).
  { intros d. unfold set_deadline. by destruct (s_tr s). }
  destruct w as [op stop pc]. cbn in Hn, Hs, Hd. unfold wake_events. cbn [wt_pc].
  destruct pc as [| | | |t|t|]; try done; cbn -[set_deadline]; unfold set_pc; cbn -[set_deadline];
    repeat (first [rewrite Hi | rewrite Hd | rewrite list_lookup_insert_eq by (rewrite ?length_insert; done)
                  | rewrite list_insert_insert_eq | progress unfold set_pc]; cbn -[set_deadline]).
  5: exists s, (mkWatch op stop (WFired t)), cs, t; by rewrite list_insert_id.
  all: do 4 eexists; (split; [reflexivity|]); cbn -[set_deadline]; rewrite ?now_set; by split_and!; auto.
Qed.

(** ** Examples *)

(** A session whose server says nothing, and an operation whose context is done at
    moment 3. *)
Definition silent_session : Session :=
  mkSession (Some (NewReadWriter (mkTransport [] NEof [] None NEof false None))) None [] 0 true false 0 None 0.
Definition watched_operation : Operation := mkOperation (mkCtx (Some 3) context_Canceled (Some 40) None) true true.

Lemma silent_session_timed : timed silent_session.
Proof. by intros t [= <-]. Qed.

(** ** The deadline between operations *)

(** C9 (invariant). However the goroutines and the caller interleave, a deadline on the
    connection is one that the operation being run asked for, or one that a goroutine
    has set, a goroutine whose context was done when it read the clock. Between two
    operations only the second can be. And [cancel] is launched at most once per
    operation, only where one was given and only once the context is done. *)
Theorem deadline_is_accounted_for s p :
  timed s -> deadline_of s = None -> reaches (start s) p ->
  (forall d, deadline_of (p_sess p) = Some d ->
     (exists i w, caller_op (p_caller p) = Some i /\ p_watches p !! i = Some w /\
        planned_deadline (wt_op w) = Some d) \/
     (exists j w t, p_watches p !! j = Some w /\ d = wake_deadline (wt_op w) t /\
        done_ready (wt_op w) t = true /\ t <= s_now (p_sess p))) /\
  NoDup (p_cancels p) /\
  (forall j, j ∈ p_cancels p -> exists w, p_watches p !! j = Some w /\ op_cancel (wt_op w) = true /\
     done_ready (wt_op w) (s_now (p_sess p)) = true).
Proof.
  intros Ht Hd Hr. pose proof (reaches_consistent _ _ (start_consistent s Ht Hd) Hr) as [].
  split_and!; [|by destruct cs_cancels0|].
  - intros d [(i & w & ?)|(j & w & t & Hj & Hpc & ->)]%cs_deadline0; [left; by exists i, w|right].
    exists j, w, t. pose proof (cs_pc0 _ _ Hj) as Hok. unfold pc_ok in Hok. rewrite Hpc in Hok. by destruct Hok.
  - intros j (w & Hj & [Hop Hl]%andb_true_iff)%cs_cancels0. exists w. split_and!; try done.
    pose proof (cs_pc0 _ _ Hj) as Hok. unfold pc_ok in Hok.
    destruct (wt_pc w); try done; destruct Hok; by eapply done_ready_mono.
Qed.

Lemma deadline_is_accounted_for_witness :
  exists p, run_events [EvBegin watched_operation; EvSpawn; EvTick 4; EvSelectDone 0; EvCancel 0] (start silent_session) = Some p /\
    p_cancels p = [0%nat] /\ NoDup (p_cancels p).
Proof.
  destruct (run_events [EvBegin watched_operation; EvSpawn; EvTick 4; EvSelectDone 0; EvCancel 0] (start silent_session))
    as [p|] eqn:E; [|by vm_compute in E].
  exists p. split; [done|]. split; [vm_compute in E; by simplify_eq|].
  by apply (deadline_is_accounted_for silent_session p silent_session_timed eq_refl (run_reaches _ _ _ E)).
Defined.

(** C10 (liveness). A context that is done while the body of an operation runs wakes it:
    the goroutine can take the steps it has left at once, whatever the others do, four
    at most, and from then on, as long as the body runs on an open session, the
    connection has a deadline no further away than the grace period, so that a blocked
    read fails as soon as the clock has reached it. *)
Theorem done_context_wakes_the_body s p i w :
  timed s -> deadline_of s = None -> reaches (start s) p ->
  p_caller p = Body i -> p_watches p !! i = Some w -> done_ready (wt_op w) (s_now (p_sess p)) = true ->
  exists es p', (length es <= 4)%nat /\ Forall (fun e => is_watcher_event e = true) es /\
    run_events es p = Some p' /\ p_caller p' = Body i /\
    forall q, reaches p' q -> p_caller q = Body i -> s_tr (p_sess q) <> None ->
      exists d, deadline_of (p_sess q) = Some d /\ d <= s_now (p_sess q) + cancelGracePeriod /\
        (d <= s_now (p_sess q) -> is_Some (step EvTimeout q)).
Proof.
  intros Ht Hd Hr Hb Hi Hdone. pose proof (start_consistent s Ht Hd) as H0.
  pose proof (reaches_consistent _ _ H0 Hr) as Hc.
  assert (Ha : armed p) by (apply (reaches_armed (start s)); [done|by intros ? ? ? ?|done]).
  destruct p as [s1 c ws cs ts]. cbn in Hb, Hi, Hdone. subst c.
  destruct (wake_events_run s1 (Body i) ws cs ts i w Hi) as (s' & w' & cs' & t & Hrun & Hw' & Hn & Htr); [..|done|].
  { apply (cs_spawned _ Hc i w); try done. unfold done_ready in Hdone. by apply andb_true_iff in Hdone as [? _]. }
  { intros Hw. pose proof (cs_pc _ Hc i w Hi) as Hok. unfold pc_ok in Hok. rewrite Hw, (cs_stop _ Hc i w Hi) in Hok.
    cbn in Hok. by rewrite Nat.eqb_refl in Hok. }
  eexists _, _. split_and!; [| |exact Hrun|done|].
  - destruct (wt_pc w); cbn; lia.
  - destruct (wt_pc w); cbn; by repeat constructor.
  - intros q Hq Hbq Htq. apply run_reaches in Hrun. pose proof (reaches_consistent _ _ Hc Hrun) as Hc'.
    destruct (reaches_fired _ _ i w' t Hc' Hq) as (v & Hv & Hf); [|done|].
    { cbn. apply list_lookup_insert_eq. by eapply lookup_lt_Some. }
    destruct (reaches_armed _ _ Hc' (reaches_armed _ _ Hc Ha Hrun) Hq i v t Hbq Hv Hf Htq) as (d & Hdl & Hle).
    exists d. split_and!; try done. intros Hexp. destruct q as [sq cq wsq csq tsq]. cbn in *. subst cq. unfold step. cbn.
    rewrite Hdl. cbn. apply Z.leb_le in Hexp. rewrite Hexp. by eexists.
Qed.

Lemma done_context_wakes_the_body_witness :
  exists p es p', run_events [EvBegin watched_operation; EvSpawn; EvTick 4] (start silent_session) = Some p /\
    (length es <= 4)%nat /\ run_events es p = Some p' /\ p_caller p' = Body 0.
Proof.
  destruct (run_events [EvBegin watched_operation; EvSpawn; EvTick 4] (start silent_session)) as [p|] eqn:E; [|by vm_compute in E].
  destruct (done_context_wakes_the_body silent_session p 0 (mkWatch watched_operation false WSelect)
    silent_session_timed eq_refl (run_reaches _ _ _ E)) as (es & p' & Hl & _ & Hr & Hc & _);
    try (vm_compute in E; simplify_eq; reflexivity).
  by exists p, es, p'.
Defined.

(** ** A goroutine that is late *)

(** An operation that comes to its end; its context is done, but its goroutine acts only
    then; another operation follows. *)
Definition late_events (op op' : Operation) (k : Z) : list event :=
  [EvBegin op; EvSpawn; EvTick k; EvStop; EvClear;
   EvSelectDone 0; EvCancel 0; EvClock 0; EvDeadline 0;
   EvBegin op'; EvSpawn; EvTick cancelGracePeriod; EvTimeout].

(** Evaluate the steps, not the arithmetic. *)
Ltac slow := cbn -[Z.add Z.leb cancelGracePeriod beginOperationContext].

(** C40 (error). The end of an operation does not wait for the goroutine. When the
    context is done by the time the operation ends, the goroutine may still choose that
    branch, move the deadline after it was cleared and launch the cancellation of a
    statement that is no longer running. The next operation on the connection then
    times out, though its own context has no deadline and is never done. *)
Theorem late_goroutine_hits_the_next_operation s op op' d :
  timed s -> s_tr s <> None -> deadline_of s = None ->
  op_watched op = true -> ctx_done_at (op_ctx op) = Some d -> ctx_deadline (op_ctx op') = None ->
  exists p, reaches (start s) p /\ p_caller p = Body 1 /\
    (exists w w', p_watches p = [w; w'] /\ wt_op w = op /\ wt_stop w = true /\ wt_op w' = op') /\
    p_timeouts p = [1%nat] /\ p_cancels p = (if op_cancel op then [0%nat] else []).
Proof.
  intros Ht Htr Hd Hw Hdone Hd'. set (k := Z.max 0 (d - s_now s)).
  assert (Hk : 0 <=? k = true) by (apply Z.leb_le; lia).
  assert (Hr : forall n, n = s_now s -> d <=? n + k = true) by (intros n ->; apply Z.leb_le; lia).
  destruct op as [ctx [] cancel]; [|done]. destruct op' as [ctx' watched' cancel']. cbn in Hdone, Hd'.
  destruct s as [[[tr tw twc dl net]|] scfg id ver ac dead nid gone now]; [|done]. cbn in Hr, Hd.
  specialize (Ht _ eq_refl). cbn in Ht. subst dl.
  assert (Hrun : exists p, run_events (late_events (mkOperation ctx true cancel) (mkOperation ctx' watched' cancel') k)
    (start (mkSession (Some (mkTr tr tw twc true net)) scfg id ver ac dead nid gone now)) = Some p /\ p_caller p = Body 1 /\
    (exists w w', p_watches p = [w; w'] /\ wt_op w = mkOperation ctx true cancel /\ wt_stop w = true /\
       wt_op w' = mkOperation ctx' watched' cancel') /\
    p_timeouts p = [1%nat] /\ p_cancels p = (if cancel then [0%nat] else [])).
  { clearbody k. set (plan := match ctx_deadline ctx with
      Some e => Some (if cancel then e + cancelGracePeriod else e) | None => net_deadline net end).
    assert (Hbeg : forall s, s_tr s = Some (mkTr tr tw twc true net) -> (beginOperationContext ctx cancel s).2 =
      set_tr (Some (mkTr tr tw twc true (net_set_deadline plan net))) s).
    { intros s E. unfold beginOperationContext, plan. unfold set_deadline.
      destruct (ctx_deadline ctx); [by rewrite E|]. destruct s, net. cbn in *. by subst. }
    assert (Hbeg' : forall s, beginOperationContext ctx' cancel' s = (Ok tt, s)) by (unfold beginOperationContext; by rewrite Hd').
    unfold late_events, start. slow. rewrite Hbeg by done. slow. rewrite Hk. slow. unfold done_ready. slow.
    rewrite Hdone, Hr by done. slow. rewrite Hbeg'. unfold wake_deadline. destruct cancel; slow.
    all: repeat (match goal with |- context [?x <=? ?y] =>
           replace (x <=? y) with true by (symmetry; apply Z.leb_le; unfold cancelGracePeriod; lia) end; slow).
    all: eexists; (split; [reflexivity|]); by eauto 10. }
  destruct Hrun as (p & Hrun & ?). exists p. split; [by eapply run_reaches|done].
Qed.

Lemma late_goroutine_hits_the_next_operation_witness :
  exists p, reaches (start silent_session) p /\ p_timeouts p = [1%nat] /\ p_cancels p = [0%nat].
Proof.
  destruct (late_goroutine_hits_the_next_operation silent_session watched_operation (mkOperation Background false false) 3)
    as (p & Hr & _ & _ & Ht & Hc); [exact silent_session_timed|done..|].
  by exists p.
Defined.
