(* ===== verification/SessionFacts.v ===== *)
(** * What every operation keeps of a session

    A session is [alive], with a transfer to work on, or [broken], its connection
    closed for good. [fair m]: the operation leaves it in one of these states, goes
    forward in the stream, and an error of the server that it reports is a complete
    error frame, with the session still alive. [disciplined m]: moreover every other
    error it returns (a panic returns none) has broken the session.

    Both are stated for any state that holds a session, through [HasSession]. *)

From S2P Require Import Prelude.
From S2P Require Import GoText.
From S2P Require Import Protocol.
From S2P Require Import Transfer.
From S2P Require Import Errors.
From S2P Require Import Fuel.
From S2P Require Import TypeInfo.
From S2P Require Import Metadata.
From S2P Require Import GoUrl.
From S2P Require Import Dsn.
From S2P Require Import Network.
From S2P Require Import Session.

(** ** Transfers that a session works on *)

Definition shaped (t : Tr) : Prop := tr_r t = true /\ tr_wc t = true /\ is_Some (tr_w t).

(** [m] keeps the shape and only goes forward. *)
Definition steady {A} (m : M Tr A) : Prop :=
  forall t, shaped t -> shaped (m t).2 /\ exists pre, input t = pre ++ input (m t).2.

(** A server error that [m] reports was the last frame it consumed. *)
Definition reports {A} (m : M Tr A) : Prop :=
  forall t e t' h, m t = (Err e, t') -> errors_As e = Some h ->
  exists pre frame, input t = pre ++ frame ++ input t' /\ decodes readH2Error_fields frame h.

Section steady.
Context {A B : Type}.

Lemma steady_ret (a : A) : steady (ret a).
Proof. intros t Ht. split; [done|]. by exists []. Qed.
Lemma steady_fail e : steady (@fail Tr A e).
Proof. intros t Ht. split; [done|]. by exists []. Qed.

Lemma steady_bind (m : M Tr A) (k : A -> M Tr B) :
  steady m -> (forall a, steady (k a)) -> steady (bind m k).
Proof.
  intros Hm Hk t Ht. specialize (Hm t Ht) as [Ht1 [pre1 E1]]. unfold bind.
  destruct (m t) as [[a|e] t1]; cbn in *; [|by eauto].
  destruct (Hk a t1 Ht1) as [Ht2 [pre2 E2]]. split; [done|]. exists (pre1 ++ pre2).
  by rewrite E1, E2, app_assoc.
Qed.

Lemma steady_wrapf fmt args (m : M Tr A) : steady m -> steady (wrapf fmt args m).
Proof.
  intros Hm t Ht. specialize (Hm t Ht). rewrite wrapf_run. by destruct (m t) as [[a|e] t1].
Qed.

Lemma steady_reader (m : M Tr A) : reader m -> steady m.
Proof.
  intros Hm t Ht. destruct (m t) as [x t'] eqn:E. destruct (Hm _ _ _ E) as (pre & Hin & Ht' & _).
  cbn. split; [by rewrite Ht'|by exists pre].
Qed.

Lemma reports_plain (m : M Tr A) : plain_errs m -> reports m.
Proof. intros Hm t e t' h H Has. apply Hm, plain_As in H. congruence. Qed.
End steady.

Lemma steady_tr_Write p : steady (tr_Write p).
Proof.
  intros t Ht. pose proof (writes_tr_Write p t) as Hw. unfold tr_Write in *.
  destruct Ht as (H1 & H2 & [w Hw0]). rewrite Hw0 in *.
  destruct (bw_write p w (tr_net t)) as [[[e|] w'] n'] eqn:E; cbn in *;
    destruct Hw as ((Hr & Hc & _ & Hin & _) & _);
    (split; [by split_and!; cbn in *; eauto|exists []; cbn; symmetry; exact Hin]).
Qed.

Lemma steady_Flush : steady Flush.
Proof.
  intros t Ht. pose proof (sends_Flush t) as Hw. unfold Flush in *.
  destruct Ht as (H1 & H2 & [w Hw0]). rewrite Hw0 in *.
  destruct (bw_flush w (tr_net t)) as [[[e|] w'] n'] eqn:E; cbn in *;
    destruct Hw as ((Hr & Hc & _ & Hin & _) & _);
    (split; [by split_and!; cbn in *; eauto|exists []; cbn; symmetry; exact Hin]).
Qed.

Lemma steady_SetDeadline d : steady (SetDeadline d).
Proof. intros t Ht. unfold SetDeadline. destruct (tr_dl t); (split; [done|by exists []]). Qed.

Create HintDb steady.
#[export] Hint Resolve steady_ret steady_fail steady_tr_Write steady_Flush steady_SetDeadline : steady.
#[export] Hint Resolve reader_ReadByte reader_ReadBool reader_ReadInt32 reader_ReadInt64 reader_ReadString
  reader_ReadBytes reader_ReadRowCount reader_readStatus reader_readH2Error : steady.

(** Decompose a transfer operation into steady pieces. *)
Ltac solve_steady :=
  repeat match goal with
  | |- steady (bind _ _) => apply steady_bind; [|intros ?]
  | |- steady (wrapf _ _ _) => apply steady_wrapf
  | |- steady (if ?b then _ else _) => destruct b
  | |- steady (match ?x with _ => _ end) => destruct x
  | |- steady (let '(_, _) := ?x in _) => destruct x
  | |- steady (WriteInt32 _) => apply steady_tr_Write
  | |- steady (WriteInt64 _) => apply steady_tr_Write
  | |- steady (WriteBool _) => unfold WriteBool
  | |- steady (WriteByte _) => apply steady_tr_Write
  | |- steady (WriteFloat32 _) => apply steady_tr_Write
  | |- steady (WriteFloat64 _) => apply steady_tr_Write
  | |- steady _ => by eauto with steady h2go
  | |- steady _ => apply steady_reader; by eauto with steady h2go
  end.

Lemma steady_for_each {A} (l : list A) f : (forall x, steady (f x)) -> steady (for_each l f).
Proof.
  intros Hf. induction l; cbn [for_each]; [apply steady_ret|]. by apply steady_bind.
Qed.

Lemma steady_WriteString s : steady (WriteString s).
Proof. intros t Ht. unfold WriteString. destruct (isASCII s); by apply steady_tr_Write. Qed.
Lemma steady_WriteBytes b : steady (WriteBytes b).
Proof. unfold WriteBytes. solve_steady. Qed.
#[export] Hint Resolve steady_WriteString steady_WriteBytes : steady.

(** ** Alive or broken *)

Definition alive (s : Session) : Prop := s_dead s = false /\ exists t, s_tr s = Some t /\ shaped t.

Definition broken (s : Session) : Prop :=
  s_tr s = None /\ s_dead s = true /\ exists t, s_gone s = Some t /\ net_closed (tr_net t) = true.

(** The bytes the session has not read yet. *)
Definition unread (s : Session) : list byte := from_option input [] (s_tr s).

Definition forward (s s' : Session) : Prop := exists pre, unread s = pre ++ unread s'.

Definition aligned (s s' : Session) (h : Error) : Prop :=
  exists pre frame, unread s = pre ++ frame ++ unread s' /\ decodes readH2Error_fields frame h.

Class HasSession (W : Type) := session_of : W -> Session.
#[export] Instance HasSession_id : HasSession Session := fun s => s.

(** What a failure may leave behind. *)
Definition fair_failure (s s' : Session) (e : error) : Prop :=
  match errors_As e with
  | Some h => alive s' /\ aligned s s' h
  | None => (alive s' /\ forward s s') \/ broken s'
  end.

Definition fair_run {A} (s : Session) (x : res A) (s' : Session) : Prop :=
  match x with
  | Ok _ => alive s' /\ forward s s'
  | Err e => fair_failure s s' e
  end.

Definition fair {W} `{HasSession W} {A} (m : M W A) : Prop := forall w,
  (alive (session_of w) -> fair_run (session_of w) (m w).1 (session_of (m w).2)) /\
  (broken (session_of w) -> broken (session_of (m w).2)).

Definition disciplined {W} `{HasSession W} {A} (m : M W A) : Prop :=
  fair m /\ forall w e w', alive (session_of w) -> m w = (Err e, w') ->
    errors_As e = None -> sane e = true -> broken (session_of w').

Lemma forward_refl s : forward s s.
Proof. by exists []. Qed.
Lemma forward_trans s1 s2 s3 : forward s1 s2 -> forward s2 s3 -> forward s1 s3.
Proof. intros [p1 H1] [p2 H2]. exists (p1 ++ p2). by rewrite H1, H2, app_assoc. Qed.
Lemma aligned_forward s1 s2 s3 h : forward s1 s2 -> aligned s2 s3 h -> aligned s1 s3 h.
Proof.
  intros [p1 H1] (p & f & H2 & Hd). exists (p1 ++ p), f. by rewrite H1, H2, app_assoc.
Qed.

Lemma fair_failure_forward s1 s2 s3 e :
  forward s1 s2 -> fair_failure s2 s3 e -> fair_failure s1 s3 e.
Proof.
  unfold fair_failure. intros Hf. destruct (errors_As e).
  - intros [? ?]. eauto using aligned_forward.
  - intros [[? ?]|?]; eauto using forward_trans.
Qed.
#[export] Hint Resolve forward_refl forward_trans aligned_forward fair_failure_forward : steady.

Section fair.
Context {W : Type} `{HasSession W} {A B : Type}.

Lemma fair_ret (a : A) : fair (ret a).
Proof. intros w. split; [|done]. cbn. eauto with steady. Qed.

Lemma fair_fail e : errors_As e = None -> fair (@fail W A e).
Proof. intros He w. split; [|done]. cbn. unfold fair_failure. rewrite He. eauto with steady. Qed.

Lemma fair_gets (f : W -> A) : fair (gets f).
Proof. intros w. split; [|done]. cbn. eauto with steady. Qed.

Lemma fair_modify f : (forall w, session_of (f w) = session_of w) -> fair (@modify W f).
Proof. intros Hf w. cbn. rewrite Hf. split; [|done]. eauto with steady. Qed.

Lemma fair_bind (m : M W A) (k : A -> M W B) : fair m -> (forall a, fair (k a)) -> fair (bind m k).
Proof.
  intros Hm Hk w. destruct (Hm w) as [Ha Hb]. unfold bind.
  destruct (m w) as [[a|e] w1]; cbn in *; [|by split].
  destruct (Hk a w1) as [Ha' Hb']. split; [|by auto].
  intros Hw. destruct (Ha Hw) as [Hw1 Hf]. specialize (Ha' Hw1). unfold fair_run in *.
  destruct (k a w1).1; [|by eauto with steady]. destruct Ha'. eauto with steady.
Qed.

(** An error that is renamed keeps what it says about the server. *)
Definition renames (g : error -> error) : Prop := forall e, errors_As (g e) = errors_As e.

Lemma fair_rename g (m m' : M W A) :
  renames g ->
  (forall w, m' w = match m w with (Ok a, w') => (Ok a, w') | (Err e, w') => (Err (g e), w') end) ->
  fair m -> fair m'.
Proof.
  intros Hg Hrun Hm w. destruct (Hm w) as [Ha Hb]. rewrite Hrun.
  destruct (m w) as [[a|e] w1]; cbn in *; [done|].
  unfold fair_failure in *. by rewrite Hg.
Qed.

Lemma fair_wrapf fmt args (m : M W A) : fair m -> fair (wrapf fmt args m).
Proof.
  apply (fair_rename (fun e => EWrapf fmt args [e])); [|done]. intros e. apply errors_As_wrapf.
Qed.
Lemma fair_wrapE op (m : M W A) : fair m -> fair (wrapE op m).
Proof. apply (fair_rename (wrapError op)); [|done]. intros e. apply errors_As_wrapError. Qed.

Lemma disciplined_fair (m : M W A) : disciplined m -> fair m.
Proof. by intros []. Qed.

Lemma disciplined_ret (a : A) : disciplined (ret a).
Proof. split; [apply fair_ret|done]. Qed.

Lemma disciplined_bind (m : M W A) (k : A -> M W B) :
  disciplined m -> (forall a, disciplined (k a)) -> disciplined (bind m k).
Proof.
  intros [Hm Hm'] Hk. split; [apply fair_bind; [done|intros a; apply Hk]|].
  intros w e w' Hw [Hr|(a & w1 & H1 & Hr)]%bind_Err_inv Has Hsn; [by eauto|].
  destruct (Hm w) as [Ha _]. rewrite H1 in Ha. destruct (Ha Hw) as [Hw1 _].
  by eapply (Hk a).
Qed.

Lemma disciplined_wrapf fmt args (m : M W A) : disciplined m -> disciplined (wrapf fmt args m).
Proof.
  intros [Hm Hm']. split; [by apply fair_wrapf|].
  intros w e w' Hw (e' & H1 & ->)%wrapf_Err_inv Has Hsn. rewrite errors_As_wrapf in Has.
  cbn in Hsn. rewrite andb_true_r in Hsn. by eauto.
Qed.
End fair.

(** ** Operations of a session *)

Lemma unread_set_tr t s : unread (set_tr (Some t) s) = input t.
Proof. done. Qed.

Lemma fair_on_tr {A} (m : M Tr A) : steady m -> reports m -> fair (on_tr m).
Proof.
  intros Hs Hr s. unfold session_of, HasSession_id, on_tr. split.
  - intros [Hd (t & Ht & Hsh)]. rewrite Ht. destruct (Hs t Hsh) as [Hsh' [pre Hin]].
    specialize (Hr t). destruct (m t) as [x t'] eqn:E. cbn in *.
    assert (Hal : alive (set_tr (Some t') s)) by (split; [done|by exists t']).
    assert (Hf : forward s (set_tr (Some t') s)) by (exists pre; unfold unread; by rewrite Ht).
    destruct x as [a|e]; cbn; [done|]. unfold fair_failure.
    destruct (errors_As e) as [h|] eqn:Eh; [|by auto]. split; [done|].
    destruct (Hr e t' h eq_refl Eh) as (p & fr & Hin' & Hd'). exists p, fr.
    split; [|done]. unfold unread. by rewrite Ht.
  - intros (Ht & Hd & Hg). rewrite Ht. done.
Qed.

Lemma broken_Abort s : alive s \/ broken s -> broken (Session_Abort s).2.
Proof.
  unfold Session_Abort. intros [[Hd (t & Ht & H1 & H2 & H3)]|(Ht & Hd & Hg)]; rewrite Ht.
  - unfold Abort. rewrite H2. cbn. split_and!; [done..|]. eexists. split; [done|done].
  - done.
Qed.

Lemma broken_markStreamBroken s : alive s \/ broken s -> broken (markStreamBroken s).2.
Proof. apply broken_Abort. Qed.

Lemma session_open_run err s :
  alive s -> session_open err s = (Ok tt, s).
Proof. unfold session_open. by intros [_ (t & -> & _)]. Qed.

Lemma fair_session_open err : errors_As err = None -> fair (session_open err).
Proof.
  intros He s. unfold session_open, session_of, HasSession_id. split.
  - intros Hs. pose proof Hs as [_ (t & -> & _)]. cbn. eauto with steady.
  - intros Hs. by destruct (s_tr s).
Qed.

Lemma fair_ctx_Err ctx : fair (ctx_Err ctx).
Proof.
  apply fair_bind; [|intros; apply fair_ret]. intros s. split; [|done].
  intros Hs. split; [done|]. by exists [].
Qed.

Lemma fair_check_ctx ctx : fair (check_ctx ctx).
Proof.
  apply fair_bind; [apply fair_ctx_Err|]. intros [c|]; [by apply fair_fail|apply fair_ret].
Qed.

Lemma fair_set_deadline d : fair (set_deadline d).
Proof.
  intros s. unfold set_deadline, session_of, HasSession_id. split.
  - intros [Hd (t & Ht & Hsh)]. rewrite Ht. destruct (steady_SetDeadline d t Hsh) as [Hsh' [pre Hin]].
    cbn. split; [split; [done|by eexists]|]. exists pre. unfold unread. by rewrite Ht.
  - intros (Ht & ? & ?). by rewrite Ht.
Qed.

(** An abort whose error is replaced by one that is not the server's. *)
Lemma fair_abort {A} e : errors_As e = None -> fair (discard Session_Abort ;; @fail Session A e).
Proof.
  intros He s. unfold bind, discard. cbn. split; [|intros; apply broken_Abort; by right].
  intros Hs. unfold fair_failure. rewrite He. right. apply broken_Abort. by left.
Qed.

Lemma fair_outcome {A} (s s' : Session) (x : res A) :
  fair_run s x s' -> (alive s' /\ forward s s') \/ broken s'.
Proof.
  destruct x as [a|e]; cbn; [by auto|]. unfold fair_failure. destruct (errors_As e); [|done].
  intros [? (p & f & Hp & _)]. left. split; [done|]. exists (p ++ f). by rewrite Hp, app_assoc.
Qed.

(** ** Operations that read nothing *)

(** [silent m]: a session stays as alive or broken as it was, and nothing is read. *)
Definition silent {A} (m : M Session A) : Prop := forall s,
  (alive s -> alive (m s).2 /\ unread (m s).2 = unread s) /\ (broken s -> broken (m s).2).

Lemma fair_run_silent {A B} (m : M Session B) s0 (x : res A) s :
  silent m -> fair_run s0 x s -> fair_run s0 x (m s).2.
Proof.
  intros Hm. destruct (Hm s) as [Ha Hb].
  assert (Hf : alive s -> forall s1, forward s1 s -> forward s1 (m s).2).
  { intros Hs s1 [p Hp]. exists p. destruct (Ha Hs) as [_ ->]. done. }
  destruct x as [a|e]; cbn.
  - intros [H1 H2]. split; [by apply Ha|by auto].
  - unfold fair_failure. destruct (errors_As e) as [h|].
    + intros [H1 (p & f & Hp & Hd)]. split; [by apply Ha|]. exists p, f. by destruct (Ha H1) as [_ ->].
    + intros [[H1 H2]|H1]; [left; split; [by apply Ha|by auto]|right; by auto].
Qed.

Lemma silent_bind {A B} (m : M Session A) (k : A -> M Session B) :
  silent m -> (forall a, silent (k a)) -> silent (bind m k).
Proof.
  intros Hm Hk s. destruct (Hm s) as [Ha Hb]. unfold bind.
  destruct (m s) as [[a|e] s1]; cbn in *; [|done].
  destruct (Hk a s1) as [Ha' Hb']. split; [|by auto].
  intros Hs. destruct (Ha Hs) as [H1 E1], (Ha' H1) as [H2 E2]. split; [done|congruence].
Qed.

Lemma silent_wrapf {A} fmt args (m : M Session A) : silent m -> silent (wrapf fmt args m).
Proof. intros Hm s. specialize (Hm s). rewrite wrapf_run. by destruct (m s) as [[a|e] s1]. Qed.

Lemma silent_on_tr {A} (m : M Tr A) :
  steady m -> (forall t, input (m t).2 = input t) -> silent (on_tr m).
Proof.
  intros Hs Hi s. unfold on_tr. split.
  - intros [Hd (t & Ht & Hsh)]. rewrite Ht. specialize (Hs t Hsh) as [Hsh' _]. specialize (Hi t).
    destruct (m t) as [x t']. cbn in *. split; [by split; [done|exists t']|].
    unfold unread. cbn. by rewrite Ht.
  - intros Hb. pose proof Hb as (Ht & _). by rewrite Ht.
Qed.

Lemma silent_write p : silent (on_tr (tr_Write p)).
Proof.
  apply silent_on_tr; [apply steady_tr_Write|]. intros t. pose proof (writes_tr_Write p t) as Hw.
  destruct (tr_Write p t) as [x t']. cbn. apply Hw.
Qed.

Lemma silent_Flush : silent (on_tr Flush).
Proof.
  apply silent_on_tr; [apply steady_Flush|]. intros t. pose proof (sends_Flush t) as Hw.
  destruct (Flush t) as [x t']. cbn. apply Hw.
Qed.

Lemma silent_set_deadline d : silent (set_deadline d).
Proof.
  intros s. unfold set_deadline. split.
  - intros [Hd (t & Ht & Hsh)]. rewrite Ht. destruct (steady_SetDeadline d t Hsh) as [Hsh' _].
    cbn. split; [split; [done|by eexists]|]. unfold unread, SetDeadline. cbn. rewrite Ht. by destruct (tr_dl t).
  - intros Hb. pose proof Hb as (Ht & _). by rewrite Ht.
Qed.

Lemma silent_PreparedCommand_Close cmd : silent (PreparedCommand_Close cmd).
Proof.
  intros s. unfold PreparedCommand_Close. destruct (s_tr s) eqn:E; [|by split].
  repeat (apply silent_bind; [apply silent_wrapf, silent_write|intros _]).
  apply silent_wrapf, silent_Flush.
Qed.

(** ** The frame of an operation *)

Lemma alive_now n s : alive (set_now n s) <-> alive s.
Proof. done. Qed.

Lemma finalizeContext_fair {A} ctx s0 (x : res A) s :
  fair_run s0 x s -> fair_run s0 (finalizeContext ctx x s).1 (finalizeContext ctx x s).2.
Proof.
  intros Hx. pose proof (fair_outcome _ _ _ Hx) as Ho.
  assert (Hab : forall c n, fair_run (A:=A) s0 (Err (ESent c)) (Session_Abort (set_now n s)).2).
  { intros c n. right. apply broken_Abort. destruct Ho as [[Ha _]|Hb]; [by left|by right]. }
  destruct x as [a|e]; [done|]. unfold finalizeContext, ctx_Err, tick, ret, fail, discard, bind.
  destruct (match ctx_done_at ctx with Some _ => _ | None => _ end) as [c|].
  - destruct (errors_As e) as [h|] eqn:Eh; [|by apply Hab].
    destruct (Code h =? ErrorCodeStatementWasCanceled); [|by apply Hab]. destruct Ho; [by left|by right].
  - destruct (ctx_deadline ctx) as [d|]; [|done]. destruct (net_timeout e) as [[]|]; [|done..].
    cbn. destruct (_ <? _); [by apply Hab|done].
Qed.

Lemma finalizeContext_broken {A} ctx (x : res A) s : broken s -> broken (finalizeContext ctx x s).2.
Proof.
  intros Hb. assert (Hab : forall n, broken (Session_Abort (set_now n s)).2)
    by (intros; apply broken_Abort; by right).
  destruct x as [a|e]; [done|]. unfold finalizeContext, ctx_Err, tick, ret, fail, discard, bind.
  destruct (match ctx_done_at ctx with Some _ => _ | None => _ end) as [c|].
  - destruct (errors_As e) as [h|]; [|by apply Hab].
    destruct (Code h =? ErrorCodeStatementWasCanceled); [done|by apply Hab].
  - destruct (ctx_deadline ctx) as [d|]; [|done]. destruct (net_timeout e) as [[]|]; [|done..].
    cbn. destruct (_ <? _); [by apply Hab|done].
Qed.

Lemma fair_beginOperationContext ctx cancel : fair (beginOperationContext ctx cancel).
Proof. unfold beginOperationContext. destruct (ctx_deadline ctx); [apply fair_set_deadline|apply fair_ret]. Qed.

Lemma fair_operation {A} ctx cancel (body : M Session A) : fair body -> fair (operation ctx cancel body).
Proof.
  intros Hb. apply fair_bind; [apply fair_beginOperationContext|]. intros _ s.
  destruct (Hb s) as [Ha Hbr]. unfold session_of, HasSession_id in *.
  unfold bind, try. destruct (body s) as [x s1]. cbn in Ha, Hbr.
  pose proof (finalizeContext_fair ctx s x s1) as Hf. pose proof (finalizeContext_broken ctx x s1) as Hfb.
  destruct (finalizeContext ctx x s1) as [y s2]. cbn in Hf, Hfb. unfold endOperationContext.
  pose proof (fair_run_silent _ s y s2 (silent_set_deadline None)) as Hd. pose proof (proj2 (fair_set_deadline None s2)) as Hdb.
  assert (Hok : (set_deadline None s2).1 = Ok tt) by (unfold set_deadline; by destruct (s_tr s2)).
  unfold session_of, HasSession_id in *. destruct (set_deadline None s2) as [z s3]. cbn in Hok, Hd, Hdb.
  subst z. split; intros Hs; [specialize (Hd (Hf (Ha Hs)))|]; destruct y; cbn; auto.
Qed.

(** Steps of requests and responses. *)
Lemma fair_on_tr_plain {A} (m : M Tr A) : steady m -> plain_errs m -> fair (on_tr m).
Proof. intros. apply fair_on_tr; [done|by apply reports_plain]. Qed.

Lemma reports_readH2Error : reports readH2Error.
Proof.
  intros t e t' h H Has. unfold readH2Error in H. apply bind_Err_inv in H as [H|(h' & t2 & H2 & H)].
  { apply plain_errs_readH2Error_fields, plain_As in H. congruence. }
  destruct (reader_readH2Error_fields _ _ _ H2) as (frame & Hf & _ & Df).
  unfold fail in H. injection H as <- <-. cbn in Has. injection Has as <-. exists [], frame. eauto.
Qed.

Lemma reports_bind {A B} (m : M Tr A) (k : A -> M Tr B) :
  reader m -> plain_errs m -> (forall a, reports (k a)) -> reports (bind m k).
Proof.
  intros Hr Hp Hk t e t' h [H|(a & t1 & H1 & H)]%bind_Err_inv Has.
  - apply Hp, plain_As in H. congruence.
  - destruct (Hr _ _ _ H1) as (pre & Hin & _ & _). destruct (Hk a _ _ _ _ H Has) as (p & f & Hin' & Hd).
    exists (pre ++ p), f. by rewrite Hin, Hin', app_assoc.
Qed.

Lemma reports_readStatus : reports readStatus.
Proof.
  unfold readStatus. apply reports_bind; [by eauto with h2go|solve_plain_errs|].
  intros status. destruct (_ || _); [apply reports_plain, plain_errs_ret|].
  destruct (_ =? _); [apply reports_readH2Error|].
  destruct (_ =? _); apply reports_plain; solve_plain_errs.
Qed.

Lemma fair_readStatus : fair (on_tr readStatus).
Proof. apply fair_on_tr; [apply steady_reader, reader_readStatus|apply reports_readStatus]. Qed.

Lemma fair_nextCommandID : fair nextCommandID.
Proof. intros s. split; [|done]. intros Hs. split; [done|by exists []]. Qed.

Lemma fair_for_range {A} n i (f : Z -> M Session A) : (forall j, fair (f j)) -> fair (for_range n i f).
Proof.
  intros Hf. revert i. induction n as [|n IH]; intros i; cbn [for_range]; [apply fair_ret|].
  apply fair_bind; [done|]. intros x. apply fair_bind; [done|]. intros. apply fair_ret.
Qed.

Create HintDb fair.
#[export] Hint Resolve fair_ret fair_gets fair_readStatus fair_nextCommandID fair_check_ctx
  fair_ctx_Err fair_set_deadline : fair.

(** Decompose a session operation into fair pieces. *)
Ltac solve_fair :=
  repeat match goal with
  | |- fair (bind _ _) => apply fair_bind; [|intros ?]
  | |- fair (wrapf _ _ _) => apply fair_wrapf
  | |- fair (wrapE _ _) => apply fair_wrapE
  | |- fair (guard_err _ _) => unfold guard_err
  | |- fair (fail _) => apply fair_fail; first [done | by cbn]
  | |- fair (session_open _) => apply fair_session_open; done
  | |- fair (operation _ _ _) => apply fair_operation
  | |- fair (for_range _ _ _) => apply fair_for_range; intros ?
  | |- fair (if ?b then _ else _) => destruct b
  | |- fair (match ?x with _ => _ end) => destruct x
  | |- fair _ => by eauto with fair
  | |- fair (on_tr _) => apply fair_on_tr_plain; [solve_steady|solve_plain_errs]
  end.

Lemma fair_PrepareCommand ctx sql : fair (PrepareCommand ctx sql).
Proof. unfold PrepareCommand. solve_fair. Qed.

Lemma fair_PrepareCommandReadParams ctx sql : fair (PrepareCommandReadParams ctx sql).
Proof. unfold PrepareCommandReadParams, readParameter. solve_fair. Qed.

Lemma fair_silent {A} (m : M Session A) : silent m -> plain_errs m -> fair m.
Proof.
  intros Hm Hp s. destruct (Hm s) as [Ha Hb]. unfold session_of, HasSession_id. split; [|done].
  intros Hs. destruct (Ha Hs) as [H1 H2]. assert (Hf : forward s (m s).2) by (exists []; by rewrite H2).
  destruct (m s) as [[a|e] s'] eqn:E; cbn in *; [done|].
  unfold fair_failure. rewrite (plain_As e); [by left|]. by eapply Hp.
Qed.

(** What follows an outcome without reading: [x <- try m ;; discard c ;; (x again)]. *)
Lemma fair_then {A B} (m : M Session A) (c : M Session B) :
  fair m -> silent c ->
  fair (x <- try m ;; discard c ;; (match x with Ok a => ret a | Err e => fail e end)).
Proof.
  intros Hm Hc s. destruct (Hm s) as [Ha Hb]. unfold session_of, HasSession_id in *.
  unfold bind, try, discard. destruct (m s) as [x s1]. cbn in *.
  pose proof (fair_run_silent c s x s1 Hc) as Hd. destruct (Hc s1) as [_ Hcb].
  split; intros Hs; [specialize (Hd (Ha Hs))|]; destruct x; cbn; auto.
Qed.

Lemma fair_hasPendingTransaction ctx : fair (hasPendingTransaction ctx).
Proof. unfold hasPendingTransaction. solve_fair. Qed.

Lemma fair_set_autoCommit b : fair (modify (set_autoCommit b)).
Proof. intros s. split; [|done]. intros Hs. split; [done|by exists []]. Qed.

Lemma fair_setAutoCommit ctx b : fair (setAutoCommit ctx b).
Proof. unfold setAutoCommit. solve_fair. Qed.

Lemma fair_commitCurrentTransaction ctx : fair (commitCurrentTransaction ctx).
Proof. unfold commitCurrentTransaction. solve_fair. Qed.

#[export] Hint Resolve fair_PrepareCommand fair_PrepareCommandReadParams fair_hasPendingTransaction
  fair_setAutoCommit fair_commitCurrentTransaction fair_set_autoCommit : fair.

Lemma steady_discard {A} (m : M Tr A) : steady m -> steady (discard m).
Proof. intros Hm t Ht. apply (Hm t Ht). Qed.

(** Closing ends a session in the broken state, whatever the connection does. *)
Lemma broken_Session_Close s : alive s \/ broken s -> broken (Session_Close s).2.
Proof.
  unfold Session_Close. intros [[Hd (t & Ht & Hsh)]|Hb]; [rewrite Ht|by destruct Hb as (-> & ? & ?)].
  assert (Hx : shaped (closeExchange (s_now s) t).2).
  { assert (Hst : steady (closeExchange (s_now s))).
    { unfold closeExchange. repeat (apply steady_bind; [|intros ?]); apply steady_discard; solve_steady. }
    by apply Hst. }
  destruct (closeExchange (s_now s) t) as [y t1]. cbn in Hx. destruct Hx as (_ & Hwc & [w Hw]).
  unfold Transfer.Close. rewrite Hw, Hwc.
  destruct (bw_flush w (tr_net t1)) as [[[e|] w'] n']; cbn;
    (split_and!; [done..|eexists; by split]).
Qed.

(** ** Correctness *)

(** The server's own report that the statement was cancelled. *)
Definition reported_cancelled (e : error) : bool :=
  match errors_As e with
  | Some h => Code h =? ErrorCodeStatementWasCanceled
  | None => false
  end.

(** When an operation fails and its context is done, the caller gets the
    context's error. The session survives only if the failure is the server's report
    that it cancelled the statement, a complete frame after which the stream is
    aligned; with any other failure the session is broken and its connection closed. *)
Theorem finalizeContext_done {A} ctx d e s :
  ctx_done_at ctx = Some d -> d <= s_now s -> alive s ->
  exists s', finalizeContext ctx (Err e : res A) s = (Err (ESent (ctx_cause ctx)), s') /\
    (if reported_cancelled e then alive s' /\ unread s' = unread s else broken s').
Proof.
  intros Hd Hn Hs. unfold finalizeContext, ctx_Err, tick, ret, fail, discard, bind, reported_cancelled.
  rewrite Hd. replace (d <=? s_now s) with true by lia.
  assert (Hb : broken (Session_Abort (set_now (s_now s + 1) s)).2) by (apply broken_Abort; by left).
  destruct (errors_As e) as [h|]; [|by eexists].
  destruct (Code h =? ErrorCodeStatementWasCanceled); by eexists.
Qed.

Definition done_ctx : Ctx := mkCtx (Some 3) context_DeadlineExceeded (Some 3) None.
Definition alive_session : Session :=
  mkSession (Some (stream [z2b 7])) None [] TCPProtocolVersion21 true false 0 None 5.

Lemma finalizeContext_done_witness :
  exists s', finalizeContext done_ctx (Err (ENet true) : res unit) alive_session
             = (Err (ESent context_DeadlineExceeded), s') /\ broken s'.
Proof.
  apply (finalizeContext_done (A := unit) done_ctx 3 (ENet true) alive_session); [reflexivity|cbn; lia|].
  split; [reflexivity|]. eexists. split; [reflexivity|]. by split_and!.
Defined.

(** The bytes of a cancellation: versions, no database, no URL, the session, the
    statement. *)
Definition cancel_frame (id : gostring) (statementID : Z) : list byte :=
  enc_int32 TCPProtocolVersionMinSupported ++ enc_int32 TCPProtocolVersionMaxSupported
  ++ enc_int32 (-1) ++ enc_int32 (-1) ++ enc_string id ++ enc_int32 SessionCancelStatement
  ++ enc_int32 statementID.

Lemma cancelFrame_sends id statementID t :
  healthy t -> tr_wc t = true -> exists t',
  cancelFrame id statementID t = (Ok tt, t') /\ tr_wc t' = true /\
  net_out (tr_net t') = emitted t ++ cancel_frame id statementID /\ net_closed (tr_net t') = true.
Proof.
  intros Hh Hwc.
  set (body := WriteInt32 TCPProtocolVersionMinSupported ;; WriteInt32 TCPProtocolVersionMaxSupported ;;
               WriteNullString ;; WriteNullString ;; WriteString id ;;
               WriteInt32 SessionCancelStatement ;; WriteInt32 statementID).
  assert (Hb : writes body (cancel_frame id statementID)).
  { unfold body, cancel_frame. repeat (apply writes_bind; [by eauto with h2go|]). apply writes_WriteInt32. }
  assert (Hrun : forall t1, body t = (Ok tt, t1) -> cancelFrame id statementID t = Transfer.Close t1).
  { intros t1 H. unfold body in H. m_inv. unfold cancelFrame.
    repeat (erewrite bind_Ok; [|apply wrapf_Ok; eassumption]). done. }
  specialize (Hb t). destruct (body t) as [x t1]. destruct Hb as ((_ & Hc & _) & _ & He & Hok).
  destruct (Hok Hh) as [-> [Ho (w & Hw & Hwe)]]. rewrite (Hrun _ eq_refl). unfold Transfer.Close. rewrite Hw.
  pose proof (bw_flush_spec w (tr_net t1)) as Hf. pose proof (bw_flush_empty w (tr_net t1)) as Hz.
  destruct (bw_flush w (tr_net t1)) as [[[e|] w'] n']; destruct Hf as (_&_&_&H4&H5).
  { by destruct (H5 Ho Hwe). }
  eexists. split; [done|]. rewrite Hc, Hwc. split; [cbn; congruence|]. split; [|done].
  destruct (H4 eq_refl) as [_ Hcat]. rewrite (Hz _ _ eq_refl), !app_nil_r in Hcat. cbn.
  rewrite Hcat. specialize (He eq_refl). unfold emitted in He at 1. by rewrite Hw in He.
Qed.

Lemma cancelOver_sends s net statementID :
  net_open net -> exists n', cancelOver s net statementID = (Ok tt, Some n') /\
    net_out n' = net_out net ++ cancel_frame (s_id s) statementID /\ net_closed n' = true.
Proof.
  intros Ho. unfold cancelOver.
  destruct (cancelFrame_sends (s_id s) statementID (NewReadWriter net)) as (t' & E & Hwc & Hout & Hcl);
    [split; [done|by eexists]|done|].
  rewrite E. unfold Abort. rewrite Hwc. eexists. split; [done|]. split; [|done].
  cbn. rewrite Hout. unfold emitted. cbn. by rewrite app_nil_r.
Qed.

(** A side-channel cancellation dials the address of the session's own
    connection and, when the session uses TLS, upgrades the new connection first. It
    sends one frame on it (the supported versions, null database and URL, the session's
    id, the cancel operation and the statement's id) and closes it. When the TLS
    handshake fails, nothing is sent in the clear and the connection is closed. *)
Theorem cancelStatement_frame `{Network} s cfg raw statementID :
  s_cfg s = Some cfg -> net_dial (JoinHostPort (cfg_Host cfg) (cfg_Port cfg)) = Ok raw ->
  match (if cfg_TLS cfg
         then tls_handshake (tls_name cfg) (cfg_TLSInsecureSkipVerify cfg) (cfg_TLSRootCAs cfg) raw
         else (Ok tt, raw)) with
  | (Ok _, net) =>
      net_open net ->
      exists n', cancelStatement s statementID = (Ok tt, Some n') /\
                 net_out n' = net_out net ++ cancel_frame (s_id s) statementID /\ net_closed n' = true
  | (Err _, _) =>
      exists e n', cancelStatement s statementID = (Err e, Some n') /\
                   net_out n' = net_out raw /\ net_closed n' = true
  end.
Proof.
  intros Hcfg Hd. unfold cancelStatement. rewrite Hcfg, Hd. destruct (cfg_TLS cfg).
  - unfold wrapTLS. destruct (tls_handshake _ _ _ raw) as [[[]|e] net]; [apply cancelOver_sends|eauto].
  - apply cancelOver_sends.
Qed.

Definition cancel_cfg : Config :=
  parsed_config [] (lit "localhost") (lit "9092") [] [] [] [] false.

(** A network whose only server listens on one address and does not speak TLS. *)
Definition one_server (addr : gostring) (t : Transport) : Network := {|
  net_dial a := if decide (a = addr) then Ok t else Err (ENet false);
  tls_handshake _ _ _ := fail (ENet false)
|}.

Lemma cancelStatement_frame_witness :
  exists n', @cancelStatement (one_server (lit "localhost:9092") (mkTransport [] NEof [] None NEof false None))
    (mkSession None (Some cancel_cfg) (lit "ab12") 21 true true 3 None 0) 2 = (Ok tt, Some n') /\
    net_out n' = [] ++ cancel_frame (lit "ab12") 2 /\ net_closed n' = true.
Proof.
  apply (@cancelStatement_frame (one_server (lit "localhost:9092") (mkTransport [] NEof [] None NEof false None))
           (mkSession None (Some cancel_cfg) (lit "ab12") 21 true true 3 None 0)
           cancel_cfg (mkTransport [] NEof [] None NEof false None) 2); [reflexivity|reflexivity|by split].
Defined.
