(* ===== verification/Exchange.v ===== *)
(** * Exchanges with a server that answers

    [wire f s out inp]: the session [s] works on a connection that accepts everything,
    has written [out] to it (all of it past the buffer when [f] is true), and will
    read [inp]. [exch f f' m sent recv a]: from there [m] writes exactly [sent], reads
    exactly [recv] and returns [a], whatever was written before and will be read
    after. [exchR] is the same for operations on a result set, with the rows before
    and after. *)

From S2P Require Import Prelude.
From S2P Require Import GoText.
From S2P Require Import Protocol.
From S2P Require Import Transfer.
From S2P Require Import Errors.
From S2P Require Import Fuel.
From S2P Require Import TypeInfo.
From S2P Require Import Metadata.
From S2P Require Import Session.
From S2P Require Import SessionFacts.

Definition wire (f : bool) (s : Session) (out inp : list byte) : Prop :=
  exists t, s_tr s = Some t /\ tr_r t = true /\ healthy t /\ emitted t = out /\ input t = inp /\
            (f = true -> net_out (tr_net t) = out).

(** What an exchange leaves alone; autocommit is up to the server. *)
Definition framed (s s' : Session) : Prop :=
  s_cfg s' = s_cfg s /\ s_id s' = s_id s /\ s_version s' = s_version s /\
  s_dead s' = s_dead s /\ s_nextID s' = s_nextID s /\ s_gone s' = s_gone s.

Definition exch {A} (f f' : bool) (m : M Session A) (sent recv : list byte) (a : A) : Prop :=
  forall s out suf, wire f s out (recv ++ suf) ->
  exists s', m s = (Ok a, s') /\ wire f' s' (out ++ sent) suf /\ framed s s'.

Lemma framed_refl s : framed s s.
Proof. by split_and!. Qed.
Lemma framed_trans s1 s2 s3 : framed s1 s2 -> framed s2 s3 -> framed s1 s3.
Proof. intros (?&?&?&?&?&?) (?&?&?&?&?&?). split_and!; congruence. Qed.
Lemma framed_tr t s : framed s (set_tr t s).
Proof. by split_and!. Qed.
#[export] Hint Resolve framed_refl framed_tr : h2go.

Section exch.
Context {A B : Type}.

Lemma exch_ret f (a : A) : exch f f (ret a) [] [] a.
Proof. intros s out suf Hw. exists s. rewrite app_nil_r. by eauto with h2go. Qed.

Lemma exch_bind f1 f2 f3 (m : M Session A) (k : A -> M Session B) s1 s2 r1 r2 a b :
  exch f1 f2 m s1 r1 a -> exch f2 f3 (k a) s2 r2 b -> exch f1 f3 (bind m k) (s1 ++ s2) (r1 ++ r2) b.
Proof.
  intros Hm Hk s out suf Hw. rewrite <- app_assoc in Hw.
  destruct (Hm _ _ _ Hw) as (s' & Em & Hw' & Hf'). destruct (Hk _ _ _ Hw') as (s'' & Ek & Hw'' & Hf'').
  exists s''. rewrite (bind_Ok _ _ _ _ _ Em), app_assoc. eauto using framed_trans.
Qed.

Lemma exch_wrapf f f' fmt args (m : M Session A) sent recv a :
  exch f f' m sent recv a -> exch f f' (wrapf fmt args m) sent recv a.
Proof.
  intros Hm s out suf Hw. destruct (Hm _ _ _ Hw) as (s' & E & H). exists s'. split; [|done].
  by apply wrapf_Ok.
Qed.

Lemma exch_wrapE f f' op (m : M Session A) sent recv a :
  exch f f' m sent recv a -> exch f f' (wrapE op m) sent recv a.
Proof.
  intros Hm s out suf Hw. destruct (Hm _ _ _ Hw) as (s' & E & H). exists s'. split; [|done].
  by apply wrapE_Ok.
Qed.

Lemma exch_try f f' (m : M Session A) sent recv a :
  exch f f' m sent recv a -> exch f f' (try m) sent recv (Ok a).
Proof.
  intros Hm s out suf Hw. destruct (Hm _ _ _ Hw) as (s' & E & H). exists s'. split; [|done].
  unfold try. by rewrite E.
Qed.

(** A read. *)
Lemma exch_read f (m : M Tr A) recv a : decodes m recv a -> exch f f (on_tr m) [] recv a.
Proof.
  intros Hm s out suf (t & Ht & Hr & Hh & He & Hin & Hfl).
  exists (set_tr (Some (set_in suf t)) s). unfold on_tr. rewrite Ht, (Hm t suf Hr Hin), app_nil_r.
  split; [done|]. split; [|by eauto with h2go]. exists (set_in suf t). by split_and!.
Qed.
End exch.

(** A write leaves the buffer in use; a flush empties it. *)
Lemma exch_write f m bs : writes m bs -> exch f false (on_tr m) bs [] tt.
Proof.
  intros Hm s out suf (t & Ht & Hr & Hh & He & Hin & Hfl). specialize (Hm t).
  unfold on_tr. rewrite Ht. destruct (m t) as [x t'].
  destruct Hm as ((H1 & H2 & H3 & H4 & H5) & _ & He' & Hok). destruct (Hok Hh) as [-> Hh'].
  exists (set_tr (Some t') s). split; [done|]. split; [|by eauto with h2go].
  exists t'. rewrite He', He, H1, H4 by done. by split_and!.
Qed.

Lemma exch_flush f : exch f true (on_tr Flush) [] [] tt.
Proof.
  intros s out suf (t & Ht & Hr & Hh & He & Hin & Hfl).
  destruct (sends_healthy _ _ t sends_Flush Hh) as (t' & E & Hh' & (H1 & H2 & H3 & H4 & H5) & Ho & He').
  unfold on_tr. rewrite Ht, E. exists (set_tr (Some t') s). split; [done|]. split; [|by eauto with h2go].
  exists t'. rewrite H1, H4, He', He, app_nil_r. rewrite app_nil_r in Ho. split_and!; try done. by rewrite Ho.
Qed.

Lemma exch_bind_nil {A B} f1 f2 f3 (m : M Session A) (k : A -> M Session B) s2 r2 a b :
  exch f1 f2 m [] [] a -> exch f2 f3 (k a) s2 r2 b -> exch f1 f3 (bind m k) s2 r2 b.
Proof. apply (exch_bind f1 f2 f3 m k [] s2 [] r2). Qed.

Lemma exch_bind_recv {A B} f1 f2 f3 (m : M Session A) (k : A -> M Session B) s2 r1 r2 a b :
  exch f1 f2 m [] r1 a -> exch f2 f3 (k a) s2 r2 b -> exch f1 f3 (bind m k) s2 (r1 ++ r2) b.
Proof. apply (exch_bind f1 f2 f3 m k [] s2). Qed.

Lemma exch_bind_send {A B} f1 f2 f3 (m : M Session A) (k : A -> M Session B) s1 s2 r2 a b :
  exch f1 f2 m s1 [] a -> exch f2 f3 (k a) s2 r2 b -> exch f1 f3 (bind m k) (s1 ++ s2) r2 b.
Proof. apply (exch_bind f1 f2 f3 m k s1 s2 [] r2). Qed.

(** ** Common steps *)

Lemma exch_int32 f fmt args x :
  exch f false (wrapf fmt args (on_tr (WriteInt32 x))) (enc_int32 x) [] tt.
Proof. apply exch_wrapf, exch_write, writes_WriteInt32. Qed.

Definition ok_status : list byte := enc_int32 StatusOK.

Lemma decodes_readStatus : decodes readStatus ok_status tt.
Proof.
  eapply decodes_bind_ret.
  - apply decodes_wrapf, decodes_ReadInt32. unfold in_intN, StatusOK. lia.
  - done.
Qed.

Lemma exch_status f op : exch f f (wrapE op (on_tr readStatus)) [] ok_status tt.
Proof. apply exch_wrapE, exch_read, decodes_readStatus. Qed.

Lemma exch_check_ctx f ctx : ctx_done_at ctx = None -> exch f f (check_ctx ctx) [] [] tt.
Proof.
  intros Hd s out suf Hw. exists (set_now (s_now s + 1) s). unfold check_ctx, ctx_Err, tick, bind, ret.
  rewrite Hd, app_nil_r. split; [done|]. split; [done|by split_and!].
Qed.

Lemma wire_set_deadline f s out inp d :
  wire f s out inp ->
  exists t', set_deadline d s = (Ok tt, set_tr (Some t') s) /\ wire f (set_tr (Some t') s) out inp.
Proof.
  intros (t & Ht & Hr & Hh & He & Hin & Hfl). unfold set_deadline. rewrite Ht.
  eexists. split; [done|]. exists (SetDeadline d t).2. unfold SetDeadline. by destruct (tr_dl t).
Qed.

Lemma exch_set_deadline f d : exch f f (set_deadline d) [] [] tt.
Proof.
  intros s out suf Hw. rewrite app_nil_r. destruct (wire_set_deadline _ _ _ _ d Hw) as (t' & E & Hw').
  eauto with h2go.
Qed.

(** An operation whose body succeeds, from the body's run; [Q] does not look at the
    transfer. *)
Lemma operation_run {A} f f' ctx cancel (body : M Session A) (Q : Session -> Prop) s out inp out' inp' a :
  (forall s1 t, Q s1 -> Q (set_tr t s1)) -> wire f s out inp ->
  (forall s1, wire f s1 out inp -> framed s s1 ->
     exists s2, body s1 = (Ok a, s2) /\ wire f' s2 out' inp' /\ Q s2) ->
  exists s', operation ctx cancel body s = (Ok a, s') /\ wire f' s' out' inp' /\ Q s'.
Proof.
  intros HQ Hw Hb. unfold operation, beginOperationContext.
  assert (exists s1, (match ctx_deadline ctx with
                      | Some d => set_deadline (Some (if cancel then d + cancelGracePeriod else d))
                      | None => ret tt end) s = (Ok tt, s1) /\ wire f s1 out inp /\ framed s s1)
    as (s1 & E1 & Hw1 & Hf1).
  { destruct (ctx_deadline ctx) as [d|]; [|exists s; eauto with h2go].
    destruct (wire_set_deadline _ _ _ _ (Some (if cancel then d + cancelGracePeriod else d)) Hw) as (t' & E & Hw').
    eauto with h2go. }
  destruct (Hb s1 Hw1 Hf1) as (s2 & E2 & Hw2 & HQ2).
  destruct (wire_set_deadline _ _ _ _ None Hw2) as (t3 & E3 & Hw3).
  exists (set_tr (Some t3) s2). rewrite (bind_Ok _ _ _ _ _ E1). unfold bind, try, endOperationContext.
  rewrite E2. cbn. rewrite E3. auto.
Qed.

Lemma exch_operation {A} f f' ctx cancel (body : M Session A) sent recv a :
  exch f f' body sent recv a -> exch f f' (operation ctx cancel body) sent recv a.
Proof.
  intros Hb s out suf Hw. apply (operation_run f f' _ _ _ (framed s) s out (recv ++ suf)); [done|done|].
  intros s1 Hw1 Hf1. destruct (Hb _ _ _ Hw1) as (s2 & E & Hw2 & Hf2). eauto using framed_trans.
Qed.

(** An operation that starts by taking a command id. *)
Lemma exch_operation_id {A} f f' ctx cancel (body : Z -> M Session A) sent recv a s out suf :
  let id := int32 (s_nextID s + 1) in
  exch f f' (body id) sent recv a -> wire f s out (recv ++ suf) ->
  exists s', operation ctx cancel (cmdID <- nextCommandID ;; body cmdID) s = (Ok a, s') /\
             wire f' s' (out ++ sent) suf /\ framed (set_nextID id s) s'.
Proof.
  intros id Hb Hw. apply (operation_run f f' _ _ _ (framed (set_nextID id s)) s out (recv ++ suf)); [done|done|].
  intros s1 Hw1 Hf1. destruct (Hb (set_nextID id s1) out suf Hw1) as (s2 & E & Hw2 & Hf2).
  assert (Hn : s_nextID s1 = s_nextID s) by apply Hf1.
  exists s2. unfold bind, nextCommandID. rewrite Hn. split; [exact E|]. split; [done|].
  destruct Hf1 as (?&?&?&?&?&?), Hf2 as (?&?&?&?&?&?). cbn in *. split_and!; cbn; congruence.
Qed.

Lemma exch_session_open f err : exch f f (session_open err) [] [] tt.
Proof.
  intros s out suf Hw. pose proof Hw as (t & Ht & _). exists s. unfold session_open.
  rewrite Ht, app_nil_r. eauto with h2go.
Qed.

Lemma exch_for_range {A B} f (l : list A) (g : Z -> M Session B) enc (dec : Z -> A -> B) i :
  (forall x j, x ∈ l -> exch f f (g j) [] (enc x) (dec j x)) ->
  exch f f (for_range (length l) i g) [] (flat_map enc l) (imap (fun k x => dec (i + Z.of_nat k) x) l).
Proof.
  revert i. induction l as [|x l IH]; intros i Hg; cbn [for_range length flat_map imap]; [apply exch_ret|].
  eapply exch_bind_recv; [apply Hg; left|].
  rewrite <- (app_nil_r (flat_map enc l)). eapply exch_bind_recv; [apply IH; intros; apply Hg; by right|].
  rewrite Nat2Z.inj_0, Z.add_0_r.
  rewrite (imap_ext (_ ∘ S) (fun k y => dec (i + 1 + Z.of_nat k) y)); [apply exch_ret|].
  intros k y _. cbn. f_equal. lia.
Qed.

(** ** Preparing a command *)

(** The type and the nullability of a parameter, as the server sends them. *)
Definition enc_param (p : wire_type * Z) : list byte := enc_type p.1 ++ enc_int32 p.2.
Definition param_meaning (i : Z) (p : wire_type * Z) : ParameterMeta :=
  mkParameterMeta i (set_nullable p.2 (type_meaning p.1)).
Definition wf_wire_param (p : wire_type * Z) : bool := wf_type p.1 && fits 32 p.2.

Lemma exch_readParameter f i p :
  wf_wire_param p = true -> exch f f (readParameter i) [] (enc_param p) (param_meaning i p).
Proof.
  unfold wf_wire_param. intros [H1 H2]%andb_true_iff.
  eapply exch_bind_recv; [by apply exch_wrapf, exch_read, decodes_ReadTypeInfo|].
  rewrite <- (app_nil_r (enc_int32 _)).
  eapply exch_bind_recv; [by apply exch_wrapf, exch_read, decodes_ReadInt32, fits_in_intN|apply exch_ret].
Qed.

(** The request and the answer of SESSION_PREPARE_READ_PARAMS2. *)
Definition prepare_request (id : Z) (sql : gostring) : list byte :=
  enc_int32 SessionPrepareReadParams2 ++ enc_int32 id ++ enc_string sql.
Definition prepare_answer (isQuery readOnly : bool) (cmdType : Z) (ps : list (wire_type * Z)) : list byte :=
  ok_status ++ enc_bool isQuery ++ enc_bool readOnly ++ enc_int32 cmdType ++ enc_int32 (zlen ps)
  ++ flat_map enc_param ps.

Lemma wire_nextCommandID f s out inp :
  wire f s out inp -> wire f (set_nextID (int32 (s_nextID s + 1)) s) out inp.
Proof. done. Qed.

Lemma PrepareCommandReadParams_run ctx sql isQuery readOnly cmdType ps s out suf :
  zlen ps <= maxWireCollectionElements -> forallb wf_wire_param ps = true -> in_intN 32 cmdType ->
  wire true s out (prepare_answer isQuery readOnly cmdType ps ++ suf) ->
  let id := int32 (s_nextID s + 1) in
  exists s',
    PrepareCommandReadParams ctx sql s
    = (Ok (mkPreparedCommand id sql isQuery readOnly cmdType (zlen ps) (imap (fun k => param_meaning (Z.of_nat k)) ps)), s') /\
    wire true s' (out ++ prepare_request id sql) suf /\ framed (set_nextID id s) s'.
Proof.
  intros Hl Hw Hc Hs id. pose proof (zlen_nonneg ps).
  unfold PrepareCommandReadParams.
  rewrite (bind_Ok (session_open _) _ s tt s) by (destruct Hs as (t & Ht & _); unfold session_open; by rewrite Ht).
  eapply (exch_operation_id true true); [|exact Hs]. unfold prepare_request, prepare_answer.
  eapply exch_bind_send; [apply exch_int32|]. eapply exch_bind_send; [apply exch_int32|].
  rewrite <- (app_nil_r (enc_string sql)).
  eapply exch_bind_send; [apply exch_wrapf, exch_write, writes_WriteString|].
  eapply exch_bind_nil; [apply exch_wrapf, exch_flush|].
  eapply exch_bind_recv; [apply exch_status|].
  eapply exch_bind_recv; [apply exch_wrapf, exch_read, decodes_ReadBool|].
  eapply exch_bind_recv; [apply exch_wrapf, exch_read, decodes_ReadBool|].
  eapply exch_bind_recv; [by apply exch_wrapf, exch_read, decodes_ReadInt32|].
  eapply exch_bind_recv.
  { apply exch_wrapf, exch_read, decodes_ReadInt32. unfold in_intN. change maxWireCollectionElements with 1048576 in Hl. lia. }
  unfold guard_err. replace (zlen ps <? 0) with false by lia.
  replace (maxWireCollectionElements <? zlen ps) with false by lia.
  do 2 (eapply exch_bind_nil; [apply exch_ret|]).
  rewrite <- (app_nil_r (flat_map _ _)). eapply exch_bind_recv; [|apply exch_ret].
  unfold zlen at 1. rewrite Nat2Z.id. apply (exch_for_range _ _ _ enc_param param_meaning 0).
  intros p j Hp. apply exch_readParameter. apply (forallb_forall wf_wire_param ps); [done|by apply list_elem_of_In].
Qed.

(** [PrepareCommandReadParams] takes the next command id, sends one
    request with it, and builds the command from the server's answer: its flags and
    type, and the metadata of every parameter in order with its index. It consumes the
    answer exactly, so the next response starts where this one ends. *)
Theorem PrepareCommandReadParams_exchange ctx sql isQuery readOnly cmdType ps s out suf :
  zlen ps <= maxWireCollectionElements -> forallb wf_wire_param ps = true -> in_intN 32 cmdType ->
  wire true s out (prepare_answer isQuery readOnly cmdType ps ++ suf) ->
  let id := int32 (s_nextID s + 1) in
  exists s',
    PrepareCommandReadParams ctx sql s
    = (Ok (mkPreparedCommand id sql isQuery readOnly cmdType (zlen ps) (imap (fun k => param_meaning (Z.of_nat k)) ps)), s') /\
    wire true s' (out ++ prepare_request id sql) suf /\ framed (set_nextID id s) s'.
Proof. apply PrepareCommandReadParams_run. Qed.

(** A session that is open, with nothing written yet, and a server that sends [l]. *)
Definition open_session (l : list byte) : Session :=
  mkSession (Some (stream l)) None [] TCPProtocolVersion21 true false 0 None 0.

Lemma wire_open_session l : wire true (open_session l) [] l.
Proof.
  exists (stream l). split_and!; try done. split; [by split|]. by exists (mkWriter [] None).
Qed.

Definition sample_params : list (wire_type * Z) := [(WSimple TIBigint, ColumnNoNulls); (WSimple TIInteger, ColumnNullable)].

Lemma PrepareCommandReadParams_exchange_witness :
  exists s',
    PrepareCommandReadParams Background (lit "INSERT INTO T VALUES (?, ?)")
      (open_session (prepare_answer false false 61 sample_params))
    = (Ok (mkPreparedCommand 1 (lit "INSERT INTO T VALUES (?, ?)") false false 61 2
             (imap (fun k => param_meaning (Z.of_nat k)) sample_params)), s') /\
    wire true s' (prepare_request 1 (lit "INSERT INTO T VALUES (?, ?)")) [].
Proof.
  destruct (PrepareCommandReadParams_exchange Background (lit "INSERT INTO T VALUES (?, ?)") false false 61
              sample_params (open_session (prepare_answer false false 61 sample_params)) [] [])
    as (s' & H1 & H2 & _); [done|done|unfold in_intN; lia|rewrite app_nil_r; apply wire_open_session|].
  change (int32 (s_nextID (open_session (prepare_answer false false 61 sample_params)) + 1)) with 1 in H1, H2.
  rewrite app_nil_l in H2. exists s'. split; [exact H1|exact H2].
Defined.
