(* ===== verification/Rows.v ===== *)
(** * Result sets and query execution (rows.go)

    A result set works on the session it came from, so its operations run on a pair
    of both, [RS]. The callback that [Close] runs belongs to whoever made the rows: a
    connection or a statement; the class [RowsHost] is what [Close] needs of it. *)

From S2P Require Import Prelude.
From S2P Require Import GoText.
From S2P Require Import Protocol.
From S2P Require Import Transfer.
From S2P Require Import Errors.
From S2P Require Import Fuel.
From S2P Require Import TypeInfo.
From S2P Require Import Metadata.
From S2P Require Import Value.
From S2P Require Import ValueRead.
From S2P Require Import ValueWrite.
From S2P Require Import Session.

(** ** State *)

(** [closeCallback]: [conn.release], or [stmt.finishOperation] for a prepared query. *)
Inductive Callback := ReleaseConn | FinishOperation.

Record Rows := mkRows {
  rs_resultID : Z;
  rs_columnCount : Z;
  rs_columns : option ResultMeta;
  rs_rowCount : Z;
  rs_currentRow : list Value;
  rs_rowOffset : Z;
  rs_bufferedRows : list (list Value);
  rs_fetchSize : Z;
  rs_noMoreRows : bool;
  rs_closed : bool;
  rs_ownsCommand : bool;
  rs_commandID : Z;
  rs_err : option error;
  rs_contextCleanup : bool;
  rs_closeCallback : option Callback
}.

Definition set_rowCount (n : Z) (r : Rows) : Rows :=
  mkRows (rs_resultID r) (rs_columnCount r) (rs_columns r) n (rs_currentRow r) (rs_rowOffset r)
    (rs_bufferedRows r) (rs_fetchSize r) (rs_noMoreRows r) (rs_closed r) (rs_ownsCommand r)
    (rs_commandID r) (rs_err r) (rs_contextCleanup r) (rs_closeCallback r).
Definition set_columns (m : option ResultMeta) (r : Rows) : Rows :=
  mkRows (rs_resultID r) (rs_columnCount r) m (rs_rowCount r) (rs_currentRow r) (rs_rowOffset r)
    (rs_bufferedRows r) (rs_fetchSize r) (rs_noMoreRows r) (rs_closed r) (rs_ownsCommand r)
    (rs_commandID r) (rs_err r) (rs_contextCleanup r) (rs_closeCallback r).
Definition set_buffered (b : list (list Value)) (r : Rows) : Rows :=
  mkRows (rs_resultID r) (rs_columnCount r) (rs_columns r) (rs_rowCount r) (rs_currentRow r) (rs_rowOffset r)
    b (rs_fetchSize r) (rs_noMoreRows r) (rs_closed r) (rs_ownsCommand r)
    (rs_commandID r) (rs_err r) (rs_contextCleanup r) (rs_closeCallback r).
Definition set_current (row : list Value) (offset : Z) (r : Rows) : Rows :=
  mkRows (rs_resultID r) (rs_columnCount r) (rs_columns r) (rs_rowCount r) row offset
    (rs_bufferedRows r) (rs_fetchSize r) (rs_noMoreRows r) (rs_closed r) (rs_ownsCommand r)
    (rs_commandID r) (rs_err r) (rs_contextCleanup r) (rs_closeCallback r).
Definition set_noMoreRows (r : Rows) : Rows :=
  mkRows (rs_resultID r) (rs_columnCount r) (rs_columns r) (rs_rowCount r) (rs_currentRow r) (rs_rowOffset r)
    (rs_bufferedRows r) (rs_fetchSize r) true (rs_closed r) (rs_ownsCommand r)
    (rs_commandID r) (rs_err r) (rs_contextCleanup r) (rs_closeCallback r).
Definition set_closed (r : Rows) : Rows :=
  mkRows (rs_resultID r) (rs_columnCount r) (rs_columns r) (rs_rowCount r) (rs_currentRow r) (rs_rowOffset r)
    (rs_bufferedRows r) (rs_fetchSize r) (rs_noMoreRows r) true (rs_ownsCommand r)
    (rs_commandID r) (rs_err r) (rs_contextCleanup r) (rs_closeCallback r).
Definition set_err (e : error) (r : Rows) : Rows :=
  mkRows (rs_resultID r) (rs_columnCount r) (rs_columns r) (rs_rowCount r) (rs_currentRow r) (rs_rowOffset r)
    (rs_bufferedRows r) (rs_fetchSize r) (rs_noMoreRows r) (rs_closed r) (rs_ownsCommand r)
    (rs_commandID r) (Some e) (rs_contextCleanup r) (rs_closeCallback r).
Definition set_contextCleanup (b : bool) (r : Rows) : Rows :=
  mkRows (rs_resultID r) (rs_columnCount r) (rs_columns r) (rs_rowCount r) (rs_currentRow r) (rs_rowOffset r)
    (rs_bufferedRows r) (rs_fetchSize r) (rs_noMoreRows r) (rs_closed r) (rs_ownsCommand r)
    (rs_commandID r) (rs_err r) b (rs_closeCallback r).
Definition set_closeCallback (c : option Callback) (r : Rows) : Rows :=
  mkRows (rs_resultID r) (rs_columnCount r) (rs_columns r) (rs_rowCount r) (rs_currentRow r) (rs_rowOffset r)
    (rs_bufferedRows r) (rs_fetchSize r) (rs_noMoreRows r) (rs_closed r) (rs_ownsCommand r)
    (rs_commandID r) (rs_err r) (rs_contextCleanup r) c.

Definition RS : Type := Session * Rows.

Definition on_sess {A} (m : M Session A) : M RS A := fun '(s, r) =>
  let '(x, s') := m s in (x, (s', r)).
Definition on_wire {A} (m : M Tr A) : M RS A := on_sess (on_tr m).
Definition rows {A} (f : Rows -> A) : M RS A := fun sr => (Ok (f sr.2), sr).
Definition update (f : Rows -> Rows) : M RS unit := fun '(s, r) => (Ok tt, (s, f r)).

(** ** Reading a batch *)

(** [if err != nil { session.markStreamBroken(); return fmt.Errorf(...) }] *)
Definition or_broken {A} (fmt : string) (args : list farg) (m : M RS A) : M RS A :=
  x <- try m ;;
  match x with
  | Ok a => ret a
  | Err e => on_sess markStreamBroken ;; fail (EWrapf fmt args [e])
  end.

(** An error passes, after [markUnlessAlignedH2Error] has seen it. *)
Definition unless_aligned {A} (m : M RS A) : M RS A :=
  x <- try m ;;
  match x with
  | Ok a => ret a
  | Err e => on_sess (markUnlessAlignedH2Error e) ;; fail e
  end.

(** The columns [j], [j+1], ... of a row, [n] of them. *)
Fixpoint readColumns (n : nat) (j : Z) (lc : lobCollector) : M RS (list Value * lobCollector) :=
  match n with
  | O => ret ([], lc)
  | S n' =>
      columns <- rows rs_columns ;;
      match columns with
      | None => fail (EPanic "nil columns")
      | Some meta =>
          match GetColumn meta j with
          | None =>
              on_sess markStreamBroken ;;
              fail (EErrorf "h2go: fetchRows: column %d metadata not found" [AInt j])
          | Some colType =>
              curRow <- rows (fun r => zlen (rs_bufferedRows r)) ;;
              x <- or_broken "h2go: fetchRows: failed to read column %d: %w" [AInt j]
                     (on_wire (readValueInternal (Some (ColType colType))
                                 (Some (mkLobCollector (lc_pending lc) (lc_reject lc) curRow j)))) ;;
              rest <- readColumns n' (j + 1) (default lc x.2) ;;
              ret (x.1 :: rest.1, rest.2)
          end
      end
  end.

(** The loop over row flags, [n] iterations left. *)
Fixpoint fetchRows_loop (n : nat) (lc : lobCollector) : M RS lobCollector :=
  match n with
  | O => ret lc
  | S n' =>
      rowFlag <- or_broken "h2go: fetchRows: failed to read row flag: %w" [] (on_wire ReadByte) ;;
      let flag := int8 (b2z rowFlag) in
      if flag =? 1 then
        columnCount <- rows rs_columnCount ;;
        x <- readColumns (Z.to_nat columnCount) 0 lc ;;
        update (fun r => set_buffered (rs_bufferedRows r ++ [x.1]) r) ;;
        fetchRows_loop n' x.2
      else if flag =? 0 then update set_noMoreRows ;; ret lc
      else if flag =? -1 then unless_aligned (on_wire readH2Error) ;; ret lc
      else
        on_sess markStreamBroken ;;
        fail (EErrorf "h2go: fetchRows: unexpected row flag %d" [AInt (b2z rowFlag)])
  end.

(** [rows[row][col] = v]; [None] when an index is out of range. *)
Definition splice (row col : Z) (v : Value) (rows : list (list Value)) : option (list (list Value)) :=
  if (row <? 0) || (col <? 0) then None else
  match rows !! Z.to_nat row with
  | Some r =>
      if col <? zlen r then Some (<[Z.to_nat row := <[Z.to_nat col := v]> r]> rows) else None
  | None => None
  end.

(** One deferred LOB. *)
Definition resolveLob (p : pendingLob) : M RS unit :=
  x <- try (on_wire (fetchLob p)) ;;
  match x with
  | Err e =>
      on_sess (discard Session_Abort) ;;
      fail (EWrapf "h2go: fetchRows: failed to resolve deferred LOB (row %d column %d): %w"
              [AInt (pl_row p); AInt (pl_col p)] [e])
  | Ok v =>
      buffered <- rows rs_bufferedRows ;;
      match splice (pl_row p) (pl_col p) v buffered with
      | Some buffered' => update (set_buffered buffered')
      | None => fail (EPanic "index out of range")
      end
  end.

Definition fetchRows (fetch : Z) : M RS unit :=
  lc <- fetchRows_loop (Z.to_nat fetch) (mkLobCollector [] false 0 0) ;;
  for_each (lc_pending lc) resolveLob.

Definition prefetchInitialRows : M RS unit :=
  fetchSize <- rows rs_fetchSize ;;
  rowCount <- rows rs_rowCount ;;
  let fetch := if (0 <=? rowCount) && (rowCount <? fetchSize) then rowCount else fetchSize in
  if 0 <? fetch then wrapf "h2go: prefetchInitialRows: %w" [] (fetchRows fetch) else ret tt.

(** The rows a session operation makes: lost when it fails. *)
Definition making (r : Rows) (m : M RS unit) : M Session Rows := fun s =>
  match m (s, r) with
  | (Ok _, (s', r')) => (Ok r', s')
  | (Err e, (s', _)) => (Err e, s')
  end.

Definition NewRows (resultID columnCount fetchSize : Z) (ownsCommand : bool) (commandID : Z)
  : M Session Rows :=
  session_open (EErrorf "h2go: NewRows: nil session or closed transport" []) ;;
  making (mkRows resultID columnCount None (-1) [] 0 [] fetchSize false false ownsCommand commandID
            None false None) (
    rowCount <- or_broken "h2go: NewRows: failed to read row count: %w" [] (on_wire ReadRowCount) ;;
    update (set_rowCount rowCount) ;;
    meta <- or_broken "h2go: NewRows: failed to read column metadata: %w" []
              (on_wire (ReadResultMeta columnCount TCPProtocolVersion21)) ;;
    update (set_columns (Some meta)) ;;
    prefetchInitialRows).

(** ** Iterating *)

(** RESULT_FETCH_ROWS, its status and the batch. *)
Definition requestRows (fetch : Z) : M RS unit :=
  wrapf "h2go: Rows.fetchMoreRows: failed to write op: %w" [] (on_wire (WriteInt32 ResultFetchRows)) ;;
  resultID <- rows rs_resultID ;;
  wrapf "h2go: Rows.fetchMoreRows: failed to write result id: %w" [] (on_wire (WriteInt32 resultID)) ;;
  wrapf "h2go: Rows.fetchMoreRows: failed to write fetch size: %w" [] (on_wire (WriteInt32 (int32 fetch))) ;;
  wrapf "h2go: Rows.fetchMoreRows: flush failed: %w" [] (on_wire Flush) ;;
  wrapE "Rows.fetchMoreRows" (on_wire readStatus) ;;
  fetchRows fetch.

Definition fetchMoreRows (fetch : Z) : M RS unit := fun sr =>
  match s_tr sr.1 with
  | None => (Err (ESent driver_ErrBadConn), sr)
  | Some _ => unless_aligned (requestRows fetch) sr
  end.

(** Go's [copy(dest, src)]: [dest] afterwards. *)
Definition go_copy {A} (dest src : list A) : list A :=
  take (length dest) src ++ drop (length src) dest.

Definition EOF {A} : M RS A := fail (ESent io_EOF).

(** The fetch that [Next] makes when nothing is buffered. *)
Definition refill : M RS unit :=
  r <- rows (fun r => r) ;;
  if (0 <=? rs_rowCount r) && (rs_rowCount r <=? rs_rowOffset r) then EOF
  else if rs_noMoreRows r then EOF
  else
    let remaining := rs_rowCount r - rs_rowOffset r in
    if (0 <=? rs_rowCount r) && (remaining <=? 0) then EOF
    else
      let fetch := if (0 <=? rs_rowCount r) && (remaining <? rs_fetchSize r) then remaining
                   else rs_fetchSize r in
      x <- try (fetchMoreRows fetch) ;;
      match x with
      | Err e => update (set_err e) ;; fail e
      | Ok _ =>
          buffered <- rows rs_bufferedRows ;;
          match buffered with
          | [] => EOF
          | _ => ret tt
          end
      end.

(** The result is [dest] after the call. *)
Definition Next (dest : list Value) : M RS (list Value) :=
  r <- rows (fun r => r) ;;
  if rs_closed r then EOF
  else match rs_err r with
  | Some e => fail e
  | None =>
      if negb (zlen dest =? rs_columnCount r) then
        fail (EErrorf "h2go: Rows.Next: dest length %d does not match column count %d"
                [AInt (zlen dest); AInt (rs_columnCount r)])
      else
        (match rs_bufferedRows r with [] => refill | _ => ret tt end) ;;
        r' <- rows (fun r => r) ;;
        match rs_bufferedRows r' with
        | [] => fail (EPanic "index out of range")
        | row :: rest =>
            update (fun r => set_current row (int64 (rs_rowOffset r + 1)) (set_buffered rest r)) ;;
            ret (go_copy dest row)
        end
  end.

(** ** Closing *)

Definition sendResultClose : M RS unit :=
  wrapf "h2go: Rows.sendResultClose: failed to write op: %w" [] (on_wire (WriteInt32 ResultClose)) ;;
  resultID <- rows rs_resultID ;;
  wrapf "h2go: Rows.sendResultClose: failed to write result id: %w" [] (on_wire (WriteInt32 resultID)) ;;
  wrapf "h2go: Rows.sendResultClose: flush failed: %w" [] (on_wire Flush).

Definition sendCommandClose : M RS unit :=
  wrapf "h2go: Rows.sendCommandClose: failed to write op: %w" [] (on_wire (WriteInt32 CommandClose)) ;;
  commandID <- rows rs_commandID ;;
  wrapf "h2go: Rows.sendCommandClose: failed to write command id: %w" [] (on_wire (WriteInt32 commandID)) ;;
  wrapf "h2go: Rows.sendCommandClose: flush failed: %w" [] (on_wire Flush).

(** [session.tr != nil && !session.dead.Load()] *)
Definition usable (s : Session) : bool :=
  match s_tr s with
  | None => false
  | Some _ => negb (s_dead s)
  end.

(** [if cond { if err := m; err != nil && closeErr == nil { closeErr = err } }] *)
Definition also {W} (cond : bool) (m : M W unit) (closeErr : option error) : M W (option error) :=
  if cond then
    x <- try m ;;
    match x, closeErr with
    | Err e, None => ret (Some e)
    | _, _ => ret closeErr
    end
  else ret closeErr.

(** What closes the rows themselves, up to the callback: the first error of the two
    messages, and the callback to run. *)
Definition Rows_release : M RS (option error * option Callback) :=
  update set_closed ;;
  cleanup <- rows rs_contextCleanup ;;
  (if cleanup : bool then on_sess endOperationContext ;; update (set_contextCleanup false) else ret tt) ;;
  s <- gets fst ;;
  closeErr <- also (usable s) sendResultClose None ;;
  s <- gets fst ;;
  r <- rows (fun r => r) ;;
  closeErr <- also (rs_ownsCommand r && negb (rs_commandID r =? 0) && usable s) sendCommandClose closeErr ;;
  update (fun r => set_columns None (set_current [] (rs_rowOffset r) (set_buffered [] r))) ;;
  cb <- rows rs_closeCallback ;;
  update (set_closeCallback None) ;;
  ret (closeErr, cb).

(** What [Close] needs of the owner of the rows. *)
Class RowsHost (W : Type) := {
  on_rows : forall {A}, M RS A -> M W A;
  runCallback : Callback -> M W unit
}.

Definition Rows_Close {W} `{RowsHost W} : M W unit :=
  closed <- on_rows (rows rs_closed) ;;
  if closed : bool then ret tt
  else
    x <- on_rows Rows_release ;;
    closeErr <- (match x.2 with
                 | Some cb => also true (runCallback cb) x.1
                 | None => ret x.1
                 end) ;;
    match closeErr with
    | Some e => fail e
    | None => ret tt
    end.

(** Rows nobody has registered a callback with, as the [Execute*] methods return them. *)
#[export] Instance RowsHost_RS : RowsHost RS := {
  on_rows := fun _ m => m;
  runCallback := fun _ => ret tt
}.

Definition HasNextResultSet : bool := false.
Definition NextResultSet : res unit := Err (ESent io_EOF).

(** ** Column metadata *)

Definition Rows_Columns (r : Rows) : option (list gostring) := ColumnNames <$> rs_columns r.

Definition column (r : Rows) (index : Z) : option ResultColumn :=
  meta ← rs_columns r; GetColumn meta index.

Definition ColumnTypeDatabaseTypeName (r : Rows) (index : Z) : gostring :=
  match column r index with
  | Some col => DatabaseTypeName (ColType col)
  | None => []
  end.

Definition ColumnTypeNullable (r : Rows) (index : Z) : bool * bool :=
  match column r index with
  | Some col =>
      if ColNullable col =? ColumnNoNulls then (false, true)
      else if ColNullable col =? ColumnNullable then (true, true)
      else (false, false)
  | None => (false, false)
  end.

Definition ColumnTypeLength (r : Rows) (index : Z) : Z * bool :=
  match column r index with
  | Some col =>
      if one_of (ValueType (ColType col)) [ValueTypeVarchar; ValueTypeChar; ValueTypeVarcharIgnoreCase;
           ValueTypeBinary; ValueTypeVarbinary; ValueTypeBlob; ValueTypeClob]
         && (0 <=? Precision (ColType col))
      then (Precision (ColType col), true)
      else (0, false)
  | None => (0, false)
  end.

Definition ColumnTypePrecisionScale (r : Rows) (index : Z) : Z * Z * bool :=
  match column r index with
  | Some col => PrecisionScale (Some (ColType col))
  | None => (0, 0, false)
  end.

Definition ColumnTypeScanType (r : Rows) (index : Z) : scanType :=
  match column r index with
  | Some col => ScanType (Some (ColType col))
  | None => scanTypeAny
  end.

(** ** Executing queries *)

(** The loop over the parameters of a request, from index [i]. *)
Fixpoint writeParams (fmt : string) (cmd : PreparedCommand) (i : nat) (params : list Value) : M Session unit :=
  match params with
  | [] => ret tt
  | p :: params' =>
      wrapf fmt [AInt (Z.of_nat i + 1)] (on_tr (WriteValue p (pm_TypeInfo <$> cmd_Params cmd !! i))) ;;
      writeParams fmt cmd (S i) params'
  end.

(** [if err != nil { if ownsCommand { _ = cmd.Close(s) }; return ... }] *)
Definition closing {A} (ownsCommand : bool) (cmd : PreparedCommand) (m : M Session A) : M Session A :=
  x <- try m ;;
  match x with
  | Ok a => ret a
  | Err e =>
      (if ownsCommand then discard (PreparedCommand_Close cmd) else ret tt) ;; fail e
  end.

(** The request. *)
Definition writeExecuteQuery (cmd : PreparedCommand) (resultID maxRows fetchSize : Z) (params : list Value)
  : M Session unit :=
  wrapf "h2go: executeQueryWire: failed to write op: %w" [] (on_tr (WriteInt32 CommandExecuteQuery)) ;;
  wrapf "h2go: executeQueryWire: failed to write command id: %w" [] (on_tr (WriteInt32 (cmd_ID cmd))) ;;
  wrapf "h2go: executeQueryWire: failed to write result id: %w" [] (on_tr (WriteInt32 resultID)) ;;
  wrapf "h2go: executeQueryWire: failed to write maxRows: %w" [] (on_tr (WriteInt64 maxRows)) ;;
  wrapf "h2go: executeQueryWire: failed to write fetchSize: %w" [] (on_tr (WriteInt32 (int32 fetchSize))) ;;
  wrapf "h2go: executeQueryWire: failed to write paramCount: %w" [] (on_tr (WriteInt32 (int32 (zlen params)))) ;;
  writeParams "h2go: executeQueryWire: encode param %d: %w" cmd 0 params ;;
  wrapf "h2go: executeQueryWire: flush failed: %w" [] (on_tr Flush).

Definition executeQueryWire (ctx : Ctx) (cmd : PreparedCommand) (maxRows fetchSize : Z)
    (params : list Value) (ownsCommand : bool) : M Session Rows :=
  resultID <- nextCommandID ;;
  beginOperationContext ctx true ;;
  x <- try (closing ownsCommand cmd (
    writeExecuteQuery cmd resultID maxRows fetchSize params ;;
    wrapE "executeQueryWire" (on_tr readStatus) ;;
    columnCount <- wrapf "h2go: executeQueryWire: failed to read column count: %w" [] (on_tr ReadInt32) ;;
    r <- NewRows resultID columnCount fetchSize ownsCommand (if ownsCommand then cmd_ID cmd else 0) ;;
    ret (set_contextCleanup true r))) ;;
  y <- try (finalizeContext ctx x) ;;
  match y with
  | Ok r => ret r
  | Err e => endOperationContext ;; fail e
  end.

Definition ExecuteQuery (ctx : Ctx) (sql : gostring) (maxRows fetchSize : Z) : M Session Rows :=
  session_open (EErrorf "h2go: ExecuteQuery: session closed" []) ;;
  cmd <- wrapE "ExecuteQuery: prepare" (PrepareCommand ctx sql) ;;
  if negb (cmd_IsQuery cmd) then
    discard (PreparedCommand_Close cmd) ;;
    fail (EErrorf "h2go: ExecuteQuery: command is not a query: %s" [AStr sql])
  else executeQueryWire ctx cmd maxRows fetchSize [] true.

Definition ExecuteQueryWithParams (ctx : Ctx) (sql : gostring) (maxRows fetchSize : Z) (params : list Value)
  : M Session Rows :=
  session_open (EErrorf "h2go: ExecuteQueryWithParams: session closed" []) ;;
  cmd <- wrapE "ExecuteQueryWithParams: prepare" (PrepareCommandReadParams ctx sql) ;;
  if negb (cmd_IsQuery cmd) then
    discard (PreparedCommand_Close cmd) ;;
    fail (EErrorf "h2go: ExecuteQueryWithParams: command is not a query: %s" [AStr sql])
  else if negb (cmd_ParamCount cmd =? zlen params) then
    discard (PreparedCommand_Close cmd) ;;
    fail (EErrorf "h2go: ExecuteQueryWithParams: expected %d params, got %d"
            [AInt (cmd_ParamCount cmd); AInt (zlen params)])
  else executeQueryWire ctx cmd maxRows fetchSize params true.

Definition ExecuteQueryPreparedWithParams (ctx : Ctx) (cmd : PreparedCommand) (maxRows fetchSize : Z)
    (params : list Value) : M Session Rows :=
  session_open (EErrorf "h2go: ExecuteQueryPreparedWithParams: session closed" []) ;;
  if negb (cmd_IsQuery cmd) then
    fail (EErrorf "h2go: ExecuteQueryPreparedWithParams: command is not a query: %s" [AStr (cmd_SQL cmd)])
  else if negb (cmd_ParamCount cmd =? zlen params) then
    fail (EErrorf "h2go: ExecuteQueryPreparedWithParams: expected %d params, got %d"
            [AInt (cmd_ParamCount cmd); AInt (zlen params)])
  else executeQueryWire ctx cmd maxRows fetchSize params false.

Definition ExecuteQueryPrepared (ctx : Ctx) (cmd : PreparedCommand) (maxRows fetchSize : Z) : M Session Rows :=
  ExecuteQueryPreparedWithParams ctx cmd maxRows fetchSize [].
