(* ===== verification/RowsFacts.v ===== *)
(** * Result sets: discipline, decoding and iteration *)

From S2P Require Import Prelude.
From S2P Require Import GoText.
From S2P Require Import Protocol.
From S2P Require Import Transfer.
From S2P Require Import Errors.
From S2P Require Import Fuel.
From S2P Require Import TypeInfo.
From S2P Require Import Metadata.
From S2P Require Import Value.
From S2P Require Import ValueRead.
From S2P Require Import Lob.
From S2P Require Import ValueWire.
From S2P Require Import ValueWrite.
From S2P Require Import Session.
From S2P Require Import SessionFacts.
From S2P Require Import Exchange.
From S2P Require Import Rows.

(** ** Discipline *)

#[export] Instance HasSession_RS : HasSession RS := fst.

Lemma fair_on_sess {A} (m : M Session A) : fair m -> fair (on_sess m).
Proof.
  intros Hm [s r]. specialize (Hm s). unfold on_sess, session_of, HasSession_RS, HasSession_id in *.
  by destruct (m s) as [x s'].
Qed.

Lemma fair_rows {A} (f : Rows -> A) : fair (rows f).
Proof. intros w. split; [|done]. intros Hw. split; [done|apply forward_refl]. Qed.

Lemma fair_update f : fair (update f).
Proof. intros [s r]. split; [|done]. intros Hw. split; [done|apply forward_refl]. Qed.
#[export] Hint Resolve fair_rows fair_update : fair.

Lemma disciplined_of_total {A} (m : M RS A) :
  fair m -> (forall w, exists a w', m w = (Ok a, w')) -> disciplined m.
Proof. intros Hf Ht. split; [done|]. intros w e w' _ H. destruct (Ht w) as (a & w1 & E). congruence. Qed.

Lemma disciplined_rows {A} (f : Rows -> A) : disciplined (rows f).
Proof. apply disciplined_of_total; [apply fair_rows|]. intros w. by do 2 eexists. Qed.
Lemma disciplined_update f : disciplined (update f).
Proof. apply disciplined_of_total; [apply fair_update|]. intros [s r]. by do 2 eexists. Qed.

Lemma disciplined_panic {A} what : disciplined (@fail RS A (EPanic what)).
Proof. split; [by apply fair_fail|]. intros w e w' _ [= <- <-] _. done. Qed.

(** A failure after [markStreamBroken] (or [Abort], which is the same state change). *)
Lemma disciplined_mark {A} e : errors_As e = None -> disciplined (on_sess markStreamBroken ;; @fail RS A e).
Proof.
  intros He. assert (Hb : forall w, alive (session_of w) \/ broken (session_of w) ->
    broken (session_of ((on_sess markStreamBroken ;; @fail RS A e) w).2)).
  { intros [s r] Hw. apply (broken_markStreamBroken s Hw). }
  assert (Hr : forall w, ((on_sess markStreamBroken ;; @fail RS A e) w).1 = Err e) by (by intros []).
  split.
  - intros w. split; [|intros; apply Hb; by right]. intros Hw. rewrite Hr. cbn. unfold fair_failure.
    rewrite He. right. apply Hb. by left.
  - intros w e' w' Hw H _ _. specialize (Hb w (or_introl Hw)). by rewrite H in Hb.
Qed.

Lemma disciplined_or_broken {A} fmt args (m : M RS A) :
  fair m -> (forall w e w', alive (session_of w) -> m w = (Err e, w') -> errors_As e = None) ->
  disciplined (or_broken fmt args m).
Proof.
  intros Hf Hn. split.
  - intros w. destruct (Hf w) as [Ha Hb]. specialize (Hn w). unfold or_broken, bind, try.
    destruct (m w) as [[a|e] [s' r']] eqn:E; cbn in *; [done|].
    split; [|intros Hw; apply broken_Abort; right; by apply Hb].
    intros Hw. unfold fair_failure. rewrite errors_As_wrapf, (Hn _ _ Hw eq_refl).
    right. apply broken_Abort. specialize (Ha Hw). unfold fair_failure in Ha.
    rewrite (Hn _ _ Hw eq_refl) in Ha. destruct Ha as [[? _]|?]; [by left|by right].
  - intros w e w' Hw H _ _. unfold or_broken, bind, try in H. destruct (Hf w) as [Ha _]. specialize (Ha Hw).
    specialize (Hn w). destruct (m w) as [[a|e0] [s' r']] eqn:E; cbn in *; [done|].
    injection H as <- <-. apply broken_Abort. unfold fair_failure in Ha. rewrite (Hn _ _ Hw eq_refl) in Ha.
    destruct Ha as [[? _]|?]; [by left|by right].
Qed.

Lemma or_broken_Ok {A} fmt args (m : M RS A) w a w' :
  or_broken fmt args m w = (Ok a, w') <-> m w = (Ok a, w').
Proof. unfold or_broken, bind, try. by destruct (m w) as [[x|e] [s r]]. Qed.

Lemma on_wire_Ok {A} (m : M Tr A) s r a s' r' :
  on_wire m (s, r) = (Ok a, (s', r')) ->
  exists t t', s_tr s = Some t /\ m t = (Ok a, t') /\ s' = set_tr (Some t') s /\ r' = r.
Proof.
  unfold on_wire, on_sess, on_tr. destruct (s_tr s) as [t|]; [|done].
  destruct (m t) as [x t'] eqn:E. intros [= -> <- <-]. by exists t, t'.
Qed.

(** A read through [or_broken]. *)
Lemma disciplined_read {A} fmt args (m : M Tr A) :
  steady m -> plain_errs m -> disciplined (or_broken fmt args (on_wire m)).
Proof.
  intros Hs Hp. apply disciplined_or_broken; [by apply fair_on_sess, fair_on_tr_plain|].
  intros [s r] e w' [Hd (t & Ht & _)] H. cbn in Ht. unfold on_wire, on_sess, on_tr in H. rewrite Ht in H.
  destruct (m t) as [x t'] eqn:E. injection H as -> _. by eapply plain_As, Hp.
Qed.

Lemma unless_aligned_run {A} (m : M RS A) w :
  unless_aligned m w =
  match m w with
  | (Ok a, w') => (Ok a, w')
  | (Err e, (s', r')) => (Err e, ((markUnlessAlignedH2Error e s').2, r'))
  end.
Proof.
  unfold unless_aligned, bind, try. destruct (m w) as [[a|e] [s' r']]; [done|].
  unfold on_sess, markUnlessAlignedH2Error. by destruct (errors_As e).
Qed.

Lemma markUnlessAligned_broken s e :
  alive s \/ broken s -> errors_As e = None -> broken (markUnlessAlignedH2Error e s).2.
Proof.
  intros Hs He. unfold markUnlessAlignedH2Error. rewrite He. by apply broken_markStreamBroken.
Qed.

Lemma disciplined_unless_aligned {A} (m : M RS A) : fair m -> disciplined (unless_aligned m).
Proof.
  intros Hf. split.
  - intros w. destruct (Hf w) as [Ha Hb]. rewrite unless_aligned_run.
    destruct (m w) as [[a|e] [s' r']]; cbn in *; [done|]. unfold fair_failure in *.
    destruct (errors_As e) as [h|] eqn:Eh; [unfold markUnlessAlignedH2Error; by rewrite Eh|].
    split; [|intros Hw; apply markUnlessAligned_broken; auto].
    intros Hw. right. apply markUnlessAligned_broken; [|done]. destruct (Ha Hw) as [[? _]|?]; auto.
  - intros w e w' Hw H He _. destruct (Hf w) as [Ha _]. specialize (Ha Hw). rewrite unless_aligned_run in H.
    destruct (m w) as [[a|e0] [s' r']]; [done|]. injection H as <- <-. apply markUnlessAligned_broken; [|done].
    cbn in Ha. unfold fair_failure in Ha. rewrite He in Ha. destruct Ha as [[? _]|?]; auto.
Qed.

(** ** Fetching is disciplined *)

Lemma disciplined_readColumns n j lc : disciplined (readColumns n j lc).
Proof.
  revert j lc. induction n as [|n IH]; intros j lc; cbn [readColumns]; [apply disciplined_ret|].
  apply disciplined_bind; [apply disciplined_rows|]. intros [meta|]; [|apply disciplined_panic].
  destruct (GetColumn meta j) as [col|]; [|by apply disciplined_mark].
  apply disciplined_bind; [apply disciplined_rows|]. intros cur.
  apply disciplined_bind.
  { apply disciplined_read; [apply steady_reader, reader_readValueInternal|apply plain_errs_readValueInternal]. }
  intros x. apply disciplined_bind; [apply IH|]. intros y. apply disciplined_ret.
Qed.

Lemma fair_readH2Error : fair (on_wire readH2Error).
Proof. apply fair_on_sess, fair_on_tr; [apply steady_reader, reader_readH2Error|apply reports_readH2Error]. Qed.

Lemma disciplined_fetchRows_loop n lc : disciplined (fetchRows_loop n lc).
Proof.
  revert lc. induction n as [|n IH]; intros lc; cbn [fetchRows_loop]; [apply disciplined_ret|].
  apply disciplined_bind; [apply disciplined_read; [solve_steady|solve_plain_errs]|]. intros flag. cbv zeta.
  destruct (_ =? 1).
  { apply disciplined_bind; [apply disciplined_rows|]. intros cc.
    apply disciplined_bind; [apply disciplined_readColumns|]. intros x.
    apply disciplined_bind; [apply disciplined_update|]. intros _. apply IH. }
  destruct (_ =? 0).
  { apply disciplined_bind; [apply disciplined_update|]. intros _. apply disciplined_ret. }
  destruct (_ =? -1); [|by apply disciplined_mark].
  apply disciplined_bind; [apply disciplined_unless_aligned, fair_readH2Error|]. intros _. apply disciplined_ret.
Qed.

Lemma steady_fetchLob p : steady (fetchLob p).
Proof.
  unfold fetchLob. destruct (_ <? _); [apply steady_fail|].
  apply steady_bind; [|intros buf; destruct (_ =? _); apply steady_ret].
  intros t. unfold fueled. revert t. cut (forall fuel off buf, steady (fetchLob_loop fuel p off buf)); [by intros H t; apply H|].
  induction fuel as [|fuel IH]; intros off buf; cbn [fetchLob_loop]; [apply steady_fail|].
  unfold writeLobRead. solve_steady.
Qed.

Lemma resolveLob_run p w :
  resolveLob p w =
  (v <- or_broken "h2go: fetchRows: failed to resolve deferred LOB (row %d column %d): %w"
          [AInt (pl_row p); AInt (pl_col p)] (on_wire (fetchLob p)) ;;
   buffered <- rows rs_bufferedRows ;;
   match splice (pl_row p) (pl_col p) v buffered with
   | Some buffered' => update (set_buffered buffered')
   | None => fail (EPanic "index out of range")
   end) w.
Proof. unfold resolveLob, or_broken, bind, try. by destruct (on_wire (fetchLob p) w) as [[v|e] [s r]]. Qed.

Lemma disciplined_ext {A} (m m' : M RS A) : (forall w, m w = m' w) -> disciplined m' -> disciplined m.
Proof.
  intros He [Hf Hd]. split; [intros w; rewrite He; apply Hf|]. intros w e w'. rewrite He. apply Hd.
Qed.

Lemma disciplined_resolveLob p : disciplined (resolveLob p).
Proof.
  eapply disciplined_ext; [apply resolveLob_run|].
  apply disciplined_bind; [apply disciplined_read; [apply steady_fetchLob|apply plain_errs_fetchLob]|].
  intros v. apply disciplined_bind; [apply disciplined_rows|]. intros b.
  destruct (splice _ _ _ _); [apply disciplined_update|apply disciplined_panic].
Qed.

Lemma disciplined_for_each {A} (l : list A) (f : A -> M RS unit) :
  (forall x, disciplined (f x)) -> disciplined (for_each l f).
Proof.
  intros Hf. induction l as [|x l IH]; cbn [for_each]; [apply disciplined_ret|].
  apply disciplined_bind; [done|]. by intros _.
Qed.

Lemma disciplined_fetchRows fetch : disciplined (fetchRows fetch).
Proof.
  apply disciplined_bind; [apply disciplined_fetchRows_loop|]. intros lc.
  apply disciplined_for_each, disciplined_resolveLob.
Qed.

Lemma disciplined_prefetchInitialRows : disciplined prefetchInitialRows.
Proof.
  unfold prefetchInitialRows. apply disciplined_bind; [apply disciplined_rows|]. intros fs.
  apply disciplined_bind; [apply disciplined_rows|]. intros rc. cbv zeta.
  destruct (0 <? _); [apply disciplined_wrapf, disciplined_fetchRows|apply disciplined_ret].
Qed.

Lemma fair_requestRows fetch : fair (requestRows fetch).
Proof.
  unfold requestRows. solve_fair. all: try (apply fair_on_sess; solve_fair).
  apply disciplined_fair, disciplined_fetchRows.
Qed.

Lemma disciplined_fetchMoreRows fetch : forall w, is_Some (s_tr w.1) ->
  fetchMoreRows fetch w = unless_aligned (requestRows fetch) w /\ disciplined (unless_aligned (requestRows fetch)).
Proof.
  intros w [t Ht]. unfold fetchMoreRows. rewrite Ht. split; [done|].
  apply disciplined_unless_aligned, fair_requestRows.
Qed.

(** ** Placeholders never survive a batch *)

Definition cell (b : list (list Value)) (i j : nat) : option Value := row ← b !! i; row !! j.

Definition no_placeholder (b : list (list Value)) : Prop :=
  Forall (Forall (fun v => is_pending v = false)) b.

(** The rows and the LOBs still to fetch: every placeholder has its LOB, and every LOB
    has its cell, in a row after the first [n]. *)
Definition pending_inv (n : nat) (b : list (list Value)) (ps : list pendingLob) : Prop :=
  (forall i j p, cell b i j = Some (VPendingLob p) ->
     exists q, q ∈ ps /\ pl_row q = Z.of_nat i /\ pl_col q = Z.of_nat j) /\
  (forall q, q ∈ ps -> exists i j, (n <= i)%nat /\ pl_row q = Z.of_nat i /\ pl_col q = Z.of_nat j /\
     is_Some (cell b i j)).

Lemma no_placeholder_cell b :
  no_placeholder b <-> forall i j p, cell b i j <> Some (VPendingLob p).
Proof.
  unfold no_placeholder, cell. rewrite Forall_lookup. split.
  - intros H i j p. destruct (b !! i) as [row|] eqn:E; [|done]. cbn. intros Hj.
    specialize (H _ _ E). rewrite Forall_lookup in H. by specialize (H _ _ Hj).
  - intros H i row E. apply Forall_lookup. intros j v Hj. destruct v; try done.
    exfalso. eapply (H i j). by rewrite E.
Qed.

Lemma pending_inv_done n b : pending_inv n b [] -> no_placeholder b.
Proof.
  intros [H _]. apply no_placeholder_cell. intros i j p Hc. destruct (H _ _ _ Hc) as (q & Hq & _).
  by apply not_elem_of_nil in Hq.
Qed.

(** Reading the columns of one row. *)
Lemma readColumns_spec meta n : forall j lc s r vs lc' s' r',
  rs_columns r = Some meta ->
  readColumns n j lc (s, r) = (Ok (vs, lc'), (s', r')) ->
  r' = r /\ length vs = n /\ exists new,
    lc_pending lc' = lc_pending lc ++ new /\
    (forall k p, vs !! k = Some (VPendingLob p) ->
       exists q, q ∈ new /\ pl_row q = zlen (rs_bufferedRows r) /\ pl_col q = j + Z.of_nat k) /\
    (forall q, q ∈ new -> pl_row q = zlen (rs_bufferedRows r) /\
       exists k, (k < n)%nat /\ pl_col q = j + Z.of_nat k).
Proof.
  induction n as [|n IH]; intros j lc s r vs lc' s' r' Hm H; cbn [readColumns] in H.
  { injection H as <- <- <- <-. split_and!; try done. exists []. rewrite app_nil_r. split_and!; try done.
    intros q Hq. by apply not_elem_of_nil in Hq. }
  unfold bind at 1, rows at 1 in H. cbn in H. rewrite Hm in H.
  destruct (GetColumn meta j) as [col|]; [|done].
  unfold bind at 1, rows at 1 in H. cbn in H.
  apply bind_Ok_inv in H as ([v lcx] & [s1 r1] & H1 & H).
  apply or_broken_Ok, on_wire_Ok in H1 as (t & t' & _ & Er & _ & ->).
  apply collected_readValueInternal_fuel in Er.
  apply bind_Ok_inv in H as ([vs1 lc1] & [s3 r3] & H & Hr). cbn in Hr. injection Hr as <- <- <- <-.
  destruct (IH _ _ _ _ _ _ _ _ Hm H) as (-> & Hlen & new & Hp & Hv & Hq). cbn [fst snd] in *.
  split; [done|]. split; [cbn; lia|].
  assert (Hplain : is_pending v = false -> lc_pending (default lc lcx) = lc_pending lc).
  { intros Hv0. destruct v; try done; cbn in Er; destruct Er as [_ ->]; done. }
  destruct (is_pending v) eqn:Ev.
  - destruct v as [| | | | | | |p|]; try done. cbn in Er. destruct Er as (_ & -> & Hr1 & Hc1).
    cbn in Hp, Hr1, Hc1. exists (p :: new). rewrite Hp, <- app_assoc. split; [done|]. split.
    + intros [|k] p' Hk; cbn in Hk; [injection Hk as <-; exists p; split; [left|lia]|].
      destruct (Hv _ _ Hk) as (q & Hq1 & Hq2 & Hq3). exists q. split; [by right|lia].
    + intros q [->|Hin]%elem_of_cons; [split; [done|exists 0%nat; lia]|].
      destruct (Hq _ Hin) as [Hq1 (k & Hk & Hq2)]. split; [done|]. exists (S k). lia.
  - rewrite Hplain in Hp by done. exists new. split; [done|]. split.
    + intros [|k] p' Hk; cbn in Hk; [injection Hk as ->; done|].
      destruct (Hv _ _ Hk) as (q & Hq1 & Hq2 & Hq3). exists q. split; [done|lia].
    + intros q Hin. destruct (Hq _ Hin) as [Hq1 (k & Hk & Hq2)]. split; [done|]. exists (S k). lia.
Qed.

Lemma cell_app_l b row i j : (i < length b)%nat -> cell (b ++ [row]) i j = cell b i j.
Proof. intros. unfold cell. by rewrite lookup_app_l. Qed.
Lemma cell_app_r b row j : cell (b ++ [row]) (length b) j = row !! j.
Proof. unfold cell. rewrite lookup_app_r, Nat.sub_diag by lia. done. Qed.

Lemma pending_inv_app n b ps vs new :
  (n <= length b)%nat -> pending_inv n b ps ->
  (forall k p, vs !! k = Some (VPendingLob p) ->
     exists q, q ∈ new /\ pl_row q = zlen b /\ pl_col q = 0 + Z.of_nat k) ->
  (forall q, q ∈ new -> pl_row q = zlen b /\ exists k, (k < length vs)%nat /\ pl_col q = 0 + Z.of_nat k) ->
  pending_inv n (b ++ [vs]) (ps ++ new).
Proof.
  intros Hn [H1 H2] Hv Hq. split.
  - intros i j p Hc. destruct (decide (i < length b)%nat) as [Hi|Hi].
    + rewrite cell_app_l in Hc by done. destruct (H1 _ _ _ Hc) as (q & ? & ? & ?). exists q.
      split; [by apply elem_of_app; left|done].
    + assert (i = length b) as ->.
      { unfold cell in Hc. destruct ((b ++ [vs]) !! i) eqn:E; [|done].
        apply lookup_lt_Some in E. rewrite length_app in E. cbn in E. lia. }
      rewrite cell_app_r in Hc. destruct (Hv _ _ Hc) as (q & ? & ? & ?). exists q.
      split; [by apply elem_of_app; right|]. unfold zlen in *. lia.
  - intros q [Hin|Hin]%elem_of_app.
    + destruct (H2 _ Hin) as (i & j & Hi & Hr & Hc & [v Hs]). exists i, j. split_and!; try done.
      rewrite cell_app_l; [by exists v|]. unfold cell in Hs. destruct (b !! i) eqn:E; [|done].
      by eapply lookup_lt_Some.
    + destruct (Hq _ Hin) as [Hr (k & Hk & Hc)]. exists (length b), k. unfold zlen in Hr.
      split_and!; [done|lia|lia|]. rewrite cell_app_r. by apply lookup_lt_is_Some_2.
Qed.

(** What a batch changes of the rows. *)
Definition grown (r r' : Rows) (rows' : list (list Value)) : Prop :=
  r' = set_buffered (rs_bufferedRows r ++ rows') r \/
  r' = set_noMoreRows (set_buffered (rs_bufferedRows r ++ rows') r).

Lemma grown_fields r r' l :
  grown r r' l -> rs_bufferedRows r' = rs_bufferedRows r ++ l /\ rs_columns r' = rs_columns r /\
                  rs_columnCount r' = rs_columnCount r.
Proof. by intros [->| ->]. Qed.

Lemma grown_refl r : grown r r [].
Proof. left. destruct r. unfold set_buffered. cbn. by rewrite app_nil_r. Qed.

Lemma grown_cons r r' row l :
  grown (set_buffered (rs_bufferedRows r ++ [row]) r) r' l -> grown r r' (row :: l).
Proof. unfold grown, set_buffered. cbn. by rewrite <- app_assoc. Qed.

Lemma fetchRows_loop_spec n : forall n0 lc s r lc' s' r' meta,
  rs_columns r = Some meta -> (n0 <= length (rs_bufferedRows r))%nat ->
  pending_inv n0 (rs_bufferedRows r) (lc_pending lc) ->
  fetchRows_loop n lc (s, r) = (Ok lc', (s', r')) ->
  exists new, grown r r' new /\ (length new <= n)%nat /\
    Forall (fun row => length row = Z.to_nat (rs_columnCount r)) new /\
    pending_inv n0 (rs_bufferedRows r') (lc_pending lc').
Proof.
  induction n as [|n IH]; intros n0 lc s r lc' s' r' meta Hm Hn Hinv H; cbn [fetchRows_loop] in H.
  { injection H as <- <- <-. exists []. split_and!; [apply grown_refl|cbn; lia|done|done]. }
  apply bind_Ok_inv in H as (flag & [s1 r1] & H1 & H).
  apply or_broken_Ok, on_wire_Ok in H1 as (t & t' & _ & _ & _ & ->). cbv zeta in H.
  destruct (_ =? 1).
  - apply bind_Ok_inv in H as (cc & [s2 r2] & [= <- <- <-] & H).
    apply bind_Ok_inv in H as ([vs lc1] & [s3 r3] & Hc & H).
    destruct (readColumns_spec meta _ _ _ _ _ _ _ _ _ Hm Hc) as (-> & Hlen & new & Hp & Hv & Hq).
    apply bind_Ok_inv in H as ([] & [s4 r4] & [= <- <-] & H). cbn [fst snd] in *.
    eapply (IH n0) in H as (rows' & Hg & Hl & Hall & Hinv'); [|exact Hm| |].
    + exists (vs :: rows'). split; [by apply grown_cons|]. split; [cbn; lia|]. split; [|done]. by constructor.
    + cbn. rewrite length_app. lia.
    + cbn. rewrite Hp. apply pending_inv_app; [done|done|done|]. intros q Hin.
      destruct (Hq q Hin) as [? (k & ? & ?)]. split; [done|]. exists k. split; [lia|done].
  - destruct (_ =? 0).
    + apply bind_Ok_inv in H as ([] & [s2 r2] & [= <- <-] & H). injection H as <- <- <-.
      exists []. split_and!; [|cbn; lia|done|done]. right. destruct r. unfold set_noMoreRows, set_buffered. cbn.
      by rewrite app_nil_r.
    + destruct (_ =? -1); [|done]. apply bind_Ok_inv in H as ([] & [s2 r2] & H2 & H).
      rewrite unless_aligned_run in H2. destruct (on_wire readH2Error _) as [[[]|e] [s3 r3]] eqn:E; [|done].
      apply on_wire_Ok in E as (t2 & t3 & _ & E & _). unfold readH2Error in E. m_inv.
Qed.

(** The LOBs put in place, one by one. *)
Lemma fetchLob_value p t v t' : fetchLob p t = (Ok v, t') -> is_pending v = false.
Proof.
  unfold fetchLob. destruct (_ <? _); [done|]. intros H. m_inv. destruct (_ =? _); m_inv; done.
Qed.

Lemma splice_spec b i j v :
  is_Some (cell b i j) ->
  exists row, b !! i = Some row /\ splice (Z.of_nat i) (Z.of_nat j) v b = Some (<[i := <[j := v]> row]> b).
Proof.
  intros [v0 Hc]. unfold cell in Hc. destruct (b !! i) as [row|] eqn:E; [|done]. cbn in Hc.
  apply lookup_lt_Some in Hc. exists row. split; [done|]. unfold splice, zlen.
  pose proof (Nat2Z.is_nonneg i). pose proof (Nat2Z.is_nonneg j).
  replace (_ || _) with false by lia.
  rewrite !Nat2Z.id, E.
  by replace (Z.of_nat j <? Z.of_nat (length row)) with true by lia.
Qed.

Lemma cell_insert b i j v row i' j' :
  b !! i = Some row -> (j < length row)%nat ->
  cell (<[i := <[j := v]> row]> b) i' j' = if decide (i' = i /\ j' = j) then Some v else cell b i' j'.
Proof.
  intros E Hj. unfold cell. pose proof (lookup_lt_Some _ _ _ E). case_decide as Hd.
  - destruct Hd as [-> ->]. rewrite list_lookup_insert_eq by done. cbn. by rewrite list_lookup_insert_eq.
  - destruct (decide (i' = i)) as [->|Hi]; [|by rewrite list_lookup_insert_ne].
    rewrite list_lookup_insert_eq, E by done. cbn. apply list_lookup_insert_ne. naive_solver.
Qed.

Lemma cell_is_Some_lt b i j row : b !! i = Some row -> is_Some (cell b i j) -> (j < length row)%nat.
Proof. intros E [v Hc]. unfold cell in Hc. rewrite E in Hc. by eapply lookup_lt_Some. Qed.

Lemma pending_inv_step n b p ps i j row v :
  is_pending v = false -> pl_row p = Z.of_nat i -> pl_col p = Z.of_nat j -> b !! i = Some row ->
  is_Some (cell b i j) -> pending_inv n b (p :: ps) -> pending_inv n (<[i := <[j := v]> row]> b) ps.
Proof.
  intros Hv Hi Hj E Hs [H1 H2]. pose proof (cell_is_Some_lt _ _ _ _ E Hs) as Hlt. split.
  - intros i' j' q. rewrite (cell_insert b i j v row) by done. case_decide as Hd; [intros [= ->]; done|].
    intros Hc. destruct (H1 _ _ _ Hc) as (q' & [->|Hin]%elem_of_cons & Hr & Hcol); [|by eauto].
    exfalso. apply Hd. lia.
  - intros q Hin. destruct (H2 q) as (i' & j' & Hn & Hr & Hcol & Hsome); [by right|]. exists i', j'.
    split_and!; try done. rewrite (cell_insert b i j v row) by done. by case_decide.
Qed.

Lemma resolveLob_spec n p ps s r :
  pending_inv n (rs_bufferedRows r) (p :: ps) ->
  match resolveLob p (s, r) with
  | (Ok _, (s', r')) =>
      exists b', r' = set_buffered b' r /\ pending_inv n b' ps /\ length b' = length (rs_bufferedRows r) /\
                 take n b' = take n (rs_bufferedRows r) /\ (length <$> b') = (length <$> rs_bufferedRows r)
  | (Err e, (s', r')) => forall t, s_tr s = Some t -> sane e = true
  end.
Proof.
  intros Hinv. rewrite resolveLob_run. unfold bind at 1.
  destruct (or_broken _ _ _ (s, r)) as [[v|e] [s1 r1]] eqn:E.
  - apply or_broken_Ok, on_wire_Ok in E as (t & t' & _ & Ev & _ & ->). apply fetchLob_value in Ev.
    destruct (proj2 Hinv p) as (i & j & Hn & Hi & Hj & Hs); [left|].
    destruct (splice_spec _ i j v Hs) as (row & Erow & Hsp). unfold bind, rows. cbn [snd].
    rewrite Hi, Hj, Hsp. cbn. eexists. split; [done|].
    split; [by eapply pending_inv_step|]. rewrite length_insert. split; [done|].
    split; [by rewrite take_insert_ge|].
    rewrite list_fmap_insert. apply list_insert_id.
    rewrite list_lookup_fmap, Erow. cbn. by rewrite length_insert.
  - intros t Ht. unfold or_broken, bind, try, on_wire, on_sess, on_tr in E. rewrite Ht in E.
    destruct (fetchLob p t) as [[v|e0] t'] eqn:Ef; [done|]. injection E as <- _ _. cbn.
    apply plain_errs_fetchLob, plain_sane in Ef. by rewrite Ef.
Qed.

(** ** No panic *)

(** From an alive session and rows with metadata, [m] does not panic. *)
Definition safe {A} (m : M RS A) : Prop := forall s r,
  alive s -> is_Some (rs_columns r) ->
  match m (s, r) with
  | (Ok _, (s', r')) => alive s' /\ is_Some (rs_columns r')
  | (Err e, _) => sane e = true
  end.

Lemma safe_ret {A} (a : A) : safe (ret a).
Proof. by intros s r. Qed.

Lemma safe_bind {A B} (m : M RS A) (k : A -> M RS B) : safe m -> (forall a, safe (k a)) -> safe (bind m k).
Proof.
  intros Hm Hk s r Hs Hr. specialize (Hm s r Hs Hr). unfold bind.
  destruct (m (s, r)) as [[a|e] [s' r']]; [|done]. destruct Hm. by apply Hk.
Qed.

Lemma safe_rows {A} (f : Rows -> A) : safe (rows f).
Proof. by intros s r. Qed.

Lemma safe_mark {A} e : sane e = true -> safe (on_sess markStreamBroken ;; @fail RS A e).
Proof. by intros He s r. Qed.

Lemma safe_read {A} fmt args (m : M Tr A) :
  steady m -> plain_errs m -> safe (or_broken fmt args (on_wire m)).
Proof.
  intros Hs Hp s r [Hd (t & Ht & Hsh)] Hr. unfold or_broken, bind, try, on_wire, on_sess, on_tr. rewrite Ht.
  destruct (Hs t Hsh) as [Hsh' _]. destruct (m t) as [[a|e] t'] eqn:E; cbn in *.
  - split; [|done]. split; [done|]. by exists t'.
  - apply Hp, plain_sane in E. by rewrite E.
Qed.

Lemma safe_update f : (forall r, rs_columns (f r) = rs_columns r) -> safe (update f).
Proof. intros Hf s r Hs Hr. cbn. by rewrite Hf. Qed.

Lemma safe_with_columns {A} what (k : ResultMeta -> M RS A) :
  (forall meta, safe (k meta)) ->
  safe (columns <- rows rs_columns ;; match columns with None => fail (EPanic what) | Some meta => k meta end).
Proof.
  intros Hk s r Hs Hr. pose proof Hr as [meta Hm]. unfold bind, rows. cbn [snd]. rewrite Hm. by apply Hk.
Qed.

Lemma safe_readColumns n j lc : safe (readColumns n j lc).
Proof.
  revert j lc. induction n as [|n IH]; intros j lc; cbn [readColumns]; [apply safe_ret|].
  apply safe_with_columns. intros meta. destruct (GetColumn meta j) as [col|]; [|by apply safe_mark].
  apply safe_bind; [apply safe_rows|]. intros cur.
  apply safe_bind; [apply safe_read; [apply steady_reader, reader_readValueInternal|apply plain_errs_readValueInternal]|].
  intros x. apply safe_bind; [apply IH|]. intros y. apply safe_ret.
Qed.

Lemma safe_readH2Error : safe (unless_aligned (on_wire readH2Error)).
Proof.
  intros s r [Hd (t & Ht & _)] Hr. rewrite unless_aligned_run. unfold on_wire, on_sess, on_tr. rewrite Ht.
  unfold readH2Error, bind. destruct (readH2Error_fields t) as [[h|e] t'] eqn:E; [done|].
  cbn. by apply plain_errs_readH2Error_fields, plain_sane in E.
Qed.

Lemma safe_fetchRows_loop n lc : safe (fetchRows_loop n lc).
Proof.
  revert lc. induction n as [|n IH]; intros lc; cbn [fetchRows_loop]; [apply safe_ret|].
  apply safe_bind; [apply safe_read; [solve_steady|solve_plain_errs]|]. intros flag. cbv zeta.
  destruct (_ =? 1).
  { apply safe_bind; [apply safe_rows|]. intros cc. apply safe_bind; [apply safe_readColumns|]. intros x.
    apply safe_bind; [by apply safe_update|]. intros _. apply IH. }
  destruct (_ =? 0); [apply safe_bind; [by apply safe_update|intros _; apply safe_ret]|].
  destruct (_ =? -1); [|by apply safe_mark].
  apply safe_bind; [apply safe_readH2Error|intros _; apply safe_ret].
Qed.

Lemma resolve_all n ps : forall s r,
  alive s -> pending_inv n (rs_bufferedRows r) ps ->
  match for_each ps resolveLob (s, r) with
  | (Ok _, (s', r')) =>
      exists b', r' = set_buffered b' r /\ no_placeholder b' /\
                 take n b' = take n (rs_bufferedRows r) /\ (length <$> b') = (length <$> rs_bufferedRows r)
  | (Err e, _) => sane e = true
  end.
Proof.
  induction ps as [|p ps IH]; intros s r Hs Hinv; cbn [for_each].
  { cbn. exists (rs_bufferedRows r). split_and!; [by destruct r|by eapply pending_inv_done|done|done]. }
  pose proof (resolveLob_spec _ _ _ s r Hinv) as Hp.
  pose proof (proj1 (proj1 (disciplined_resolveLob p) (s, r)) Hs) as Hf.
  unfold bind. destruct (resolveLob p (s, r)) as [[[]|e] [s1 r1]].
  - destruct Hp as (b1 & -> & Hinv1 & Hl & Ht1 & Hm1). destruct Hf as [Hs1 _].
    specialize (IH s1 (set_buffered b1 r) Hs1 Hinv1).
    destruct (for_each ps resolveLob (s1, set_buffered b1 r)) as [[[]|e] [s2 r2]]; [|done].
    destruct IH as (b2 & -> & Hn & Ht2 & Hm2). cbn in Ht2, Hm2. exists b2.
    split_and!; [by destruct r|done|congruence|congruence].
  - destruct Hs as [_ (t & Ht & _)]. by eapply Hp.
Qed.

Lemma grown_resolved r r1 l b' :
  grown r r1 l -> take (length (rs_bufferedRows r)) b' = rs_bufferedRows r ->
  grown r (set_buffered b' r1) (drop (length (rs_bufferedRows r)) b').
Proof.
  intros Hg Ht. assert (Hb : rs_bufferedRows r ++ drop (length (rs_bufferedRows r)) b' = b')
    by (rewrite <- Ht at 1; apply take_drop).
  unfold grown. rewrite Hb. destruct Hg as [->| ->]; [by left|by right].
Qed.

Lemma fetchRows_outcome fetch s r :
  alive s -> is_Some (rs_columns r) -> no_placeholder (rs_bufferedRows r) ->
  match fetchRows fetch (s, r) with
  | (Ok _, (_, r')) =>
      exists new, grown r r' new /\ (length new <= Z.to_nat fetch)%nat /\
        Forall (fun row => length row = Z.to_nat (rs_columnCount r)) new /\ no_placeholder (rs_bufferedRows r')
  | (Err e, _) => sane e = true
  end.
Proof.
  intros Hs [meta Hm] Hn. set (n0 := length (rs_bufferedRows r)). unfold fetchRows, bind.
  pose proof (safe_fetchRows_loop (Z.to_nat fetch) (mkLobCollector [] false 0 0) s r Hs) as Hsafe.
  destruct (fetchRows_loop _ _ (s, r)) as [[lc|e] [s1 r1]] eqn:E; [|by apply Hsafe; rewrite Hm].
  destruct Hsafe as [Hs1 _]; [by rewrite Hm|].
  eapply (fetchRows_loop_spec _ n0) in E as (new & Hg & Hl & Hall & Hinv); [|exact Hm|done|].
  2:{ split; [|intros q Hq; by apply not_elem_of_nil in Hq].
      intros i j p Hc. by apply no_placeholder_cell in Hc. }
  pose proof (resolve_all n0 _ _ _ Hs1 Hinv) as Hr.
  destruct (for_each _ resolveLob (s1, r1)) as [[[]|e] [s2 r2]]; [|done].
  destruct Hr as (b' & -> & Hnp & Ht & Hlen). destruct (grown_fields _ _ _ Hg) as (Hb1 & _ & _).
  rewrite Hb1 in Ht, Hlen. unfold n0 in Ht. rewrite take_app_length in Ht.
  exists (drop n0 b'). split; [by eapply grown_resolved|].
  assert (Hd : length <$> drop n0 b' = length <$> new).
  { rewrite fmap_drop, Hlen, fmap_app. apply drop_app_length'. by rewrite length_fmap. }
  split_and!; [|apply (Forall_fmap length (fun n => n = _)); rewrite Hd; by apply Forall_fmap|exact Hnp].
  rewrite <- (length_fmap length), Hd, length_fmap. done.
Qed.

(** ** Correctness of fetching *)

(** The session-discard rule of [fetchRows]: after a failure the session is
    broken, its connection closed, unless the failure is an error of the server, and
    then the last bytes consumed are its complete error frame and the session is still
    alive. *)
Theorem fetchRows_discard_rule fetch s r e s' r' :
  alive s -> is_Some (rs_columns r) -> no_placeholder (rs_bufferedRows r) ->
  fetchRows fetch (s, r) = (Err e, (s', r')) ->
  match errors_As e with
  | Some h => alive s' /\ aligned s s' h
  | None => broken s'
  end.
Proof.
  intros Hs Hm Hn H. pose proof (fetchRows_outcome fetch s r Hs Hm Hn) as Ho. rewrite H in Ho.
  destruct (disciplined_fetchRows fetch) as [Hf Hd].
  destruct (errors_As e) as [h|] eqn:Eh; [|by apply (Hd (s, r) e (s', r') Hs H)].
  pose proof (proj1 (Hf (s, r)) Hs) as Hr. rewrite H in Hr. cbn in Hr. unfold fair_failure in Hr.
  by rewrite Eh in Hr.
Qed.

Definition sample_rows (buffered : list (list Value)) : Rows :=
  mkRows 2 1 (Some (mkResultMeta 1 [mkResultColumn (lit "V") [] [] []
    (mkTypeInfo ValueTypeVarchar (-1) (-1) ColumnNullable None) false ColumnNullable])) (-1) [] 0
    buffered 10 false false true 1 None false None.

Lemma fetchRows_discard_rule_witness :
  (exists s' r', fetchRows 2 (open_session [z2b 7], sample_rows [])
     = (Err (EErrorf "h2go: fetchRows: unexpected row flag %d" [AInt 7]), (s', r')) /\ broken s') /\
  (exists s' r', fetchRows 2 (open_session ([z2b (-1)] ++ enc_h2error sampleError ++ [z2b 9]), sample_rows [])
     = (Err (EH2 sampleError), (s', r')) /\ alive s').
Proof.
  split.
  - do 2 eexists. split; [vm_compute; reflexivity|].
    apply (fetchRows_discard_rule 2 (open_session [z2b 7]) (sample_rows []) (EErrorf "h2go: fetchRows: unexpected row flag %d" [AInt 7]) _
             (sample_rows [])); [|done|by constructor|vm_compute; reflexivity].
    split; [done|]. eexists. split; [reflexivity|]. by split_and!.
  - do 2 eexists. split; [vm_compute; reflexivity|].
    apply (fetchRows_discard_rule 2 (open_session ([z2b (-1)] ++ enc_h2error sampleError ++ [z2b 9])) (sample_rows []) (EH2 sampleError) _
             (sample_rows [])); [|done|by constructor|vm_compute; reflexivity].
    split; [done|]. eexists. split; [reflexivity|]. by split_and!.
Defined.

(** C27 (invariant). A batch that [fetchRows] accepts adds at most the requested number
    of rows after the buffered ones, each with one value per column, and no value is
    the placeholder of a LOB: every LOB that was deferred has been fetched and put in
    its cell. A batch it does not accept is an error, never a panic. *)
Theorem fetchRows_leaves_no_placeholder fetch s r :
  alive s -> is_Some (rs_columns r) -> no_placeholder (rs_bufferedRows r) ->
  match fetchRows fetch (s, r) with
  | (Ok _, (_, r')) =>
      exists new, rs_bufferedRows r' = rs_bufferedRows r ++ new /\ zlen new <= Z.max 0 fetch /\
        Forall (fun row => length row = Z.to_nat (rs_columnCount r)) new /\ no_placeholder (rs_bufferedRows r')
  | (Err e, _) => sane e = true
  end.
Proof.
  intros Hs Hm Hn. pose proof (fetchRows_outcome fetch s r Hs Hm Hn) as Ho.
  destruct (fetchRows fetch (s, r)) as [[[]|e] [s' r']]; [|done].
  destruct Ho as (new & Hg & Hl & Hall & Hnp). exists new. destruct (grown_fields _ _ _ Hg) as [Hb _].
  split_and!; try done. unfold zlen. lia.
Qed.

Lemma fetchRows_leaves_no_placeholder_witness :
  match fetchRows 1 (open_session ([z2b 1] ++ enc_pending 0 sample_pending ++ enc_lob_reply [z2b 5] ++ enc_lob_reply []),
                     sample_rows [[VInt64 7]]) with
  | (Ok _, (_, r')) => rs_bufferedRows r' = [[VInt64 7]; [VBytes (Some [z2b 5])]] /\ no_placeholder (rs_bufferedRows r')
  | (Err e, _) => False
  end.
Proof.
  pose proof (fetchRows_leaves_no_placeholder 1
    (open_session ([z2b 1] ++ enc_pending 0 sample_pending ++ enc_lob_reply [z2b 5] ++ enc_lob_reply []))
    (sample_rows [[VInt64 7]])) as H.
  destruct (fetchRows 1 _) as [x [s' r']] eqn:E. vm_compute in E. injection E as <- <- <-.
  cbn in H. destruct H as (new & _ & _ & _ & Hn); [|done|by repeat constructor|by split].
  split; [done|]. eexists. split; [reflexivity|]. by split_and!.
Defined.
