(* ===== verification/RowsWire.v ===== *)
(** * Batches of rows, and a result set as the list of its rows

    What a server that has the rows sends, batch by batch, and that [Next] returns
    exactly these rows, in order, whatever the fetch size. *)

From S2P Require Import Prelude.
From S2P Require Import GoText.
From S2P Require Import Protocol.
From S2P Require Import Transfer.
From S2P Require Import Errors.
From S2P Require Import Fuel.
From S2P Require Import TypeInfo.
From S2P Require Import Metadata.
From S2P Require Import Value.
From S2P Require Import ValueRead.
From S2P Require Import Lob.
From S2P Require Import ValueWire.
From S2P Require Import ValueWrite.
From S2P Require Import Session.
From S2P Require Import SessionFacts.
From S2P Require Import Exchange.
From S2P Require Import Rows.
From S2P Require Import RowsFacts.

(** ** Exchanges of a result set *)

Definition exchR {A} (f f' : bool) (m : M RS A) (r : Rows) (sent recv : list byte) (a : A) (r' : Rows) : Prop :=
  forall s out suf, wire f s out (recv ++ suf) ->
  exists s', m (s, r) = (Ok a, (s', r')) /\ wire f' s' (out ++ sent) suf /\ framed s s'.

Section exchR.
Context {A B : Type}.

Lemma exchR_ret f (a : A) r : exchR f f (ret a) r [] [] a r.
Proof. intros s out suf Hw. exists s. rewrite app_nil_r. eauto with h2go. Qed.

Lemma exchR_bind f1 f2 f3 (m : M RS A) (k : A -> M RS B) r r1 r2 s1 s2 c1 c2 a b :
  exchR f1 f2 m r s1 c1 a r1 -> exchR f2 f3 (k a) r1 s2 c2 b r2 ->
  exchR f1 f3 (bind m k) r (s1 ++ s2) (c1 ++ c2) b r2.
Proof.
  intros Hm Hk s out suf Hw. rewrite <- app_assoc in Hw.
  destruct (Hm _ _ _ Hw) as (s' & Em & Hw' & Hf'). destruct (Hk _ _ _ Hw') as (s'' & Ek & Hw'' & Hf'').
  exists s''. rewrite (bind_Ok _ _ _ _ _ Em), app_assoc. eauto using framed_trans.
Qed.

Lemma exchR_ext f f' (m m' : M RS A) r sent recv a r' :
  (forall w, m w = m' w) -> exchR f f' m' r sent recv a r' -> exchR f f' m r sent recv a r'.
Proof. intros He Hm s out suf Hw. rewrite He. by apply Hm. Qed.

Lemma exchR_to f f' (m : M RS A) r sent recv a r1 r2 :
  exchR f f' m r sent recv a r1 -> r1 = r2 -> exchR f f' m r sent recv a r2.
Proof. by intros ? <-. Qed.

Lemma exchR_wrapf f f' fmt args (m : M RS A) r sent recv a r' :
  exchR f f' m r sent recv a r' -> exchR f f' (wrapf fmt args m) r sent recv a r'.
Proof.
  intros Hm s out suf Hw. destruct (Hm _ _ _ Hw) as (s' & E & H). exists s'. split; [|done]. by apply wrapf_Ok.
Qed.

Lemma exchR_wrapE f f' op (m : M RS A) r sent recv a r' :
  exchR f f' m r sent recv a r' -> exchR f f' (wrapE op m) r sent recv a r'.
Proof.
  intros Hm s out suf Hw. destruct (Hm _ _ _ Hw) as (s' & E & H). exists s'. split; [|done]. by apply wrapE_Ok.
Qed.

Lemma exchR_or_broken f f' fmt args (m : M RS A) r sent recv a r' :
  exchR f f' m r sent recv a r' -> exchR f f' (or_broken fmt args m) r sent recv a r'.
Proof.
  intros Hm s out suf Hw. destruct (Hm _ _ _ Hw) as (s' & E & H). exists s'. split; [|done]. by apply or_broken_Ok.
Qed.

Lemma exchR_unless_aligned f f' (m : M RS A) r sent recv a r' :
  exchR f f' m r sent recv a r' -> exchR f f' (unless_aligned m) r sent recv a r'.
Proof.
  intros Hm s out suf Hw. destruct (Hm _ _ _ Hw) as (s' & E & H). exists s'. split; [|done].
  by rewrite unless_aligned_run, E.
Qed.

Lemma exchR_sess f f' (m : M Session A) r sent recv a :
  exch f f' m sent recv a -> exchR f f' (on_sess m) r sent recv a r.
Proof.
  intros Hm s out suf Hw. destruct (Hm _ _ _ Hw) as (s' & E & H). exists s'. split; [|done].
  unfold on_sess. by rewrite E.
Qed.

Lemma exchR_read f (m : M Tr A) r recv a : decodes m recv a -> exchR f f (on_wire m) r [] recv a r.
Proof. intros Hm. by apply exchR_sess, exch_read. Qed.

Lemma exchR_rows f (g : Rows -> A) r : exchR f f (rows g) r [] [] (g r) r.
Proof. intros s out suf Hw. exists s. rewrite app_nil_r. eauto with h2go. Qed.
End exchR.

Lemma exchR_update f g r : exchR f f (update g) r [] [] tt (g r).
Proof. intros s out suf Hw. exists s. rewrite app_nil_r. eauto with h2go. Qed.

Lemma exchR_bind_nil {A B} f1 f2 f3 (m : M RS A) (k : A -> M RS B) r r1 r2 s2 c2 a b :
  exchR f1 f2 m r [] [] a r1 -> exchR f2 f3 (k a) r1 s2 c2 b r2 -> exchR f1 f3 (bind m k) r s2 c2 b r2.
Proof. apply (exchR_bind f1 f2 f3 m k r r1 r2 [] s2 [] c2). Qed.

Lemma exchR_bind_recv {A B} f1 f2 f3 (m : M RS A) (k : A -> M RS B) r r1 r2 c1 s2 c2 a b :
  exchR f1 f2 m r [] c1 a r1 -> exchR f2 f3 (k a) r1 s2 c2 b r2 -> exchR f1 f3 (bind m k) r s2 (c1 ++ c2) b r2.
Proof. apply (exchR_bind f1 f2 f3 m k r r1 r2 [] s2). Qed.

Lemma exchR_bind_send {A B} f1 f2 f3 (m : M RS A) (k : A -> M RS B) r r1 r2 s1 s2 c2 a b :
  exchR f1 f2 m r s1 [] a r1 -> exchR f2 f3 (k a) r1 s2 c2 b r2 -> exchR f1 f3 (bind m k) r (s1 ++ s2) c2 b r2.
Proof. apply (exchR_bind f1 f2 f3 m k r r1 r2 s1 s2 [] c2). Qed.

(** ** Rows on the wire *)

(** A cell: a value sent inline, or a LOB of which a reference is sent and whose
    chunks are sent when asked for. *)
Inductive wire_cell :=
| CInline (w : wire_value)
| CDeferred (tableID : Z) (p : pendingLob) (chunks : list (list byte)).

Definition enc_cell (c : wire_cell) : list byte :=
  match c with
  | CInline w => enc_value w
  | CDeferred tableID p _ => enc_pending tableID p
  end.

(** The value the cell has in the end. *)
Definition cell_value (c : wire_cell) : Value :=
  match c with
  | CInline w => value_meaning w
  | CDeferred _ p chunks => lob_value p (concat chunks)
  end.

Definition wf_cell (c : wire_cell) : Prop :=
  match c with
  | CInline w => wf_value w = true
  | CDeferred tableID p chunks =>
      wf_pending p = true /\ in_intN 32 tableID /\ lob_total p <= MaxWireLength /\
      Forall chunk_ok chunks /\ zlen (concat chunks) < 2 ^ 63
  end.

(** The value while the batch is read, and what is left to fetch, at a position. *)
Definition placed (row col : Z) (c : wire_cell) : Value :=
  match c with
  | CInline w => value_meaning w
  | CDeferred _ p _ => VPendingLob (at_position row col p)
  end.

Definition deferred (row col : Z) (c : wire_cell) : list pendingLob :=
  match c with
  | CInline _ => []
  | CDeferred _ p _ => [at_position row col p]
  end.

Fixpoint placed_row (row col : Z) (cells : list wire_cell) : list Value :=
  match cells with
  | [] => []
  | c :: cells' => placed row col c :: placed_row row (col + 1) cells'
  end.

Fixpoint deferred_row (row col : Z) (cells : list wire_cell) : list pendingLob :=
  match cells with
  | [] => []
  | c :: cells' => deferred row col c ++ deferred_row row (col + 1) cells'
  end.

Definition enc_row (cells : list wire_cell) : list byte := [z2b 1] ++ flat_map enc_cell cells.

Lemma exchR_cell f ct c lc row col r :
  wf_cell c -> lc_reject lc = false -> lc_curRow lc = row -> lc_curCol lc = col ->
  exists lc', lc_pending lc' = lc_pending lc ++ deferred row col c /\ lc_reject lc' = false /\
  exchR f f (on_wire (readValueInternal ct (Some lc))) r [] (enc_cell c) (placed row col c, Some lc') r.
Proof.
  intros Hw Hrej <- <-. destruct c as [w|tid p chunks]; cbn in *.
  - exists lc. rewrite app_nil_r. split_and!; try done. by apply exchR_read, decodes_value.
  - destruct Hw as (H1 & H2 & _). exists (lc_append (at_position (lc_curRow lc) (lc_curCol lc) p) lc).
    split_and!; try done. apply exchR_read. by apply decodes_pending.
Qed.

Lemma exchR_readColumns f meta cells : forall j lc r,
  rs_columns r = Some meta -> 0 <= j -> j + zlen cells <= zlen (Columns meta) ->
  Forall wf_cell cells -> lc_reject lc = false ->
  let row := zlen (rs_bufferedRows r) in
  exists lc', lc_pending lc' = lc_pending lc ++ deferred_row row j cells /\ lc_reject lc' = false /\
  exchR f f (readColumns (length cells) j lc) r [] (flat_map enc_cell cells) (placed_row row j cells, lc') r.
Proof.
  induction cells as [|c cells IH]; intros j lc r Hm Hj Hl Hw Hrej row; cbn [length readColumns flat_map].
  { exists lc. rewrite app_nil_r. split_and!; try done. apply exchR_ret. }
  rewrite zlen_cons in Hl. pose proof (zlen_nonneg cells). inversion Hw as [|? ? Hc Hcs]; subst.
  destruct (GetColumn_in_range meta j) as (col & Hcol & _); [lia|].
  destruct (exchR_cell f (Some (ColType col)) c (mkLobCollector (lc_pending lc) (lc_reject lc) row j) row j r)
    as (lc1 & Hp1 & Hr1 & He1); [done|done|done|done|].
  destruct (IH (j + 1) lc1 r) as (lc2 & Hp2 & Hr2 & He2); [done|lia|lia|done|done|].
  exists lc2. rewrite Hp2, Hp1. cbn. rewrite <- app_assoc. split_and!; try done.
  eapply exchR_bind_nil; [apply exchR_rows|]. rewrite Hm, Hcol.
  eapply exchR_bind_nil; [apply exchR_rows|].
  eapply exchR_bind_recv; [apply exchR_or_broken, He1|].
  rewrite <- (app_nil_r (flat_map _ _)). eapply exchR_bind_recv; [exact He2|apply exchR_ret].
Qed.

(** ** A batch *)

Fixpoint placed_rows (row : Z) (rows : list (list wire_cell)) : list (list Value) :=
  match rows with
  | [] => []
  | cells :: rows' => placed_row row 0 cells :: placed_rows (row + 1) rows'
  end.

Fixpoint deferred_rows (row : Z) (rows : list (list wire_cell)) : list pendingLob :=
  match rows with
  | [] => []
  | cells :: rows' => deferred_row row 0 cells ++ deferred_rows (row + 1) rows'
  end.

(** A request for [n] rows gets the rows that are left, and the end marker when they
    are fewer than [n]. *)
Definition ended (n : nat) (rows : list (list wire_cell)) : bool := (length rows <? n)%nat.
Definition enc_batch (n : nat) (rows : list (list wire_cell)) : list byte :=
  flat_map enc_row rows ++ (if ended n rows then [z2b 0] else []).

Definition finished (e : bool) (r : Rows) : Rows := if e then set_noMoreRows r else r.

Definition wf_row (width : Z) (cells : list wire_cell) : Prop := zlen cells = width /\ Forall wf_cell cells.

Lemma exchR_fetchRows_loop f meta width rows : forall n lc r,
  rs_columns r = Some meta -> rs_columnCount r = width -> zlen (Columns meta) = width ->
  Forall (wf_row width) rows -> (length rows <= n)%nat -> lc_reject lc = false ->
  let b := rs_bufferedRows r in
  exists lc', lc_pending lc' = lc_pending lc ++ deferred_rows (zlen b) rows /\
  exchR f f (fetchRows_loop n lc) r [] (enc_batch n rows) lc'
    (finished (ended n rows) (set_buffered (b ++ placed_rows (zlen b) rows) r)).
Proof.
  induction rows as [|cells rows IH]; intros n lc r Hm Hc Hwd Hw Hn Hrej b.
  - exists lc. cbn [deferred_rows placed_rows]. rewrite !app_nil_r. split; [done|].
    assert (Hr : set_buffered b r = r) by (by destruct r). rewrite Hr.
    destruct n as [|n]; cbn [fetchRows_loop]; [apply exchR_ret|].
    change (enc_batch (S n) []) with ([z2b 0] ++ []).
    eapply exchR_bind_recv; [apply exchR_or_broken, exchR_read, decodes_ReadByte|].
    change (int8 (b2z (z2b 0))) with 0. cbn [Z.eqb]. eapply exchR_bind_nil; [apply exchR_update|apply exchR_ret].
  - destruct n as [|n]; [cbn in Hn; lia|]. inversion Hw as [|? ? [Hl Hcells] Hrows]; subst.
    destruct (exchR_readColumns f meta cells 0 lc r) as (lc1 & Hp1 & Hr1 & He1); [done|lia|lia|done|done|].
    set (r1 := set_buffered (b ++ [placed_row (zlen b) 0 cells]) r).
    destruct (IH n lc1 r1) as (lc2 & Hp2 & He2); [done|done|done|done|cbn in Hn; lia|done|].
    assert (Hz : zlen (rs_bufferedRows r1) = zlen b + 1) by (cbn; rewrite zlen_app, zlen_cons, zlen_nil; lia).
    exists lc2. cbn [deferred_rows placed_rows]. rewrite Hp2, Hp1, Hz, <- app_assoc. split; [done|].
    replace (enc_batch (S n) (cells :: rows)) with ([z2b 1] ++ flat_map enc_cell cells ++ enc_batch n rows)
      by (unfold enc_batch, enc_row; cbn [flat_map]; by rewrite <- !app_assoc).
    cbn [fetchRows_loop]. eapply exchR_bind_recv; [apply exchR_or_broken, exchR_read, decodes_ReadByte|].
    change (int8 (b2z (z2b 1))) with 1. cbn [Z.eqb Pos.eqb].
    eapply exchR_bind_nil; [apply exchR_rows|].
    eapply exchR_bind_recv; [rewrite <- Hl; unfold zlen at 1; rewrite Nat2Z.id; exact He1|].
    eapply exchR_bind_nil; [apply exchR_update|]. cbn [fst snd]. fold b. fold r1.
    change (ended (S n) (cells :: rows)) with (ended n rows).
    eapply exchR_to; [exact He2|]. rewrite Hz. cbn. unfold set_buffered. cbn. by rewrite <- app_assoc.
Qed.

(** ** Fetching what was deferred *)

Definition cell_requests (c : wire_cell) : list byte :=
  match c with
  | CInline _ => []
  | CDeferred _ p chunks => lob_requests p 0 chunks
  end.

Definition cell_replies (c : wire_cell) : list byte :=
  match c with
  | CInline _ => []
  | CDeferred _ _ chunks => flat_map enc_lob_reply chunks ++ enc_lob_reply []
  end.

Definition batch_requests (rows : list (list wire_cell)) : list byte := flat_map (flat_map cell_requests) rows.
Definition batch_replies (rows : list (list wire_cell)) : list byte := flat_map (flat_map cell_replies) rows.

Lemma lob_requests_position row col p off cs :
  lob_requests (at_position row col p) off cs = lob_requests p off cs.
Proof. revert off. induction cs as [|c cs IH]; intros off; cbn; [done|]. by rewrite IH. Qed.

Lemma exch_fetchLob p cs :
  lob_total p <= MaxWireLength -> Forall chunk_ok cs -> zlen (concat cs) < 2 ^ 63 ->
  exch true true (on_tr (fetchLob p)) (lob_requests p 0 cs) (flat_map enc_lob_reply cs ++ enc_lob_reply [])
    (lob_value p (concat cs)).
Proof.
  intros Ht Hc Hl s out suf (t & Ets & Hr & Hh & He & Hin & Hfl). rewrite <- app_assoc in Hin.
  destruct (fetchLob_chunks p cs suf t) as (t' & E & Hh' & Hr' & Hin' & Ho & He'); [done..|].
  exists (set_tr (Some t') s). unfold on_tr. rewrite Ets, E. split; [done|]. split; [|eauto with h2go].
  exists t'. rewrite Ho, He', He. by split_and!.
Qed.

Lemma splice_middle (X : list (list Value)) (Y : list Value) v0 Z0 (C : list (list Value)) v :
  splice (zlen X) (zlen Y) v (X ++ (Y ++ v0 :: Z0) :: C) = Some (X ++ (Y ++ v :: Z0) :: C).
Proof.
  destruct (splice_spec (X ++ (Y ++ v0 :: Z0) :: C) (length X) (length Y) v) as (row & Erow & Hs).
  { unfold cell. rewrite lookup_app_r, Nat.sub_diag by lia. cbn. rewrite lookup_app_r, Nat.sub_diag by lia. by eexists. }
  rewrite lookup_app_r, Nat.sub_diag in Erow by lia. cbn in Erow. injection Erow as <-. unfold zlen. rewrite Hs.
  f_equal. rewrite insert_app_r_alt, Nat.sub_diag by lia. cbn. do 2 f_equal.
  rewrite insert_app_r_alt, Nat.sub_diag by lia. done.
Qed.

Lemma exchR_resolveLob row col tid p chunks r b' :
  wf_cell (CDeferred tid p chunks) ->
  splice row col (lob_value p (concat chunks)) (rs_bufferedRows r) = Some b' ->
  exchR true true (resolveLob (at_position row col p)) r (lob_requests p 0 chunks)
    (flat_map enc_lob_reply chunks ++ enc_lob_reply []) tt (set_buffered b' r).
Proof.
  intros (_ & _ & H1 & H2 & H3) Hs. eapply exchR_ext; [apply resolveLob_run|].
  rewrite <- (app_nil_r (lob_requests _ _ _)), <- (app_nil_r (_ ++ enc_lob_reply [])).
  eapply exchR_bind.
  { apply exchR_or_broken, exchR_sess. rewrite <- (lob_requests_position row col). by apply exch_fetchLob. }
  eapply exchR_bind_nil; [apply exchR_rows|]. cbn [pl_row pl_col at_position].
  change (lob_value (at_position row col p) (concat chunks)) with (lob_value p (concat chunks)).
  rewrite Hs. apply exchR_update.
Qed.

Lemma for_each_app {S A} (l1 l2 : list A) (f : A -> M S unit) s :
  for_each (l1 ++ l2) f s = (for_each l1 f ;; for_each l2 f) s.
Proof.
  revert s. induction l1 as [|x l1 IH]; intros s; cbn [app for_each]; [done|].
  unfold bind. destruct (f x s) as [[[]|e] s1]; [|done]. rewrite IH. done.
Qed.

Lemma exchR_resolve_row X cells : forall Y C r,
  Forall wf_cell cells ->
  rs_bufferedRows r = X ++ (Y ++ placed_row (zlen X) (zlen Y) cells) :: C ->
  exchR true true (for_each (deferred_row (zlen X) (zlen Y) cells) resolveLob) r
    (flat_map cell_requests cells) (flat_map cell_replies cells) tt
    (set_buffered (X ++ (Y ++ map cell_value cells) :: C) r).
Proof.
  induction cells as [|c cells IH]; intros Y C r Hw Hb; cbn [deferred_row placed_row flat_map map] in *.
  { rewrite <- Hb. replace (set_buffered _ r) with r by (by destruct r). apply exchR_ret. }
  inversion Hw as [|? ? Hc Hcs]; subst.
  assert (Hcol : zlen Y + 1 = zlen (Y ++ [cell_value c])) by (rewrite zlen_app, zlen_cons, zlen_nil; lia).
  assert (Happ : forall l, Y ++ cell_value c :: l = (Y ++ [cell_value c]) ++ l) by (intros; by rewrite <- app_assoc).
  rewrite Happ, Hcol. destruct c as [w|tid p chunks]; cbn [deferred placed app cell_requests cell_replies] in *.
  - apply IH; [done|]. by rewrite Hb, <- Happ, <- Hcol.
  - cbn [for_each]. eapply exchR_bind.
    + eapply exchR_resolveLob; [exact Hc|]. rewrite Hb. apply splice_middle.
    + eapply exchR_to; [apply IH; [done|]|done]. cbn. rewrite <- app_assoc. cbn. by rewrite Hcol.
Qed.

Lemma exchR_resolve_rows rows : forall X r,
  Forall (Forall wf_cell) rows -> rs_bufferedRows r = X ++ placed_rows (zlen X) rows ->
  exchR true true (for_each (deferred_rows (zlen X) rows) resolveLob) r
    (batch_requests rows) (batch_replies rows) tt
    (set_buffered (X ++ map (map cell_value) rows) r).
Proof.
  induction rows as [|cells rows IH]; intros X r Hw Hb; cbn [deferred_rows placed_rows map] in *.
  { rewrite <- Hb. replace (set_buffered _ r) with r by (by destruct r). apply exchR_ret. }
  inversion Hw as [|? ? Hc Hcs]; subst. eapply exchR_ext; [intros w; apply for_each_app|].
  unfold batch_requests, batch_replies. cbn [flat_map].
  assert (Hz : zlen X + 1 = zlen (X ++ [map cell_value cells])) by (rewrite zlen_app, zlen_cons, zlen_nil; lia).
  eapply exchR_bind; [by apply (exchR_resolve_row X cells [] (placed_rows (zlen X + 1) rows))|].
  cbn [app]. rewrite Hz. eapply exchR_to; [apply IH; [done|]; cbn; by rewrite <- app_assoc|].
  unfold set_buffered. cbn. by rewrite <- app_assoc.
Qed.

(** ** Requests for rows *)

(** Rows with metadata for [width] columns. *)
Definition has_columns (width : Z) (r : Rows) : Prop :=
  rs_columnCount r = width /\ exists meta, rs_columns r = Some meta /\ zlen (Columns meta) = width.

Lemma exchR_fetchRows width rows fetch r :
  has_columns width r -> Forall (wf_row width) rows -> zlen rows <= fetch ->
  exchR true true (fetchRows fetch) r (batch_requests rows)
    (enc_batch (Z.to_nat fetch) rows ++ batch_replies rows) tt
    (finished (ended (Z.to_nat fetch) rows) (set_buffered (rs_bufferedRows r ++ map (map cell_value) rows) r)).
Proof.
  intros [Hc (meta & Hm & Hw)] Hrows Hn.
  destruct (exchR_fetchRows_loop true meta width rows (Z.to_nat fetch) (mkLobCollector [] false 0 0) r)
    as (lc & Hp & He); [done..|unfold zlen in Hn; lia|done|].
  unfold fetchRows. eapply exchR_bind_recv; [exact He|]. rewrite Hp. cbn [lc_pending app].
  eapply exchR_to.
  - apply exchR_resolve_rows.
    + eapply Forall_impl; [exact Hrows|]. by intros cells [].
    + by destruct (ended _ _).
  - by destruct (ended _ _).
Qed.

Definition fetch_request (id n : Z) : list byte :=
  enc_int32 ResultFetchRows ++ enc_int32 id ++ enc_int32 n.

Definition batch_reply (n : Z) (rows : list (list wire_cell)) : list byte :=
  ok_status ++ enc_batch (Z.to_nat n) rows ++ batch_replies rows.

Lemma exchR_int32 f fmt args x r :
  exchR f false (wrapf fmt args (on_wire (WriteInt32 x))) r (enc_int32 x) [] tt r.
Proof. apply exchR_wrapf, exchR_sess, exch_write, writes_WriteInt32. Qed.

Lemma exchR_fetchMoreRows width rows fetch r :
  has_columns width r -> Forall (wf_row width) rows -> zlen rows <= fetch ->
  exchR true true (fetchMoreRows fetch) r (fetch_request (rs_resultID r) fetch ++ batch_requests rows)
    (batch_reply fetch rows) tt
    (finished (ended (Z.to_nat fetch) rows) (set_buffered (rs_bufferedRows r ++ map (map cell_value) rows) r)).
Proof.
  intros Hc Hrows Hn s out suf Hw. pose proof Hw as (t & Ht & _). unfold fetchMoreRows. cbn [fst]. rewrite Ht.
  clear t Ht. revert s out suf Hw. apply exchR_unless_aligned.
  unfold requestRows, fetch_request, batch_reply. rewrite <- !app_assoc.
  eapply exchR_bind_send; [apply exchR_int32|]. eapply exchR_bind_nil; [apply exchR_rows|].
  eapply exchR_bind_send; [apply exchR_int32|].
  rewrite <- (enc_int32_int32 fetch). eapply exchR_bind_send; [apply exchR_int32|].
  eapply exchR_bind_nil; [apply exchR_wrapf, exchR_sess, exch_flush|].
  eapply exchR_bind_recv; [apply exchR_wrapE, exchR_sess, exch_read, decodes_readStatus|].
  by apply (exchR_fetchRows width).
Qed.

(** ** The server's side of an iteration

    [serves id known fs rows inp req]: to a client that asks for [fs] rows at a time
    (for what is left, when the number of rows is [known]) the server answers with
    [inp] in all, the client's requests being [req]. When the number is not known, the
    batch that has fewer rows than asked for ends with the end marker. *)
Inductive serves (id : Z) (known : bool) (fs : Z)
  : list (list wire_cell) -> list byte -> list byte -> Prop :=
| serves_done : known = true -> serves id known fs [] [] []
| serves_last rows :
    known = false -> zlen rows < fs ->
    serves id known fs rows (batch_reply fs rows) (fetch_request id fs ++ batch_requests rows)
| serves_more n rows rest inp req :
    1 <= n -> zlen rows = n -> n = (if known then Z.min fs (zlen (rows ++ rest)) else fs) ->
    serves id known fs rest inp req ->
    serves id known fs (rows ++ rest) (batch_reply n rows ++ inp)
      ((fetch_request id n ++ batch_requests rows) ++ req).

(** [represents width total suf w l]: the rows that [w] has still to return are [l]. In
    the end everything written will be [total], and [suf] will be left unread. *)
Definition represents (width : Z) (total suf : list byte) (w : RS) (l : list (list Value)) : Prop :=
  let '(s, r) := w in
  exists rest out inp req,
    l = rs_bufferedRows r ++ map (map cell_value) rest /\
    rs_closed r = false /\ rs_err r = None /\ has_columns width r /\ 1 <= rs_fetchSize r /\
    Forall (fun row => zlen row = width) (rs_bufferedRows r) /\ Forall (wf_row width) rest /\
    (rs_rowCount r < 0 \/ (0 <= rs_rowOffset r /\ rs_rowCount r = rs_rowOffset r + zlen l /\ rs_rowCount r < 2 ^ 63)) /\
    (if rs_noMoreRows r then rest = [] /\ inp = [] /\ req = []
     else serves (rs_resultID r) (0 <=? rs_rowCount r) (rs_fetchSize r) rest inp req) /\
    wire true s out (inp ++ suf) /\ total = out ++ req.

(** ** Iterating *)

Lemma go_copy_full {A} (dest src : list A) : length dest = length src -> go_copy dest src = src.
Proof.
  intros H. unfold go_copy. rewrite H, firstn_all, drop_ge, app_nil_r by lia. done.
Qed.

(** The rows after one was returned. *)
Definition popped (row : list Value) (rest : list (list Value)) (r : Rows) : Rows :=
  set_current row (int64 (rs_rowOffset r + 1)) (set_buffered rest r).

Lemma Next_run dest s r :
  rs_closed r = false -> rs_err r = None -> zlen dest = rs_columnCount r ->
  Next dest (s, r) =
  ((match rs_bufferedRows r with [] => refill | _ => ret tt end) ;;
   r' <- rows (fun r => r) ;;
   match rs_bufferedRows r' with
   | [] => fail (EPanic "index out of range")
   | row :: rest => update (popped row rest) ;; ret (go_copy dest row)
   end) (s, r).
Proof.
  intros Hc He Hd. unfold Next, bind, rows. cbn [snd]. rewrite Hc, He.
  replace (zlen dest =? rs_columnCount r) with true by lia. done.
Qed.

Lemma represents_pop width total suf s r row b l :
  rs_bufferedRows r = row :: b -> represents width total suf (s, r) l ->
  exists l', l = row :: l' /\ zlen row = width /\ represents width total suf (s, popped row b r) l'.
Proof.
  intros Hb (rest & out & inp & req & Hl & Hc & He & Hcol & Hf & Hw & Hr & Hn & Hsv & Hwire & Ht).
  rewrite Hb in Hl, Hw. inversion Hw as [|? ? Hrow Hb']; subst.
  exists (b ++ map (map cell_value) rest). split; [done|]. split; [done|].
  exists rest, out, inp, req. split_and!; try done.
  destruct Hn as [Hn|(H1 & H2 & H3)]; [by left|right].
  cbn [rs_rowCount rs_rowOffset popped set_current set_buffered]. rewrite zlen_app, zlen_cons in H2.
  pose proof (zlen_nonneg b). pose proof (zlen_nonneg (map (map cell_value) rest)).
  rewrite intN_small; [rewrite zlen_app; lia|lia|]. unfold in_intN. lia.
Qed.

Lemma Next_pop dest width total suf s r s1 r1 row b l :
  rs_closed r = false -> rs_err r = None -> zlen dest = rs_columnCount r -> rs_columnCount r = width ->
  (match rs_bufferedRows r with [] => refill | _ => ret tt end) (s, r) = (Ok tt, (s1, r1)) ->
  rs_bufferedRows r1 = row :: b -> represents width total suf (s1, r1) l ->
  exists l' w', l = row :: l' /\ Next dest (s, r) = (Ok row, w') /\ represents width total suf w' l'.
Proof.
  intros Hc He Hd Hw Hfill Hb Hrep. destruct (represents_pop _ _ _ _ _ _ _ _ Hb Hrep) as (l' & -> & Hrow & Hrep').
  exists l', (s1, popped row b r1). split; [done|]. split; [|done].
  rewrite Next_run by done. rewrite (bind_Ok _ _ _ _ _ Hfill). unfold bind, rows, update, ret. cbn [snd].
  rewrite Hb, go_copy_full; [done|]. unfold zlen in *. lia.
Qed.

Definition eof {A} : res A := Err (ESent io_EOF).

Lemma refill_eof s r :
  (0 <= rs_rowCount r <= rs_rowOffset r \/ rs_noMoreRows r = true) -> refill (s, r) = (eof, (s, r)).
Proof.
  intros H. unfold refill, bind, rows, EOF. cbn [snd].
  destruct ((0 <=? rs_rowCount r) && (rs_rowCount r <=? rs_rowOffset r)) eqn:E; [done|].
  destruct H as [H|H]; [lia|]. by rewrite H.
Qed.

(** How many rows [refill] asks for. *)
Definition fetch_count (r : Rows) : Z :=
  if 0 <=? rs_rowCount r then Z.min (rs_fetchSize r) (rs_rowCount r - rs_rowOffset r) else rs_fetchSize r.

Lemma refill_fetch s r s1 r1 :
  (0 <= rs_rowCount r -> rs_rowOffset r < rs_rowCount r) -> rs_noMoreRows r = false ->
  fetchMoreRows (fetch_count r) (s, r) = (Ok tt, (s1, r1)) ->
  refill (s, r) = (match rs_bufferedRows r1 with [] => eof | _ => Ok tt end, (s1, r1)).
Proof.
  intros Hoff Hno Hf. unfold refill, bind, rows, EOF, try. cbn [snd]. rewrite Hno.
  destruct ((0 <=? rs_rowCount r) && (rs_rowCount r <=? rs_rowOffset r)) eqn:E1; [lia|].
  destruct ((0 <=? rs_rowCount r) && (rs_rowCount r - rs_rowOffset r <=? 0)) eqn:E2; [lia|].
  assert (Hn : (if (0 <=? rs_rowCount r) && (rs_rowCount r - rs_rowOffset r <? rs_fetchSize r)
                then rs_rowCount r - rs_rowOffset r else rs_fetchSize r) = fetch_count r).
  { unfold fetch_count. destruct (0 <=? rs_rowCount r); [|done]. cbn [andb].
    destruct (_ <? _) eqn:E3; lia. }
  rewrite Hn, Hf. cbn [snd]. by destruct (rs_bufferedRows r1).
Qed.

Lemma meanings_width width rows :
  Forall (wf_row width) rows -> Forall (fun row => zlen row = width) (map (map cell_value) rows).
Proof.
  intros Hr. rewrite Forall_map. eapply Forall_impl; [exact Hr|]. intros cells [Hz _].
  unfold zlen in *. by rewrite length_map.
Qed.

(** The batch that comes next fills an empty buffer, and the result set still stands
    for the same rows. *)
Lemma represents_fetch width total suf s r l :
  represents width total suf (s, r) l -> rs_bufferedRows r = [] -> rs_noMoreRows r = false ->
  (0 <= rs_rowCount r -> rs_rowOffset r < rs_rowCount r) ->
  exists s1 r1, refill (s, r) = (match rs_bufferedRows r1 with [] => eof | _ => Ok tt end, (s1, r1)) /\
    represents width total suf (s1, r1) l /\ (rs_bufferedRows r1 = [] -> l = [] /\ rs_noMoreRows r1 = true).
Proof.
  intros (rest & out & inp & req & Hl & Hc & He & Hcol & Hf & Hw & Hr & Hn & Hsv & Hwire & Ht) Hb Hno Hoff.
  rewrite Hb in Hl. cbn [app] in Hl. rewrite Hno in Hsv.
  inversion Hsv as [Hk|rows Hk Hlen|n rows rest' inp' req' Hn1 Hlen Hcnt Hsv']; subst.
  - destruct Hn as [Hn|(H1 & H2 & _)]; [lia|]. cbn [map] in H2. rewrite zlen_nil in H2. lia.
  - assert (Hcnt : fetch_count r = rs_fetchSize r) by (unfold fetch_count; by rewrite Hk).
    destruct (exchR_fetchMoreRows width rest (rs_fetchSize r) r Hcol Hr ltac:(lia) _ _ _ Hwire)
      as (s1 & E & Hwire1 & _).
    assert (Hend : ended (Z.to_nat (rs_fetchSize r)) rest = true) by (apply Nat.ltb_lt; unfold zlen in Hlen; lia).
    rewrite Hend, Hb in E. cbn [app finished] in E. rewrite <- Hcnt in E at 1.
    eexists s1, _. split; [by apply refill_fetch|].
    split; [|cbn; intros Hnil; by rewrite Hnil].
    exists [], (out ++ fetch_request (rs_resultID r) (rs_fetchSize r) ++ batch_requests rest), [], [].
    cbn -[map has_columns Z.pow]. rewrite !app_nil_r. split_and!; try done.
    by eapply meanings_width.
  - assert (Hcnt' : fetch_count r = zlen rows).
    { rewrite Hcnt. unfold fetch_count. destruct (0 <=? rs_rowCount r) eqn:E; [|done]. destruct Hn as [Hn|(H1 & H2 & _)]; [lia|].
      unfold zlen in *. rewrite length_map in H2. lia. }
    apply Forall_app in Hr as [Hr Hr']. rewrite <- app_assoc in Hwire.
    destruct (exchR_fetchMoreRows width rows (zlen rows) r Hcol Hr ltac:(lia) _ _ _ Hwire)
      as (s1 & E & Hwire1 & _).
    assert (Hend : ended (Z.to_nat (zlen rows)) rows = false).
    { unfold ended, zlen. rewrite Nat2Z.id. apply Nat.ltb_irrefl. }
    rewrite Hend, Hb in E. cbn [app finished] in E. rewrite <- Hcnt' in E at 1.
    eexists s1, _. split; [by apply refill_fetch|]. split.
    + exists rest', (out ++ fetch_request (rs_resultID r) (zlen rows) ++ batch_requests rows), inp', req'.
      cbn -[map has_columns Z.pow]. rewrite Hno. rewrite map_app, <- !app_assoc. split_and!; try done.
      * by eapply meanings_width.
      * by rewrite map_app in Hn.
    + cbn. intros Hnil. apply map_eq_nil in Hnil. subst rows.
      rewrite zlen_nil in Hn1. lia.
Qed.

(** At the end everything was asked for, and everything read. *)
Lemma represents_done width total suf s r :
  represents width total suf (s, r) [] -> rs_noMoreRows r = true \/ 0 <= rs_rowCount r -> wire true s total suf.
Proof.
  intros (rest & out & inp & req & Hl & _ & _ & _ & _ & _ & _ & _ & Hsv & Hwire & ->) Hend.
  assert (rest = []) as -> by (symmetry in Hl; apply app_eq_nil in Hl as [_ Hl]; by apply map_eq_nil in Hl).
  assert (inp = [] /\ req = []) as [-> ->]; [|by rewrite app_nil_r].
  destruct (rs_noMoreRows r); [by destruct Hsv as (_ & ? & ?)|]. destruct Hend as [|Hk]; [done|].
  inversion Hsv as [|? Hk'|n rows rest' ? ? Hn Hz _ _ Hr]; [done|lia|].
  apply app_eq_nil in Hr as [-> _]. rewrite zlen_nil in Hz. lia.
Qed.

Lemma Next_represents width total suf w l dest :
  represents width total suf w l -> zlen dest = width ->
  match l with
  | [] => exists w', Next dest w = (eof, w') /\ represents width total suf w' [] /\ wire true w'.1 total suf
  | row :: l' => exists w', Next dest w = (Ok row, w') /\ represents width total suf w' l'
  end.
Proof.
  destruct w as [s r]. intros Hrep Hd.
  pose proof Hrep as (rest & out & inp & req & Hl & Hc & He & [Hcc _] & Hf & Hw & _ & Hn & Hsv & _).
  assert (Hpop : forall s1 r1 row b,
    (match rs_bufferedRows r with [] => refill | _ => ret tt end) (s, r) = (Ok tt, (s1, r1)) ->
    rs_bufferedRows r1 = row :: b -> represents width total suf (s1, r1) l ->
    match l with
    | [] => exists w', Next dest (s, r) = (eof, w') /\ represents width total suf w' [] /\ wire true w'.1 total suf
    | row :: l' => exists w', Next dest (s, r) = (Ok row, w') /\ represents width total suf w' l'
    end).
  { intros s1 r1 row b H1 H2 H3.
    destruct (Next_pop dest width total suf s r s1 r1 row b l) as (l' & w' & -> & H4 & H5); try done; [congruence|].
    by exists w'. }
  destruct (rs_bufferedRows r) as [|row b] eqn:Eb; [|by eapply Hpop].
  assert (Heof : forall w1, refill (s, r) = (eof, w1) -> Next dest (s, r) = (eof, w1)).
  { intros w1 H. rewrite Next_run by (done || congruence). rewrite Eb. by rewrite (bind_Err _ _ _ _ _ H). }
  destruct (decide (0 <= rs_rowCount r <= rs_rowOffset r \/ rs_noMoreRows r = true)) as [Hend|Hgo].
  - assert (l = []) as ->.
    { destruct Hend as [Hend|Hno].
      - destruct Hn as [Hn|(H1 & H2 & _)]; [lia|]. pose proof (zlen_nonneg l). apply nil_length_inv. unfold zlen in *. lia.
      - rewrite Hno in Hsv. destruct Hsv as [-> _]. by rewrite Hl. }
    exists (s, r). split; [by apply Heof, refill_eof|]. split; [done|]. eapply represents_done; [done|].
    destruct Hend as [[? _]|?]; auto.
  - destruct (represents_fetch width total suf s r l Hrep Eb) as (s1 & r1 & Hfill & Hrep1 & Hnil).
    { by destruct (rs_noMoreRows r); [exfalso; apply Hgo; right|]. }
    { intros. destruct (Z.lt_ge_cases (rs_rowOffset r) (rs_rowCount r)); [done|]. exfalso. apply Hgo. left. lia. }
    destruct (rs_bufferedRows r1) as [|row b] eqn:Eb1; [|by eapply Hpop].
    destruct (Hnil eq_refl) as [-> Hno]. exists (s1, r1). split; [by apply Heof|]. split; [done|].
    eapply represents_done; eauto.
Qed.

(** ** Correctness *)

(** A batch of rows decodes to the values the server has: the inline
    values in their cells and every deferred LOB fetched after the batch and put where
    its reference stood, its requests sent in row order. The rows are added to the
    buffered ones in order, the batch and the answers are consumed exactly, and the end
    of the result is recorded when the batch has fewer rows than asked for. *)
Theorem fetchRows_decodes_batch width rows fetch s r out suf :
  has_columns width r -> Forall (wf_row width) rows -> zlen rows <= fetch ->
  wire true s out (enc_batch (Z.to_nat fetch) rows ++ batch_replies rows ++ suf) ->
  exists s',
    fetchRows fetch (s, r) = (Ok tt, (s', finished (ended (Z.to_nat fetch) rows)
      (set_buffered (rs_bufferedRows r ++ map (map cell_value) rows) r))) /\
    wire true s' (out ++ batch_requests rows) suf.
Proof.
  intros Hc Hr Hn Hw. rewrite app_assoc in Hw.
  destruct (exchR_fetchRows width rows fetch r Hc Hr Hn s out suf Hw) as (s' & E & Hw' & _). by exists s'.
Qed.

(** Two rows: a LOB of two chunks, and a text. *)
Definition sample_batch : list (list wire_cell) :=
  [[CDeferred 0 (mkPendingLob ValueTypeClob 42 (Some [z2b 9]) 5 5 0 0) [lit "he"; lit "llo"]];
   [CInline (WireText ValueTypeVarchar (Some (lit "x")))]].

Lemma wf_sample_batch : Forall (wf_row 1) sample_batch.
Proof.
  repeat constructor; unfold in_intN, chunk_ok, lobReadChunkSize; try lia; vm_compute; congruence.
Qed.

Lemma has_columns_sample b : has_columns 1 (sample_rows b).
Proof. split; [done|]. by eexists. Qed.

Lemma fetchRows_decodes_batch_witness :
  exists s',
    fetchRows 5 (open_session (enc_batch 5 sample_batch ++ batch_replies sample_batch ++ lit "z"), sample_rows [])
    = (Ok tt, (s', set_noMoreRows (sample_rows [[VString (lit "hello")]; [VString (lit "x")]]))) /\
    wire true s' (batch_requests sample_batch) (lit "z").
Proof.
  destruct (fetchRows_decodes_batch 1 sample_batch 5
              (open_session (enc_batch 5 sample_batch ++ batch_replies sample_batch ++ lit "z"))
              (sample_rows []) [] (lit "z")) as (s' & H1 & H2).
  - apply has_columns_sample.
  - apply wf_sample_batch.
  - vm_compute. congruence.
  - apply wire_open_session.
  - exists s'. split; [exact H1|exact H2].
Defined.

(** C1 (refinement). A result set implements the list of its rows. As long as rows are
    left, [Next] returns the first of them and stands for the others; then it reports
    the end, again and again. This holds whatever the fetch size, whether the server
    announced the number of rows or not, and with LOBs that are fetched on demand. When
    the end is reported, the requests sent in all are exactly the fetches the server
    serves, and nothing of its answers is left unread. *)
Theorem Next_refines_list width total suf w l dest :
  represents width total suf w l -> zlen dest = width ->
  match l with
  | [] => exists w', Next dest w = (eof, w') /\ represents width total suf w' [] /\ wire true w'.1 total suf
  | row :: l' => exists w', Next dest w = (Ok row, w') /\ represents width total suf w' l'
  end.
Proof. apply Next_represents. Qed.

Lemma Next_refines_list_witness :
  exists w', Next [VNil] (open_session (batch_reply 10 sample_batch ++ []), sample_rows [])
             = (Ok [VString (lit "hello")], w') /\
    represents 1 (fetch_request 2 10 ++ batch_requests sample_batch) [] w' [[VString (lit "x")]].
Proof.
  apply (Next_refines_list 1 (fetch_request 2 10 ++ batch_requests sample_batch) []
           (open_session (batch_reply 10 sample_batch ++ []), sample_rows [])
           [[VString (lit "hello")]; [VString (lit "x")]] [VNil]); [|reflexivity].
  exists sample_batch, [], (batch_reply 10 sample_batch), (fetch_request 2 10 ++ batch_requests sample_batch).
  split_and!; [reflexivity|reflexivity|reflexivity|apply has_columns_sample|cbn; lia|by constructor
              |apply wf_sample_batch|by left| |apply wire_open_session|reflexivity].
  apply serves_last; [reflexivity|vm_compute; reflexivity].
Defined.
