(* ===== verification/GeneratedKeys.v ===== *)
(** * Generated keys and update results (generated_keys.go, result.go) *)

From S2P Require Import Prelude.
From S2P Require Import GoText.
From S2P Require Import Protocol.
From S2P Require Import Transfer.
From S2P Require Import Errors.
From S2P Require Import Fuel.
From S2P Require Import TypeInfo.
From S2P Require Import Metadata.
From S2P Require Import GoFloat.
From S2P Require Import GoTime.
From S2P Require Import Value.
From S2P Require Import ValueRead.
From S2P Require Import Session.
From S2P Require Import Rows.

Record GeneratedKeysResult := mkGeneratedKeysResult {
  gk_Columns : list gostring;
  gk_Rows : list (list Value)
}.

(** ** One numeric key *)

(** [fmt.Errorf("h2go: LastInsertId: "+format+": %w", append(args, ...)...)] *)
Definition lastInsertIDUnavailableError (format : string) (args : list farg) : error :=
  if bool_decide (format = EmptyString) then
    EWrapf "h2go: LastInsertId: %w" [] [ESent ErrLastInsertIDUnavailable]
  else
    EWrapf ("h2go: LastInsertId: " +:+ format +:+ ": %w") args [ESent ErrLastInsertIDUnavailable].

Definition isLastInsertIDUnavailable (e : error) : bool := errors_Is e ErrLastInsertIDUnavailable.

(** The integer a float64 is: [None] for NaN, an infinity or a fraction
    ([math.Trunc(x) != x]). *)
Definition float_integer (bits : Z) : option Z :=
  let '(s, e, m) := f64_parts bits in
  if e =? 2047 then None
  else
    let M := if e =? 0 then m else 2 ^ 52 + m in
    let E := Z.max e 1 - 1075 in
    let sign := if s =? 0 then 1 else -1 in
    if 0 <=? E then Some (sign * (M * 2 ^ E))
    else if M mod 2 ^ (- E) =? 0 then Some (sign * (M / 2 ^ (- E)))
    else None.

(** [int64(x)] of a float64 with an integer value. Go leaves the result open when the
    value does not fit; on amd64 it is the smallest integer. *)
Definition int64_of_float (z : Z) : Z :=
  if (- 2 ^ 63 <=? z) && (z <? 2 ^ 63) then z else - 2 ^ 63.

Definition goTypeName (v : Value) : gostring :=
  match v with
  | VNil => lit "<nil>"
  | VBool _ => lit "bool"
  | VInt64 _ => lit "int64"
  | VFloat64 _ => lit "float64"
  | VString _ => lit "string"
  | VBytes _ => lit "[]uint8"
  | VTime _ => lit "time.Time"
  | VPendingLob _ => lit "*h2go.pendingLob"
  | VOther t => t
  end.

(** [strconv.ParseInt(strings.TrimSpace(x), 10, 64)] *)
Definition parseKeyText (x : gostring) : res Z :=
  match ParseInt (TrimSpace x) with
  | Some id => Ok id
  | None => Err (lastInsertIDUnavailableError "generated key %q is not numeric" [AStr x])
  end.

(** The bounds [math.MinInt64] and [math.MaxInt64] are compared as float64, where the
    second is 2^63. *)
Definition generatedKeyValueToInt64 (v : Value) : res Z :=
  match v with
  | VInt64 x => Ok x
  | VFloat64 x =>
      match float_integer x with
      | None => Err (lastInsertIDUnavailableError "generated key %v is not an integer" [AStr (FormatFloat x)])
      | Some z =>
          if (z <? - 2 ^ 63) || (2 ^ 63 <? z) then
            Err (lastInsertIDUnavailableError "generated key %v overflows int64" [AStr (FormatFloat x)])
          else Ok (int64_of_float z)
      end
  | VString x => parseKeyText x
  | VBytes x => parseKeyText (default [] x)
  | VNil => Err (lastInsertIDUnavailableError "H2 returned a NULL generated key" [])
  | _ => Err (lastInsertIDUnavailableError "generated key type %T is not numeric" [AStr (goTypeName v)])
  end.

Definition SingleInt64 (gkr : option GeneratedKeysResult) : res Z :=
  match gkr with
  | None => Err (lastInsertIDUnavailableError "no generated keys result" [])
  | Some g =>
      if negb (zlen (gk_Rows g) =? 1) || negb (zlen (gk_Columns g) =? 1) then
        Err (lastInsertIDUnavailableError "H2 returned %d generated key column(s) across %d row(s)"
               [AInt (zlen (gk_Columns g)); AInt (zlen (gk_Rows g))])
      else
        match gk_Rows g with
        | [v] :: _ => generatedKeyValueToInt64 v
        | row :: _ =>
            Err (lastInsertIDUnavailableError "H2 returned %d generated key value(s)" [AInt (zlen row)])
        | [] => Err (EPanic "index out of range")
        end
  end.

(** ** Reading the keys of an update *)

(** The columns [j], [j+1], ... of a row of keys, [n] of them. *)
Fixpoint readKeyColumns (meta : ResultMeta) (n : nat) (j : Z) (lc : lobCollector)
  : M Session (list Value * lobCollector) :=
  match n with
  | O => ret ([], lc)
  | S n' =>
      match GetColumn meta j with
      | None => fail (EErrorf "h2go: readGeneratedKeyRow: missing metadata for column %d" [AInt j])
      | Some col =>
          x <- wrapf "h2go: readGeneratedKeyRow: failed to read column %d: %w" [AInt j]
                 (on_tr (readValueInternal (Some (ColType col))
                           (Some (mkLobCollector (lc_pending lc) (lc_reject lc) (lc_curRow lc) j)))) ;;
          rest <- readKeyColumns meta n' (j + 1) (default lc x.2) ;;
          ret (x.1 :: rest.1, rest.2)
      end
  end.

Definition readGeneratedKeyRow (meta : ResultMeta) (lc : lobCollector) : M Session (list Value * lobCollector) :=
  rowFlag <- wrapf "h2go: readGeneratedKeyRow: failed to read row flag: %w" [] (on_tr ReadByte) ;;
  let flag := int8 (b2z rowFlag) in
  if flag =? 1 then readKeyColumns meta (Z.to_nat (ColumnCount meta)) 0 lc
  else if flag =? 0 then fail EIoEOF
  else if flag =? -1 then wrapE "readGeneratedKeyRow" (on_tr readH2Error) ;; ret ([], lc)
  else fail (EErrorf "h2go: readGeneratedKeyRow: unexpected row flag %d" [AInt (b2z rowFlag)]).

(** The two loops over the rows: [bounded] by the announced count, or until the end
    marker, which is reached within as many rounds as there are unread bytes. *)
Fixpoint readKeyRows (n : nat) (bounded : bool) (meta : ResultMeta) (rows : list (list Value))
    (lc : lobCollector) : M Session (list (list Value) * lobCollector) :=
  match n with
  | O => if bounded then ret (rows, lc) else fail EFuel
  | S n' =>
      x <- try (readGeneratedKeyRow meta
                  (mkLobCollector (lc_pending lc) (lc_reject lc) (zlen rows) (lc_curCol lc))) ;;
      match x with
      | Ok (row, lc') => readKeyRows n' bounded meta (rows ++ [row]) lc'
      | Err EIoEOF => ret (rows, lc)
      | Err e => markUnlessAlignedH2Error e ;; fail e
      end
  end.

(** Fetch the deferred LOBs and put them in place. *)
Fixpoint resolveKeyLobs (pending : list pendingLob) (rows : list (list Value)) : M Session (list (list Value)) :=
  match pending with
  | [] => ret rows
  | p :: pending' =>
      x <- try (on_tr (fetchLob p)) ;;
      match x with
      | Err e =>
          markStreamBroken ;;
          fail (EWrapf "h2go: readGeneratedKeys: failed to resolve deferred LOB (row %d column %d): %w"
                  [AInt (pl_row p); AInt (pl_col p)] [e])
      | Ok v =>
          match splice (pl_row p) (pl_col p) v rows with
          | Some rows' => resolveKeyLobs pending' rows'
          | None => fail (EPanic "index out of range")
          end
      end
  end.

(** [if err != nil { s.markStreamBroken(); return nil, 0, fmt.Errorf(...) }] *)
Definition s_or_broken {A} (fmt : string) (m : M Tr A) : M Session A :=
  x <- try (on_tr m) ;;
  match x with
  | Ok a => ret a
  | Err e => markStreamBroken ;; fail (EWrapf fmt [] [e])
  end.

(** The rounds allowed to the loops. *)
Definition key_rounds (rowCount : Z) (s : Session) : nat :=
  if 0 <? rowCount then Z.to_nat rowCount
  else match s_tr s with
       | Some t => S (length (input t))
       | None => 1
       end.

(** The rows, and the LOBs among them still to fetch. *)
Definition readAllKeyRows (rowCount : Z) (meta : ResultMeta) : M Session (list (list Value) * lobCollector) :=
  let lc := mkLobCollector [] false 0 0 in
  if rowCount =? 0 then ret ([], lc)
  else fun s => readKeyRows (key_rounds rowCount s) (0 <? rowCount) meta [] lc s.

(** The keys frame, of a session that speaks [version], up to the point where the
    single key is extracted. *)
Definition readKeysFrame_version (version : Z) : M Session GeneratedKeysResult :=
  columnCount <- s_or_broken "h2go: readGeneratedKeys: failed to read column count: %w" ReadInt32 ;;
  rowCount <- s_or_broken "h2go: readGeneratedKeys: failed to read row count: %w" ReadRowCount ;;
  guard_err (maxWireCollectionElements <? rowCount)
    (EErrorf "h2go: readGeneratedKeys: row count %d exceeds cap %d"
       [AInt rowCount; AInt maxWireCollectionElements]) ;;
  meta <- s_or_broken "h2go: readGeneratedKeys: failed to read metadata: %w" (ReadResultMeta columnCount version) ;;
  x <- readAllKeyRows rowCount meta ;;
  rows <- resolveKeyLobs (lc_pending x.2) x.1 ;;
  ret (mkGeneratedKeysResult (ColumnNames meta) rows).

Definition readKeysFrame : M Session GeneratedKeysResult :=
  session_open (EErrorf "h2go: readGeneratedKeys: session closed" []) ;;
  version <- gets s_version ;;
  readKeysFrame_version version.

(** The three results: keys, last insert id, error. *)
Definition readGeneratedKeys : M Session (option GeneratedKeysResult * Z * option error) :=
  x <- try readKeysFrame ;;
  ret (match x with
       | Err e => (None, 0, Some e)
       | Ok result =>
           match SingleInt64 (Some result) with
           | Ok id => (Some result, id, None)
           | Err e => (Some result, 0, Some e)
           end
       end).

(** ** Results of updates *)

Record result := mkResult {
  r_affected : Z;
  r_lastInsertID : Z;
  r_lastInsertIDSet : bool;
  r_lastInsertErr : option error;
  r_GeneratedKeys : option GeneratedKeysResult
}.

Definition errNoInsertID : error := EWrapf "h2go: LastInsertId: %w" [] [ESent ErrLastInsertIDUnavailable].

(** [None] is a nil receiver. *)
Definition LastInsertId (r : option result) : res Z :=
  match r with
  | None => Err errNoInsertID
  | Some r =>
      if negb (r_lastInsertIDSet r) then
        match r_lastInsertErr r with
        | Some e => Err e
        | None => Err errNoInsertID
        end
      else Ok (r_lastInsertID r)
  end.

Definition RowsAffected (r : option result) : Z := from_option r_affected 0 r.

Definition GetGeneratedKeys (r : option result) : option GeneratedKeysResult :=
  r ← r; r_GeneratedKeys r.
