(* ===== verification/Update.v ===== *)
(** * Executing updates (session.go, and the SQL-level operations of tx.go) *)

From S2P Require Import Prelude.
From S2P Require Import GoText.
From S2P Require Import Protocol.
From S2P Require Import Transfer.
From S2P Require Import Errors.
From S2P Require Import TypeInfo.
From S2P Require Import Metadata.
From S2P Require Import Value.
From S2P Require Import ValueWrite.
From S2P Require Import Session.
From S2P Require Import Rows.
From S2P Require Import GeneratedKeys.

Record ResultWithUpdateCount := mkResultWithUpdateCount {
  ru_UpdateCount : Z;
  ru_AutoCommit : bool;
  ru_LastInsertID : Z;
  ru_LastInsertIDSet : bool;
  ru_LastInsertErr : option error;
  ru_GeneratedKeys : option GeneratedKeysResult
}.

Definition opUpdate : string := "ExecuteUpdatePreparedWithParams".

(** The selectors of generated keys, after their mode. *)
Definition writeKeySelectors (mode : Z) (cols : option (list Z)) (names : option (list gostring))
  : M Session unit :=
  if mode =? GeneratedKeysColumnNumbers then
    wrapE "ExecuteUpdatePreparedWithParams: write column count"
      (on_tr (WriteInt32 (int32 (zlen (default [] cols))))) ;;
    for_each (default [] cols) (fun col =>
      wrapE "ExecuteUpdatePreparedWithParams: write column index" (on_tr (WriteInt32 (int32 col))))
  else if mode =? GeneratedKeysColumnNames then
    wrapE "ExecuteUpdatePreparedWithParams: write name count"
      (on_tr (WriteInt32 (int32 (zlen (default [] names))))) ;;
    for_each (default [] names) (fun name =>
      wrapE "ExecuteUpdatePreparedWithParams: write column name" (on_tr (WriteString name)))
  else ret tt.

(** The request. *)
Definition writeExecuteUpdate (cmd : PreparedCommand) (params : list Value)
    (mode : Z) (cols : option (list Z)) (names : option (list gostring)) : M Session unit :=
  wrapE opUpdate (on_tr (WriteInt32 CommandExecuteUpdate)) ;;
  wrapE opUpdate (on_tr (WriteInt32 (cmd_ID cmd))) ;;
  wrapE opUpdate (on_tr (WriteInt32 (int32 (zlen params)))) ;;
  writeParams "h2go: ExecuteUpdatePreparedWithParams: encode param %d: %w" cmd 0 params ;;
  wrapE opUpdate (on_tr (WriteInt32 mode)) ;;
  writeKeySelectors mode cols names ;;
  wrapE opUpdate (on_tr Flush).

(** The response: status, update count, autocommit, generated keys. *)
Definition readExecuteUpdate (mode : Z) : M Session ResultWithUpdateCount :=
  wrapE opUpdate (on_tr readStatus) ;;
  updateCount <- wrapE opUpdate (on_tr ReadRowCount) ;;
  autoCommit <- wrapE opUpdate (on_tr ReadBool) ;;
  x <- (if mode =? GeneratedKeysNone then ret (None, 0, None, false)
        else
          '(keys, id, err) <- readGeneratedKeys ;;
          match err with
          | Some e => if isLastInsertIDUnavailable e then ret (keys, id, Some e, false) else fail e
          | None => ret (keys, id, None, true)
          end) ;;
  modify (set_autoCommit autoCommit) ;;
  let '(keys, id, lastInsertErr, set) := x in
  ret (mkResultWithUpdateCount updateCount autoCommit id set lastInsertErr keys).

Definition ExecuteUpdatePreparedWithParams (ctx : Ctx) (cmd : PreparedCommand) (params : list Value)
  : M Session ResultWithUpdateCount :=
  session_open (wrapErrorText opUpdate "session closed") ;;
  guard_err (cmd_IsQuery cmd) (wrapErrorText opUpdate "command is a query, not an update") ;;
  operation ctx true (
    guard_err (negb (cmd_ParamCount cmd =? zlen params))
      (EErrorf "h2go: ExecuteUpdatePreparedWithParams: expected %d params, got %d"
         [AInt (cmd_ParamCount cmd); AInt (zlen params)]) ;;
    keys <- gets (resolveGeneratedKeys ctx) ;;
    let '(mode, cols, names) := keys in
    writeExecuteUpdate cmd params mode cols names ;;
    readExecuteUpdate mode).

Definition ExecuteUpdatePrepared (ctx : Ctx) (cmd : PreparedCommand) : M Session ResultWithUpdateCount :=
  ExecuteUpdatePreparedWithParams ctx cmd [].

(** [m], then [cmd.Close(s)] whether it failed or not; close errors are ignored. *)
Definition then_close {A} (cmd : PreparedCommand) (m : M Session A) : M Session A :=
  x <- try m ;;
  discard (PreparedCommand_Close cmd) ;;
  match x with
  | Ok a => ret a
  | Err e => fail e
  end.

Definition ExecuteUpdate (ctx : Ctx) (sql : gostring) : M Session ResultWithUpdateCount :=
  cmd <- PrepareCommand ctx sql ;;
  then_close cmd (ExecuteUpdatePrepared ctx cmd).

Definition ExecuteUpdateWithParams (ctx : Ctx) (sql : gostring) (params : list Value)
  : M Session ResultWithUpdateCount :=
  cmd <- PrepareCommandReadParams ctx sql ;;
  then_close cmd (ExecuteUpdatePreparedWithParams ctx cmd params).

(** ** SQL-level operations of transactions *)

Definition rollbackCurrentTransaction (ctx : Ctx) : M Session unit :=
  session_open (EErrorf "h2go: Session.rollbackCurrentTransaction: session closed" []) ;;
  operation ctx false (
    check_ctx ctx ;;
    wrapE "Session.rollbackCurrentTransaction" (ExecuteUpdate ctx (lit "ROLLBACK")) ;;
    ret tt).

Definition setTransactionIsolation (ctx : Ctx) (sqlLevel : gostring) : M Session unit :=
  session_open (EErrorf "h2go: Session.setTransactionIsolation: session closed" []) ;;
  operation ctx false (
    check_ctx ctx ;;
    wrapE "Session.setTransactionIsolation"
      (ExecuteUpdate ctx (lit "SET SESSION CHARACTERISTICS AS TRANSACTION ISOLATION LEVEL " ++ sqlLevel)) ;;
    ret tt).
