(* ===== verification/ExecuteFacts.v ===== *)
(** * Every operation of a session is fair

    Queries, updates and the operations built on them, and with them the states a
    session can reach. *)

From S2P Require Import Prelude.
From S2P Require Import GoText.
From S2P Require Import Protocol.
From S2P Require Import Transfer.
From S2P Require Import Errors.
From S2P Require Import Fuel.
From S2P Require Import TypeInfo.
From S2P Require Import Metadata.
From S2P Require Import ValueText.
From S2P Require Import Value.
From S2P Require Import ValueRead.
From S2P Require Import Lob.
From S2P Require Import ValueWire.
From S2P Require Import ValueWrite.
From S2P Require Import Session.
From S2P Require Import SessionFacts.
From S2P Require Import Exchange.
From S2P Require Import Rows.
From S2P Require Import RowsFacts.
From S2P Require Import GeneratedKeys.
From S2P Require Import Update.

(** ** Shapes of error handling *)

Lemma fair_making r (m : M RS unit) : fair m -> fair (making r m).
Proof.
  intros Hm s. specialize (Hm (s, r)). unfold making, session_of, HasSession_id, HasSession_RS in *.
  destruct (m (s, r)) as [[a|e] [s' r']]; exact Hm.
Qed.

Lemma fair_on_error {A B} (m : M Session A) (c : M Session B) :
  fair m -> silent c ->
  fair (x <- try m ;; match x with Ok a => ret a | Err e => discard c ;; fail e end).
Proof.
  intros Hm Hc s. destruct (Hm s) as [Ha Hb]. unfold session_of, HasSession_id in *.
  unfold bind, try, discard. destruct (m s) as [[a|e] s1]; cbn in *; [done|].
  pose proof (fair_run_silent c s (Err e : res A) s1 Hc) as Hd. destruct (Hc s1) as [_ Hcb].
  split; [intros Hs; apply Hd, Ha, Hs|auto].
Qed.

Lemma fair_finalized {A} ctx (m : M Session A) :
  fair m ->
  fair (x <- try m ;; y <- try (finalizeContext ctx x) ;;
        match y with Ok r => ret r | Err e => endOperationContext ;; fail e end).
Proof.
  intros Hm s. destruct (Hm s) as [Ha Hb]. unfold session_of, HasSession_id in *.
  unfold bind, try. destruct (m s) as [x s1]. cbn in Ha, Hb.
  pose proof (finalizeContext_fair ctx s x s1) as Hf. pose proof (finalizeContext_broken ctx x s1) as Hfb.
  destruct (finalizeContext ctx x s1) as [[a|e] s2]; cbn in Hf, Hfb;
    [split; [intros Hs; apply Hf, Ha, Hs|cbn; auto]|]. unfold endOperationContext.
  pose proof (fair_run_silent _ s (Err e : res A) s2 (silent_set_deadline None)) as Hd.
  pose proof (proj2 (silent_set_deadline None s2)) as Hdb.
  assert (Hok : (set_deadline None s2).1 = Ok tt) by (unfold set_deadline; by destruct (s_tr s2)).
  destruct (set_deadline None s2) as [z s3]. cbn in Hok, Hd, Hdb. subst z. cbn.
  split; [intros Hs; apply Hd, Hf, Ha, Hs|auto].
Qed.

Lemma silent_ret {A} (a : A) : silent (ret a).
Proof. intros s. done. Qed.

Lemma fair_closing {A} owns cmd (m : M Session A) : fair m -> fair (closing owns cmd m).
Proof.
  intros Hm. unfold closing. destruct owns.
  - apply fair_on_error; [done|apply silent_PreparedCommand_Close].
  - change (ret tt) with (discard (@ret Session unit tt)). apply fair_on_error; [done|apply silent_ret].
Qed.

Lemma fair_then_close {A} cmd (m : M Session A) : fair m -> fair (then_close cmd m).
Proof. intros Hm. apply fair_then; [done|apply silent_PreparedCommand_Close]. Qed.

Lemma fair_discard_close cmd : fair (discard (PreparedCommand_Close cmd)).
Proof.
  intros s. destruct (silent_PreparedCommand_Close cmd s) as [Ha Hb]. split; [|done].
  intros Hs. destruct (Ha Hs) as [H1 H2]. split; [done|]. exists []. unfold session_of, HasSession_id.
  unfold discard. cbn. by rewrite H2.
Qed.
#[export] Hint Resolve fair_discard_close : fair.

(** ** Parameters *)

Lemma steady_WriteValue v pt : steady (WriteValue v pt).
Proof.
  unfold WriteValue, writeStringValue, writeTimeValue. destruct v as [| | | | |[]| | |]; try (destruct (Date _) as [[]]);
    solve_steady.
Qed.

Lemma plain_errs_WriteValue v pt : plain_errs (WriteValue v pt).
Proof.
  assert (Hs : forall s, plain_errs (writeStringValue s pt)).
  { intros s. unfold writeStringValue. destruct (param_is pt ValueTypeUUID); [|solve_plain_errs].
    destruct (parseUUIDString s) as [[h l]|e] eqn:E; [solve_plain_errs|].
    apply plain_errs_fail. cbn. by rewrite (plain_parseUUID _ _ E). }
  unfold WriteValue, writeTimeValue. destruct v as [| | | | |[]| | |]; try (destruct (Date _) as [[]]);
    repeat match goal with |- plain_errs (if ?b then _ else _) => destruct b end; try apply Hs;
    unfold WriteFloat32, WriteFloat64; solve_plain_errs.
Qed.

Lemma fair_writeParams fmt cmd params : forall i, fair (writeParams fmt cmd i params).
Proof.
  induction params as [|p params IH]; intros i; cbn [writeParams]; [apply fair_ret|].
  apply fair_bind; [|by intros]. apply fair_wrapf, fair_on_tr_plain;
    [apply steady_WriteValue|apply plain_errs_WriteValue].
Qed.
#[export] Hint Resolve fair_writeParams : fair.

(** ** Queries *)

Lemma fair_NewRows id cc fs owns cid : fair (NewRows id cc fs owns cid).
Proof.
  unfold NewRows. apply fair_bind; [by apply fair_session_open|]. intros _. apply fair_making.
  apply fair_bind; [apply disciplined_fair, disciplined_read; [solve_steady|solve_plain_errs]|]. intros rc.
  apply fair_bind; [apply fair_update|]. intros _.
  apply fair_bind; [apply disciplined_fair, disciplined_read; [solve_steady|solve_plain_errs]|]. intros meta.
  apply fair_bind; [apply fair_update|]. intros _. apply disciplined_fair, disciplined_prefetchInitialRows.
Qed.
#[export] Hint Resolve fair_NewRows : fair.

Lemma fair_executeQueryWire ctx cmd mr fs params owns : fair (executeQueryWire ctx cmd mr fs params owns).
Proof.
  unfold executeQueryWire. apply fair_bind; [apply fair_nextCommandID|]. intros id.
  apply fair_bind; [apply fair_beginOperationContext|]. intros _.
  apply fair_finalized, fair_closing. unfold writeExecuteQuery. solve_fair.
Qed.
#[export] Hint Resolve fair_executeQueryWire : fair.

Lemma fair_ExecuteQuery ctx sql mr fs : fair (ExecuteQuery ctx sql mr fs).
Proof. unfold ExecuteQuery. solve_fair. Qed.
Lemma fair_ExecuteQueryWithParams ctx sql mr fs params : fair (ExecuteQueryWithParams ctx sql mr fs params).
Proof. unfold ExecuteQueryWithParams. solve_fair. Qed.
Lemma fair_ExecuteQueryPreparedWithParams ctx cmd mr fs params :
  fair (ExecuteQueryPreparedWithParams ctx cmd mr fs params).
Proof. unfold ExecuteQueryPreparedWithParams. solve_fair. Qed.
#[export] Hint Resolve fair_ExecuteQuery fair_ExecuteQueryWithParams fair_ExecuteQueryPreparedWithParams : fair.

(** ** Generated keys *)

Lemma fair_s_or_broken {A} fmt (m : M Tr A) : steady m -> plain_errs m -> fair (s_or_broken fmt m).
Proof.
  intros Hs Hp s. destruct (fair_on_tr_plain m Hs Hp s) as [Ha Hb]. unfold session_of, HasSession_id in *.
  unfold s_or_broken, bind, try. destruct (on_tr m s) as [[a|e] s1] eqn:E; cbn in *; [done|].
  split; [|intros Hw; apply broken_Abort; right; by apply Hb].
  intros Hw. pose proof Hw as [_ (t & Ht & _)]. unfold on_tr in E. rewrite Ht in E.
  destruct (m t) as [x t'] eqn:Em. injection E as -> <-. apply Hp, plain_As in Em.
  unfold fair_failure. rewrite errors_As_wrapf, Em. right. apply broken_Abort.
  specialize (Ha Hw). unfold fair_failure in Ha. rewrite Em in Ha. destruct Ha as [[? _]|?]; auto.
Qed.

Lemma fair_mark {A} e : errors_As e = None -> fair (markStreamBroken ;; @fail Session A e).
Proof. apply fair_abort. Qed.

Lemma fair_readKeyColumns meta n : forall j lc, fair (readKeyColumns meta n j lc).
Proof.
  induction n as [|n IH]; intros j lc; cbn [readKeyColumns]; [apply fair_ret|].
  destruct (GetColumn meta j); [|by apply fair_fail].
  apply fair_bind; [|intros x; apply fair_bind; [apply IH|intros; apply fair_ret]].
  apply fair_wrapf, fair_on_tr_plain;
    [apply steady_reader, reader_readValueInternal|apply plain_errs_readValueInternal].
Qed.

Lemma fair_readGeneratedKeyRow meta lc : fair (readGeneratedKeyRow meta lc).
Proof.
  unfold readGeneratedKeyRow. apply fair_bind; [solve_fair|]. intros flag. cbv zeta.
  destruct (_ =? 1); [apply fair_readKeyColumns|]. destruct (_ =? 0); [by apply fair_fail|].
  destruct (_ =? -1); [|by apply fair_fail]. apply fair_bind; [|intros; apply fair_ret].
  apply fair_wrapE, fair_on_tr; [apply steady_reader, reader_readH2Error|apply reports_readH2Error].
Qed.

(** An error that passes after [markUnlessAlignedH2Error]. *)
Lemma fair_run_marked {A B} s0 (e : error) s :
  fair_run s0 (Err e : res A) s ->
  fair_run s0 ((markUnlessAlignedH2Error e ;; @fail Session B e) s).1
    ((markUnlessAlignedH2Error e ;; @fail Session B e) s).2.
Proof.
  unfold markUnlessAlignedH2Error. intros H. destruct (errors_As e) as [h|] eqn:E; [exact H|].
  pose proof (fair_outcome _ _ _ H) as Ho. cbn. unfold fair_failure. rewrite E. right. apply broken_Abort.
  destruct Ho as [[? _]|?]; auto.
Qed.

Lemma broken_marked {B} e s : broken s -> broken ((markUnlessAlignedH2Error e ;; @fail Session B e) s).2.
Proof.
  unfold markUnlessAlignedH2Error. intros H. destruct (errors_As e); [exact H|]. apply broken_Abort. by right.
Qed.

(** A result that is examined. *)
Lemma fair_try {W} `{HasSession W} {A B} (m : M W A) (k : res A -> M W B) :
  fair m -> (forall a, fair (k (Ok a))) ->
  (forall e w0 w, alive (session_of w0) -> m w0 = (Err e, w) -> fair_run (session_of w0) (Err e : res A) (session_of w) ->
     fair_run (session_of w0) (k (Err e) w).1 (session_of (k (Err e) w).2)) ->
  (forall e w, broken (session_of w) -> broken (session_of (k (Err e) w).2)) ->
  fair (x <- try m ;; k x).
Proof.
  intros Hm Hk He Hb w. destruct (Hm w) as [Ha Hbr].
  unfold bind, try. destruct (m w) as [[a|e] w1] eqn:E; cbn [fst snd] in *.
  - destruct (Hk a w1) as [Ha' Hb']. split; [|auto].
    intros Hs. destruct (Ha Hs) as [Hs1 Hf]. specialize (Ha' Hs1). unfold fair_run in *.
    destruct (k (Ok a) w1).1; [destruct Ha'; split; [done|]; by eapply forward_trans|].
    by eapply fair_failure_forward.
  - split; [|auto]. intros Hs. by apply He; [| |apply Ha].
Qed.

(** [lively m]: an operation that never breaks the session. *)
Definition lively {A} (m : M Session A) : Prop :=
  forall s, alive s -> alive (m s).2 /\ forward s (m s).2.

Lemma lively_ret {A} (a : A) : lively (ret a).
Proof. intros s Hs. split; [done|apply forward_refl]. Qed.
Lemma lively_fail {A} e : lively (@fail Session A e).
Proof. intros s Hs. split; [done|apply forward_refl]. Qed.
Lemma lively_bind {A B} (m : M Session A) (k : A -> M Session B) :
  lively m -> (forall a, lively (k a)) -> lively (bind m k).
Proof.
  intros Hm Hk s Hs. destruct (Hm s Hs) as [H1 H2]. unfold bind. destruct (m s) as [[a|e] s1]; [|done].
  destruct (Hk a s1 H1) as [H3 H4]. split; [done|]. by eapply forward_trans.
Qed.
Lemma lively_wrapf {A} fmt args (m : M Session A) : lively m -> lively (wrapf fmt args m).
Proof. intros Hm s Hs. specialize (Hm s Hs). rewrite wrapf_run. by destruct (m s) as [[a|e] s1]. Qed.
Lemma lively_wrapE {A} op (m : M Session A) : lively m -> lively (wrapE op m).
Proof. intros Hm s Hs. specialize (Hm s Hs). unfold wrapE. by destruct (m s) as [[a|e] s1]. Qed.
Lemma lively_on_tr {A} (m : M Tr A) : steady m -> lively (on_tr m).
Proof.
  intros Hm s [Hd (t & Ht & Hsh)]. unfold on_tr. rewrite Ht. destruct (Hm t Hsh) as [Hsh' [pre Hin]].
  destruct (m t) as [x t']. cbn in *. split; [by split; [|exists t']|]. exists pre. unfold unread. by rewrite Ht.
Qed.

Lemma lively_readKeyColumns meta n : forall j lc, lively (readKeyColumns meta n j lc).
Proof.
  induction n as [|n IH]; intros j lc; cbn [readKeyColumns]; [apply lively_ret|].
  destruct (GetColumn meta j); [|apply lively_fail].
  apply lively_bind; [|intros x; apply lively_bind; [apply IH|intros; apply lively_ret]].
  apply lively_wrapf, lively_on_tr, steady_reader, reader_readValueInternal.
Qed.

Lemma lively_readGeneratedKeyRow meta lc : lively (readGeneratedKeyRow meta lc).
Proof.
  unfold readGeneratedKeyRow. apply lively_bind; [apply lively_wrapf, lively_on_tr; solve_steady|].
  intros flag. cbv zeta. destruct (_ =? 1); [apply lively_readKeyColumns|].
  destruct (_ =? 0); [apply lively_fail|]. destruct (_ =? -1); [|apply lively_fail].
  apply lively_bind; [apply lively_wrapE, lively_on_tr; solve_steady|intros; apply lively_ret].
Qed.

Lemma fair_readKeyRows bounded meta n : forall rows lc, fair (readKeyRows n bounded meta rows lc).
Proof.
  induction n as [|n IH]; intros rows lc; cbn [readKeyRows].
  { destruct bounded; [apply fair_ret|by apply fair_fail]. }
  set (lc1 := mkLobCollector _ _ _ _). apply fair_try; [apply fair_readGeneratedKeyRow|by intros [row lc']| |].
  - intros e s0 s Hs0 E Hr. pose proof (lively_readGeneratedKeyRow meta lc1 s0 Hs0) as Hl. rewrite E in Hl.
    destruct e; try exact (fair_run_marked _ _ _ Hr). exact Hl.
  - intros e s Hb. destruct e; try exact (broken_marked _ _ Hb). exact Hb.
Qed.

Lemma fair_resolveKeyLobs ps : forall rows, fair (resolveKeyLobs ps rows).
Proof.
  induction ps as [|p ps IH]; intros rows; cbn [resolveKeyLobs]; [apply fair_ret|].
  apply fair_try.
  - apply fair_on_tr_plain; [apply steady_fetchLob|apply plain_errs_fetchLob].
  - intros v. destruct (splice _ _ _ _); [done|by apply fair_fail].
  - intros e s0 s Hs0 E Hr. unfold session_of, HasSession_id in *.
    pose proof Hs0 as [_ (t & Ht & _)]. unfold on_tr in E. rewrite Ht in E.
    destruct (fetchLob p t) as [x t'] eqn:Ef. injection E as -> _.
    pose proof (fair_outcome _ _ _ Hr) as Ho. cbn. unfold fair_failure. rewrite errors_As_wrapf.
    rewrite (plain_As e) by (by eapply plain_errs_fetchLob). right. apply broken_Abort.
    destruct Ho as [[? _]|?]; auto.
  - intros e s Hb. apply broken_Abort. by right.
Qed.

Lemma fair_readAllKeyRows rc meta : fair (readAllKeyRows rc meta).
Proof.
  unfold readAllKeyRows. destruct (_ =? 0); [apply fair_ret|]. intros s. apply fair_readKeyRows.
Qed.

Lemma fair_readKeysFrame : fair readKeysFrame.
Proof.
  unfold readKeysFrame. apply fair_bind; [by apply fair_session_open|]. intros _.
  apply fair_bind; [apply fair_gets|]. intros v. unfold readKeysFrame_version.
  apply fair_bind; [apply fair_s_or_broken; [solve_steady|solve_plain_errs]|]. intros cc.
  apply fair_bind; [apply fair_s_or_broken; [solve_steady|solve_plain_errs]|]. intros rc.
  apply fair_bind; [solve_fair|]. intros _.
  apply fair_bind; [apply fair_s_or_broken; [solve_steady|solve_plain_errs]|]. intros meta.
  apply fair_bind; [apply fair_readAllKeyRows|]. intros x.
  apply fair_bind; [apply fair_resolveKeyLobs|]. intros. apply fair_ret.
Qed.

(** ** Updates *)

(** The errors of [m] do not speak of insert ids. *)
Definition no_insert_id {A} (m : M Session A) : Prop :=
  forall s e s', m s = (Err e, s') -> isLastInsertIDUnavailable e = false.

Lemma no_insert_id_fail {A} e : isLastInsertIDUnavailable e = false -> no_insert_id (@fail Session A e).
Proof. intros He s e' s' [= <- _]. done. Qed.
Lemma no_insert_id_total {A} (m : M Session A) : (forall s, exists a s', m s = (Ok a, s')) -> no_insert_id m.
Proof. intros Hm s e s' H. destruct (Hm s) as (a & s1 & E). congruence. Qed.
Lemma no_insert_id_bind {A B} (m : M Session A) (k : A -> M Session B) :
  no_insert_id m -> (forall a, no_insert_id (k a)) -> no_insert_id (bind m k).
Proof. intros Hm Hk s e s' [H|(a & s1 & _ & H)]%bind_Err_inv; [by eapply Hm|by eapply Hk]. Qed.
Lemma no_insert_id_on_tr {A} (m : M Tr A) :
  (forall t e t', m t = (Err e, t') -> errors_Is e ErrLastInsertIDUnavailable = false) -> no_insert_id (on_tr m).
Proof.
  intros Hm s e s' H. unfold on_tr in H. destruct (s_tr s) as [t|]; [|by injection H as <- _].
  destruct (m t) as [x t'] eqn:E. injection H as -> _. by eapply Hm.
Qed.
Lemma no_insert_id_wrapf {A} fmt args (m : M Session A) : no_insert_id m -> no_insert_id (wrapf fmt args m).
Proof.
  intros Hm s e s' (e' & H & ->)%wrapf_Err_inv. unfold isLastInsertIDUnavailable. cbn.
  rewrite orb_false_r. by eapply Hm.
Qed.
Lemma no_insert_id_mark {A} e : isLastInsertIDUnavailable e = false -> no_insert_id (markStreamBroken ;; @fail Session A e).
Proof. intros He s e' s' [= <- _]. done. Qed.

Lemma no_insert_id_read {A} (m : M Tr A) : plain_errs m -> no_insert_id (on_tr m).
Proof. intros Hm. apply no_insert_id_on_tr. intros t e t' H. by eapply plain_no_insert_id, Hm. Qed.

Lemma no_insert_id_s_or_broken {A} fmt (m : M Tr A) : plain_errs m -> no_insert_id (s_or_broken fmt m).
Proof.
  intros Hm s e s' H. unfold s_or_broken, bind, try in H.
  destruct (on_tr m s) as [[a|e0] s1] eqn:E; [done|]. injection H as <- _.
  unfold isLastInsertIDUnavailable. cbn. rewrite orb_false_r. by eapply (no_insert_id_read m).
Qed.

Lemma no_insert_id_readKeyColumns meta n : forall j lc, no_insert_id (readKeyColumns meta n j lc).
Proof.
  induction n as [|n IH]; intros j lc; cbn [readKeyColumns]; [by apply no_insert_id_total; eauto|].
  destruct (GetColumn meta j); [|by apply no_insert_id_fail].
  apply no_insert_id_bind; [apply no_insert_id_wrapf, no_insert_id_read, plain_errs_readValueInternal|].
  intros x. apply no_insert_id_bind; [apply IH|]. intros. by apply no_insert_id_total; eauto.
Qed.

Lemma no_insert_id_readGeneratedKeyRow meta lc : no_insert_id (readGeneratedKeyRow meta lc).
Proof.
  unfold readGeneratedKeyRow.
  apply no_insert_id_bind; [apply no_insert_id_wrapf, no_insert_id_read; solve_plain_errs|].
  intros flag. cbv zeta. destruct (_ =? 1); [apply no_insert_id_readKeyColumns|].
  destruct (_ =? 0); [by apply no_insert_id_fail|]. destruct (_ =? -1); [|by apply no_insert_id_fail].
  apply no_insert_id_bind; [|intros; by apply no_insert_id_total; eauto].
  intros s e s' H. unfold wrapE in H. destruct (on_tr readH2Error s) as [[[]|e0] s1] eqn:E; [done|].
  injection H as <- _. unfold wrapError. destruct (errors_As e0) eqn:Ea; [done|].
  unfold isLastInsertIDUnavailable. cbn. rewrite orb_false_r.
  unfold on_tr in E. destruct (s_tr s) as [t|]; [|by injection E as <- _].
  destruct (readH2Error t) as [x t'] eqn:Er. injection E as -> _. unfold readH2Error in Er.
  apply bind_Err_inv in Er as [Er|(h & t1 & _ & [= <- _])]; [|done].
  by eapply plain_no_insert_id, plain_errs_readH2Error_fields.
Qed.

Lemma no_insert_id_readKeyRows bounded meta n : forall rows lc, no_insert_id (readKeyRows n bounded meta rows lc).
Proof.
  induction n as [|n IH]; intros rows lc; cbn [readKeyRows].
  { destruct bounded; [by apply no_insert_id_total; eauto|by apply no_insert_id_fail]. }
  intros s e s' H. unfold bind at 1, try in H.
  destruct (readGeneratedKeyRow _ _ s) as [[[row lc']|e0] s1] eqn:E; [by eapply IH|].
  apply no_insert_id_readGeneratedKeyRow in E.
  destruct e0; try (apply bind_Err_inv in H as [H|([] & s2 & _ & [= <- _])];
    [unfold markUnlessAlignedH2Error in H; by destruct (errors_As _)|done]). done.
Qed.

Lemma no_insert_id_resolveKeyLobs ps : forall rows, no_insert_id (resolveKeyLobs ps rows).
Proof.
  induction ps as [|p ps IH]; intros rows; cbn [resolveKeyLobs]; [by apply no_insert_id_total; eauto|].
  intros s e s' H. unfold bind at 1, try in H. destruct (on_tr (fetchLob p) s) as [[v|e0] s1] eqn:E.
  - destruct (splice _ _ _ _); [by eapply IH|]. by injection H as <- _.
  - injection H as <- _. unfold isLastInsertIDUnavailable. cbn. rewrite orb_false_r.
    by eapply (no_insert_id_read _ (plain_errs_fetchLob p)).
Qed.

Lemma no_insert_id_readKeysFrame : no_insert_id readKeysFrame.
Proof.
  unfold readKeysFrame. apply no_insert_id_bind.
  { intros s e s' H. unfold session_open in H. destruct (s_tr s); [done|]. by injection H as <- _. }
  intros _. apply no_insert_id_bind; [by apply no_insert_id_total; eauto|]. intros v. unfold readKeysFrame_version.
  apply no_insert_id_bind; [apply no_insert_id_s_or_broken; solve_plain_errs|]. intros cc.
  apply no_insert_id_bind; [apply no_insert_id_s_or_broken; solve_plain_errs|]. intros rc.
  apply no_insert_id_bind; [unfold guard_err; destruct (_ <? _); [by apply no_insert_id_fail|by apply no_insert_id_total; eauto]|].
  intros _. apply no_insert_id_bind; [apply no_insert_id_s_or_broken; solve_plain_errs|]. intros meta.
  apply no_insert_id_bind.
  { unfold readAllKeyRows. destruct (_ =? 0); [by apply no_insert_id_total; eauto|].
    intros s. apply no_insert_id_readKeyRows. }
  intros x. apply no_insert_id_bind; [apply no_insert_id_resolveKeyLobs|]. intros. by apply no_insert_id_total; eauto.
Qed.

Lemma SingleInt64_error g e :
  SingleInt64 g = Err e -> errors_As e = None.
Proof.
  assert (Hu : forall f a, errors_As (lastInsertIDUnavailableError f a) = None).
  { intros f a. unfold lastInsertIDUnavailableError. by case_bool_decide. }
  assert (Ht : forall x e', parseKeyText x = Err e' -> errors_As e' = None).
  { intros x e'. unfold parseKeyText. destruct (ParseInt _); [done|]. intros [= <-]. apply Hu. }
  assert (Hv : forall v e', generatedKeyValueToInt64 v = Err e' -> errors_As e' = None).
  { intros v e'. destruct v; cbn [generatedKeyValueToInt64]; try (by intros [= <-]); try apply Ht;
      try (intros [= <-]; apply Hu).
    destruct (float_integer bits); [|intros [= <-]; apply Hu].
    destruct (_ || _); [intros [= <-]; apply Hu|done]. }
  destruct g as [[cols rows]|]; cbn; [|intros [= <-]; apply Hu].
  destruct (_ || _); [intros [= <-]; apply Hu|].
  destruct rows as [|[|v []] ?]; [by intros [= <-]|intros [= <-]; apply Hu|apply Hv|intros [= <-]; apply Hu].
Qed.

Lemma fair_ext {W} `{HasSession W} {A} (m m' : M W A) : (forall w, m w = m' w) -> fair m' -> fair m.
Proof. intros He Hm w. rewrite He. apply Hm. Qed.

Lemma fair_readExecuteUpdate mode : fair (readExecuteUpdate mode).
Proof.
  unfold readExecuteUpdate.
  apply fair_bind; [solve_fair|]. intros _. apply fair_bind; [solve_fair|]. intros uc.
  apply fair_bind; [solve_fair|]. intros ac.
  apply fair_bind; [|intros [[[keys id] err] set]; solve_fair].
  destruct (_ =? _); [apply fair_ret|].
  set (after := fun x : res GeneratedKeysResult =>
    match x with
    | Err e => if isLastInsertIDUnavailable e then ret (None, 0, Some e, false) else fail e
    | Ok g => match SingleInt64 (Some g) with
              | Ok id => ret (Some g, id, None, true)
              | Err e => if isLastInsertIDUnavailable e then ret (Some g, 0, Some e, false) else fail e
              end
    end : M Session (option GeneratedKeysResult * Z * option error * bool)).
  apply (fair_ext _ (x <- try readKeysFrame ;; after x)).
  { intros s. unfold readGeneratedKeys, bind, try. destruct (readKeysFrame s) as [[g|e] s1]; [|done].
    unfold after, ret. by destruct (SingleInt64 (Some g)). }
  apply fair_try.
  - apply fair_readKeysFrame.
  - intros g. unfold after. destruct (SingleInt64 (Some g)) as [id|e] eqn:E; [apply fair_ret|].
    destruct (isLastInsertIDUnavailable e); [apply fair_ret|]. by eapply fair_fail, SingleInt64_error.
  - intros e s0 s Hs0 E Hr. unfold after. by rewrite (no_insert_id_readKeysFrame _ _ _ E).
  - intros e s Hb. unfold after. by destruct (isLastInsertIDUnavailable e).
Qed.
#[export] Hint Resolve fair_readExecuteUpdate : fair.

Lemma fair_for_each {A} (l : list A) (f : A -> M Session unit) : (forall x, fair (f x)) -> fair (for_each l f).
Proof. intros Hf. induction l; cbn [for_each]; [apply fair_ret|]. by apply fair_bind. Qed.

Lemma fair_writeExecuteUpdate cmd params mode cols names : fair (writeExecuteUpdate cmd params mode cols names).
Proof.
  unfold writeExecuteUpdate, writeKeySelectors.
  repeat match goal with
  | |- fair (bind _ _) => apply fair_bind; [|intros ?]
  | |- fair (for_each _ _) => apply fair_for_each; intros ?
  | |- fair (if ?b then _ else _) => destruct b
  | |- fair _ => solve [solve_fair]
  end.
Qed.
#[export] Hint Resolve fair_writeExecuteUpdate : fair.

Lemma fair_ExecuteUpdatePreparedWithParams ctx cmd params : fair (ExecuteUpdatePreparedWithParams ctx cmd params).
Proof. unfold ExecuteUpdatePreparedWithParams. solve_fair. Qed.
#[export] Hint Resolve fair_ExecuteUpdatePreparedWithParams fair_then_close : fair.

Lemma fair_ExecuteUpdate ctx sql : fair (ExecuteUpdate ctx sql).
Proof.
  unfold ExecuteUpdate, ExecuteUpdatePrepared. apply fair_bind; [by eauto with fair|]. intros cmd.
  apply fair_then_close, fair_ExecuteUpdatePreparedWithParams.
Qed.
Lemma fair_ExecuteUpdateWithParams ctx sql params : fair (ExecuteUpdateWithParams ctx sql params).
Proof.
  unfold ExecuteUpdateWithParams. apply fair_bind; [by eauto with fair|]. intros cmd.
  apply fair_then_close, fair_ExecuteUpdatePreparedWithParams.
Qed.
#[export] Hint Resolve fair_ExecuteUpdate fair_ExecuteUpdateWithParams : fair.

Lemma fair_rollbackCurrentTransaction ctx : fair (rollbackCurrentTransaction ctx).
Proof. unfold rollbackCurrentTransaction. solve_fair. Qed.
Lemma fair_setTransactionIsolation ctx l : fair (setTransactionIsolation ctx l).
Proof. unfold setTransactionIsolation. solve_fair. Qed.
#[export] Hint Resolve fair_rollbackCurrentTransaction fair_setTransactionIsolation : fair.

(** ** Result sets *)

Lemma fair_fetchMoreRows fetch : fair (fetchMoreRows fetch).
Proof.
  intros w. destruct (s_tr w.1) as [t|] eqn:E.
  - destruct (disciplined_fetchMoreRows fetch w) as [-> [Hf _]]; [by rewrite E|]. apply Hf.
  - unfold fetchMoreRows. rewrite E. split; [|done]. intros [_ (t & Ht & _)]. cbn in Ht.
    unfold session_of, HasSession_RS in Ht. congruence.
Qed.

Lemma fair_refill : fair refill.
Proof.
  unfold refill. apply fair_bind; [apply fair_rows|]. intros r.
  destruct (_ && _); [by apply fair_fail|]. destruct (rs_noMoreRows r); [by apply fair_fail|]. cbv zeta.
  destruct (_ && _); [by apply fair_fail|]. apply fair_try.
  - apply fair_fetchMoreRows.
  - intros []. apply fair_bind; [apply fair_rows|]. intros [|]; [by apply fair_fail|apply fair_ret].
  - intros e w0 [s r'] _ _ Hr. exact Hr.
  - intros e [s r'] Hb. exact Hb.
Qed.

(** [settled m]: a session that is alive ends alive or broken, a broken one stays so. *)
Definition settled {W} `{HasSession W} {A} (m : M W A) : Prop := forall w,
  (alive (session_of w) -> alive (session_of (m w).2) \/ broken (session_of (m w).2)) /\
  (broken (session_of w) -> broken (session_of (m w).2)).

Section settled.
Context {W : Type} `{HasSession W} {A B : Type}.

Lemma settled_fair (m : M W A) : fair m -> settled m.
Proof.
  intros Hm w. destruct (Hm w) as [Ha Hb]. split; [|done]. intros Hw.
  destruct (fair_outcome _ _ _ (Ha Hw)) as [[? _]|?]; auto.
Qed.

Lemma settled_same (m : M W A) : (forall w, session_of (m w).2 = session_of w) -> settled m.
Proof. intros Hm w. rewrite Hm. auto. Qed.

Lemma settled_bind (m : M W A) (k : A -> M W B) : settled m -> (forall a, settled (k a)) -> settled (bind m k).
Proof.
  intros Hm Hk w. destruct (Hm w) as [Ha Hb]. unfold bind. destruct (m w) as [[a|e] w1]; [|done].
  destruct (Hk a w1) as [Ha' Hb']. cbn in *. split; [|auto]. intros Hw. destruct (Ha Hw); auto.
Qed.

Lemma settled_try (m : M W A) : settled m -> settled (try m).
Proof. intros Hm w. specialize (Hm w). unfold try. by destruct (m w). Qed.
End settled.

Lemma settled_Next dest : settled (Next dest).
Proof.
  unfold Next. apply settled_bind; [by apply settled_same|]. intros r.
  destruct (rs_closed r); [by apply settled_same|]. destruct (rs_err r); [by apply settled_same|].
  destruct (negb _); [by apply settled_same|].
  apply settled_bind; [destruct (rs_bufferedRows r); [apply settled_fair, fair_refill|by apply settled_same]|].
  intros _. apply settled_bind; [by apply settled_same|]. intros r'.
  destruct (rs_bufferedRows r'); [by apply settled_same|].
  apply settled_bind; [apply settled_same; by intros []|]. intros _. by apply settled_same.
Qed.

Lemma settled_also (cond : bool) (m : M RS unit) e : settled m -> settled (also cond m e).
Proof.
  intros Hm. unfold also. destruct cond; [|by apply settled_same].
  apply settled_bind; [by apply settled_try|]. intros [|]; destruct e; by apply settled_same.
Qed.

Lemma fair_sendResultClose : fair sendResultClose.
Proof. unfold sendResultClose. solve_fair. all: apply fair_on_sess; solve_fair. Qed.
Lemma fair_sendCommandClose : fair sendCommandClose.
Proof. unfold sendCommandClose. solve_fair. all: apply fair_on_sess; solve_fair. Qed.

Lemma settled_Rows_release : settled Rows_release.
Proof.
  unfold Rows_release. apply settled_bind; [apply settled_fair, fair_update|]. intros _.
  apply settled_bind; [by apply settled_same|]. intros cleanup.
  apply settled_bind.
  { destruct cleanup; [|by apply settled_same]. apply settled_bind; [|intros; apply settled_fair, fair_update].
    apply settled_fair, fair_on_sess, fair_set_deadline. }
  intros _. apply settled_bind; [by apply settled_same|]. intros s.
  apply settled_bind; [apply settled_also, settled_fair, fair_sendResultClose|]. intros e1.
  apply settled_bind; [by apply settled_same|]. intros s'. apply settled_bind; [by apply settled_same|]. intros r.
  apply settled_bind; [apply settled_also, settled_fair, fair_sendCommandClose|]. intros e2.
  apply settled_bind; [apply settled_fair, fair_update|]. intros _.
  apply settled_bind; [by apply settled_same|]. intros cb.
  apply settled_bind; [apply settled_fair, fair_update|]. intros _. by apply settled_same.
Qed.

(** ** The states of a session *)

(** One operation on a session, whatever its arguments and outcome. *)
Inductive session_step (s : Session) : Session -> Prop :=
| step_PrepareCommand ctx sql : session_step s (PrepareCommand ctx sql s).2
| step_PrepareCommandReadParams ctx sql : session_step s (PrepareCommandReadParams ctx sql s).2
| step_PreparedCommand_Close cmd : session_step s (PreparedCommand_Close cmd s).2
| step_ExecuteQuery ctx sql mr fs : session_step s (ExecuteQuery ctx sql mr fs s).2
| step_ExecuteQueryWithParams ctx sql mr fs params : session_step s (ExecuteQueryWithParams ctx sql mr fs params s).2
| step_ExecuteQueryPrepared ctx cmd mr fs params :
    session_step s (ExecuteQueryPreparedWithParams ctx cmd mr fs params s).2
| step_Next dest r : session_step s (Next dest (s, r)).2.1
| step_Rows_release r : session_step s (Rows_release (s, r)).2.1
| step_ExecuteUpdate ctx sql : session_step s (ExecuteUpdate ctx sql s).2
| step_ExecuteUpdateWithParams ctx sql params : session_step s (ExecuteUpdateWithParams ctx sql params s).2
| step_ExecuteUpdatePrepared ctx cmd params : session_step s (ExecuteUpdatePreparedWithParams ctx cmd params s).2
| step_hasPendingTransaction ctx : session_step s (hasPendingTransaction ctx s).2
| step_setAutoCommit ctx b : session_step s (setAutoCommit ctx b s).2
| step_commit ctx : session_step s (commitCurrentTransaction ctx s).2
| step_rollback ctx : session_step s (rollbackCurrentTransaction ctx s).2
| step_setTransactionIsolation ctx l : session_step s (setTransactionIsolation ctx l s).2
| step_Close : session_step s (Session_Close s).2
| step_Abort : session_step s (Session_Abort s).2.

Lemma settled_silent {A} (m : M Session A) : silent m -> settled m.
Proof. intros Hm s. destruct (Hm s) as [Ha Hb]. split; [|done]. intros Hs. left. by apply Ha. Qed.

Lemma session_step_settled s s' :
  session_step s s' -> (alive s -> alive s' \/ broken s') /\ (broken s -> broken s').
Proof.
  intros H. destruct H; match goal with
  | |- context [Next ?d (s, ?r)] => exact (settled_Next d (s, r))
  | |- context [Rows_release (s, ?r)] => exact (settled_Rows_release (s, r))
  | |- context [PreparedCommand_Close ?c s] => exact (settled_silent _ (silent_PreparedCommand_Close c) s)
  | |- context [Session_Close s] => split; intros Hs; [right|]; apply broken_Session_Close; auto
  | |- context [Session_Abort s] => split; intros Hs; [right|]; apply broken_Abort; auto
  | |- context [(?m s).2] => refine (settled_fair m _ s); by eauto with fair
  end.
Qed.

(** C4 (invariant). Whatever operations run on a session, in any order and with any
    outcome, it is either alive, with an open transfer, or broken: the transfer gone,
    the session marked dead and the connection closed. And a session that is broken
    stays broken. No operation leaves a dead session that still has its transfer, nor a
    session without transfer that is not marked dead. *)
Theorem session_alive_or_broken s s' :
  alive s \/ broken s -> rtc session_step s s' -> (alive s' \/ broken s') /\ (broken s -> broken s').
Proof.
  intros Hs Hr. induction Hr as [s|s s1 s' H1 _ IH]; [done|].
  destruct (session_step_settled _ _ H1) as [Ha Hb]. destruct IH as [IH1 IH2]; [destruct Hs; auto|]. auto.
Qed.

Lemma session_alive_or_broken_witness :
  let s := (PrepareCommand Background (lit "SELECT 1") (open_session [])).2 in
  let s' := (Session_Close s).2 in alive s' \/ broken s'.
Proof.
  cbv zeta. eapply (session_alive_or_broken (open_session [])).
  - left. split; [reflexivity|]. eexists. split; [reflexivity|]. by split_and!.
  - eapply rtc_l; [apply step_PrepareCommand|]. eapply rtc_l; [apply step_Close|]. apply rtc_refl.
Defined.
