(* ===== verification/UpdateWire.v ===== *)
(** * Updates on the wire: requests, answers and generated keys *)

From S2P Require Import Prelude.
From S2P Require Import GoText.
From S2P Require Import Protocol.
From S2P Require Import Transfer.
From S2P Require Import Errors.
From S2P Require Import Fuel.
From S2P Require Import TypeInfo.
From S2P Require Import Metadata.
From S2P Require Import Value.
From S2P Require Import ValueRead.
From S2P Require Import ValueWire.
From S2P Require Import ValueWrite.
From S2P Require Import Session.
From S2P Require Import SessionFacts.
From S2P Require Import Exchange.
From S2P Require Import Rows.
From S2P Require Import GeneratedKeys.
From S2P Require Import Update.
From S2P Require Import ExecuteFacts.

(** ** The request *)

(** The parameters of a request from index [i] on; [None] when one cannot be encoded. *)
Fixpoint params_frame (cmd : PreparedCommand) (i : nat) (params : list Value) : option (list byte) :=
  match params with
  | [] => Some []
  | p :: params' =>
      bs ← value_frame p (pm_TypeInfo <$> cmd_Params cmd !! i);
      rest ← params_frame cmd (S i) params';
      Some (bs ++ rest)
  end.

Lemma exch_writeParams fmt cmd params : forall i bs,
  params_frame cmd i params = Some bs -> exch false false (writeParams fmt cmd i params) bs [] tt.
Proof.
  induction params as [|p params IH]; intros i bs H; cbn [writeParams params_frame] in *.
  { injection H as <-. apply exch_ret. }
  destruct (value_frame p _) as [b1|] eqn:E1; [|done]. destruct (params_frame cmd (S i) params) as [b2|] eqn:E2; [|done].
  injection H as <-. eapply exch_bind_send; [by apply exch_wrapf, exch_write, writes_WriteValue|by apply IH].
Qed.

(** The selectors of generated keys, and the whole request. *)
Definition enc_selectors (mode : Z) (cols : option (list Z)) (names : option (list gostring)) : list byte :=
  if mode =? GeneratedKeysColumnNumbers then enc_int32 (zlen (default [] cols)) ++ flat_map enc_int32 (default [] cols)
  else if mode =? GeneratedKeysColumnNames then enc_int32 (zlen (default [] names)) ++ flat_map enc_string (default [] names)
  else [].

Definition update_request (cmd : PreparedCommand) (n : Z) (bs : list byte)
    (mode : Z) (cols : option (list Z)) (names : option (list gostring)) : list byte :=
  enc_int32 CommandExecuteUpdate ++ enc_int32 (cmd_ID cmd) ++ enc_int32 n ++ bs ++ enc_int32 mode
  ++ enc_selectors mode cols names.

Lemma exch_int32_E f op x : exch f false (wrapE op (on_tr (WriteInt32 x))) (enc_int32 x) [] tt.
Proof. apply exch_wrapE, exch_write, writes_WriteInt32. Qed.

Lemma exch_for_each {A} (l : list A) (g : A -> M Session unit) enc :
  (forall x, exch false false (g x) (enc x) [] tt) -> exch false false (for_each l g) (flat_map enc l) [] tt.
Proof.
  intros Hg. induction l as [|x l IH]; cbn [for_each flat_map]; [apply exch_ret|].
  by eapply exch_bind_send.
Qed.

Lemma exch_writeKeySelectors mode cols names :
  exch false false (writeKeySelectors mode cols names) (enc_selectors mode cols names) [] tt.
Proof.
  unfold writeKeySelectors, enc_selectors. destruct (mode =? GeneratedKeysColumnNumbers).
  { rewrite <- (enc_int32_int32 (zlen _)). eapply exch_bind_send; [apply exch_int32_E|].
    apply exch_for_each. intros x. rewrite <- (enc_int32_int32 x). apply exch_int32_E. }
  destruct (mode =? GeneratedKeysColumnNames); [|apply exch_ret].
  rewrite <- (enc_int32_int32 (zlen _)). eapply exch_bind_send; [apply exch_int32_E|].
  apply exch_for_each. intros x. apply exch_wrapE, exch_write, writes_WriteString.
Qed.

Lemma exch_writeExecuteUpdate f cmd params bs mode cols names :
  params_frame cmd 0 params = Some bs ->
  exch f true (writeExecuteUpdate cmd params mode cols names)
    (update_request cmd (zlen params) bs mode cols names) [] tt.
Proof.
  intros Hb. unfold writeExecuteUpdate, update_request.
  eapply exch_bind_send; [apply exch_int32_E|]. eapply exch_bind_send; [apply exch_int32_E|].
  rewrite <- (enc_int32_int32 (zlen params)). eapply exch_bind_send; [apply exch_int32_E|].
  eapply exch_bind_send; [by apply exch_writeParams|]. eapply exch_bind_send; [apply exch_int32_E|].
  rewrite <- (app_nil_r (enc_selectors _ _ _)). eapply exch_bind_send; [apply exch_writeKeySelectors|].
  apply exch_wrapE, exch_flush.
Qed.

(** ** Generated keys *)

(** Keys as the server sends them: their columns, and rows of inline values. *)
Record wire_keys := mkWireKeys { wk_columns : list wire_column; wk_rows : list (list wire_value) }.

Definition enc_key_row (row : list wire_value) : list byte := [z2b 1] ++ flat_map enc_value row.
Definition enc_keys (k : wire_keys) : list byte :=
  enc_int32 (zlen (wk_columns k)) ++ enc_int64 (zlen (wk_rows k)) ++ flat_map enc_column (wk_columns k)
  ++ flat_map enc_key_row (wk_rows k).

Definition keys_meaning (k : wire_keys) : GeneratedKeysResult :=
  mkGeneratedKeysResult (map (fun c => sanitize (wc_alias c)) (wk_columns k)) (map (map value_meaning) (wk_rows k)).

Definition wf_keys (k : wire_keys) : Prop :=
  zlen (wk_columns k) <= maxWireCollectionElements /\ zlen (wk_rows k) <= maxWireCollectionElements /\
  forallb wf_column (wk_columns k) = true /\
  Forall (fun row => zlen row = zlen (wk_columns k) /\ forallb wf_value row = true) (wk_rows k).

Lemma exch_readKeyColumns meta vals : forall j lc,
  0 <= j -> j + zlen vals <= zlen (Columns meta) -> forallb wf_value vals = true -> lc_pending lc = [] ->
  exists lc', lc_pending lc' = [] /\
    exch true true (readKeyColumns meta (length vals) j lc) [] (flat_map enc_value vals) (map value_meaning vals, lc').
Proof.
  induction vals as [|v vals IH]; intros j lc Hj Hl Hw Hp; cbn [length readKeyColumns flat_map map].
  { exists lc. split; [done|]. apply exch_ret. }
  cbn [forallb] in Hw. apply andb_true_iff in Hw as [Hv Hw]. rewrite zlen_cons in Hl. pose proof (zlen_nonneg vals).
  destruct (GetColumn_in_range meta j) as (col & -> & _); [lia|].
  set (lc1 := mkLobCollector (lc_pending lc) (lc_reject lc) (lc_curRow lc) j).
  destruct (IH (j + 1) lc1) as (lc' & Hp' & He); [lia|lia|done|done|]. exists lc'. split; [done|].
  eapply exch_bind_recv; [by apply exch_wrapf, exch_read, decodes_value|].
  rewrite <- (app_nil_r (flat_map _ _)). eapply exch_bind_recv; [exact He|apply exch_ret].
Qed.

Lemma exch_readKeyRows meta rows : forall acc lc,
  ColumnCount meta = zlen (Columns meta) ->
  Forall (fun row => zlen row = zlen (Columns meta) /\ forallb wf_value row = true) rows -> lc_pending lc = [] ->
  exists lc', lc_pending lc' = [] /\
    exch true true (readKeyRows (length rows) true meta acc lc) [] (flat_map enc_key_row rows)
      (acc ++ map (map value_meaning) rows, lc').
Proof.
  induction rows as [|row rows IH]; intros acc lc Hc Hw Hp; cbn [length readKeyRows flat_map map].
  { exists lc. split; [done|]. rewrite app_nil_r. apply exch_ret. }
  inversion Hw as [|? ? [Hl Hrow] Hrows]; subst.
  set (lc1 := mkLobCollector (lc_pending lc) (lc_reject lc) (zlen acc) (lc_curCol lc)).
  destruct (exch_readKeyColumns meta row 0 lc1) as (lc2 & Hp2 & He2); [lia|lia|done|done|].
  destruct (IH (acc ++ [map value_meaning row]) lc2) as (lc' & Hp' & He'); [done|done|done|].
  exists lc'. split; [done|]. rewrite <- app_assoc in He'. eapply exch_bind_recv; [apply (exch_try _ _ _ _ _ (map value_meaning row, lc2))|exact He'].
  unfold readGeneratedKeyRow, enc_key_row. eapply exch_bind_recv; [apply exch_wrapf, exch_read, decodes_ReadByte|].
  change (int8 (b2z (z2b 1))) with 1. cbn [Z.eqb Pos.eqb].
  rewrite Hc, <- Hl. unfold zlen at 1. rewrite Nat2Z.id. exact He2.
Qed.

Lemma exch_s_read {A} f fmt (m : M Tr A) recv a :
  decodes m recv a -> exch f f (s_or_broken fmt m) [] recv a.
Proof.
  intros Hm. unfold s_or_broken. rewrite <- (app_nil_r recv). eapply exch_bind_recv; [by apply exch_try, exch_read|apply exch_ret].
Qed.

Lemma exch_readAllKeyRows meta rows :
  ColumnCount meta = zlen (Columns meta) ->
  Forall (fun row => zlen row = zlen (Columns meta) /\ forallb wf_value row = true) rows ->
  exists lc', lc_pending lc' = [] /\
    exch true true (readAllKeyRows (zlen rows) meta) [] (flat_map enc_key_row rows) (map (map value_meaning) rows, lc').
Proof.
  intros Hc Hw. set (lc0 := mkLobCollector [] false 0 0).
  destruct (exch_readKeyRows meta rows [] lc0) as (lc' & Hp & He); [done|done|done|].
  unfold readAllKeyRows. fold lc0. destruct rows as [|row rows].
  { exists lc0. split; [done|]. apply exch_ret. }
  exists lc'. split; [done|]. set (l := row :: rows) in *.
  assert (Hz : 1 <= zlen l) by (unfold l; rewrite zlen_cons; pose proof (zlen_nonneg rows); lia).
  replace (zlen l =? 0) with false by lia. intros s out suf Hs.
  assert (Hn : key_rounds (zlen l) s = length l).
  { unfold key_rounds. replace (0 <? zlen l) with true by lia. unfold zlen. apply Nat2Z.id. }
  rewrite Hn. replace (0 <? zlen l) with true by lia. by apply He.
Qed.

Lemma exch_readKeysFrame_version v k :
  wf_keys k -> TCPProtocolVersion20 <= v ->
  exch true true (readKeysFrame_version v) [] (enc_keys k) (keys_meaning k).
Proof.
  intros (Hc & Hr & Hcols & Hrows) Hv. pose proof (zlen_nonneg (wk_columns k)). pose proof (zlen_nonneg (wk_rows k)).
  change maxWireCollectionElements with 1048576 in Hc, Hr.
  set (meta := mkResultMeta (zlen (wk_columns k)) (map column_meaning (wk_columns k))).
  assert (Hz : zlen (Columns meta) = zlen (wk_columns k)) by (unfold zlen; cbn; by rewrite length_map).
  destruct (exch_readAllKeyRows meta (wk_rows k)) as (lc' & Hp & He); [by rewrite Hz|by rewrite Hz|].
  unfold readKeysFrame_version, enc_keys.
  eapply exch_bind_recv; [apply exch_s_read, decodes_ReadInt32; unfold in_intN; lia|].
  eapply exch_bind_recv; [apply exch_s_read, decodes_ReadInt64; unfold in_intN; lia|].
  unfold guard_err. change maxWireCollectionElements with 1048576. replace (_ <? _) with false by lia.
  eapply exch_bind_nil; [apply exch_ret|].
  eapply exch_bind_recv; [apply exch_s_read; by apply decodes_ReadResultMeta|]. fold meta.
  rewrite <- (app_nil_r (flat_map enc_key_row _)). eapply exch_bind_recv; [exact He|]. cbn [fst snd]. rewrite Hp.
  eapply exch_bind_nil; [apply exch_ret|].
  replace (mkGeneratedKeysResult (ColumnNames meta) _) with (keys_meaning k); [apply exch_ret|].
  unfold keys_meaning, ColumnNames, meta. cbn. by rewrite map_map.
Qed.

Lemma exch_readGeneratedKeys k id err :
  wf_keys k ->
  match SingleInt64 (Some (keys_meaning k)) with Ok i => id = i /\ err = None | Err e => id = 0 /\ err = Some e end ->
  forall s out suf, TCPProtocolVersion20 <= s_version s -> wire true s out (enc_keys k ++ suf) ->
  exists s', readGeneratedKeys s = (Ok (Some (keys_meaning k), id, err), s') /\ wire true s' out suf /\ framed s s'.
Proof.
  intros Hk Hid s out suf Hv Hw.
  destruct (exch_readKeysFrame_version (s_version s) k Hk Hv s out suf Hw) as (s' & E & Hw' & Hf).
  rewrite app_nil_r in Hw'. exists s'. split; [|done]. pose proof Hw as (t & Ht & _).
  assert (Ef : readKeysFrame s = (Ok (keys_meaning k), s')).
  { unfold readKeysFrame, session_open, bind, gets. rewrite Ht. exact E. }
  unfold readGeneratedKeys, bind, try, ret. rewrite Ef.
  destruct (SingleInt64 (Some (keys_meaning k))); destruct Hid as [-> ->]; done.
Qed.

(** What an update answers. *)
Definition update_answer (count : Z) (autoCommit : bool) (keys : option wire_keys) : list byte :=
  ok_status ++ enc_int64 count ++ enc_bool autoCommit ++ from_option enc_keys [] keys.

Definition update_result (count : Z) (autoCommit : bool) (keys : option wire_keys) : ResultWithUpdateCount :=
  match keys with
  | None => mkResultWithUpdateCount count autoCommit 0 false None None
  | Some k =>
      match SingleInt64 (Some (keys_meaning k)) with
      | Ok id => mkResultWithUpdateCount count autoCommit id true None (Some (keys_meaning k))
      | Err e => mkResultWithUpdateCount count autoCommit 0 false (Some e) (Some (keys_meaning k))
      end
  end.

Lemma SingleInt64_unavailable g e :
  SingleInt64 (Some g) = Err e -> isLastInsertIDUnavailable e = true.
Proof.
  assert (Hu : forall f a, isLastInsertIDUnavailable (lastInsertIDUnavailableError f a) = true).
  { intros f a. unfold lastInsertIDUnavailableError. by case_bool_decide. }
  assert (Hv : forall v e', generatedKeyValueToInt64 v = Err e' -> isLastInsertIDUnavailable e' = true).
  { assert (Ht : forall x e', parseKeyText x = Err e' -> isLastInsertIDUnavailable e' = true).
    { intros x e'. unfold parseKeyText. destruct (ParseInt _); [done|]. intros [= <-]. apply Hu. }
    intros v e'. destruct v; cbn [generatedKeyValueToInt64]; try done; try apply Ht;
      try (intros [= <-]; apply Hu).
    destruct (float_integer bits); [|intros [= <-]; apply Hu].
    destruct (_ || _); [intros [= <-]; apply Hu|done]. }
  destruct g as [cols rows]. cbn. destruct (_ || _) eqn:E; [intros [= <-]; apply Hu|].
  destruct rows as [|[|v []] ?]; [done|intros [= <-]; apply Hu|apply Hv|intros [= <-]; apply Hu].
Qed.

Lemma readExecuteUpdate_run mode count autoCommit keys s out suf :
  in_intN 64 count -> (mode =? GeneratedKeysNone) = bool_decide (keys = None) ->
  (forall k, keys = Some k -> wf_keys k) -> TCPProtocolVersion20 <= s_version s ->
  wire true s out (update_answer count autoCommit keys ++ suf) ->
  exists s', readExecuteUpdate mode s = (Ok (update_result count autoCommit keys), s') /\
             wire true s' out suf /\ framed s s' /\ s_autoCommit s' = autoCommit.
Proof.
  intros Hc Hm Hk Hv Hw. unfold update_answer in Hw. rewrite <- !app_assoc in Hw.
  destruct (exch_status true opUpdate s out _ Hw) as (s1 & E1 & Hw1 & Hf1). rewrite app_nil_r in Hw1.
  destruct (exch_wrapE _ _ opUpdate _ _ _ _ (exch_read true _ _ _ (decodes_ReadInt64 count Hc)) s1 out _ Hw1)
    as (s2 & E2 & Hw2 & Hf2). rewrite app_nil_r in Hw2.
  destruct (exch_wrapE _ _ opUpdate _ _ _ _ (exch_read true _ _ _ (decodes_ReadBool autoCommit)) s2 out _ Hw2)
    as (s3 & E3 & Hw3 & Hf3). rewrite app_nil_r in Hw3.
  assert (Hf : framed s s3) by eauto using framed_trans.
  unfold readExecuteUpdate. change ReadRowCount with ReadInt64.
  rewrite (bind_Ok _ _ _ _ _ E1), (bind_Ok _ _ _ _ _ E2), (bind_Ok _ _ _ _ _ E3), Hm.
  destruct keys as [k|]; cbn [bool_decide from_option app] in *.
  - rewrite bool_decide_false by done.
    destruct (SingleInt64 (Some (keys_meaning k))) as [i|e] eqn:Es.
    + destruct (exch_readGeneratedKeys k i None (Hk k eq_refl)) with (s := s3) (out := out) (suf := suf)
        as (s4 & E4 & Hw4 & Hf4); [by rewrite Es|destruct Hf as (_&_&->&_); done|done|].
      eexists. unfold bind at 1 2. rewrite E4. unfold update_result. rewrite Es. cbn. split; [done|].
      split; [done|]. split; [|done]. by eapply framed_trans.
    + destruct (exch_readGeneratedKeys k 0 (Some e) (Hk k eq_refl)) with (s := s3) (out := out) (suf := suf)
        as (s4 & E4 & Hw4 & Hf4); [by rewrite Es|destruct Hf as (_&_&->&_); done|done|].
      eexists. unfold bind at 1 2. rewrite E4. rewrite (SingleInt64_unavailable _ _ Es).
      unfold update_result. rewrite Es. cbn. split; [done|]. split; [done|]. split; [|done]. by eapply framed_trans.
  - eexists. split; [reflexivity|]. split; [done|]. split; [exact Hf|done].
Qed.

Lemma resolveGeneratedKeys_framed ctx s s' : framed s s' -> resolveGeneratedKeys ctx s' = resolveGeneratedKeys ctx s.
Proof.
  intros (Hc & _). unfold resolveGeneratedKeys, configuredKeys, generatedKeysMode. by rewrite Hc.
Qed.

Lemma ExecuteUpdatePrepared_run ctx cmd params bs mode cols names count autoCommit keys s out suf :
  cmd_IsQuery cmd = false -> cmd_ParamCount cmd = zlen params -> params_frame cmd 0 params = Some bs ->
  resolveGeneratedKeys ctx s = (mode, cols, names) -> (mode =? GeneratedKeysNone) = bool_decide (keys = None) ->
  (forall k, keys = Some k -> wf_keys k) -> in_intN 64 count -> TCPProtocolVersion20 <= s_version s ->
  wire true s out (update_answer count autoCommit keys ++ suf) ->
  exists s',
    ExecuteUpdatePreparedWithParams ctx cmd params s = (Ok (update_result count autoCommit keys), s') /\
    wire true s' (out ++ update_request cmd (zlen params) bs mode cols names) suf /\
    s_autoCommit s' = autoCommit /\ framed s s'.
Proof.
  intros Hq Hn Hbs Hres Hmode Hk Hc Hv Hw. unfold ExecuteUpdatePreparedWithParams.
  pose proof Hw as (t & Ht & _). unfold session_open, guard_err at 1. unfold bind at 1. rewrite Ht, Hq.
  rewrite (bind_Ok (ret tt) _ s tt s) by done.
  apply (operation_run true true _ _ _ (fun s' => s_autoCommit s' = autoCommit /\ framed s s') s out
           (update_answer count autoCommit keys ++ suf)); [done|done|]. intros s1 Hw1 Hf1.
  unfold guard_err. rewrite Hn, Z.eqb_refl. cbn [negb]. rewrite (bind_Ok (ret tt) _ s1 tt s1) by done.
  unfold bind at 1, gets. rewrite (resolveGeneratedKeys_framed _ s) by done. rewrite Hres.
  destruct (exch_writeExecuteUpdate true cmd params bs mode cols names Hbs s1 out (update_answer count autoCommit keys ++ suf))
    as (s2 & E2 & Hw2 & Hf2); [exact Hw1|]. rewrite (bind_Ok _ _ _ _ _ E2).
  assert (Hv2 : TCPProtocolVersion20 <= s_version s2) by (destruct Hf1 as (_&_&H1&_), Hf2 as (_&_&H2&_); lia).
  destruct (readExecuteUpdate_run mode count autoCommit keys s2 _ suf Hc Hmode Hk Hv2 Hw2)
    as (s3 & E3 & Hw3 & Hf3 & Ha). eauto 10 using framed_trans.
Qed.

(** ** Correctness *)

(** C12 (functional). An update sends one request, the parameters encoded in order and
    the selectors of the generated keys asked for, and returns what the server answers:
    the update count, the autocommit state, which the session takes over, and the keys.
    Their single numeric value is the last insert id; otherwise the reason why there is
    none is kept and the update still succeeds. *)
Theorem ExecuteUpdate_exchange ctx cmd params bs mode cols names count autoCommit keys s out suf :
  cmd_IsQuery cmd = false -> cmd_ParamCount cmd = zlen params -> params_frame cmd 0 params = Some bs ->
  resolveGeneratedKeys ctx s = (mode, cols, names) -> (mode =? GeneratedKeysNone) = bool_decide (keys = None) ->
  (forall k, keys = Some k -> wf_keys k) -> in_intN 64 count -> TCPProtocolVersion20 <= s_version s ->
  wire true s out (update_answer count autoCommit keys ++ suf) ->
  exists s',
    ExecuteUpdatePreparedWithParams ctx cmd params s = (Ok (update_result count autoCommit keys), s') /\
    wire true s' (out ++ update_request cmd (zlen params) bs mode cols names) suf /\
    s_autoCommit s' = autoCommit.
Proof.
  intros Hq Hn Hbs Hres Hmode Hk Hc Hv Hw.
  destruct (ExecuteUpdatePrepared_run ctx cmd params bs mode cols names count autoCommit keys s out suf)
    as (s' & E & Hw' & Ha & _); [done..|]. by exists s'.
Qed.

Definition sample_update : PreparedCommand :=
  mkPreparedCommand 1 (lit "INSERT INTO T(A, B) VALUES (?, ?)") false false 61 2
    (imap (fun k => param_meaning (Z.of_nat k)) sample_params).
Definition sample_keys : wire_keys :=
  mkWireKeys [mkWireColumn (lit "ID") None None (Some (lit "ID")) (WSimple TIBigint) true ColumnNoNulls] [[WireBigint 42]].

Lemma ExecuteUpdate_exchange_witness :
  exists s' bs,
    ExecuteUpdatePreparedWithParams Background sample_update [VInt64 7; VNil]
      (open_session (update_answer 1 false (Some sample_keys) ++ lit "z"))
    = (Ok (mkResultWithUpdateCount 1 false 42 true None (Some (keys_meaning sample_keys))), s') /\
    wire true s' ([] ++ update_request sample_update 2 bs GeneratedKeysAuto None None) (lit "z") /\
    s_autoCommit s' = false.
Proof.
  destruct (ExecuteUpdate_exchange Background sample_update [VInt64 7; VNil]
              (enc_value (WireBigint 7) ++ enc_value WireNull) GeneratedKeysAuto None None 1 false (Some sample_keys)
              (open_session (update_answer 1 false (Some sample_keys) ++ lit "z")) [] (lit "z"))
    as (s' & H1 & H2 & H3); try reflexivity.
  - intros k [= <-]. split_and!; [vm_compute; discriminate|vm_compute; discriminate|reflexivity|].
    repeat constructor.
  - unfold in_intN. lia.
  - vm_compute. discriminate.
  - apply wire_open_session.
  - exists s', (enc_value (WireBigint 7) ++ enc_value WireNull). split; [exact H1|]. split; [exact H2|exact H3].
Defined.

(** ** Requests that are given up *)

Lemma writeParams_refused fmt cmd bad rest good : forall i bs s out inp,
  params_frame cmd i good = Some bs ->
  value_frame bad (pm_TypeInfo <$> cmd_Params cmd !! (i + length good)%nat) = None ->
  wire false s out inp ->
  exists e s', writeParams fmt cmd i (good ++ bad :: rest) s = (Err e, s') /\ wire false s' (out ++ bs) inp /\ framed s s'.
Proof.
  induction good as [|p good IH]; intros i bs s out inp Hg Hb Hw; cbn [app writeParams params_frame] in *.
  - injection Hg as <-. rewrite Nat.add_0_r in Hb. destruct (WriteValue_refused _ _ Hb) as (e & _ & He).
    pose proof Hw as (t & Ht & _). eexists _, (set_tr (Some t) s). rewrite app_nil_r. split; [|split].
    + apply bind_Err. rewrite wrapf_run. unfold on_tr. rewrite Ht, He. done.
    + destruct Hw as (t' & Ht' & Hw). exists t. assert (t = t') as <- by congruence. done.
    + apply framed_tr.
  - destruct (value_frame p _) as [b1|] eqn:E1; [|done].
    destruct (params_frame cmd (S i) good) as [b2|] eqn:E2; [|done]. injection Hg as <-.
    destruct (exch_wrapf _ _ fmt [AInt (Z.of_nat i + 1)] _ _ _ _ (exch_write false _ _ (writes_WriteValue _ _ _ E1)) s out inp Hw)
      as (s1 & Er & Hw1 & Hf1). rewrite (bind_Ok _ _ _ _ _ Er).
    destruct (IH (S i) b2 s1 (out ++ b1) inp E2) as (e & s2 & He & Hw2 & Hf2); [|done|].
    { cbn [length] in Hb. by replace (S i + length good)%nat with (i + S (length good))%nat by lia. }
    exists e, s2. rewrite app_assoc. eauto using framed_trans.
Qed.

Lemma operation_background_Err {A} f cancel (body : M Session A) s e s2 out inp :
  body s = (Err e, s2) -> wire f s2 out inp ->
  exists s', operation Background cancel body s = (Err e, s') /\ wire f s' out inp /\ framed s2 s'.
Proof.
  intros E Hw. assert (Hw' : wire f (set_now (s_now s2 + 1) s2) out inp) by exact Hw.
  destruct (wire_set_deadline _ _ _ _ None Hw') as (t3 & E3 & Hw3).
  exists (set_tr (Some t3) (set_now (s_now s2 + 1) s2)). split; [|split; [done|by split_and!]].
  unfold operation, bind, try, endOperationContext. cbn [beginOperationContext ctx_deadline Background].
  unfold ret at 1. rewrite E. cbn. by rewrite E3.
Qed.

(** C35 (error). A parameter that cannot be encoded makes an update fail, but the part of
    the request written before it stays in the write buffer of a session that is still
    alive: it will precede the next request on the wire. *)
Theorem rejected_parameter_leaves_partial_request cmd good bad rest bs s out inp :
  let params := good ++ bad :: rest in
  cmd_IsQuery cmd = false -> cmd_ParamCount cmd = zlen params ->
  params_frame cmd 0 good = Some bs ->
  value_frame bad (pm_TypeInfo <$> cmd_Params cmd !! length good) = None ->
  wire true s out inp ->
  exists e s',
    ExecuteUpdatePreparedWithParams Background cmd params s = (Err e, s') /\
    wire false s' (out ++ enc_int32 CommandExecuteUpdate ++ enc_int32 (cmd_ID cmd) ++ enc_int32 (zlen params) ++ bs) inp /\
    s_dead s' = s_dead s.
Proof.
  intros params Hq Hn Hg Hb Hw. unfold ExecuteUpdatePreparedWithParams.
  pose proof Hw as (t & Ht & _). unfold session_open, guard_err at 1. unfold bind at 1. rewrite Ht, Hq.
  rewrite (bind_Ok (ret tt) _ s tt s) by done.
  assert (Hhead : exch true false (
    wrapE opUpdate (on_tr (WriteInt32 CommandExecuteUpdate)) ;;
    wrapE opUpdate (on_tr (WriteInt32 (cmd_ID cmd))) ;;
    wrapE opUpdate (on_tr (WriteInt32 (int32 (zlen params)))))
    (enc_int32 CommandExecuteUpdate ++ enc_int32 (cmd_ID cmd) ++ enc_int32 (zlen params)) [] tt).
  { eapply exch_bind_send; [apply exch_int32_E|]. eapply exch_bind_send; [apply exch_int32_E|].
    rewrite <- (enc_int32_int32 (zlen params)). apply exch_int32_E. }
  destruct (Hhead s out inp Hw) as (s1 & E1 & Hw1 & Hf1).
  destruct (writeParams_refused "h2go: ExecuteUpdatePreparedWithParams: encode param %d: %w" cmd bad rest good 0 bs s1 _ inp Hg Hb Hw1)
    as (e & s2 & E2 & Hw2 & Hf2). fold params in E2.
  set (body := guard_err _ _ ;; _).
  assert (Eb : body s = (Err e, s2)).
  { unfold body, guard_err. rewrite Hn, Z.eqb_refl. cbn [negb]. rewrite (bind_Ok (ret tt) _ s tt s) by done.
    unfold bind at 1, gets. destruct (resolveGeneratedKeys Background s) as [[mode cols] names].
    unfold writeExecuteUpdate. apply bind_Err.
    apply bind_Ok_inv in E1 as ([] & sa & Ea & E1). apply bind_Ok_inv in E1 as ([] & sb & Ebb & E1).
    rewrite (bind_Ok _ _ _ _ _ Ea), (bind_Ok _ _ _ _ _ Ebb), (bind_Ok _ _ _ _ _ E1). by apply bind_Err. }
  destruct (operation_background_Err false true body s e s2 _ inp Eb Hw2) as (s' & E & Hw' & Hf').
  exists e, s'. split; [exact E|]. split; [by rewrite <- !app_assoc in Hw'|].
  destruct Hf1 as (_&_&_&H1&_), Hf2 as (_&_&_&H2&_), Hf' as (_&_&_&H3&_). congruence.
Qed.

Lemma rejected_parameter_leaves_partial_request_witness :
  exists e s',
    ExecuteUpdatePreparedWithParams Background sample_update [VInt64 7; VOther (lit "big.Rat")] (open_session [])
    = (Err e, s') /\
    wire false s' ([] ++ enc_int32 CommandExecuteUpdate ++ enc_int32 1 ++ enc_int32 2 ++ enc_value (WireBigint 7)) [] /\
    s_dead s' = false.
Proof.
  apply (rejected_parameter_leaves_partial_request sample_update [VInt64 7] (VOther (lit "big.Rat")) []
           (enc_value (WireBigint 7)) (open_session []) [] []); try reflexivity. apply wire_open_session.
Defined.

(** ** Keys *)

(** C36 (error). A generated-keys frame that announces more rows than the cap is refused
    after its two counts: everything after them is still unread, in a session that
    stays alive. *)
Theorem oversized_keys_left_unread cc rc s out suf :
  in_intN 32 cc -> in_intN 64 rc -> maxWireCollectionElements < rc ->
  wire true s out (enc_int32 cc ++ enc_int64 rc ++ suf) ->
  exists e s', readGeneratedKeys s = (Ok (None, 0, Some e), s') /\ isLastInsertIDUnavailable e = false /\
               wire true s' out suf /\ s_dead s' = s_dead s.
Proof.
  intros H1 H2 H3 Hw.
  destruct (exch_s_read true "h2go: readGeneratedKeys: failed to read column count: %w" _ _ _ (decodes_ReadInt32 cc H1) s out _ Hw)
    as (s1 & E1 & Hw1 & Hf1). rewrite app_nil_r in Hw1.
  destruct (exch_s_read true "h2go: readGeneratedKeys: failed to read row count: %w" _ _ _ (decodes_ReadInt64 rc H2) s1 out _ Hw1)
    as (s2 & E2 & Hw2 & Hf2). rewrite app_nil_r in Hw2. pose proof Hw as (t & Ht & _).
  eexists _, s2. split; [|split; [|split; [exact Hw2|destruct Hf1 as (_&_&_&?&_), Hf2 as (_&_&_&?&_); congruence]]].
  - unfold readGeneratedKeys, readKeysFrame, session_open, bind at 1, try. unfold bind at 1. rewrite Ht.
    unfold bind at 1, gets, readKeysFrame_version. rewrite (bind_Ok _ _ _ _ _ E1). change ReadRowCount with ReadInt64.
    rewrite (bind_Ok _ _ _ _ _ E2). unfold guard_err. replace (_ <? rc) with true by lia. reflexivity.
  - reflexivity.
Qed.

Lemma oversized_keys_left_unread_witness :
  exists e s', readGeneratedKeys (open_session (enc_int32 1 ++ enc_int64 (2 ^ 21) ++ lit "rows")) = (Ok (None, 0, Some e), s') /\
    isLastInsertIDUnavailable e = false /\ wire true s' [] (lit "rows") /\ s_dead s' = false.
Proof.
  apply (oversized_keys_left_unread 1 (2 ^ 21) (open_session (enc_int32 1 ++ enc_int64 (2 ^ 21) ++ lit "rows")) [] (lit "rows"));
    [unfold in_intN; lia|unfold in_intN; lia|reflexivity|apply wire_open_session].
Defined.

(** A key that arrives as a float64 is an insert id only if it is an
    integer, and then it is that integer, with one exception: 2^63, which the bounds
    check lets through although it is not an int64. *)
Theorem float_key_value bits z :
  generatedKeyValueToInt64 (VFloat64 bits) = Ok z ->
  float_integer bits = Some z /\ in_intN 64 z \/ float_integer bits = Some (2 ^ 63) /\ z = - 2 ^ 63.
Proof.
  cbn [generatedKeyValueToInt64]. destruct (float_integer bits) as [i|]; [|done].
  destruct ((i <? - 2 ^ 63) || (2 ^ 63 <? i)) eqn:E; [done|]. unfold int64_of_float, in_intN.
  destruct ((- 2 ^ 63 <=? i) && (i <? 2 ^ 63)) eqn:E2; intros [= <-]; [left; split; [done|lia]|right].
  split; [f_equal; lia|done].
Qed.

Lemma float_key_value_witness :
  let bits := GoFloat.f64_make 0 1086 0 in
  generatedKeyValueToInt64 (VFloat64 bits) = Ok (- 2 ^ 63) /\
  (float_integer bits = Some (- 2 ^ 63) /\ in_intN 64 (- 2 ^ 63) \/ float_integer bits = Some (2 ^ 63) /\ - 2 ^ 63 = - 2 ^ 63).
Proof. split; [reflexivity|]. apply (float_key_value (GoFloat.f64_make 0 1086 0)). reflexivity. Defined.
