(* ===== verification/QueryWire.v ===== *)
(** * Queries on the wire: the request, the answer and the rows

    A query that is answered gives a result set that stands for the server's rows
    ([RowsWire.represents]), so that what [Next_refines_list] says of an iteration is
    said of every query. *)

From S2P Require Import Prelude.
From S2P Require Import GoText.
From S2P Require Import Protocol.
From S2P Require Import Transfer.
From S2P Require Import Errors.
From S2P Require Import Fuel.
From S2P Require Import TypeInfo.
From S2P Require Import Metadata.
From S2P Require Import Value.
From S2P Require Import ValueRead.
From S2P Require Import ValueWire.
From S2P Require Import ValueWrite.
From S2P Require Import Session.
From S2P Require Import SessionFacts.
From S2P Require Import Exchange.
From S2P Require Import Rows.
From S2P Require Import RowsFacts.
From S2P Require Import RowsWire.
From S2P Require Import UpdateWire.

(** ** The request *)

Definition query_request (cmd resultID maxRows fetchSize n : Z) (bs : list byte) : list byte :=
  enc_int32 CommandExecuteQuery ++ enc_int32 cmd ++ enc_int32 resultID ++ enc_int64 maxRows
  ++ enc_int32 fetchSize ++ enc_int32 n ++ bs.

Lemma exch_writeExecuteQuery f cmd resultID maxRows fetchSize params bs :
  params_frame cmd 0 params = Some bs ->
  exch f true (writeExecuteQuery cmd resultID maxRows fetchSize params)
    (query_request (cmd_ID cmd) resultID maxRows fetchSize (zlen params) bs) [] tt.
Proof.
  intros Hb. unfold writeExecuteQuery, query_request.
  do 3 (eapply exch_bind_send; [apply exch_int32|]).
  eapply exch_bind_send; [apply exch_wrapf, exch_write, writes_WriteInt64|].
  rewrite <- (enc_int32_int32 fetchSize). eapply exch_bind_send; [apply exch_int32|].
  rewrite <- (enc_int32_int32 (zlen params)). eapply exch_bind_send; [apply exch_int32|].
  rewrite <- (app_nil_r bs). eapply exch_bind_send; [by apply exch_writeParams|].
  apply exch_wrapf, exch_flush.
Qed.

(** ** The answer *)

(** The rows that come with the answer: as many as were asked for at most, or the ones
    there are when their number is [known]. *)
Definition first_fetch (known : bool) (fs : Z) (rows : list (list wire_cell)) : Z :=
  if known then Z.min fs (zlen rows) else fs.

(** [answers id known fs rows inp req]: to a query of these rows the server sends, from
    its first batch on, [inp] in all, the client's later requests being [req]. *)
Inductive answers (id : Z) (known : bool) (fs : Z)
  : list (list wire_cell) -> list byte -> list byte -> Prop :=
| answers_last rows :
    known = false -> zlen rows < fs ->
    answers id known fs rows (enc_batch (Z.to_nat fs) rows ++ batch_replies rows) (batch_requests rows)
| answers_more rows rest inp req :
    zlen rows = first_fetch known fs (rows ++ rest) -> serves id known fs rest inp req ->
    answers id known fs (rows ++ rest)
      ((enc_batch (Z.to_nat (zlen rows)) rows ++ batch_replies rows) ++ inp) (batch_requests rows ++ req).

(** The number of rows as the answer announces it. *)
Definition announced (known : bool) (rows : list (list wire_cell)) : Z :=
  if known then zlen rows else -1.

Definition query_answer (known : bool) (cols : list wire_column) (rows : list (list wire_cell)) : list byte :=
  ok_status ++ enc_int32 (zlen cols) ++ enc_int64 (announced known rows) ++ flat_map enc_column cols.

(** The result set before its first batch. *)
Definition opened (id : Z) (known : bool) (fs : Z) (owns : bool) (cmd : Z) (cols : list wire_column)
    (rows : list (list wire_cell)) : Rows :=
  mkRows id (zlen cols) (Some (mkResultMeta (zlen cols) (map column_meaning cols))) (announced known rows)
    [] 0 [] fs false false owns cmd None false None.

Lemma has_columns_opened id known fs owns cmd cols rows :
  has_columns (zlen cols) (opened id known fs owns cmd cols rows).
Proof. split; [done|]. eexists. split; [done|]. unfold zlen. cbn. by rewrite length_map. Qed.

Lemma announced_fetch known fs rows :
  1 <= fs ->
  (if (0 <=? announced known rows) && (announced known rows <? fs) then announced known rows else fs)
  = first_fetch known fs rows.
Proof.
  intros Hf. unfold announced, first_fetch. pose proof (zlen_nonneg rows). destruct known; [|done].
  destruct (_ && _) eqn:E; lia.
Qed.

(** The first batch, when there is one. *)
Lemma exchR_prefetch id known fs owns cmd cols all rows fetch :
  1 <= fs -> first_fetch known fs all = fetch -> Forall (wf_row (zlen cols)) rows -> zlen rows <= fetch ->
  let r := opened id known fs owns cmd cols all in
  exchR true true prefetchInitialRows r (batch_requests rows)
    (enc_batch (Z.to_nat fetch) rows ++ batch_replies rows) tt
    (finished (ended (Z.to_nat fetch) rows) (set_buffered (map (map cell_value) rows) r)).
Proof.
  intros Hf Hn Hr Hl r. unfold prefetchInitialRows.
  eapply exchR_bind_nil; [apply exchR_rows|]. eapply exchR_bind_nil; [apply exchR_rows|].
  cbn [rs_rowCount rs_fetchSize r opened]. rewrite announced_fetch, Hn by done.
  destruct (0 <? fetch) eqn:E.
  - apply exchR_wrapf. eapply exchR_to; [apply (exchR_fetchRows (zlen cols)); [apply has_columns_opened|done|done]|done].
  - pose proof (zlen_nonneg rows). assert (fetch = 0) as -> by lia.
    assert (rows = []) as -> by (apply nil_length_inv; unfold zlen in *; lia). apply exchR_ret.
Qed.

Lemma exch_making {r : Rows} {m : M RS unit} {sent recv r'} :
  exchR true true m r sent recv tt r' -> exch true true (making r m) sent recv r'.
Proof.
  intros Hm s out suf Hw. destruct (Hm _ _ _ Hw) as (s' & E & H). exists s'. split; [|done].
  unfold making. by rewrite E.
Qed.

Lemma exch_NewRows id known fs owns cmd cols all rows fetch :
  1 <= fs -> zlen cols <= maxWireCollectionElements -> forallb wf_column cols = true -> zlen all < 2 ^ 63 ->
  first_fetch known fs all = fetch -> Forall (wf_row (zlen cols)) rows -> zlen rows <= fetch ->
  exch true true (NewRows id (zlen cols) fs owns cmd) (batch_requests rows)
    (enc_int64 (announced known all) ++ flat_map enc_column cols
     ++ enc_batch (Z.to_nat fetch) rows ++ batch_replies rows)
    (finished (ended (Z.to_nat fetch) rows)
       (set_buffered (map (map cell_value) rows) (opened id known fs owns cmd cols all))).
Proof.
  intros Hf Hc Hcols Hall Hn Hr Hl. unfold NewRows. eapply exch_bind_nil; [apply exch_session_open|].
  apply exch_making. pose proof (zlen_nonneg all).
  eapply exchR_bind_recv.
  { apply exchR_or_broken, exchR_read, decodes_ReadInt64. unfold in_intN, announced. destruct known; lia. }
  eapply exchR_bind_nil; [apply exchR_update|].
  eapply exchR_bind_recv; [by apply exchR_or_broken, exchR_read, decodes_ReadResultMeta|].
  eapply exchR_bind_nil; [apply exchR_update|].
  by apply (exchR_prefetch id known fs owns cmd cols all).
Qed.

(** What the first batch leaves: the result set stands for all the rows. *)
Lemma represents_opened id known fs owns cmd cols all rows rest inp req s out suf (e : bool) :
  1 <= fs -> zlen all < 2 ^ 63 -> all = rows ++ rest ->
  Forall (wf_row (zlen cols)) all ->
  (if e then rest = [] /\ inp = [] /\ req = [] else serves id known fs rest inp req) ->
  wire true s out (inp ++ suf) ->
  represents (zlen cols) (out ++ req) suf
    (s, set_contextCleanup true (finished e (set_buffered (map (map cell_value) rows)
          (opened id known fs owns cmd cols all))))
    (map (map cell_value) all).
Proof.
  intros Hf Hall -> Hw Hs Hwire. apply Forall_app in Hw as [Hw1 Hw2].
  exists rest, out, inp, req. pose proof (zlen_nonneg (rows ++ rest)).
  assert (Hk : announced known (rows ++ rest) < 0 \/
    (0 <= 0 /\ announced known (rows ++ rest) = 0 + zlen (map (map cell_value) (rows ++ rest)) /\
     announced known (rows ++ rest) < 2 ^ 63)).
  { unfold announced. destruct known; [right|left; lia]. unfold zlen in *. rewrite length_map. lia. }
  assert (Hz : (0 <=? announced known (rows ++ rest)) = known) by (unfold announced; destruct known; lia).
  destruct e; cbn -[has_columns announced Z.pow map]; rewrite ?Hz;
    (split_and!; try done;
       first [by destruct Hs as (? & ? & ?)|apply has_columns_opened|by apply meanings_width|by rewrite map_app]).
Qed.

Lemma exch_closing {A} f f' owns cmd (m : M Session A) sent recv a :
  exch f f' m sent recv a -> exch f f' (closing owns cmd m) sent recv a.
Proof.
  intros Hm. rewrite <- (app_nil_r sent), <- (app_nil_r recv). eapply exch_bind; [by apply exch_try|apply exch_ret].
Qed.

(** The request, and the result set that its answer opens. *)
Lemma exch_query ctx cmd params bs id maxRows fs owns known cols all rows fetch :
  params_frame cmd 0 params = Some bs ->
  1 <= fs -> zlen cols <= maxWireCollectionElements -> forallb wf_column cols = true -> zlen all < 2 ^ 63 ->
  first_fetch known fs all = fetch -> Forall (wf_row (zlen cols)) rows -> zlen rows <= fetch ->
  exch true true (
    beginOperationContext ctx true ;;
    x <- try (closing owns cmd (
      writeExecuteQuery cmd id maxRows fs params ;;
      wrapE "executeQueryWire" (on_tr readStatus) ;;
      columnCount <- wrapf "h2go: executeQueryWire: failed to read column count: %w" [] (on_tr ReadInt32) ;;
      r <- NewRows id columnCount fs owns (if owns then cmd_ID cmd else 0) ;;
      ret (set_contextCleanup true r))) ;;
    y <- try (finalizeContext ctx x) ;;
    match y with
    | Ok r => ret r
    | Err e => endOperationContext ;; fail e
    end)
    (query_request (cmd_ID cmd) id maxRows fs (zlen params) bs ++ batch_requests rows)
    (query_answer known cols all ++ enc_batch (Z.to_nat fetch) rows ++ batch_replies rows)
    (set_contextCleanup true (finished (ended (Z.to_nat fetch) rows) (set_buffered (map (map cell_value) rows)
       (opened id known fs owns (if owns then cmd_ID cmd else 0) cols all)))).
Proof.
  intros Hp Hf Hc Hcols Hall Hn Hr Hl.
  eapply exch_bind_nil.
  { unfold beginOperationContext. destruct (ctx_deadline ctx); [apply exch_set_deadline|apply exch_ret]. }
  rewrite <- (app_nil_r (query_request _ _ _ _ _ _ ++ _)), <- (app_nil_r (query_answer _ _ _ ++ _)).
  eapply exch_bind; [apply exch_try, exch_closing|].
  - unfold query_answer. rewrite <- !app_assoc. eapply exch_bind_send; [by apply exch_writeExecuteQuery|].
    eapply exch_bind_recv; [apply exch_status|].
    eapply exch_bind_recv.
    { apply exch_wrapf, exch_read, decodes_ReadInt32. unfold in_intN. change maxWireCollectionElements with 1048576 in Hc.
      pose proof (zlen_nonneg cols). lia. }
    rewrite <- (app_nil_r (batch_requests _)), <- (app_nil_r (enc_int64 _ ++ _)).
    eapply exch_bind; [by apply (exch_NewRows id known fs owns _ cols all)|apply exch_ret].
  - eapply exch_bind_nil; [apply exch_try, exch_ret|]. apply exch_ret.
Qed.

(** A query on a session that is open: the request is sent, and the rows stand for the
    server's. *)
Lemma executeQueryWire_run ctx cmd params bs maxRows fs owns known cols rows inp req s out suf :
  let id := int32 (s_nextID s + 1) in
  params_frame cmd 0 params = Some bs ->
  1 <= fs -> zlen cols <= maxWireCollectionElements -> forallb wf_column cols = true ->
  Forall (wf_row (zlen cols)) rows -> zlen rows < 2 ^ 63 -> answers id known fs rows inp req ->
  wire true s out (query_answer known cols rows ++ inp ++ suf) ->
  exists s' r,
    executeQueryWire ctx cmd maxRows fs params owns s = (Ok r, s') /\
    represents (zlen cols)
      (out ++ query_request (cmd_ID cmd) id maxRows fs (zlen params) bs ++ req) suf (s', r)
      (map (map cell_value) rows) /\
    Rows_Columns r = Some (map (fun c => sanitize (wc_alias c)) cols) /\
    (rs_resultID r, rs_ownsCommand r, rs_commandID r) = (id, owns, if owns then cmd_ID cmd else 0) /\
    framed (set_nextID id s) s'.
Proof.
  intros id Hp Hf Hc Hcols Hr Hall Ha Hw.
  assert (exists first rest fetch inp' req', rows = first ++ rest /\ first_fetch known fs rows = fetch /\
    zlen first <= fetch /\
    (if ended (Z.to_nat fetch) first then rest = [] /\ inp' = [] /\ req' = [] else serves id known fs rest inp' req') /\
    inp = (enc_batch (Z.to_nat fetch) first ++ batch_replies first) ++ inp' /\
    req = batch_requests first ++ req')
    as (first & rest & fetch & inp' & req' & Hsplit & Hfetch & Hle & Hsv & -> & ->).
  { destruct Ha as [rows Hk Hlt|rows rest inp req Hn Hsv].
    - exists rows, [], fs, [], []. rewrite !app_nil_r. split_and!; try done; [by subst known|lia|].
      replace (ended _ _) with true; [done|]. symmetry. apply Nat.ltb_lt. unfold zlen in Hlt. lia.
    - exists rows, rest, (zlen rows), inp, req. split_and!; try done.
      unfold ended, zlen. by rewrite Nat2Z.id, Nat.ltb_irrefl. }
  assert (Hfirst : Forall (wf_row (zlen cols)) first) by (rewrite Hsplit in Hr; by apply Forall_app in Hr as [? _]).
  rewrite <- app_assoc, app_assoc in Hw.
  destruct (exch_query ctx cmd params bs id maxRows fs owns known cols rows first fetch Hp Hf Hc Hcols Hall Hfetch
              Hfirst Hle (set_nextID id s) out (inp' ++ suf) Hw) as (s' & E & Hw' & Hf').
  eexists s', _. split; [exact E|]. split; [|split_and!].
  - rewrite !app_assoc. rewrite <- (app_assoc out). eapply represents_opened; [done|done|exact Hsplit|done|exact Hsv|done].
  - unfold Rows_Columns. destruct (ended _ _); cbn; unfold ColumnNames; cbn; by rewrite map_map.
  - by destruct (ended _ _).
  - done.
Qed.

Lemma framed_nextID a b s s1 s' :
  framed (set_nextID a s) s1 -> framed (set_nextID b s1) s' -> framed (set_nextID b s) s'.
Proof. intros (?&?&?&?&?&?) (?&?&?&?&?&?). cbn in *. split_and!; cbn; congruence. Qed.

(** ** Queries of a command that is prepared for them *)

(** [PrepareCommand]: its request and its answer. *)
Definition prepare_simple_request (id : Z) (sql : gostring) : list byte :=
  enc_int32 SessionPrepare ++ enc_int32 id ++ enc_string sql.
Definition prepare_simple_answer (isQuery readOnly : bool) (paramCount : Z) : list byte :=
  ok_status ++ enc_bool isQuery ++ enc_bool readOnly ++ enc_int32 paramCount.

Lemma PrepareCommand_run ctx sql isQuery readOnly paramCount s out suf :
  in_intN 32 paramCount -> wire true s out (prepare_simple_answer isQuery readOnly paramCount ++ suf) ->
  let id := int32 (s_nextID s + 1) in
  exists s',
    PrepareCommand ctx sql s = (Ok (mkPreparedCommand id sql isQuery readOnly CmdUnknown paramCount []), s') /\
    wire true s' (out ++ prepare_simple_request id sql) suf /\ framed (set_nextID id s) s'.
Proof.
  intros Hp Hs id. unfold PrepareCommand.
  rewrite (bind_Ok (session_open _) _ s tt s) by (destruct Hs as (t & Ht & _); unfold session_open; by rewrite Ht).
  eapply (exch_operation_id true true); [|exact Hs]. unfold prepare_simple_request, prepare_simple_answer.
  do 2 (eapply exch_bind_send; [apply exch_int32|]). rewrite <- (app_nil_r (enc_string sql)).
  eapply exch_bind_send; [apply exch_wrapf, exch_write, writes_WriteString|].
  eapply exch_bind_nil; [apply exch_wrapf, exch_flush|].
  eapply exch_bind_recv; [apply exch_status|].
  do 2 (eapply exch_bind_recv; [apply exch_wrapf, exch_read, decodes_ReadBool|]).
  rewrite <- (app_nil_r (enc_int32 paramCount)).
  eapply exch_bind_recv; [by apply exch_wrapf, exch_read, decodes_ReadInt32|apply exch_ret].
Qed.

(** A query without parameters: the command is prepared, and closed with the rows. *)
Lemma ExecuteQuery_run ctx sql maxRows fs readOnly paramCount known cols rows inp req s out suf :
  let id := int32 (s_nextID s + 1) in
  let resultID := int32 (id + 1) in
  in_intN 32 paramCount ->
  1 <= fs -> zlen cols <= maxWireCollectionElements -> forallb wf_column cols = true ->
  Forall (wf_row (zlen cols)) rows -> zlen rows < 2 ^ 63 -> answers resultID known fs rows inp req ->
  wire true s out (prepare_simple_answer true readOnly paramCount ++ query_answer known cols rows ++ inp ++ suf) ->
  exists s' r,
    ExecuteQuery ctx sql maxRows fs s = (Ok r, s') /\
    represents (zlen cols)
      (out ++ prepare_simple_request id sql ++ query_request id resultID maxRows fs 0 [] ++ req) suf (s', r)
      (map (map cell_value) rows) /\
    Rows_Columns r = Some (map (fun c => sanitize (wc_alias c)) cols) /\
    (rs_resultID r, rs_ownsCommand r, rs_commandID r) = (resultID, true, id) /\
    framed (set_nextID resultID s) s'.
Proof.
  intros id resultID Hp Hf Hc Hcols Hr Hall Ha Hw. unfold ExecuteQuery.
  rewrite (bind_Ok (session_open _) _ s tt s) by (destruct Hw as (t & Ht & _); unfold session_open; by rewrite Ht).
  destruct (PrepareCommand_run ctx sql true readOnly paramCount s out _ Hp Hw) as (s1 & E1 & Hw1 & Hf1). fold id in E1, Hw1, Hf1.
  rewrite (bind_Ok _ _ s _ s1) by (by apply wrapE_Ok). cbn [cmd_IsQuery negb].
  assert (Hn : s_nextID s1 = id) by (destruct Hf1 as (_&_&_&_&->&_); done).
  destruct (executeQueryWire_run ctx (mkPreparedCommand id sql true readOnly CmdUnknown paramCount []) [] [] maxRows fs true
              known cols rows inp req s1 (out ++ prepare_simple_request id sql) suf) as (s' & r & E & Hrep & Hcn & Hids & Hfr);
    rewrite ?Hn; try done.
  rewrite Hn in *. exists s', r. split; [exact E|]. rewrite <- app_assoc in Hrep. split; [exact Hrep|].
  split; [done|]. split; [exact Hids|]. by eapply framed_nextID.
Qed.

(** ** Correctness *)

Lemma ExecuteQueryPrepared_run ctx cmd params bs maxRows fs known cols rows inp req s out suf :
  let id := int32 (s_nextID s + 1) in
  cmd_IsQuery cmd = true -> cmd_ParamCount cmd = zlen params -> params_frame cmd 0 params = Some bs ->
  1 <= fs -> zlen cols <= maxWireCollectionElements -> forallb wf_column cols = true ->
  Forall (wf_row (zlen cols)) rows -> zlen rows < 2 ^ 63 -> answers id known fs rows inp req ->
  wire true s out (query_answer known cols rows ++ inp ++ suf) ->
  exists s' r,
    ExecuteQueryPreparedWithParams ctx cmd maxRows fs params s = (Ok r, s') /\
    represents (zlen cols)
      (out ++ query_request (cmd_ID cmd) id maxRows fs (zlen params) bs ++ req) suf (s', r)
      (map (map cell_value) rows) /\
    Rows_Columns r = Some (map (fun c => sanitize (wc_alias c)) cols) /\
    (rs_resultID r, rs_ownsCommand r, rs_commandID r) = (id, false, 0) /\ framed (set_nextID id s) s'.
Proof.
  intros id Hq Hn Hp Hf Hc Hcols Hr Hall Ha Hw. unfold ExecuteQueryPreparedWithParams.
  rewrite (bind_Ok (session_open _) _ s tt s) by (destruct Hw as (t & Ht & _); unfold session_open; by rewrite Ht).
  rewrite Hq, Hn, Z.eqb_refl. cbn [negb].
  exact (executeQueryWire_run ctx cmd params bs maxRows fs false known cols rows inp req s out suf Hp Hf Hc Hcols Hr Hall Ha Hw).
Qed.

(** C6 (refinement). A query with parameters sends one request, which holds the
    command, a fresh result id, the limits and the encoded parameters in order, and
    returns a result set that stands for the list of the rows the server has: [Next]
    returns them in order, whatever part of them came with the answer, whether their
    number was announced or not, and with LOBs fetched on demand. The column names are
    those of the server's metadata. *)
Theorem query_refines_list ctx cmd params bs maxRows fs known cols rows inp req s out suf :
  let id := int32 (s_nextID s + 1) in
  cmd_IsQuery cmd = true -> cmd_ParamCount cmd = zlen params -> params_frame cmd 0 params = Some bs ->
  1 <= fs -> zlen cols <= maxWireCollectionElements -> forallb wf_column cols = true ->
  Forall (wf_row (zlen cols)) rows -> zlen rows < 2 ^ 63 -> answers id known fs rows inp req ->
  wire true s out (query_answer known cols rows ++ inp ++ suf) ->
  exists s' r,
    ExecuteQueryPreparedWithParams ctx cmd maxRows fs params s = (Ok r, s') /\
    represents (zlen cols)
      (out ++ query_request (cmd_ID cmd) id maxRows fs (zlen params) bs ++ req) suf (s', r)
      (map (map cell_value) rows) /\
    Rows_Columns r = Some (map (fun c => sanitize (wc_alias c)) cols).
Proof.
  intros id Hq Hn Hp Hf Hc Hcols Hr Hall Ha Hw.
  destruct (ExecuteQueryPrepared_run ctx cmd params bs maxRows fs known cols rows inp req s out suf)
    as (s' & r & E & Hrep & Hcn & _); [done..|]. by exists s', r.
Qed.

(** Two rows, fetched one at a time: a LOB in the first batch and a text in the second. *)
Definition sample_query : PreparedCommand :=
  mkPreparedCommand 1 (lit "SELECT A FROM T WHERE B = ?") true true 66 1
    [param_meaning 0 (WSimple TIBigint, ColumnNullable)].
Definition sample_column : wire_column :=
  mkWireColumn (lit "A") None None (Some (lit "A")) (WSimple TIInteger) false ColumnNullable.
Definition sample_first : list (list wire_cell) := take 1 sample_batch.
Definition sample_rest : list (list wire_cell) := drop 1 sample_batch.

Lemma query_refines_list_witness :
  exists inp req s' r,
    ExecuteQueryPreparedWithParams Background sample_query 0 1 [VInt64 7]
      (open_session (query_answer true [sample_column] sample_batch ++ inp ++ lit "z")) = (Ok r, s') /\
    represents 1 (query_request 1 1 0 1 1 (enc_value (WireBigint 7)) ++ req) (lit "z") (s', r)
      [[VString (lit "hello")]; [VString (lit "x")]] /\
    Rows_Columns r = Some [lit "A"].
Proof.
  set (inp := (enc_batch 1 sample_first ++ batch_replies sample_first) ++ batch_reply 1 sample_rest ++ []).
  set (req := batch_requests sample_first ++ (fetch_request 1 1 ++ batch_requests sample_rest) ++ []).
  exists inp, req.
  destruct (query_refines_list Background sample_query [VInt64 7] (enc_value (WireBigint 7)) 0 1 true [sample_column]
           sample_batch inp req (open_session (query_answer true [sample_column] sample_batch ++ inp ++ lit "z")) [] (lit "z"))
    as (s' & r & H1 & H2 & H3).
  - reflexivity.
  - reflexivity.
  - reflexivity.
  - lia.
  - vm_compute. discriminate.
  - reflexivity.
  - apply wf_sample_batch.
  - vm_compute. reflexivity.
  - apply (answers_more 1 true 1 sample_first sample_rest); [reflexivity|].
    apply (serves_more 1 true 1 1 sample_rest []); [lia|reflexivity|reflexivity|by constructor].
  - apply wire_open_session.
  - exists s', r. split; [exact H1|]. split; [exact H2|exact H3].
Defined.
