(* ===== verification/Conn.v ===== *)
(** * Connections (conn.go)

    [c_sess] is the session object the connection was opened with; [c_open] tells
    whether the connection still refers to it ([c.sess != nil]). Rows keep their own
    reference, so the object outlives the connection's. *)

From S2P Require Import Prelude.
From S2P Require Import GoText.
From S2P Require Import Protocol.
From S2P Require Import Transfer.
From S2P Require Import Errors.
From S2P Require Import Metadata.
From S2P Require Import GoTime.
From S2P Require Import GoFloat.
From S2P Require Import Value.
From S2P Require Import Dsn.
From S2P Require Import Session.
From S2P Require Import Rows.
From S2P Require Import GeneratedKeys.
From S2P Require Import Update.

Record conn := mkConn {
  c_open : bool;
  c_busy : bool;
  c_sess : Session
}.

Definition set_busy (b : bool) (c : conn) : conn := mkConn (c_open c) b (c_sess c).

(** An operation of [c.sess]. *)
Definition on_session {A} (m : M Session A) : M conn A := fun c =>
  if c_open c then let '(x, s') := m (c_sess c) in (x, mkConn true (c_busy c) s')
  else (Err (EPanic "nil session"), c).

(** Looking at a context, which needs no session. *)
Definition on_clock {A} (m : M Session A) : M conn A := fun c =>
  let '(x, s') := m (c_sess c) in (x, mkConn (c_open c) (c_busy c) s').

(** ** Exclusive use *)

Definition acquire : M conn unit := fun c =>
  if negb (c_open c) || s_dead (c_sess c) then (Err (ESent driver_ErrBadConn), c)
  else if c_busy c then
    (Err (EErrorf "h2go: connection already in use (concurrent operations not supported)" []), c)
  else (Ok tt, set_busy true c).

Definition release : M conn unit := modify (set_busy false).

(** [defer m2()] around [m]. *)
Definition deferring {S A} (m2 : M S unit) (m : M S A) : M S A :=
  x <- try m ;;
  discard m2 ;;
  match x with
  | Ok a => ret a
  | Err e => fail e
  end.

(** [if err := c.acquire(); err != nil { return err }; defer c.release()] *)
Definition exclusively {A} (m : M conn A) : M conn A :=
  acquire ;; deferring release m.

(** ** Closing *)

Definition conn_Close : M conn unit := fun c =>
  if negb (c_open c) then (Ok tt, c)
  else if c_busy c then (Ok tt, mkConn false false (c_sess c))
  else
    let s1 := if negb (s_autoCommit (c_sess c))
              then (rollbackCurrentTransaction Background (c_sess c)).2 else c_sess c in
    let '(x, s2) := Session_Close s1 in
    (x, mkConn false false s2).

(** ** Arguments *)

(** What a caller passes as an argument: a value of a driver type; a value of another
    integer, unsigned or floating-point type, by its value; a type whose underlying
    type is bool, string or []byte; a pointer; something with a [Value] method, by
    what that returns; any other type. *)
Inductive Arg :=
| ArgValue (v : Value)
| ArgInt (z : Z)
| ArgUint (z : Z)
| ArgFloat32 (bits : Z)
| ArgKind (v : Value)
| ArgPointer (a : option Arg)
| ArgValuer (r : res Value)
| ArgOther (goType : gostring).

(** [driver.IsValue]: a decimal type ([VOther]) counts as a value as well. *)
Definition IsValue (v : Value) : bool := negb (is_pending v).

(** [driver.DefaultParameterConverter.ConvertValue] *)
Fixpoint ConvertValue (a : Arg) : res Value :=
  match a with
  | ArgValue v => if IsValue v then Ok v else Err (EErrorf "unsupported type %T, a %s" [])
  | ArgInt z => Ok (VInt64 z)
  | ArgUint z =>
      if z <? 2 ^ 63 then Ok (VInt64 z)
      else Err (EErrorf "uint64 values with high bit set are not supported" [])
  | ArgFloat32 bits => Ok (VFloat64 (float64_of_float32 bits))
  | ArgKind v => Ok v
  | ArgPointer None => Ok VNil
  | ArgPointer (Some a) => ConvertValue a
  | ArgValuer (Err e) => Err e
  | ArgValuer (Ok v) =>
      if IsValue v then Ok v
      else Err (EErrorf "non-Value type %T returned from Value" [AStr (goTypeName v)])
  | ArgOther t => Err (EErrorf "unsupported type %T, a %s" [AStr t])
  end.

Record NamedValue := mkNamedValue {
  nv_Name : gostring;
  nv_Ordinal : Z;
  nv_Value : Arg
}.

(** The value that replaces the argument. *)
Definition normalizeNamedValue (nv : NamedValue) : res Value :=
  if negb (bool_decide (nv_Name nv = [])) then
    Err (EErrorf "h2go: named parameters are not supported; use positional ? placeholders" [])
  else if nv_Ordinal nv <? 1 then
    Err (EErrorf "h2go: invalid parameter ordinal %d" [AInt (nv_Ordinal nv)])
  else
    match ConvertValue (nv_Value nv) with
    | Err e => Err (EWrapf "h2go: parameter %d conversion failed: %w" [AInt (nv_Ordinal nv)] [e])
    | Ok v =>
        match v with
        | VNil | VBool _ | VInt64 _ | VFloat64 _ | VString _ | VBytes _ | VTime _ => Ok v
        | _ => Err (EErrorf "h2go: parameter %d has unsupported type %T"
                      [AInt (nv_Ordinal nv); AStr (goTypeName v)])
        end
    end.

Definition CheckNamedValue (nv : NamedValue) : res NamedValue :=
  match normalizeNamedValue nv with
  | Ok v => Ok (mkNamedValue (nv_Name nv) (nv_Ordinal nv) (ArgValue v))
  | Err e => Err e
  end.

(** The loop of [convertNamedValues] from index [i]. *)
Fixpoint convertFrom (i : Z) (args : list NamedValue) : res (list Value) :=
  match args with
  | [] => Ok []
  | arg :: args' =>
      match normalizeNamedValue arg with
      | Err e => Err e
      | Ok v =>
          if negb (nv_Ordinal arg =? i + 1) then
            Err (EErrorf "h2go: invalid parameter ordinal %d at index %d" [AInt (nv_Ordinal arg); AInt i])
          else match convertFrom (i + 1) args' with
               | Ok vs => Ok (v :: vs)
               | Err e => Err e
               end
      end
  end.

Definition convertNamedValues (args : list NamedValue) : res (list Value) := convertFrom 0 args.

(** ** Limits *)

Definition defaultFetchSize : Z := 100.

Definition conn_cfg (c : conn) : option Config := if c_open c then s_cfg (c_sess c) else None.

Definition effectiveMaxRows (c : conn) : Z :=
  match conn_cfg c with
  | Some cfg => if cfg_MaxRows cfg <? 0 then 0 else cfg_MaxRows cfg
  | None => 0
  end.

Definition effectiveFetchSize (c : conn) : Z :=
  match conn_cfg c with
  | Some cfg => if cfg_FetchSize cfg <=? 0 then defaultFetchSize else cfg_FetchSize cfg
  | None => defaultFetchSize
  end.

(** ** Statements *)

(** [stmt] without its mutex. [st_conn]: whether it still refers to its connection. *)
Record stmt := mkStmt {
  st_conn : bool;
  st_cmd : option PreparedCommand;
  st_closed : bool;
  st_closePending : bool;
  st_closeSent : bool
}.

Definition PrepareContext (ctx : Ctx) (query : gostring) : M conn stmt :=
  exclusively (
    cmd <- on_session (PrepareCommandReadParams ctx query) ;;
    ret (mkStmt true (Some cmd) false false false)).

Definition Prepare (query : gostring) : M conn stmt := PrepareContext Background query.

(** ** Queries *)

(** On success the connection stays busy until the rows are closed. *)
Definition query_rows (m : M Session Rows) (cb : Callback) : M conn Rows :=
  x <- try (on_session m) ;;
  match x with
  | Err e => release ;; fail e
  | Ok r => ret (set_closeCallback (Some cb) r)
  end.

Definition queryContextInternal (ctx : Ctx) (query : gostring) : M conn Rows :=
  acquire ;;
  c <- get ;;
  query_rows (ExecuteQuery ctx query (effectiveMaxRows c) (effectiveFetchSize c)) ReleaseConn.

Definition QueryContext (ctx : Ctx) (query : gostring) (args : list NamedValue) : M conn Rows :=
  match args with
  | [] => queryContextInternal ctx query
  | _ =>
      params <- lift (convertNamedValues args) ;;
      acquire ;;
      c <- get ;;
      query_rows (ExecuteQueryWithParams ctx query (effectiveMaxRows c) (effectiveFetchSize c) params)
        ReleaseConn
  end.

Definition result_of (res : ResultWithUpdateCount) : result :=
  mkResult (ru_UpdateCount res) (ru_LastInsertID res) (ru_LastInsertIDSet res) (ru_LastInsertErr res)
    (ru_GeneratedKeys res).

Definition ExecContext (ctx : Ctx) (query : gostring) (args : list NamedValue) : M conn result :=
  params <- (match args with [] => ret [] | _ => lift (convertNamedValues args) end) ;;
  exclusively (
    res <- on_session (match params with
                       | [] => ExecuteUpdate ctx query
                       | _ => ExecuteUpdateWithParams ctx query params
                       end) ;;
    ret (result_of res)).

(** ** Rows of a connection *)

Definition on_rows_conn {A} (m : M RS A) : M (conn * Rows) A := fun '(c, r) =>
  let '(x, (s', r')) := m (c_sess c, r) in (x, (mkConn (c_open c) (c_busy c) s', r')).

#[export] Instance RowsHost_conn : RowsHost (conn * Rows) := {
  on_rows := @on_rows_conn;
  runCallback := fun cb '(c, r) =>
    match cb with
    | ReleaseConn => let '(x, c') := release c in (x, (c', r))
    | FinishOperation => (Err (EPanic "no statement"), (c, r))
    end
}.

(** ** Health *)

(** The loop of [Ping]. A row that [Next] returns took at least one byte of the stream
    or was buffered, which bounds the rounds. *)
Fixpoint drain (fuel : nat) (dest : list Value) : M (conn * Rows) unit :=
  match fuel with
  | O => fail EFuel
  | S fuel' =>
      x <- try (on_rows (Next dest)) ;;
      match x with
      | Ok dest' => drain fuel' dest'
      | Err (ESent io_EOF) => ret tt
      | Err e => discard Rows_Close ;; fail e
      end
  end.

Definition drain_fuel (s : Session) (r : Rows) : nat :=
  S (length (rs_bufferedRows r) + match s_tr s with Some t => length (input t) | None => 0 end).

Definition Ping (ctx : Ctx) : M conn unit :=
  r <- queryContextInternal ctx (lit "SELECT 1") ;;
  fun c =>
    let '(x, (c', _)) :=
      (drain (drain_fuel (c_sess c) r) (repeat VNil (length (default [] (Rows_Columns r)))) ;;
       Rows_Close) (c, r) in
    (x, c').

(** The driver's answer, with the connection's state afterwards. *)
Definition IsValid (c : conn) : bool * conn :=
  match exclusively (on_session (hasPendingTransaction Background)) c with
  | (Ok _, c') => (true, c')
  | (Err _, c') => (false, c')
  end.

(** [if err := m; err != nil { _ = c.sess.Abort(); return driver.ErrBadConn }] *)
Definition or_bad_conn {A} (m : M Session A) : M conn A :=
  x <- try (on_session m) ;;
  match x with
  | Ok a => ret a
  | Err _ => discard (on_session Session_Abort) ;; fail (ESent driver_ErrBadConn)
  end.

Definition ResetSession (ctx : Ctx) : M conn unit :=
  on_clock (check_ctx ctx) ;;
  c <- get ;;
  if negb (c_open c) then fail (ESent driver_ErrBadConn)
  else
    x <- try acquire ;;
    match x with
    | Err _ => fail (ESent driver_ErrBadConn)
    | Ok _ =>
        deferring release (
          pending <- or_bad_conn (hasPendingTransaction ctx) ;;
          (if pending : bool then or_bad_conn (rollbackCurrentTransaction ctx) else ret tt) ;;
          c <- get ;;
          if negb (s_autoCommit (c_sess c)) then or_bad_conn (setAutoCommit ctx true) else ret tt)
    end.
