(* ===== verification/Stmt.v ===== *)
(** * Prepared statements (stmt.go)

    A statement shares its connection with everything else that uses it: the state of
    its operations is the pair of both. *)

From S2P Require Import Prelude.
From S2P Require Import GoText.
From S2P Require Import Protocol.
From S2P Require Import Transfer.
From S2P Require Import Value.
From S2P Require Import Session.
From S2P Require Import Rows.
From S2P Require Import GeneratedKeys.
From S2P Require Import Update.
From S2P Require Import Conn.

Definition CS : Type := conn * stmt.

Definition on_conn {A} (m : M conn A) : M CS A := fun '(c, st) =>
  let '(x, c') := m c in (x, (c', st)).
Definition on_stmt {A} (m : M stmt A) : M CS A := fun '(c, st) =>
  let '(x, st') := m st in (x, (c, st')).

Definition set_st_closed (s : stmt) : stmt :=
  mkStmt (st_conn s) (st_cmd s) true (st_closePending s) (st_closeSent s).
Definition set_st_closePending (s : stmt) : stmt :=
  mkStmt (st_conn s) (st_cmd s) (st_closed s) true (st_closeSent s).

(** [s.cmd == cmd] holds whenever the code calls this, for the statement has one
    command and only loses it here. *)
Definition markCommandClosed : M stmt unit := modify (fun s =>
  mkStmt false None (st_closed s) false true).

(** [cmd.Close(c.sess)], which does nothing for a nil session. *)
Definition close_command (cmd : PreparedCommand) : M conn unit := fun c =>
  if c_open c then on_session (PreparedCommand_Close cmd) c else (Ok tt, c).

Definition stmt_Close : M CS unit :=
  s <- on_stmt get ;;
  on_stmt (modify set_st_closed) ;;
  match st_cmd s with
  | None => ret tt
  | Some cmd =>
      if st_closeSent s then ret tt
      else if negb (st_conn s) then on_stmt markCommandClosed
      else
        x <- try (on_conn acquire) ;;
        match x with
        | Err _ => on_stmt (modify (fun s => if negb (st_closeSent s) then set_st_closePending s else s))
        | Ok _ => deferring (on_conn release) (on_conn (close_command cmd) ;; on_stmt markCommandClosed)
        end
  end.

Definition NumInput (s : stmt) : Z :=
  if st_closed s then -1
  else match st_cmd s with
       | None => -1
       | Some cmd => cmd_ParamCount cmd
       end.

(** ** Operations *)

Definition beginOperation : M CS PreparedCommand :=
  s <- on_stmt get ;;
  match st_cmd s with
  | None => fail (EErrorf "h2go: statement is closed" [])
  | Some cmd =>
      if st_closed s || negb (st_conn s) || st_closeSent s then fail (EErrorf "h2go: statement is closed" [])
      else on_conn acquire ;; ret cmd
  end.

Definition closePendingOnOwnedConn : M CS unit :=
  s <- on_stmt get ;;
  match st_cmd s with
  | None => ret tt
  | Some cmd =>
      if negb (st_closed s) || negb (st_closePending s) || st_closeSent s then ret tt
      else on_conn (close_command cmd) ;; on_stmt markCommandClosed
  end.

Definition finishOperation : M CS unit := deferring (on_conn release) closePendingOnOwnedConn.

(** [select { case <-ctx.Done(): return ctx.Err() ... }] *)
Definition not_done (ctx : Ctx) : M CS unit := on_conn (on_clock (check_ctx ctx)).

Definition stmt_ExecContext (ctx : Ctx) (args : list NamedValue) : M CS result :=
  params <- lift (convertNamedValues args) ;;
  not_done ctx ;;
  cmd <- beginOperation ;;
  x <- try (on_conn (on_session (ExecuteUpdatePreparedWithParams ctx cmd params))) ;;
  y <- try finishOperation ;;
  match x, y with
  | Err e, _ => fail e
  | Ok _, Err e => fail e
  | Ok res, Ok _ => ret (result_of res)
  end.

Definition stmt_QueryContext (ctx : Ctx) (args : list NamedValue) : M CS Rows :=
  params <- lift (convertNamedValues args) ;;
  not_done ctx ;;
  cmd <- beginOperation ;;
  c <- on_conn get ;;
  x <- try (on_conn (on_session (ExecuteQueryPreparedWithParams ctx cmd (effectiveMaxRows c)
                                   (effectiveFetchSize c) params))) ;;
  match x with
  | Err e =>
      y <- try finishOperation ;;
      match y with
      | Err closeErr => fail closeErr
      | Ok _ => fail e
      end
  | Ok r => ret (set_closeCallback (Some FinishOperation) r)
  end.

(** [driver.NamedValue{Ordinal: i + 1, Value: v}] for each argument, from index [i]. *)
Fixpoint number_args (i : Z) (args : list Value) : list NamedValue :=
  match args with
  | [] => []
  | v :: args' => mkNamedValue [] (i + 1) (ArgValue v) :: number_args (i + 1) args'
  end.

Definition stmt_Exec (args : list Value) : M CS result := stmt_ExecContext Background (number_args 0 args).
Definition stmt_Query (args : list Value) : M CS Rows := stmt_QueryContext Background (number_args 0 args).

(** The check of an argument is the connection's. *)
Definition stmt_CheckNamedValue (nv : NamedValue) : res NamedValue := CheckNamedValue nv.

(** ** Rows of a statement *)

#[export] Instance RowsHost_stmt : RowsHost (CS * Rows) := {
  on_rows := fun A m '((c, st), r) =>
    let '(x, (c', r')) := on_rows_conn m (c, r) in (x, ((c', st), r'));
  runCallback := fun cb '(cs, r) =>
    let '(x, cs') := (match cb with
                      | ReleaseConn => on_conn release
                      | FinishOperation => finishOperation
                      end) cs in (x, (cs', r))
}.
