(* ===== verification/Tx.v ===== *)
(** * Transactions (tx.go) *)

From S2P Require Import Prelude.
From S2P Require Import GoText.
From S2P Require Import Protocol.
From S2P Require Import Transfer.
From S2P Require Import Session.
From S2P Require Import Update.
From S2P Require Import Conn.

Definition defaultTxIsolationSQL : gostring := lit "READ COMMITTED".

(** [tx] without its mutex. *)
Record tx := mkTx {
  tx_restoreIsolation : bool;
  tx_done : bool
}.

(** [driver.TxOptions]; the isolation is the number of a [sql.IsolationLevel]. *)
Record TxOptions := mkTxOptions {
  opt_Isolation : Z;
  opt_ReadOnly : bool
}.

Definition LevelDefault : Z := 0.
Definition LevelReadUncommitted : Z := 1.
Definition LevelReadCommitted : Z := 2.
Definition LevelWriteCommitted : Z := 3.
Definition LevelRepeatableRead : Z := 4.
Definition LevelSnapshot : Z := 5.
Definition LevelSerializable : Z := 6.
Definition LevelLinearizable : Z := 7.

Definition txIsolationSQL (level : Z) : res (gostring * bool) :=
  if one_of level [LevelDefault; LevelReadCommitted] then Ok ([], false)
  else if level =? LevelReadUncommitted then Ok (lit "READ UNCOMMITTED", true)
  else if level =? LevelRepeatableRead then Ok (lit "REPEATABLE READ", true)
  else if level =? LevelSnapshot then Ok (lit "SNAPSHOT", true)
  else if level =? LevelSerializable then Ok (lit "SERIALIZABLE", true)
  else if one_of level [LevelWriteCommitted; LevelLinearizable] then
    Err (EErrorf "h2go: BeginTx: isolation level %v is not supported by H2" [AInt level])
  else Err (EErrorf "h2go: BeginTx: unknown isolation level %v" [AInt level]).

(** [errors.Join] of errors that are not nil. *)
Definition errors_Join (es : list error) : error := EWrapf "%w" [] es.

(** The connection is released however the body ends. *)
Definition beginTx (ctx : Ctx) (opts : TxOptions) : M conn tx :=
  on_clock (check_ctx ctx) ;;
  c <- get ;;
  if negb (c_open c) then fail (ESent driver_ErrBadConn)
  else if opt_ReadOnly opts then fail (EErrorf "h2go: BeginTx: read-only transactions are not supported" [])
  else
    iso <- lift (txIsolationSQL (opt_Isolation opts)) ;;
    exclusively (
      c <- get ;;
      if negb (s_autoCommit (c_sess c)) then fail (EErrorf "h2go: BeginTx: transaction already active" [])
      else
        on_session (setAutoCommit ctx false) ;;
        (match iso.1 with
         | [] => ret tt
         | isolationSQL =>
             x <- try (on_session (setTransactionIsolation ctx isolationSQL)) ;;
             match x with
             | Ok _ => ret tt
             | Err e =>
                 y <- try (on_session (setAutoCommit Background true)) ;;
                 match y with
                 | Ok _ => fail e
                 | Err restoreErr => fail (errors_Join [e; restoreErr])
                 end
             end
         end) ;;
        ret (mkTx iso.2 false)).

Definition Begin : M conn tx := beginTx Background (mkTxOptions LevelDefault false).
Definition BeginTx (ctx : Ctx) (opts : TxOptions) : M conn tx := beginTx ctx opts.

(** ** The end of a transaction *)

(** What runs while the connection is held. *)
Definition finish_held (rollback restoreIsolation : bool) : M conn unit :=
  on_session (if rollback then rollbackCurrentTransaction Background
              else commitCurrentTransaction Background) ;;
  e1 <- (if restoreIsolation then
           x <- try (on_session (setTransactionIsolation Background defaultTxIsolationSQL)) ;;
           ret (match x with Err e => [e] | Ok _ => [] end)
         else ret []) ;;
  y <- try (on_session (setAutoCommit Background true)) ;;
  match e1 ++ (match y with Err e => [e] | Ok _ => [] end) with
  | [] => ret tt
  | errs => fail (errors_Join errs)
  end.

(** From the moment the connection is held: another goroutine may have finished the
    transaction between the first look at [done] and this one. *)
Definition finish_acquired (rollback : bool) : M (conn * tx) unit := fun '(c, t) =>
  if tx_done t then (Err (ESent sql_ErrTxDone), ((release c).2, t))
  else
    let '(x, c') := deferring release (finish_held rollback (tx_restoreIsolation t)) c in
    (x, (c', mkTx (tx_restoreIsolation t) true)).

Definition finishTransaction (rollback : bool) : M (conn * tx) unit := fun '(c, t) =>
  if tx_done t then (Err (ESent sql_ErrTxDone), (c, t))
  else if negb (c_open c) then (Err (ESent driver_ErrBadConn), (c, t))
  else
    match acquire c with
    | (Err e, c') =>
        (Err e, (c', if errors_Is e driver_ErrBadConn then mkTx (tx_restoreIsolation t) true else t))
    | (Ok _, c') => finish_acquired rollback (c', t)
    end.

Definition Commit : M (conn * tx) unit := finishTransaction false.
Definition Rollback : M (conn * tx) unit := finishTransaction true.
