(* ===== verification/ConnFacts.v ===== *)
(** * Connections, statements and transactions: who may use the session, and how it ends *)

From S2P Require Import Prelude.
From S2P Require Import GoText.
From S2P Require Import Protocol.
From S2P Require Import Transfer.
From S2P Require Import Errors.
From S2P Require Import Value.
From S2P Require Import Session.
From S2P Require Import SessionFacts.
From S2P Require Import Exchange.
From S2P Require Import Rows.
From S2P Require Import RowsFacts.
From S2P Require Import GeneratedKeys.
From S2P Require Import Update.
From S2P Require Import ExecuteFacts.
From S2P Require Import Conn.
From S2P Require Import Stmt.
From S2P Require Import Tx.

(** ** Running on a connection *)

Lemma on_session_run {A} (m : M Session A) c :
  c_open c = true ->
  on_session m c = ((m (c_sess c)).1, mkConn true (c_busy c) (m (c_sess c)).2).
Proof. intros Ho. unfold on_session. rewrite Ho. by destruct (m (c_sess c)). Qed.

Lemma deferring_run {S A} (m2 : M S unit) (m : M S A) s :
  deferring m2 m s = ((m s).1, (m2 (m s).2).2).
Proof. unfold deferring, bind, try, discard. by destruct (m s) as [[a|e] s1]. Qed.

Lemma acquire_idle c :
  c_open c = true -> c_busy c = false -> s_dead (c_sess c) = false -> acquire c = (Ok tt, set_busy true c).
Proof. intros Ho Hb Hd. unfold acquire. by rewrite Ho, Hb, Hd. Qed.

(** ** Resetting a pooled connection *)

(** Good: the session is alive. Bad: the answer is [ErrBadConn] and the session is broken. *)
Definition good_or_bad {A} (P : Session -> Prop) (m : M conn A) : Prop := forall c,
  c_open c = true -> alive (c_sess c) ->
  match m c with
  | (Ok _, c') => c_open c' = true /\ alive (c_sess c') /\ P (c_sess c')
  | (Err e, c') => e = ESent driver_ErrBadConn /\ broken (c_sess c')
  end.

Lemma good_or_bad_bind {A B} P Q (m : M conn A) (k : A -> M conn B) :
  good_or_bad P m -> (forall a, good_or_bad Q (k a)) -> good_or_bad Q (bind m k).
Proof.
  intros Hm Hk c Ho Ha. specialize (Hm c Ho Ha). unfold bind. destruct (m c) as [[a|e] c1]; [|done].
  destruct Hm as (H1 & H2 & _). by apply Hk.
Qed.

Lemma good_or_bad_op {A} (P : Session -> Prop) (m : M Session A) :
  fair m -> (forall s a s', m s = (Ok a, s') -> P s') -> good_or_bad P (or_bad_conn m).
Proof.
  intros Hf HP c Ho Ha. unfold or_bad_conn, bind, try, discard. rewrite on_session_run by done.
  pose proof (proj1 (Hf (c_sess c)) Ha) as Hr. unfold session_of, HasSession_id in Hr.
  destruct (m (c_sess c)) as [[a|e] s'] eqn:E; cbn [fst snd] in *.
  - cbn. destruct Hr as [Hr _]. split_and!; [done|done|by eapply HP].
  - rewrite on_session_run by done. cbn. split; [done|]. apply broken_Abort.
    destruct (fair_outcome _ _ _ Hr) as [[? _]|?]; auto.
Qed.

(** A successful operation ends in the autocommit state its body leaves. *)
Lemma finalizeContext_Err {A} ctx e s : exists e' s', finalizeContext ctx (Err e : res A) s = (Err e', s').
Proof.
  unfold finalizeContext, ctx_Err, tick, ret, fail, discard, bind.
  destruct (match ctx_done_at ctx with Some _ => _ | None => _ end) as [c|].
  - destruct (errors_As e) as [h|]; [destruct (Code h =? _)|]; eauto.
  - destruct (ctx_deadline ctx) as [d|]; [|eauto]. destruct (net_timeout e) as [[]|]; [|eauto..].
    cbn. destruct (_ <? _); eauto.
Qed.

Lemma operation_Ok {A} ctx cancel (body : M Session A) s a s' :
  operation ctx cancel body s = (Ok a, s') ->
  exists s1 s2, body s1 = (Ok a, s2) /\ s_autoCommit s' = s_autoCommit s2.
Proof.
  intros H. unfold operation in H. apply bind_Ok_inv in H as ([] & s1 & _ & H).
  unfold bind, try, endOperationContext, set_deadline in H. exists s1.
  destruct (body s1) as [[a'|e] s2].
  - exists s2. cbn in H. destruct (s_tr s2); injection H as <- <-; done.
  - destruct (finalizeContext_Err (A := A) ctx e s2) as (e' & s3 & E). rewrite E in H.
    by destruct (s_tr s3).
Qed.

Lemma setAutoCommit_sets ctx b s s' : setAutoCommit ctx b s = (Ok tt, s') -> s_autoCommit s' = b.
Proof.
  unfold setAutoCommit. intros H. apply bind_Ok_inv in H as ([] & s1 & _ & H).
  apply operation_Ok in H as (s2 & s3 & H & ->).
  repeat (apply bind_Ok_inv in H as (? & ? & _ & H)). by injection H as <-.
Qed.

(** [ResetSession] succeeds with a session that is alive and has autocommit on, or
    answers [driver.ErrBadConn] and leaves the session broken; either way the connection
    is released. *)
Lemma ResetSession_outcome ctx c :
  ctx_done_at ctx = None -> c_open c = true -> c_busy c = false -> alive (c_sess c) ->
  match ResetSession ctx c with
  | (Ok _, c') => alive (c_sess c') /\ s_autoCommit (c_sess c') = true /\ c_busy c' = false
  | (Err e, c') => e = ESent driver_ErrBadConn /\ broken (c_sess c') /\ c_busy c' = false
  end.
Proof.
  intros Hd Ho Hb Ha. unfold ResetSession.
  set (c1 := mkConn true false (set_now (s_now (c_sess c) + 1) (c_sess c))).
  assert (Eclk : on_clock (check_ctx ctx) c = (Ok tt, c1)).
  { unfold on_clock, check_ctx, ctx_Err, tick, bind, ret. rewrite Hd. unfold c1. by rewrite Ho, Hb. }
  rewrite (bind_Ok _ _ _ _ _ Eclk). unfold bind at 1, get. cbn [c_open c1 negb].
  unfold bind at 1, try. rewrite acquire_idle by (done || apply Ha). rewrite deferring_run.
  set (body := pending <- _ ;; _).
  assert (Hbody : good_or_bad (fun s => s_autoCommit s = true) body).
  { apply (good_or_bad_bind (fun _ => True)); [apply good_or_bad_op; [apply fair_hasPendingTransaction|done]|].
    intros pending. apply (good_or_bad_bind (fun _ => True)).
    { destruct pending; [apply good_or_bad_op; [apply fair_rollbackCurrentTransaction|done]|by intros ?]. }
    intros _ c2 Ho2 Ha2. unfold bind, get. destruct (s_autoCommit (c_sess c2)) eqn:Eac; [done|].
    refine (good_or_bad_op (fun s => s_autoCommit s = true) _ (fair_setAutoCommit ctx true) _ c2 Ho2 Ha2).
    intros s [] s'. apply setAutoCommit_sets. }
  specialize (Hbody (set_busy true c1) eq_refl Ha).
  destruct (body (set_busy true c1)) as [[[]|e] c2]; cbn in *; naive_solver.
Qed.

(** ** Exclusive use *)

Definition errInUse : error :=
  EErrorf "h2go: connection already in use (concurrent operations not supported)" [].

Lemma acquire_busy c :
  c_open c = true -> c_busy c = true -> s_dead (c_sess c) = false -> acquire c = (Err errInUse, c).
Proof. intros Ho Hb Hd. unfold acquire. by rewrite Ho, Hb, Hd. Qed.

(** Looking at a context that does not end only reads the clock. *)
Lemma on_clock_check ctx c : ctx_done_at ctx = None -> on_clock (check_ctx ctx) c = (Ok tt, (on_clock tick c).2).
Proof. intros Hc. unfold on_clock, check_ctx, ctx_Err, bind, ret, tick. by rewrite Hc. Qed.

Definition is_Ok {A} (x : res A) : bool := match x with Ok _ => true | Err _ => false end.

(** The error of an operation that needs its arguments converted first. *)
Definition refused_with (args : list NamedValue) : error :=
  match convertNamedValues args with
  | Ok _ => errInUse
  | Err e => e
  end.

(** A statement that has not been closed. *)
Definition in_use (st : stmt) : Prop :=
  st_closed st = false /\ st_closeSent st = false /\ st_conn st = true /\ is_Some (st_cmd st).

Lemma beginOperation_busy c st :
  c_open c = true -> c_busy c = true -> s_dead (c_sess c) = false -> in_use st ->
  beginOperation (c, st) = (Err errInUse, (c, st)).
Proof.
  intros Ho Hb Hd (H1 & H2 & H3 & cmd & H4). unfold beginOperation, bind, on_stmt, get, on_conn.
  rewrite H4, H1, H2, H3. cbn. by rewrite (acquire_busy c Ho Hb Hd).
Qed.

(** C26 (safety). While a connection is in use, what another goroutine starts on it is
    refused and leaves the connection, its session and the stream exactly as they are,
    but for the clock where the context is looked at first: preparing a statement, a query
    or an update with any arguments (those that cannot be converted are refused for that),
    Ping, a validity check, beginning a transaction with any options, committing or
    rolling one back (the transaction is not marked done), executing or querying a
    statement. A reset answers [driver.ErrBadConn]. Closing a statement succeeds but only
    marks the statement. ([conn.Close], which abandons the session, is not refused.) *)
Theorem busy_connection_is_left_alone c ctx query args opts st t :
  c_open c = true -> c_busy c = true -> s_dead (c_sess c) = false -> ctx_done_at ctx = None ->
  let ticked := (on_clock tick c).2 in
  PrepareContext ctx query c = (Err errInUse, c) /\
  QueryContext ctx query args c = (Err (refused_with args), c) /\
  ExecContext ctx query args c = (Err (refused_with args), c) /\
  Ping ctx c = (Err errInUse, c) /\
  IsValid c = (false, c) /\
  ResetSession ctx c = (Err (ESent driver_ErrBadConn), ticked) /\
  (exists e, BeginTx ctx opts c = (Err e, ticked) /\
     (opt_ReadOnly opts = false -> is_Ok (txIsolationSQL (opt_Isolation opts)) = true -> e = errInUse)) /\
  (tx_done t = false -> Commit (c, t) = (Err errInUse, (c, t)) /\ Rollback (c, t) = (Err errInUse, (c, t))) /\
  (in_use st ->
     let after := if is_Ok (convertNamedValues args) then ticked else c in
     stmt_ExecContext ctx args (c, st) = (Err (refused_with args), (after, st)) /\
     stmt_QueryContext ctx args (c, st) = (Err (refused_with args), (after, st)) /\
     stmt_Close (c, st) = (Ok tt, (c, set_st_closePending (set_st_closed st)))).
Proof.
  intros Ho Hb Hd Hc ticked. pose proof (acquire_busy c Ho Hb Hd) as Ha.
  assert (Hat : acquire ticked = (Err errInUse, ticked)) by (apply acquire_busy; by rewrite ?Ho, ?Hb).
  pose proof (on_clock_check ctx c Hc) as Ek. fold ticked in Ek.
  assert (Hot : c_open ticked = true) by exact Ho.
  assert (Hbt : in_use st -> beginOperation (ticked, st) = (Err errInUse, (ticked, st))) by (by apply beginOperation_busy).
  clearbody ticked.
  assert (He : forall A (m : M conn A), exclusively m c = (Err errInUse, c)) by (intros; by apply bind_Err).
  assert (Hq : queryContextInternal ctx query c = (Err errInUse, c)) by (by apply bind_Err).
  split_and!.
  - apply He.
  - unfold QueryContext, refused_with. destruct args as [|a args]; [exact Hq|].
    destruct (convertNamedValues (a :: args)); [|done]. unfold bind at 1, lift. by apply bind_Err.
  - unfold ExecContext, refused_with. destruct args as [|a args]; [apply He|].
    destruct (convertNamedValues (a :: args)); [|done]. unfold bind at 1, lift. apply He.
  - apply bind_Err. by apply bind_Err.
  - unfold IsValid. by rewrite He.
  - unfold ResetSession. rewrite (bind_Ok _ _ _ _ _ Ek). unfold bind at 1, get. rewrite Hot. cbn.
    unfold bind, try. by rewrite Hat.
  - unfold BeginTx, beginTx. rewrite (bind_Ok _ _ _ _ _ Ek). unfold bind at 1, get. rewrite Hot. cbn [negb].
    destruct (opt_ReadOnly opts); [by eexists|]. unfold bind at 1, lift.
    destruct (txIsolationSQL _) as [iso|e]; [|by eexists]. exists errInUse. split; [|done]. unfold exclusively.
    by apply bind_Err.
  - intros Ht. unfold Commit, Rollback, finishTransaction. by rewrite Ht, Ho, Ha.
  - intros Hst. specialize (Hbt Hst).
    assert (Hn : not_done ctx (c, st) = (Ok tt, (ticked, st))) by (unfold not_done, on_conn; by rewrite Ek).
    destruct Hst as (H1 & H2 & H3 & cmd & H4). unfold refused_with, stmt_ExecContext, stmt_QueryContext. split_and!.
    + unfold bind at 1, lift. destruct (convertNamedValues args); [|done]. rewrite (bind_Ok _ _ _ _ _ Hn). by apply bind_Err.
    + unfold bind at 1, lift. destruct (convertNamedValues args); [|done]. rewrite (bind_Ok _ _ _ _ _ Hn). by apply bind_Err.
    + unfold stmt_Close, bind, on_stmt, get, modify, on_conn, try. rewrite H4, H2, H3. cbn [negb]. rewrite Ha.
      cbn. by rewrite H2.
Qed.

Lemma busy_connection_is_left_alone_witness :
  let c := mkConn true true (open_session (lit "rows in flight")) in
  QueryContext Background (lit "SELECT ?") [mkNamedValue [] 1 (ArgInt 2)] c = (Err errInUse, c) /\
  Commit (c, mkTx false false) = (Err errInUse, (c, mkTx false false)).
Proof.
  cbv zeta.
  destruct (busy_connection_is_left_alone (mkConn true true (open_session (lit "rows in flight"))) Background
           (lit "SELECT ?") [mkNamedValue [] 1 (ArgInt 2)] (mkTxOptions LevelDefault false)
           (mkStmt true None false false false) (mkTx false false) eq_refl eq_refl eq_refl eq_refl)
    as (_ & H1 & _ & _ & _ & _ & _ & H2 & _).
  split; [exact H1|apply H2; reflexivity].
Defined.

(** ** Closing rows *)

Definition same_rows {A} (m : M RS A) : Prop := forall s r, (m (s, r)).2.2 = r.

Lemma same_rows_wire {A} fmt args (m : M Tr A) : same_rows (wrapf fmt args (on_wire m)).
Proof.
  intros s r. rewrite wrapf_run. unfold on_wire, on_sess. by destruct (on_tr m s) as [[a|e] s'].
Qed.
Lemma same_rows_bind {A B} (m : M RS A) (k : A -> M RS B) :
  same_rows m -> (forall a, same_rows (k a)) -> same_rows (bind m k).
Proof.
  intros Hm Hk s r. specialize (Hm s r). unfold bind. destruct (m (s, r)) as [[a|e] [s1 r1]]; cbn in *; subst; [|done].
  apply Hk.
Qed.
Lemma same_rows_rows {A} (f : Rows -> A) : same_rows (rows f).
Proof. done. Qed.
Lemma same_rows_sendResultClose : same_rows sendResultClose.
Proof.
  unfold sendResultClose.
  repeat (apply same_rows_bind; [apply same_rows_wire || apply same_rows_rows|intros ?]). apply same_rows_wire.
Qed.
Lemma same_rows_sendCommandClose : same_rows sendCommandClose.
Proof.
  unfold sendCommandClose.
  repeat (apply same_rows_bind; [apply same_rows_wire || apply same_rows_rows|intros ?]). apply same_rows_wire.
Qed.

Lemma also_run (cond : bool) (m : M RS unit) e s r :
  same_rows m -> exists e' s', also cond m e (s, r) = (Ok e', (s', r)) /\ (cond = false -> s' = s /\ e' = e).
Proof.
  intros Hm. unfold also. destruct cond; [|by exists e, s].
  specialize (Hm s r). unfold bind, try. destruct (m (s, r)) as [[a|e0] [s1 r1]]; cbn in Hm; subst r1.
  - exists e, s1. by destruct e.
  - destruct e; [eexists _, s1|exists (Some e0), s1]; done.
Qed.

(** The rows after they were closed. *)
Definition released (r : Rows) : Rows :=
  set_closeCallback None (set_columns None (set_current [] (rs_rowOffset r)
    (set_buffered [] (set_contextCleanup false (set_closed r))))).

Lemma Rows_release_run s r :
  exists e s', Rows_release (s, r) = (Ok (e, rs_closeCallback r), (s', released r)) /\
               (broken s -> s' = s /\ e = None).
Proof.
  unfold Rows_release.
  assert (Hclean : exists s1, (if rs_contextCleanup r then on_sess endOperationContext ;; update (set_contextCleanup false) else ret tt)
     (s, set_closed r) = (Ok tt, (s1, set_contextCleanup false (set_closed r))) /\ (broken s -> s1 = s)).
  { destruct (rs_contextCleanup r) eqn:E.
    - unfold endOperationContext, set_deadline, bind, on_sess, update.
      destruct (s_tr s) eqn:Et; eexists; (split; [done|]); [intros (Hn & _); congruence|done].
    - exists s. split; [|done]. unfold ret. do 2 f_equal. destruct r. cbn in *. by subst. }
  destruct Hclean as (s1 & E1 & Hb1). unfold bind at 1, update at 1. cbn beta iota. unfold bind at 1, rows at 1.
  cbn [snd rs_contextCleanup set_closed]. rewrite (bind_Ok _ _ _ _ _ E1).
  set (r1 := set_contextCleanup false (set_closed r)). unfold bind at 1, gets at 1. cbn [fst].
  destruct (also_run (usable s1) sendResultClose None s1 r1 same_rows_sendResultClose) as (e2 & s2 & E2 & Hb2).
  rewrite (bind_Ok _ _ _ _ _ E2). unfold bind at 1, gets at 1. cbn [fst]. unfold bind at 1, rows at 1. cbn [snd].
  destruct (also_run (rs_ownsCommand r1 && negb (rs_commandID r1 =? 0) && usable s2) sendCommandClose e2 s2 r1
              same_rows_sendCommandClose) as (e3 & s3 & E3 & Hb3).
  rewrite (bind_Ok _ _ _ _ _ E3). exists e3, s3. split; [done|]. intros Hb.
  assert (Hu : forall x, x = s -> usable x = false) by (intros x ->; destruct Hb as (Hn & _); unfold usable; by rewrite Hn).
  destruct (Hb2 (Hu s1 (Hb1 Hb))) as [-> ->]. rewrite (Hu s1 (Hb1 Hb)), andb_false_r in Hb3.
  destruct (Hb3 eq_refl) as [-> ->]. by rewrite (Hb1 Hb).
Qed.

Lemma Rows_Close_run c r :
  rs_closed r = false -> rs_closeCallback r = Some ReleaseConn ->
  exists x s',
    Rows_Close (c, r) = (x, (mkConn (c_open c) false s', released r)) /\
    Rows_Close (mkConn (c_open c) false s', released r) = (Ok tt, (mkConn (c_open c) false s', released r)) /\
    (broken (c_sess c) -> x = Ok tt /\ s' = c_sess c).
Proof.
  destruct c as [op busy s]. cbn [c_open c_sess].
  intros Hc Hcb. destruct (Rows_release_run s r) as (e & s' & E & Hb). rewrite Hcb in E.
  exists (match e with Some e => Err e | None => Ok tt end), s'. split_and!.
  - unfold Rows_Close. unfold bind at 1. cbn [on_rows RowsHost_conn]. unfold on_rows_conn at 1, rows.
    cbn [c_open c_busy c_sess snd]. rewrite Hc. unfold bind at 1, on_rows_conn. cbn [c_sess]. rewrite E. cbn. unfold bind, also, try, release, modify, set_busy. cbn.
    by destruct e.
  - reflexivity.
  - intros Hbr. destruct (Hb Hbr) as [-> ->]. done.
Qed.

(** Closing the rows of a connection's query releases the connection
    whatever happens to the messages it sends, drops the buffered rows, and can be
    repeated: a second close does nothing. On a broken session it sends nothing at all. *)
Theorem Rows_Close_releases c r :
  rs_closed r = false -> rs_closeCallback r = Some ReleaseConn ->
  exists x s',
    Rows_Close (c, r) = (x, (mkConn (c_open c) false s', released r)) /\
    Rows_Close (mkConn (c_open c) false s', released r) = (Ok tt, (mkConn (c_open c) false s', released r)) /\
    (broken (c_sess c) -> x = Ok tt /\ s' = c_sess c).
Proof. apply Rows_Close_run. Qed.

Lemma Rows_Close_releases_witness :
  let r := set_closeCallback (Some ReleaseConn) (sample_rows [[VInt64 1]]) in
  let c := mkConn true true (open_session []) in
  exists x s', Rows_Close (c, r) = (x, (mkConn true false s', released r)) /\
    Rows_Close (mkConn true false s', released r) = (Ok tt, (mkConn true false s', released r)).
Proof.
  cbv zeta. destruct (Rows_Close_releases (mkConn true true (open_session []))
    (set_closeCallback (Some ReleaseConn) (sample_rows [[VInt64 1]])) eq_refl eq_refl) as (x & s' & H1 & H2 & _).
  exists x, s'. split; [exact H1|exact H2].
Defined.

(** ** Closing statements *)

Definition close_frame (id : Z) : list byte := enc_int32 CommandClose ++ enc_int32 id.

Lemma exch_PreparedCommand_Close f cmd : exch f true (PreparedCommand_Close cmd) (close_frame (cmd_ID cmd)) [] tt.
Proof.
  intros s out suf Hw. pose proof Hw as (t & Ht & _). unfold PreparedCommand_Close. rewrite Ht. clear t Ht.
  revert s out suf Hw. unfold close_frame. eapply exch_bind_send; [apply exch_int32|].
  rewrite <- (app_nil_r (enc_int32 (cmd_ID cmd))). eapply exch_bind_send; [apply exch_int32|].
  apply exch_wrapf, exch_flush.
Qed.

(** C25 (functional). Closing a statement while one of its own operations is in flight
    succeeds at once, sends nothing, and blocks new executions. When the operation ends,
    COMMAND_CLOSE for the statement's command is sent, and the connection released.
    From then on closing the statement again sends nothing. *)
Theorem statement_close_is_deferred c cmd out inp :
  c_open c = true -> c_busy c = true -> s_dead (c_sess c) = false -> wire true (c_sess c) out inp ->
  let st := mkStmt true (Some cmd) false false false in
  let closing := mkStmt true (Some cmd) true true false in
  let gone := mkStmt false None true false true in
  stmt_Close (c, st) = (Ok tt, (c, closing)) /\
  beginOperation (c, closing) = (Err (EErrorf "h2go: statement is closed" []), (c, closing)) /\
  exists s', finishOperation (c, closing) = (Ok tt, (mkConn true false s', gone)) /\
    wire true s' (out ++ close_frame (cmd_ID cmd)) inp /\
    stmt_Close (mkConn true false s', gone) = (Ok tt, (mkConn true false s', gone)).
Proof.
  intros Ho Hb Hd Hw st closing gone. split_and!.
  - unfold stmt_Close, bind, on_stmt, get, modify, on_conn, try. cbn. by rewrite (acquire_busy c Ho Hb Hd).
  - reflexivity.
  - destruct (exch_PreparedCommand_Close true cmd (c_sess c) out inp Hw) as (s' & E & Hw' & _).
    exists s'. split; [|split; [done|reflexivity]].
    unfold finishOperation. rewrite deferring_run. unfold closePendingOnOwnedConn, bind, on_stmt, get, on_conn, close_command.
    cbn. rewrite Ho, on_session_run, E by done. reflexivity.
Qed.

Lemma statement_close_is_deferred_witness :
  let c := mkConn true true (open_session (lit "rows")) in
  stmt_Close (c, mkStmt true (Some (mkPreparedCommand 3 [] true false 0 0 [])) false false false)
  = (Ok tt, (c, mkStmt true (Some (mkPreparedCommand 3 [] true false 0 0 [])) true true false)).
Proof.
  cbv zeta. apply (statement_close_is_deferred (mkConn true true (open_session (lit "rows")))
    (mkPreparedCommand 3 [] true false 0 0 []) [] (lit "rows")); [reflexivity..|]. apply wire_open_session.
Defined.

(** C39 (error). A statement that is closed while another statement of the connection has
    an operation in flight is not closed by the operation that ends: the close only leaves
    a mark on the statement itself, and that operation looks at its own statement alone.
    It releases the connection without a message, so the command stays open on the server
    although [Close] has reported success, and the closed statement cannot run another
    operation. Only a second [Close], on the freed connection, sends COMMAND_CLOSE. *)
Theorem statement_closed_under_another_stays_open c cmdA cmdB out inp :
  c_open c = true -> c_busy c = true -> s_dead (c_sess c) = false -> wire true (c_sess c) out inp ->
  let a := mkStmt true (Some cmdA) false false false in
  let b := mkStmt true (Some cmdB) false false false in
  let b' := mkStmt true (Some cmdB) true true false in
  let free := mkConn true false (c_sess c) in
  stmt_Close (c, b) = (Ok tt, (c, b')) /\
  finishOperation (c, a) = (Ok tt, (free, a)) /\
  beginOperation (free, b') = (Err (EErrorf "h2go: statement is closed" []), (free, b')) /\
  exists s', stmt_Close (free, b') = (Ok tt, (mkConn true false s', mkStmt false None true false true)) /\
    wire true s' (out ++ close_frame (cmd_ID cmdB)) inp.
Proof.
  intros Ho Hb Hd Hw a b b' free.
  split_and!; [|unfold finishOperation; rewrite deferring_run; by destruct c; cbn in *; subst|done|].
  - unfold stmt_Close, bind, on_stmt, get, modify, on_conn, try. cbn. by rewrite (acquire_busy c Ho Hb Hd).
  - destruct (exch_PreparedCommand_Close true cmdB (c_sess c) out inp Hw) as (s' & E & Hw' & _). exists s'. split; [|done].
    unfold stmt_Close, bind at 1, on_stmt at 1, get. unfold bind at 1, on_stmt at 1, modify.
    cbn [st_cmd st_closeSent st_conn negb b']. unfold bind at 1, try at 1, on_conn at 1.
    rewrite acquire_idle by done. rewrite deferring_run.
    unfold bind, on_conn, close_command. cbn [c_open set_busy free]. rewrite on_session_run by done.
    change (c_sess (set_busy true free)) with (c_sess c). by rewrite E.
Qed.

Lemma statement_closed_under_another_stays_open_witness :
  let c := mkConn true true (open_session []) in
  let cmd n := mkPreparedCommand n [] true false 0 0 [] in
  let b' := mkStmt true (Some (cmd 4)) true true false in
  stmt_Close (c, mkStmt true (Some (cmd 4)) false false false) = (Ok tt, (c, b')) /\
  exists s', stmt_Close (mkConn true false (c_sess c), b') = (Ok tt, (mkConn true false s', mkStmt false None true false true)).
Proof.
  cbv zeta. destruct (statement_closed_under_another_stays_open (mkConn true true (open_session []))
    (mkPreparedCommand 3 [] true false 0 0 []) (mkPreparedCommand 4 [] true false 0 0 []) [] [] eq_refl eq_refl eq_refl)
    as (H1 & _ & _ & s' & H2 & _); [apply wire_open_session|].
  split; [exact H1|]. exists s'. exact H2.
Defined.

(** ** Transactions *)

Definition autocommit_frame (b : bool) : list byte := enc_int32 SessionSetAutocommit ++ enc_bool b.

Lemma exch_setAutoCommit ctx b :
  ctx_done_at ctx = None -> exch true true (setAutoCommit ctx b) (autocommit_frame b) ok_status tt.
Proof.
  intros Hd. unfold setAutoCommit, autocommit_frame. eapply exch_bind_nil; [apply exch_session_open|].
  apply exch_operation. eapply exch_bind_nil; [by apply exch_check_ctx|]. eapply exch_bind_send; [apply exch_int32|].
  rewrite <- (app_nil_r (enc_bool b)). eapply exch_bind_send; [apply exch_wrapf, exch_write, writes_WriteBool|].
  eapply exch_bind_nil; [apply exch_wrapf, exch_flush|]. rewrite <- (app_nil_r ok_status).
  eapply exch_bind_recv; [apply exch_status|]. intros s out suf Hw. exists (set_autoCommit b s).
  rewrite app_nil_r. split; [done|]. split; [exact Hw|by split_and!].
Qed.

Lemma exch_commitCurrentTransaction ctx :
  ctx_done_at ctx = None -> exch true true (commitCurrentTransaction ctx) (enc_int32 CommandCommit) ok_status tt.
Proof.
  intros Hd. unfold commitCurrentTransaction. eapply exch_bind_nil; [apply exch_session_open|].
  apply exch_operation. eapply exch_bind_nil; [by apply exch_check_ctx|].
  rewrite <- (app_nil_r (enc_int32 CommandCommit)). eapply exch_bind_send; [apply exch_int32|].
  eapply exch_bind_nil; [apply exch_wrapf, exch_flush|apply exch_status].
Qed.

(** A transaction at the default isolation level: beginning it turns
    autocommit off with one message, committing it sends COMMAND_COMMIT and turns
    autocommit on again. The connection is free in between and afterwards, and once the
    transaction is finished, committing it or rolling it back is refused with
    [sql.ErrTxDone] and does nothing. *)
Theorem transaction_commits s out suf :
  s_dead s = false -> s_autoCommit s = true -> wire true s out (ok_status ++ ok_status ++ ok_status ++ suf) ->
  exists s1 s2,
    Begin (mkConn true false s) = (Ok (mkTx false false), mkConn true false s1) /\
    s_autoCommit s1 = false /\
    Commit (mkConn true false s1, mkTx false false) = (Ok tt, (mkConn true false s2, mkTx false true)) /\
    s_autoCommit s2 = true /\
    wire true s2 (((out ++ autocommit_frame false) ++ enc_int32 CommandCommit) ++ autocommit_frame true) suf /\
    (forall rollback c, finishTransaction rollback (c, mkTx false true) = (Err (ESent sql_ErrTxDone), (c, mkTx false true))).
Proof.
  intros Hd Hac Hw.
  destruct (exch_setAutoCommit Background false eq_refl (set_now (s_now s + 1) s) out _ Hw) as (s1 & E1 & Hw1 & Hf1).
  destruct (exch_commitCurrentTransaction Background eq_refl s1 _ _ Hw1) as (sc & Ec & Hwc & Hfc).
  destruct (exch_setAutoCommit Background true eq_refl sc _ _ Hwc) as (s2 & E2 & Hw2 & Hf2).
  assert (Hd1 : s_dead s1 = false) by (destruct Hf1 as (_&_&_&->&_); done).
  exists s1, s2. split_and!; [|by eapply setAutoCommit_sets| |by eapply setAutoCommit_sets|exact Hw2|done].
  - unfold Begin, beginTx. unfold bind at 1, on_clock. cbn. unfold exclusively.
    rewrite (bind_Ok acquire _ _ tt (mkConn true true (set_now (s_now s + 1) s))) by (by apply acquire_idle).
    rewrite deferring_run. set (body := c <- get ;; _).
    assert (E : on_session (setAutoCommit Background false) (mkConn true true (set_now (s_now s + 1) s))
                = (Ok tt, mkConn true true s1)) by (rewrite on_session_run by done; cbn; by rewrite E1).
    assert (Eb : body (mkConn true true (set_now (s_now s + 1) s)) = (Ok (mkTx false false), mkConn true true s1)).
    { unfold body. unfold bind at 1, get. cbn [c_sess s_autoCommit set_now]. rewrite Hac. cbn [negb].
      by rewrite (bind_Ok _ _ _ _ _ E). }
    by rewrite Eb.
  - unfold Commit, finishTransaction, finish_acquired. cbn [tx_done c_open negb]. rewrite acquire_idle by done. rewrite deferring_run.
    unfold finish_held. cbn [tx_restoreIsolation set_busy c_open c_sess].
    assert (Ea : on_session (commitCurrentTransaction Background) (mkConn true true s1) = (Ok tt, mkConn true true sc))
      by (rewrite on_session_run by done; cbn; by rewrite Ec).
    rewrite !(bind_Ok _ _ _ _ _ Ea). unfold bind, ret, try. rewrite !on_session_run by done. cbn [c_sess]. by rewrite E2.
Qed.

Lemma transaction_commits_witness :
  exists s1 s2,
    Begin (mkConn true false (open_session (ok_status ++ ok_status ++ ok_status ++ []))) = (Ok (mkTx false false), mkConn true false s1) /\
    Commit (mkConn true false s1, mkTx false false) = (Ok tt, (mkConn true false s2, mkTx false true)).
Proof.
  destruct (transaction_commits (open_session (ok_status ++ ok_status ++ ok_status ++ [])) [] [])
    as (s1 & s2 & H1 & _ & H2 & _); [reflexivity|reflexivity|apply wire_open_session|].
  exists s1, s2. split; [exact H1|exact H2].
Defined.
