(* ===== verification/ConnWire.v ===== *)
(** * A connection's queries on the wire, from the request to the release

    [Ping] is a whole query: it acquires the connection, prepares and executes, reads
    all rows, closes the result set and the command, and releases the connection. Its
    theorem composes what the files on sessions, rows and connections show. *)

From S2P Require Import Prelude.
From S2P Require Import GoText.
From S2P Require Import Protocol.
From S2P Require Import Transfer.
From S2P Require Import Errors.
From S2P Require Import Fuel.
From S2P Require Import TypeInfo.
From S2P Require Import Metadata.
From S2P Require Import Value.
From S2P Require Import ValueRead.
From S2P Require Import ValueWire.
From S2P Require Import ValueWrite.
From S2P Require Import Dsn.
From S2P Require Import Session.
From S2P Require Import SessionFacts.
From S2P Require Import Exchange.
From S2P Require Import Rows.
From S2P Require Import RowsFacts.
From S2P Require Import RowsWire.
From S2P Require Import ExecuteFacts.
From S2P Require Import QueryWire.
From S2P Require Import Conn.
From S2P Require Import ConnFacts.

(** ** What iterating leaves alone *)

Definition handle (r : Rows) : Z * bool * Z * bool * option Callback * bool :=
  (rs_resultID r, rs_ownsCommand r, rs_commandID r, rs_contextCleanup r, rs_closeCallback r, rs_closed r).

Definition keeps_handle {A} (m : M RS A) : Prop := forall s r, handle (m (s, r)).2.2 = handle r.

Section keeps_handle.
Context {A B : Type}.

Lemma keeps_bind (m : M RS A) (k : A -> M RS B) :
  keeps_handle m -> (forall a, keeps_handle (k a)) -> keeps_handle (bind m k).
Proof.
  intros Hm Hk s r. specialize (Hm s r). unfold bind. destruct (m (s, r)) as [[a|e] [s' r']]; [|done].
  cbn in Hm. by rewrite Hk.
Qed.
Lemma keeps_try (m : M RS A) : keeps_handle m -> keeps_handle (try m).
Proof. intros Hm s r. specialize (Hm s r). unfold try. by destruct (m (s, r)). Qed.
Lemma keeps_ret (a : A) : keeps_handle (ret a).
Proof. done. Qed.
Lemma keeps_fail e : keeps_handle (@fail RS A e).
Proof. done. Qed.
Lemma keeps_rows (f : Rows -> A) : keeps_handle (rows f).
Proof. done. Qed.
Lemma keeps_sess (m : M Session A) : keeps_handle (on_sess m).
Proof. intros s r. unfold on_sess. by destruct (m s). Qed.
Lemma keeps_wrapf fmt args (m : M RS A) : keeps_handle m -> keeps_handle (wrapf fmt args m).
Proof. intros Hm s r. specialize (Hm s r). rewrite wrapf_run. by destruct (m (s, r)) as [[] ?]. Qed.
Lemma keeps_wrapE op (m : M RS A) : keeps_handle m -> keeps_handle (wrapE op m).
Proof. intros Hm s r. specialize (Hm s r). unfold wrapE. by destruct (m (s, r)) as [[] ?]. Qed.
End keeps_handle.

Lemma keeps_update f : (forall r, handle (f r) = handle r) -> keeps_handle (update f).
Proof. intros Hf s r. apply Hf. Qed.

Create HintDb keeps.
#[export] Hint Resolve keeps_ret keeps_fail keeps_rows keeps_sess : keeps.
#[export] Hint Extern 1 (keeps_handle (on_wire _)) => apply keeps_sess : keeps.
#[export] Hint Extern 1 (keeps_handle (update _)) => apply keeps_update; done : keeps.
#[export] Hint Extern 2 (keeps_handle (bind _ _)) => apply keeps_bind; [|intros ?] : keeps.
#[export] Hint Extern 2 (keeps_handle (try _)) => apply keeps_try : keeps.
#[export] Hint Extern 2 (keeps_handle (wrapf _ _ _)) => apply keeps_wrapf : keeps.
#[export] Hint Extern 2 (keeps_handle (wrapE _ _)) => apply keeps_wrapE : keeps.
#[export] Hint Extern 2 (keeps_handle (or_broken _ _ _)) => unfold or_broken : keeps.
#[export] Hint Extern 2 (keeps_handle (unless_aligned _)) => unfold unless_aligned : keeps.
#[export] Hint Extern 3 (keeps_handle (match ?x with _ => _ end)) => destruct x : keeps.

Lemma keeps_readColumns n : forall j lc, keeps_handle (readColumns n j lc).
Proof. induction n as [|n IH]; intros j lc; cbn [readColumns]; auto 20 with keeps. Qed.

Lemma keeps_fetchRows_loop n : forall lc, keeps_handle (fetchRows_loop n lc).
Proof.
  induction n as [|n IH]; intros lc; cbn [fetchRows_loop]; pose proof keeps_readColumns; auto 20 with keeps.
Qed.

Lemma keeps_fetchRows fetch : keeps_handle (fetchRows fetch).
Proof.
  apply keeps_bind; [apply keeps_fetchRows_loop|]. intros lc.
  induction (lc_pending lc) as [|p ps IH]; cbn [for_each]; [apply keeps_ret|].
  apply keeps_bind; [unfold resolveLob; auto 20 with keeps|done].
Qed.

Lemma keeps_Next dest : keeps_handle (Next dest).
Proof.
  assert (Hf : forall n, keeps_handle (fetchMoreRows n)).
  { intros n s r. unfold fetchMoreRows. cbn [fst]. destruct (s_tr s); [|done].
    pose proof keeps_fetchRows. assert (H' : keeps_handle (unless_aligned (requestRows n))).
    { unfold requestRows. auto 30 with keeps. } apply H'. }
  unfold Next, refill, EOF. auto 30 with keeps.
Qed.

(** ** Reading all rows *)

Lemma alive_next dest s r : alive s -> is_Some (s_tr (Next dest (s, r)).2.1) -> alive (Next dest (s, r)).2.1.
Proof.
  intros Ha [t Ht]. destruct (settled_Next dest (s, r)) as [Hs _]. destruct (Hs Ha) as [?|(Hn & _)]; [done|].
  unfold session_of, HasSession_RS in Hn. congruence.
Qed.

Lemma wire_tr f s out inp : wire f s out inp -> is_Some (s_tr s).
Proof. intros (t & Ht & _). by exists t. Qed.

Lemma represents_tr width total suf s r l : represents width total suf (s, r) l -> is_Some (s_tr s).
Proof. intros (rest & out & inp & req & _ & _ & _ & _ & _ & _ & _ & _ & _ & Hw & _). by eapply wire_tr. Qed.

Lemma represents_width width total suf w row l : represents width total suf w (row :: l) -> zlen row = width.
Proof.
  destruct w as [s r]. intros (rest & out & inp & req & Hl & _ & _ & _ & _ & Hb & Hr & _).
  assert (H : Forall (fun row => zlen row = width) (row :: l)); [|by inversion H].
  rewrite Hl, Forall_app. split; [done|by apply meanings_width].
Qed.

Lemma drain_run width total suf l : forall fuel dest op busy s r,
  (length l < fuel)%nat -> zlen dest = width -> alive s -> represents width total suf (s, r) l ->
  exists s' r', drain fuel dest (mkConn op busy s, r) = (Ok tt, (mkConn op busy s', r')) /\
    alive s' /\ wire true s' total suf /\ handle r' = handle r.
Proof.
  induction l as [|row l IH]; intros [|fuel] dest op busy s r Hf Hd Ha Hrep; try (cbn in Hf; lia);
    pose proof (Next_represents _ _ _ _ _ dest Hrep Hd) as HN; cbn iota in HN; pose proof (keeps_Next dest s r) as Hk;
    pose proof (alive_next dest s r Ha) as Ha'; cbn [drain]; unfold bind, try; cbn [on_rows RowsHost_conn];
    unfold on_rows_conn at 1; cbn [c_sess c_open c_busy].
  - destruct HN as ([s' r'] & E & Hrep' & Hw). rewrite E in *. exists s', r'. split; [done|]. split; [|done].
    apply Ha'. by eapply represents_tr.
  - destruct HN as ([s' r'] & E & Hrep'). rewrite E in *. cbn in Hk.
    destruct (IH fuel row op busy s' r') as (s2 & r2 & E2 & H1 & H2 & H3); [cbn in Hf; lia| | |done|].
    + by eapply represents_width.
    + apply Ha'. by eapply represents_tr.
    + exists s2, r2. split; [exact E2|]. split; [done|]. split; [done|]. congruence.
Qed.

(** The fuel of [Ping]: every row still on its way takes a byte. *)
Lemma enc_row_length cells : (1 <= length (enc_row cells))%nat.
Proof. unfold enc_row. rewrite length_app. cbn. lia. Qed.

Lemma enc_batch_length n rows : (length rows <= length (enc_batch n rows))%nat.
Proof.
  unfold enc_batch. rewrite length_app. apply Nat.le_trans with (length (flat_map enc_row rows)); [|lia].
  induction rows as [|c rows IH]; cbn [flat_map]; [done|].
  rewrite length_app. pose proof (enc_row_length c). cbn [length]. lia.
Qed.

Lemma serves_length id known fs rows inp req : serves id known fs rows inp req -> (length rows <= length inp)%nat.
Proof.
  induction 1 as [|rows|n rows rest inp req]; [cbn; lia| |]; unfold batch_reply; rewrite !length_app.
  - pose proof (enc_batch_length (Z.to_nat fs) rows). lia.
  - pose proof (enc_batch_length (Z.to_nat n) rows). lia.
Qed.

Lemma represents_fuel width total suf s r l : represents width total suf (s, r) l -> (length l < drain_fuel s r)%nat.
Proof.
  intros (rest & out & inp & req & -> & _ & _ & _ & _ & _ & _ & _ & Hsv & (t & Ht & _ & _ & _ & Hin & _) & _).
  unfold drain_fuel. rewrite Ht, Hin, !length_app, length_map.
  assert (length rest <= length inp)%nat; [|lia].
  destruct (rs_noMoreRows r); [destruct Hsv as (-> & _); cbn; lia|by eapply serves_length].
Qed.

(** ** Closing the rows *)

Definition result_close_frame (id : Z) : list byte := enc_int32 ResultClose ++ enc_int32 id.

Lemma exchR_sendResultClose f r : exchR f true sendResultClose r (result_close_frame (rs_resultID r)) [] tt r.
Proof.
  unfold sendResultClose, result_close_frame. eapply exchR_bind_send; [apply exchR_int32|].
  eapply exchR_bind_nil; [apply exchR_rows|]. rewrite <- (app_nil_r (enc_int32 (rs_resultID r))).
  eapply exchR_bind_send; [apply exchR_int32|]. apply exchR_wrapf, exchR_sess, exch_flush.
Qed.

Lemma exchR_sendCommandClose f r : exchR f true sendCommandClose r (close_frame (rs_commandID r)) [] tt r.
Proof.
  unfold sendCommandClose, close_frame. eapply exchR_bind_send; [apply exchR_int32|].
  eapply exchR_bind_nil; [apply exchR_rows|]. rewrite <- (app_nil_r (enc_int32 (rs_commandID r))).
  eapply exchR_bind_send; [apply exchR_int32|]. apply exchR_wrapf, exchR_sess, exch_flush.
Qed.

Lemma also_wire (cond : bool) (m : M RS unit) bytes s r out suf :
  exchR true true m r bytes [] tt r -> wire true s out suf -> s_dead s = false ->
  exists s', also (cond && usable s) m None (s, r) = (Ok None, (s', r)) /\
    wire true s' (out ++ if cond then bytes else []) suf /\ s_dead s' = false.
Proof.
  intros Hm Hw Hd. pose proof (wire_tr _ _ _ _ Hw) as [t Ht].
  assert (Hu : usable s = true) by (unfold usable; by rewrite Ht, Hd). rewrite Hu, andb_true_r.
  destruct cond; [|exists s; by rewrite app_nil_r]. destruct (Hm s out suf Hw) as (s' & E & Hw' & Hf).
  exists s'. unfold also, bind, try. rewrite E. split; [done|]. split; [done|]. destruct Hf as (_&_&_&->&_). done.
Qed.

(** What closing rows sends: the result, and the command that belongs to it. *)
Definition rows_close_frames (r : Rows) : list byte :=
  result_close_frame (rs_resultID r)
  ++ (if rs_ownsCommand r && negb (rs_commandID r =? 0) then close_frame (rs_commandID r) else []).

Lemma Rows_release_wire s r out suf :
  s_dead s = false -> wire true s out suf ->
  exists s', Rows_release (s, r) = (Ok (None, rs_closeCallback r), (s', released r)) /\
    wire true s' (out ++ rows_close_frames r) suf /\ s_dead s' = false.
Proof.
  intros Hd Hw. unfold Rows_release.
  set (r1 := set_contextCleanup false (set_closed r)).
  assert (exists s1, (if rs_contextCleanup r then on_sess endOperationContext ;; update (set_contextCleanup false) else ret tt)
     (s, set_closed r) = (Ok tt, (s1, r1)) /\ wire true s1 out suf /\ s_dead s1 = false) as (s1 & E1 & Hw1 & Hd1).
  { destruct (rs_contextCleanup r) eqn:E.
    - destruct (wire_set_deadline _ _ _ _ None Hw) as (t' & E' & Hw'). exists (set_tr (Some t') s).
      unfold endOperationContext, bind, on_sess, update. by rewrite E'.
    - exists s. split; [|done]. unfold ret, r1. do 2 f_equal. destruct r. cbn in *. by subst. }
  unfold bind at 1, update at 1. cbn beta iota. unfold bind at 1, rows at 1.
  cbn [snd rs_contextCleanup set_closed]. rewrite (bind_Ok _ _ _ _ _ E1).
  unfold bind at 1, gets at 1. cbn [fst].
  destruct (also_wire true sendResultClose _ s1 r1 out suf (exchR_sendResultClose true r1) Hw1 Hd1) as (s2 & E2 & Hw2 & Hd2).
  rewrite (bind_Ok _ _ _ _ _ E2). unfold bind at 1, gets at 1. cbn [fst]. unfold bind at 1, rows at 1. cbn [snd].
  destruct (also_wire (rs_ownsCommand r1 && negb (rs_commandID r1 =? 0)) sendCommandClose _ s2 r1 _ suf
              (exchR_sendCommandClose true r1) Hw2 Hd2) as (s3 & E3 & Hw3 & Hd3).
  rewrite (bind_Ok _ _ _ _ _ E3). exists s3. split; [done|]. split; [|done].
  by rewrite <- app_assoc in Hw3.
Qed.

Lemma Rows_Close_wire op busy s r out suf :
  s_dead s = false -> wire true s out suf -> rs_closed r = false -> rs_closeCallback r = Some ReleaseConn ->
  exists s', Rows_Close (mkConn op busy s, r) = (Ok tt, (mkConn op false s', released r)) /\
    wire true s' (out ++ rows_close_frames r) suf /\ s_dead s' = false.
Proof.
  intros Hd Hw Hc Hcb. destruct (Rows_release_wire s r out suf Hd Hw) as (s' & E & H). exists s'. split; [|done].
  unfold Rows_Close. unfold bind at 1. cbn [on_rows RowsHost_conn]. unfold on_rows_conn at 1, rows.
  cbn [c_open c_busy c_sess snd]. rewrite Hc. unfold bind at 1, on_rows_conn. cbn [c_sess]. rewrite E, Hcb. reflexivity.
Qed.

(** ** Correctness *)

Lemma effectiveFetchSize_pos c : 1 <= effectiveFetchSize c.
Proof. unfold effectiveFetchSize, defaultFetchSize. destruct (conn_cfg c); [destruct (_ <=? _) eqn:E|]; lia. Qed.

(** A query of a connection that is free keeps it busy; its rows stand for the server's. *)
Lemma queryContextInternal_run ctx sql readOnly paramCount known cols rows inp req c out suf :
  let id := int32 (s_nextID (c_sess c) + 1) in
  let resultID := int32 (id + 1) in
  c_open c = true -> c_busy c = false -> alive (c_sess c) -> in_intN 32 paramCount ->
  zlen cols <= maxWireCollectionElements -> forallb wf_column cols = true ->
  Forall (wf_row (zlen cols)) rows -> zlen rows < 2 ^ 63 ->
  answers resultID known (effectiveFetchSize c) rows inp req ->
  wire true (c_sess c) out
    (prepare_simple_answer true readOnly paramCount ++ query_answer known cols rows ++ inp ++ suf) ->
  exists s' r,
    queryContextInternal ctx sql c = (Ok r, mkConn true true s') /\ alive s' /\
    represents (zlen cols)
      (out ++ prepare_simple_request id sql
       ++ query_request id resultID (effectiveMaxRows c) (effectiveFetchSize c) 0 [] ++ req) suf (s', r)
      (map (map cell_value) rows) /\
    length (default [] (Rows_Columns r)) = length cols /\
    (rs_resultID r, rs_ownsCommand r, rs_commandID r, rs_closeCallback r) = (resultID, true, id, Some ReleaseConn).
Proof.
  intros id resultID Ho Hb Ha Hp Hc Hcols Hr Hall Hans Hw. pose proof Ha as [Hd _].
  destruct (ExecuteQuery_run ctx sql (effectiveMaxRows c) (effectiveFetchSize c) readOnly paramCount known cols rows inp req
              (c_sess c) out suf Hp (effectiveFetchSize_pos c) Hc Hcols Hr Hall Hans Hw)
    as (s' & r & E & Hrep & Hcn & Hids & _). fold id resultID in Hrep, Hids.
  exists s', (set_closeCallback (Some ReleaseConn) r). split_and!.
  - unfold queryContextInternal. rewrite (bind_Ok acquire _ c tt (set_busy true c)) by (by apply acquire_idle).
    unfold bind at 1, get. unfold query_rows, bind at 1, try. rewrite on_session_run by done.
    change (c_sess (set_busy true c)) with (c_sess c).
    change (effectiveMaxRows (set_busy true c)) with (effectiveMaxRows c).
    change (effectiveFetchSize (set_busy true c)) with (effectiveFetchSize c). by rewrite E.
  - destruct (fair_ExecuteQuery ctx sql (effectiveMaxRows c) (effectiveFetchSize c) (c_sess c)) as [Hf _].
    unfold session_of, HasSession_id in Hf. specialize (Hf Ha). rewrite E in Hf. by destruct Hf.
  - exact Hrep.
  - change (Rows_Columns (set_closeCallback (Some ReleaseConn) r)) with (Rows_Columns r). rewrite Hcn. cbn. by rewrite length_map.
  - cbn. congruence.
Qed.

(** C15 (liveness). A ping of a free connection comes back: whatever rows the server has
    for [SELECT 1], however many, they are read to the end, the result and its command
    are closed on the server, and the connection is free again. The messages sent are
    exactly the preparation, the query, the fetches and the two closes, and everything
    the server answered was read, so that the next operation starts at its own answer. *)
Theorem Ping_comes_back ctx readOnly paramCount known cols rows inp req c out suf :
  let id := int32 (s_nextID (c_sess c) + 1) in
  let resultID := int32 (id + 1) in
  c_open c = true -> c_busy c = false -> alive (c_sess c) -> in_intN 32 paramCount ->
  zlen cols <= maxWireCollectionElements -> forallb wf_column cols = true ->
  Forall (wf_row (zlen cols)) rows -> zlen rows < 2 ^ 63 ->
  answers resultID known (effectiveFetchSize c) rows inp req ->
  wire true (c_sess c) out
    (prepare_simple_answer true readOnly paramCount ++ query_answer known cols rows ++ inp ++ suf) ->
  exists s',
    Ping ctx c = (Ok tt, mkConn true false s') /\ s_dead s' = false /\
    wire true s'
      ((out ++ prepare_simple_request id (lit "SELECT 1")
        ++ query_request id resultID (effectiveMaxRows c) (effectiveFetchSize c) 0 [] ++ req)
       ++ result_close_frame resultID ++ (if id =? 0 then [] else close_frame id)) suf.
Proof.
  intros id resultID Ho Hb Ha Hp Hc Hcols Hr Hall Hans Hw.
  destruct (queryContextInternal_run ctx (lit "SELECT 1") readOnly paramCount known cols rows inp req c out suf)
    as (s1 & r1 & E1 & Ha1 & Hrep & Hlen & Hids); [done..|]. fold id resultID in Hrep, Hids.
  set (dest := repeat VNil (length (default [] (Rows_Columns r1)))).
  assert (Hdest : zlen dest = zlen cols) by (unfold dest, zlen; by rewrite repeat_length, Hlen).
  assert (Hopen : rs_closed r1 = false) by (destruct Hrep as (? & ? & ? & ? & _ & ? & _); done).
  destruct (drain_run _ _ _ _ (drain_fuel s1 r1) dest true true s1 r1 (represents_fuel _ _ _ _ _ _ Hrep) Hdest Ha1 Hrep)
    as (s2 & r2 & E2 & [Hd2 _] & Hw2 & Hh).
  unfold handle in Hh. injection Hh as H1 H2 H3 H4 H5 H6. injection Hids as H7 H8 H9 H10.
  destruct (Rows_Close_wire true true s2 r2 _ suf Hd2 Hw2) as (s3 & E3 & Hw3 & Hd3); [congruence|congruence|].
  exists s3. split; [|split; [done|]].
  - unfold Ping. rewrite (bind_Ok _ _ _ _ _ E1). cbn [c_sess]. fold dest. rewrite (bind_Ok _ _ _ _ _ E2). by rewrite E3.
  - unfold rows_close_frames in Hw3. rewrite H1, H2, H3, H7, H8, H9 in Hw3. by destruct (id =? 0).
Qed.

Definition ping_session (inp : list byte) : Session :=
  open_session (prepare_simple_answer true true 0 ++ query_answer false [sample_column] sample_batch ++ inp ++ []).

Lemma Ping_comes_back_witness :
  let inp := enc_batch 100 sample_batch ++ batch_replies sample_batch in
  exists s', Ping Background (mkConn true false (ping_session inp)) = (Ok tt, mkConn true false s') /\ s_dead s' = false.
Proof.
  cbv zeta. set (inp := enc_batch 100 sample_batch ++ batch_replies sample_batch).
  destruct (Ping_comes_back Background true 0 false [sample_column] sample_batch inp (batch_requests sample_batch)
              (mkConn true false (ping_session inp)) [] []) as (s' & H1 & H2 & _).
  - reflexivity.
  - reflexivity.
  - split; [reflexivity|]. eexists. split; [reflexivity|]. by split_and!.
  - unfold in_intN. lia.
  - vm_compute. discriminate.
  - reflexivity.
  - apply wf_sample_batch.
  - vm_compute. reflexivity.
  - apply (answers_last 2 false 100 sample_batch); [reflexivity|vm_compute; reflexivity].
  - apply wire_open_session.
  - exists s'. split; [exact H1|exact H2].
Defined.
