(* ===== verification/Deadlines.v ===== *)
(** * How long the deadline of an operation stands

    An operation sets the deadline of its context on the connection
    ([beginOperationContext]), runs, and clears it ([endOperationContext]); a query keeps
    it until its rows are closed. The bodies of the operations leave the deadline to the
    frame they run in ([untimed]), and every frame is closed on every path ([maintains]). *)

From S2P Require Import Prelude.
From S2P Require Import GoText.
From S2P Require Import Protocol.
From S2P Require Import Transfer.
From S2P Require Import Errors.
From S2P Require Import Fuel.
From S2P Require Import TypeInfo.
From S2P Require Import Metadata.
From S2P Require Import Value.
From S2P Require Import ValueRead.
From S2P Require Import ValueWrite.
From S2P Require Import Session.
From S2P Require Import Watcher.
From S2P Require Import SessionFacts.
From S2P Require Import Exchange.
From S2P Require Import Rows.
From S2P Require Import RowsFacts.
From S2P Require Import GeneratedKeys.
From S2P Require Import Update.
From S2P Require Import RowsWire.
From S2P Require Import QueryWire.
From S2P Require Import ConnWire.

(** ** Bodies that leave the deadline alone *)

(** [m] leaves the deadline to the frame it runs in. *)
Definition untimed {W} `{HasSession W} {A} (m : M W A) : Prop := forall w, body_ok (session_of w) (session_of (m w).2) = true.

Definition keeps_deadline {A} (m : M Tr A) : Prop := forall t,
  net_deadline (tr_net (m t).2) = net_deadline (tr_net t) /\ tr_dl (m t).2 = tr_dl t.

Lemma body_ok_refl s : body_ok s s = true.
Proof.
  unfold body_ok. rewrite Z.leb_refl. destruct (s_tr s) as [t|]; [|done].
  by rewrite bool_decide_true, Bool.eqb_reflx.
Qed.

Lemma body_ok_trans s1 s2 s3 : body_ok s1 s2 = true -> body_ok s2 s3 = true -> body_ok s1 s3 = true.
Proof.
  unfold body_ok. rewrite !andb_true_iff, !Z.leb_le. intros [H1 H2] [H3 H4]. split; [lia|].
  destruct (s_tr s1), (s_tr s2), (s_tr s3); try done. rewrite !andb_true_iff, !bool_decide_eq_true, !eqb_true_iff in *.
  destruct H2, H4. split; congruence.
Qed.

Section untimed.
Context {W : Type} `{HasSession W} {A B : Type}.

Lemma untimed_same (m : M W A) :
  (forall w, s_tr (session_of (m w).2) = s_tr (session_of w) /\ s_now (session_of w) <= s_now (session_of (m w).2)) ->
  untimed m.
Proof using.
  intros Hm w. destruct (Hm w) as [Ht Hn]. pose proof (body_ok_refl (session_of w)) as Hr. unfold body_ok in *. rewrite Ht.
  apply andb_true_iff in Hr as [_ Hr]. rewrite andb_true_iff. split; [by apply Z.leb_le|done].
Qed.

Lemma untimed_ret (a : A) : untimed (ret a).
Proof using. intros w. apply body_ok_refl. Qed.
Lemma untimed_fail e : untimed (@fail W A e).
Proof using. intros w. apply body_ok_refl. Qed.

Lemma untimed_bind (m : M W A) (k : A -> M W B) :
  untimed m -> (forall a, untimed (k a)) -> untimed (bind m k).
Proof using.
  intros Hm Hk w. specialize (Hm w). unfold bind. destruct (m w) as [[a|e] w1]; [|done].
  eapply body_ok_trans; [exact Hm|apply Hk].
Qed.

Lemma untimed_run (m : M W A) (m' : M W B) :
  (forall w, (m' w).2 = (m w).2) -> untimed m -> untimed m'.
Proof using. intros He Hm w. rewrite He. apply Hm. Qed.
End untimed.

Section wrappers.
Context {W : Type} `{HasSession W} {A : Type}.

Lemma untimed_wrapf fmt args (m : M W A) : untimed m -> untimed (wrapf fmt args m).
Proof using. apply untimed_run. intros s. rewrite wrapf_run. by destruct (m s) as [[]]. Qed.
Lemma untimed_wrapE op (m : M W A) : untimed m -> untimed (wrapE op m).
Proof using. apply untimed_run. intros s. unfold wrapE. by destruct (m s) as [[]]. Qed.
Lemma untimed_try (m : M W A) : untimed m -> untimed (try m).
Proof using. apply untimed_run. intros s. unfold try. by destruct (m s). Qed.
Lemma untimed_discard (m : M W A) : untimed m -> untimed (discard m).
Proof using. by apply untimed_run. Qed.

Lemma untimed_for_range (f : Z -> M W A) n i : (forall j, untimed (f j)) -> untimed (for_range n i f).
Proof using.
  intros Hf. revert i. induction n; intros i; cbn [for_range]; [apply untimed_ret|].
  apply untimed_bind; [apply Hf|]. intros a. apply untimed_bind; [apply IHn|]. intros. apply untimed_ret.
Qed.

Lemma untimed_for_each {X} (f : X -> M W unit) l : (forall x, untimed (f x)) -> untimed (for_each l f).
Proof using.
  intros Hf. induction l; cbn [for_each]; [apply untimed_ret|]. apply untimed_bind; [apply Hf|done].
Qed.
End wrappers.

Lemma untimed_on_tr {A} (m : M Tr A) : keeps_deadline m -> untimed (on_tr m).
Proof.
  intros Hm s. unfold session_of, HasSession_id, on_tr, body_ok. destruct (s_tr s) as [t|] eqn:Ht.
  - destruct (Hm t) as [Hd Hl]. destruct (m t) as [x t']. cbn in *.
    by rewrite Z.leb_refl, Hd, Hl, bool_decide_true, Bool.eqb_reflx.
  - cbn. by rewrite Z.leb_refl, Ht.
Qed.

Lemma untimed_Abort : untimed Session_Abort.
Proof.
  intros s. unfold session_of, HasSession_id, Session_Abort, body_ok, Abort.
  destruct (s_tr s) as [t|]; [destruct (tr_wc t)|]; cbn; by rewrite Z.leb_refl.
Qed.

(** Operations on rows. *)
Lemma untimed_on_sess {A} (m : M Session A) : untimed m -> untimed (on_sess m).
Proof.
  intros Hm [s r]. specialize (Hm s). unfold on_sess, session_of, HasSession_id, HasSession_RS in *.
  by destruct (m s) as [x s'].
Qed.

Lemma untimed_making r (m : M RS unit) : untimed m -> untimed (making r m).
Proof.
  intros Hm s. specialize (Hm (s, r)). unfold making, session_of, HasSession_id, HasSession_RS in *.
  by destruct (m (s, r)) as [[] []].
Qed.

Lemma untimed_rows {A} (f : Rows -> A) : untimed (rows f).
Proof. intros w. apply body_ok_refl. Qed.
Lemma untimed_update f : untimed (update f).
Proof. intros [s r]. apply body_ok_refl. Qed.

(** ** Transfers that leave the deadline alone *)

Lemma keeps_deadline_reader {A} (m : M Tr A) : reader m -> keeps_deadline m.
Proof. intros Hm t. destruct (m t) as [x t'] eqn:E. destruct (Hm _ _ _ E) as (_ & _ & Ht & _). cbn. by rewrite Ht. Qed.

Lemma keeps_deadline_ret {A} (a : A) : keeps_deadline (ret a).
Proof. done. Qed.
Lemma keeps_deadline_fail {A} e : keeps_deadline (@fail Tr A e).
Proof. done. Qed.
Lemma keeps_deadline_bind {A B} (m : M Tr A) (k : A -> M Tr B) :
  keeps_deadline m -> (forall a, keeps_deadline (k a)) -> keeps_deadline (bind m k).
Proof.
  intros Hm Hk t. specialize (Hm t). unfold bind. destruct (m t) as [[a|e] t1]; [|done].
  destruct Hm as [H1 H2], (Hk a t1) as [H3 H4]. cbn in *. split; congruence.
Qed.
Lemma keeps_deadline_wrapf {A} fmt args (m : M Tr A) : keeps_deadline m -> keeps_deadline (wrapf fmt args m).
Proof. intros Hm t. specialize (Hm t). rewrite wrapf_run. by destruct (m t) as [[]]. Qed.

Lemma net_write_deadline p n : net_deadline (net_write p n).2 = net_deadline n.
Proof. unfold net_write. by repeat case_match. Qed.

Lemma bw_flush_deadline w n : net_deadline (bw_flush w n).2 = net_deadline n.
Proof.
  unfold bw_flush. pose proof (net_write_deadline (wbuf w) n) as H.
  destruct (werr w), (zlen (wbuf w) =? 0), (net_write (wbuf w) n) as [[? []] ?]; done.
Qed.

Lemma bw_write_empty_deadline p n : net_deadline (bw_write_empty p n).2 = net_deadline n.
Proof.
  unfold bw_write_empty. pose proof (net_write_deadline p n) as H.
  destruct (zlen p <=? _), (net_write p n) as [[? []] ?]; done.
Qed.

Lemma keeps_deadline_Write p : keeps_deadline (tr_Write p).
Proof.
  intros t. unfold tr_Write. destruct (tr_w t) as [w|]; [|done].
  assert (H : net_deadline (bw_write p w (tr_net t)).2 = net_deadline (tr_net t)).
  { unfold bw_write. destruct (werr w); [done|]. destruct (zlen p <=? _); [done|].
    destruct (zlen (wbuf w) =? 0); [apply bw_write_empty_deadline|].
    match goal with |- context [bw_flush ?b ?n] => pose proof (bw_flush_deadline b n) as Hf; destruct (bw_flush b n) as [[[] ?] ?] end;
      [done|]. by rewrite bw_write_empty_deadline. }
  by destruct (bw_write p w (tr_net t)) as [[[] ?] ?].
Qed.

Lemma keeps_deadline_Flush : keeps_deadline Flush.
Proof.
  intros t. unfold Flush. destruct (tr_w t) as [w|]; [|done]. pose proof (bw_flush_deadline w (tr_net t)) as H.
  by destruct (bw_flush w (tr_net t)) as [[[] ?] ?].
Qed.

Lemma keeps_deadline_WriteString s : keeps_deadline (WriteString s).
Proof. intros t. unfold WriteString. destruct (isASCII s); apply keeps_deadline_Write. Qed.

Create HintDb untimed.
#[export] Hint Resolve keeps_deadline_ret keeps_deadline_fail keeps_deadline_Write keeps_deadline_Flush
  keeps_deadline_WriteString untimed_ret untimed_fail untimed_Abort untimed_rows untimed_update : untimed.

(** Decompose the body of an operation. *)
Ltac solve_untimed :=
  repeat match goal with
  | |- untimed (bind _ _) => apply untimed_bind; [|intros ?]
  | |- untimed (wrapf _ _ _) => apply untimed_wrapf
  | |- untimed (wrapE _ _) => apply untimed_wrapE
  | |- untimed (try _) => apply untimed_try
  | |- untimed (discard _) => apply untimed_discard
  | |- untimed (on_sess _) => apply untimed_on_sess
  | |- untimed (on_wire _) => apply untimed_on_sess
  | |- untimed (on_tr _) => apply untimed_on_tr
  | |- untimed (for_range _ _ _) => apply untimed_for_range; intros ?
  | |- untimed (for_each _ _) => apply untimed_for_each; intros ?
  | |- untimed (modify _) => by apply untimed_same
  | |- untimed (gets _) => by apply untimed_same
  | |- untimed (if ?b then _ else _) => destruct b
  | |- untimed (match ?x with _ => _ end) => destruct x
  | |- untimed (let '(_, _) := ?x in _) => destruct x
  | |- keeps_deadline (bind _ _) => apply keeps_deadline_bind; [|intros ?]
  | |- keeps_deadline (wrapf _ _ _) => apply keeps_deadline_wrapf
  | |- keeps_deadline (if ?b then _ else _) => destruct b
  | |- keeps_deadline (match ?x with _ => _ end) => destruct x
  | |- keeps_deadline (let '(_, _) := ?x in _) => destruct x
  | |- keeps_deadline (WriteInt32 _) => apply keeps_deadline_Write
  | |- keeps_deadline (WriteInt64 _) => apply keeps_deadline_Write
  | |- keeps_deadline (WriteByte _) => apply keeps_deadline_Write
  | |- keeps_deadline (WriteFloat32 _) => apply keeps_deadline_Write
  | |- keeps_deadline (WriteFloat64 _) => apply keeps_deadline_Write
  | |- keeps_deadline (WriteBool _) => unfold WriteBool
  | |- _ => by eauto with untimed
  | |- keeps_deadline _ => apply keeps_deadline_reader; by eauto with steady h2go
  end.

(** ** The bodies of the operations *)

Lemma keeps_deadline_WriteBytes b : keeps_deadline (WriteBytes b).
Proof. unfold WriteBytes. solve_untimed. Qed.
#[export] Hint Resolve keeps_deadline_WriteBytes : untimed.

Lemma keeps_deadline_WriteValue v pt : keeps_deadline (WriteValue v pt).
Proof.
  unfold WriteValue, writeStringValue, writeTimeValue. destruct v as [| | | | |[]| | |]; try (destruct (Date _) as [[]]);
    solve_untimed.
Qed.

Lemma keeps_deadline_fetchLob p : keeps_deadline (fetchLob p).
Proof.
  unfold fetchLob. destruct (_ <? _); [done|].
  apply keeps_deadline_bind; [|intros buf; destruct (_ =? _); done].
  intros t. unfold fueled. revert t. cut (forall fuel off buf, keeps_deadline (fetchLob_loop fuel p off buf)); [by intros H t; apply H|].
  induction fuel as [|fuel IH]; intros off buf; cbn [fetchLob_loop]; [done|].
  unfold writeLobRead. solve_untimed.
Qed.

Lemma keeps_deadline_readValueInternal ti lc : keeps_deadline (readValueInternal ti (Some lc)).
Proof. exact (keeps_deadline_reader _ (reader_readValueInternal ti lc)). Qed.
#[export] Hint Resolve keeps_deadline_WriteValue keeps_deadline_fetchLob keeps_deadline_readValueInternal : untimed.

Lemma untimed_tick : untimed tick.
Proof. apply untimed_same. intros s. unfold session_of, HasSession_id. cbn. split; [done|lia]. Qed.
Lemma untimed_nextCommandID : untimed nextCommandID.
Proof. by apply untimed_same. Qed.
Lemma untimed_session_open e : untimed (session_open e).
Proof. intros s. unfold session_open. destruct (s_tr s); apply body_ok_refl. Qed.
#[export] Hint Resolve untimed_tick untimed_nextCommandID untimed_session_open : untimed.

Lemma untimed_ctx_Err ctx : untimed (ctx_Err ctx).
Proof. unfold ctx_Err. solve_untimed. Qed.
#[export] Hint Resolve untimed_ctx_Err : untimed.
Lemma untimed_check_ctx ctx : untimed (check_ctx ctx).
Proof. unfold check_ctx. solve_untimed. Qed.
Lemma untimed_guard_err b e : untimed (@guard_err Session b e).
Proof. unfold guard_err. solve_untimed. Qed.
Lemma untimed_finalizeContext {A} ctx (r : res A) : untimed (finalizeContext ctx r).
Proof. unfold finalizeContext. solve_untimed. Qed.
Lemma untimed_readParameter i : untimed (readParameter i).
Proof. unfold readParameter. solve_untimed. Qed.
Lemma untimed_markStreamBroken : untimed markStreamBroken.
Proof. unfold markStreamBroken. solve_untimed. Qed.
#[export] Hint Resolve untimed_check_ctx untimed_guard_err untimed_finalizeContext untimed_readParameter
  untimed_markStreamBroken : untimed.
Lemma untimed_markUnlessAligned e : untimed (markUnlessAlignedH2Error e).
Proof. unfold markUnlessAlignedH2Error. solve_untimed. Qed.
Lemma untimed_PreparedCommand_Close cmd : untimed (PreparedCommand_Close cmd).
Proof.
  intros s. unfold PreparedCommand_Close. destruct (s_tr s); [|apply body_ok_refl].
  match goal with |- context [?m s] => assert (Hm : untimed m) by solve_untimed end. apply Hm.
Qed.
#[export] Hint Resolve untimed_markUnlessAligned untimed_PreparedCommand_Close : untimed.

Lemma untimed_writeParams fmt cmd params : forall i, untimed (writeParams fmt cmd i params).
Proof. induction params as [|p params IH]; intros i; cbn [writeParams]; solve_untimed. Qed.
#[export] Hint Resolve untimed_writeParams : untimed.

(** *** Updates *)

Lemma untimed_s_or_broken {A} fmt (m : M Tr A) : keeps_deadline m -> untimed (s_or_broken fmt m).
Proof. intros Hm. unfold s_or_broken. solve_untimed. Qed.

Lemma untimed_readKeyColumns meta n : forall j lc, untimed (readKeyColumns meta n j lc).
Proof. induction n as [|n IH]; intros j lc; cbn [readKeyColumns]; solve_untimed. Qed.
#[export] Hint Resolve untimed_s_or_broken untimed_readKeyColumns : untimed.

Lemma untimed_readKeyRows n bounded meta : forall rows lc, untimed (readKeyRows n bounded meta rows lc).
Proof.
  induction n as [|n IH]; intros rows lc; cbn [readKeyRows]; [solve_untimed|].
  apply untimed_bind; [|intros x; solve_untimed]. apply untimed_try. unfold readGeneratedKeyRow. cbv zeta. solve_untimed.
Qed.

Lemma untimed_resolveKeyLobs pending : forall rows, untimed (resolveKeyLobs pending rows).
Proof. induction pending as [|p pending IH]; intros rows; cbn [resolveKeyLobs]; solve_untimed. Qed.
#[export] Hint Resolve untimed_readKeyRows untimed_resolveKeyLobs : untimed.

Lemma untimed_readGeneratedKeys : untimed readGeneratedKeys.
Proof.
  unfold readGeneratedKeys, readKeysFrame, readKeysFrame_version. solve_untimed.
  all: try (apply untimed_s_or_broken; solve_untimed).
  unfold readAllKeyRows. cbv zeta. destruct (_ =? 0); [apply untimed_ret|]. intros s. apply untimed_readKeyRows.
Qed.
#[export] Hint Resolve untimed_readGeneratedKeys : untimed.

(** *** Queries *)

Lemma untimed_or_broken {A} fmt args (m : M RS A) : untimed m -> untimed (or_broken fmt args m).
Proof. intros Hm. unfold or_broken. solve_untimed. Qed.
Lemma untimed_unless_aligned {A} (m : M RS A) : untimed m -> untimed (unless_aligned m).
Proof. intros Hm. unfold unless_aligned. solve_untimed. Qed.

Lemma untimed_readColumns n : forall j lc, untimed (readColumns n j lc).
Proof.
  induction n as [|n IH]; intros j lc; cbn [readColumns]; solve_untimed. apply untimed_or_broken. solve_untimed.
Qed.
#[export] Hint Resolve untimed_readColumns : untimed.

Lemma untimed_fetchRows_loop n : forall lc, untimed (fetchRows_loop n lc).
Proof.
  induction n as [|n IH]; intros lc; cbn [fetchRows_loop]; [solve_untimed|].
  apply untimed_bind; [apply untimed_or_broken; solve_untimed|]. intros flag. cbv zeta. solve_untimed.
  apply untimed_unless_aligned. solve_untimed.
Qed.
#[export] Hint Resolve untimed_fetchRows_loop : untimed.

Lemma untimed_fetchRows fetch : untimed (fetchRows fetch).
Proof. unfold fetchRows, resolveLob. solve_untimed. Qed.
#[export] Hint Resolve untimed_fetchRows : untimed.

Lemma untimed_NewRows id cc fs owns cid : untimed (NewRows id cc fs owns cid).
Proof.
  unfold NewRows. apply untimed_bind; [solve_untimed|]. intros _. apply untimed_making.
  unfold prefetchInitialRows. solve_untimed; apply untimed_or_broken; solve_untimed.
Qed.

Lemma untimed_Next dest : untimed (Next dest).
Proof.
  assert (Hf : forall fetch, untimed (fetchMoreRows fetch)).
  { intros fetch [s r]. unfold fetchMoreRows. destruct (s_tr _); [|apply body_ok_refl].
    revert s r. cut (untimed (unless_aligned (requestRows fetch))); [intros H s r; apply (H (s, r))|].
    apply untimed_unless_aligned. unfold requestRows. solve_untimed. }
  unfold Next, refill, EOF. solve_untimed.
Qed.
#[export] Hint Resolve untimed_NewRows untimed_Next : untimed.

Lemma untimed_closing {A} owns cmd (m : M Session A) : untimed m -> untimed (closing owns cmd m).
Proof. intros Hm. unfold closing. solve_untimed. Qed.

(** ** Operations *)

Lemma begin_Ok ctx cancel s : beginOperationContext ctx cancel s = (Ok tt, (beginOperationContext ctx cancel s).2).
Proof. unfold beginOperationContext, set_deadline. by destruct (ctx_deadline ctx), (s_tr s). Qed.
Lemma end_Ok s : endOperationContext s = (Ok tt, (endOperationContext s).2).
Proof. unfold endOperationContext, set_deadline. by destruct (s_tr s). Qed.

Lemma session_open_bind {A} e (m : M Session A) s : s_tr s <> None -> (session_open e ;; m) s = m s.
Proof. unfold session_open, bind. by destruct (s_tr s). Qed.

(** No deadline stands, on a transport that has deadlines. *)
Definition at_rest (s : Session) : Prop := timed s /\ deadline_of s = None.

Lemma timed_untimed s s' : body_ok s s' = true -> timed s -> timed s'.
Proof. intros H. apply (body_ok_spec _ _ H). Qed.

Lemma at_rest_untimed s s' : body_ok s s' = true -> at_rest s -> at_rest s'.
Proof.
  intros (_ & Ht & Hd & _)%body_ok_spec [H1 H2]. split; [by apply Ht|].
  destruct (deadline_of s') as [d|] eqn:E; [|done]. by rewrite (Hd d eq_refl) in H2.
Qed.

Lemma end_at_rest s : timed s -> at_rest (endOperationContext s).2.
Proof.
  intros Ht. split; [by apply timed_set|]. unfold endOperationContext. rewrite deadline_set by done. by destruct (s_tr s).
Qed.

Lemma begin_timed ctx cancel s : timed s -> timed (beginOperationContext ctx cancel s).2.
Proof. intros Ht. unfold beginOperationContext. destruct (ctx_deadline ctx); [by apply timed_set|done]. Qed.

Definition maintains {A} (P : Session -> Prop) (m : M Session A) : Prop := forall s, P s -> P (m s).2.

(** An operation ends at rest, whatever deadline stood before and whatever its body does
    to the deadline. *)
Lemma operation_at_rest {A} ctx cancel (body : M Session A) s :
  maintains timed body -> timed s -> at_rest (operation ctx cancel body s).2.
Proof.
  intros Hb Hs. unfold operation. rewrite (bind_Ok _ _ _ _ _ (begin_Ok ctx cancel s)). unfold bind, try.
  pose proof (Hb _ (begin_timed ctx cancel s Hs)) as H1. destruct (body _) as [r s1]. cbn [snd] in H1.
  pose proof (timed_untimed _ _ (untimed_finalizeContext ctx r s1) H1) as H2.
  unfold session_of, HasSession_id in H2. destruct (finalizeContext ctx r s1) as [x s2]. cbn [snd] in H2.
  rewrite (end_Ok s2). pose proof (end_at_rest s2 H2). by destruct x.
Qed.

(** What holds of every session at rest, and is kept where the deadline is left alone. *)
Class Restful (P : Session -> Prop) := {
  restful_at_rest s : at_rest s -> P s;
  restful_timed s : P s -> timed s;
  restful_untimed s s' : body_ok s s' = true -> P s -> P s'
}.

#[export] Instance Restful_at_rest : Restful at_rest.
Proof. split; [done|by intros s [H _]|apply at_rest_untimed]. Qed.
#[export] Instance Restful_timed : Restful timed.
Proof. split; [by intros s []|done|apply timed_untimed]. Qed.

Section maintains.
Context (P : Session -> Prop) `{!Restful P} {A B : Type}.

Lemma maintains_untimed (m : M Session A) : untimed m -> maintains P m.
Proof using Restful0. intros Hm s. apply restful_untimed, (Hm s). Qed.
Lemma maintains_bind (m : M Session A) (k : A -> M Session B) :
  maintains P m -> (forall a, maintains P (k a)) -> maintains P (bind m k).
Proof using. intros Hm Hk s Hs. specialize (Hm s Hs). unfold bind. destruct (m s) as [[a|e] s1]; [by apply Hk|done]. Qed.
Lemma maintains_same (m : M Session A) (m' : M Session B) :
  (forall s, (m' s).2 = (m s).2) -> maintains P m -> maintains P m'.
Proof using. intros He Hm s. rewrite He. apply Hm. Qed.

(** The frame of most operations. *)
Lemma maintains_operation e ctx cancel (body : M Session A) :
  maintains timed body -> maintains P (session_open e ;; operation ctx cancel body).
Proof using Restful0.
  intros Hb s Hs. unfold bind, session_open. destruct (s_tr s); [|exact Hs].
  apply restful_at_rest, operation_at_rest; [done|by apply restful_timed].
Qed.
End maintains.

Section operations.
Context (P : Session -> Prop) `{!Restful P}.

(** Leaves of the operations. *)
Ltac leaf := apply maintains_operation; [done|]; apply maintains_untimed; [apply _|]; solve_untimed.

Lemma maintains_PrepareCommand ctx sql : maintains P (PrepareCommand ctx sql).
Proof using Restful0. unfold PrepareCommand. leaf. Qed.
Lemma maintains_PrepareCommandReadParams ctx sql : maintains P (PrepareCommandReadParams ctx sql).
Proof using Restful0. unfold PrepareCommandReadParams. leaf. Qed.
Lemma maintains_hasPendingTransaction ctx : maintains P (hasPendingTransaction ctx).
Proof using Restful0. unfold hasPendingTransaction. leaf. Qed.
Lemma maintains_setAutoCommit ctx b : maintains P (setAutoCommit ctx b).
Proof using Restful0. unfold setAutoCommit. leaf. Qed.
Lemma maintains_commitCurrentTransaction ctx : maintains P (commitCurrentTransaction ctx).
Proof using Restful0. unfold commitCurrentTransaction. leaf. Qed.
Lemma maintains_PreparedCommand_Close cmd : maintains P (PreparedCommand_Close cmd).
Proof using Restful0. apply maintains_untimed; [done|]. solve_untimed. Qed.

Lemma maintains_ExecuteUpdatePreparedWithParams ctx cmd params :
  maintains P (ExecuteUpdatePreparedWithParams ctx cmd params).
Proof using Restful0.
  intros s Hs. unfold ExecuteUpdatePreparedWithParams, session_open, guard_err at 1, bind at 1.
  destruct (s_tr s); [|exact Hs]. unfold bind at 1. destruct (cmd_IsQuery cmd); [exact Hs|].
  apply restful_at_rest, operation_at_rest; [|by apply restful_timed]. apply maintains_untimed; [apply _|].
  unfold writeExecuteUpdate, writeKeySelectors, readExecuteUpdate. solve_untimed.
Qed.

Lemma maintains_then_close {A} cmd (m : M Session A) : maintains P m -> maintains P (then_close cmd m).
Proof using Restful0.
  intros Hm. unfold then_close. apply maintains_bind.
  { apply (maintains_same P m); [|done]. intros s. unfold try. by destruct (m s). }
  intros x.
  apply maintains_bind; [apply (maintains_same P (PreparedCommand_Close cmd)); [done|apply maintains_PreparedCommand_Close]|].
  intros _. destruct x; by intros s.
Qed.

Lemma maintains_ExecuteUpdate ctx sql : maintains P (ExecuteUpdate ctx sql).
Proof using Restful0.
  unfold ExecuteUpdate. apply maintains_bind; [apply maintains_PrepareCommand|]. intros cmd.
  apply maintains_then_close, maintains_ExecuteUpdatePreparedWithParams.
Qed.
Lemma maintains_ExecuteUpdateWithParams ctx sql params : maintains P (ExecuteUpdateWithParams ctx sql params).
Proof using Restful0.
  unfold ExecuteUpdateWithParams. apply maintains_bind; [apply maintains_PrepareCommandReadParams|]. intros cmd.
  apply maintains_then_close, maintains_ExecuteUpdatePreparedWithParams.
Qed.
End operations.

(** A statement of the driver's own: an operation with operations inside. *)
Lemma maintains_own_statement what ctx sql :
  maintains timed (check_ctx ctx ;; wrapE what (ExecuteUpdate ctx sql) ;; ret tt).
Proof.
  apply maintains_bind; [apply maintains_untimed; [apply _|solve_untimed]|]. intros _.
  apply maintains_bind; [|by intros _ s]. apply (maintains_same timed (ExecuteUpdate ctx sql)); [|apply (maintains_ExecuteUpdate timed)].
  intros s. unfold wrapE. by destruct (ExecuteUpdate ctx sql s) as [[]].
Qed.

Section nested.
Context (P : Session -> Prop) `{!Restful P}.

Lemma maintains_rollbackCurrentTransaction ctx : maintains P (rollbackCurrentTransaction ctx).
Proof using Restful0. apply maintains_operation; [done|apply maintains_own_statement]. Qed.
Lemma maintains_setTransactionIsolation ctx level : maintains P (setTransactionIsolation ctx level).
Proof using Restful0. apply maintains_operation; [done|apply maintains_own_statement]. Qed.
End nested.

(** What the operations that end with the function leave of the session. *)
Definition session_operations (ctx : Ctx) (sql : gostring) (b : bool) (cmd : PreparedCommand) (params : list Value)
  : list (Session -> Session) :=
  [fun s => (PrepareCommand ctx sql s).2; fun s => (PrepareCommandReadParams ctx sql s).2;
   fun s => (hasPendingTransaction ctx s).2; fun s => (setAutoCommit ctx b s).2;
   fun s => (commitCurrentTransaction ctx s).2; fun s => (rollbackCurrentTransaction ctx s).2;
   fun s => (setTransactionIsolation ctx sql s).2;
   fun s => (ExecuteUpdate ctx sql s).2; fun s => (ExecuteUpdateWithParams ctx sql params s).2;
   fun s => (ExecuteUpdatePreparedWithParams ctx cmd params s).2; fun s => (PreparedCommand_Close cmd s).2].

(** ** A query *)

(** The rows of a query, read as often as there are elements in [dests]; errors are
    ignored. *)
Definition browse (dests : list (list Value)) : M RS unit := for_each dests (fun dest => discard (Next dest)).

Lemma untimed_browse dests : untimed (browse dests).
Proof. unfold browse. solve_untimed. Qed.

Lemma untimed_also {W} `{HasSession W} (b : bool) (m : M W unit) o : untimed m -> untimed (also b m o).
Proof. intros Hm. unfold also. solve_untimed. Qed.

(** Closing open rows: the deadline is cleared first, what follows leaves it alone. *)
Lemma Rows_release_clears s r :
  rs_contextCleanup r = true -> body_ok (endOperationContext s).2 (Rows_release (s, r)).2.1 = true.
Proof.
  intros Hc. set (r1 := set_contextCleanup false (set_closed r)). unfold Rows_release.
  rewrite (bind_Ok (update set_closed) _ _ tt (s, set_closed r)) by done.
  rewrite (bind_Ok (rows rs_contextCleanup) _ _ true (s, set_closed r)) by (unfold rows; cbn; by rewrite Hc).
  rewrite (bind_Ok _ _ _ tt ((endOperationContext s).2, r1))
    by (unfold bind, on_sess; cbn iota beta; by rewrite (end_Ok s)).
  match goal with |- body_ok _ (fst (snd (?m ?w))) = true => assert (Hm : untimed m); [|exact (Hm w)] end.
  unfold sendResultClose, sendCommandClose. solve_untimed; apply untimed_also; solve_untimed.
Qed.

Lemma keeps_browse dests : keeps_handle (browse dests).
Proof.
  unfold browse. induction dests as [|d dests IH]; cbn [for_each]; [apply keeps_ret|].
  apply keeps_bind; [|done]. intros s r. apply (keeps_Next d s r).
Qed.

(** The part of a query under its deadline. *)
Definition query_body (ctx : Ctx) (cmd : PreparedCommand) (resultID maxRows fetchSize : Z) (params : list Value)
    (owns : bool) : M Session Rows :=
  x <- try (closing owns cmd (
    writeExecuteQuery cmd resultID maxRows fetchSize params ;;
    wrapE "executeQueryWire" (on_tr readStatus) ;;
    columnCount <- wrapf "h2go: executeQueryWire: failed to read column count: %w" [] (on_tr ReadInt32) ;;
    r <- NewRows resultID columnCount fetchSize owns (if owns then cmd_ID cmd else 0) ;;
    ret (set_contextCleanup true r))) ;;
  finalizeContext ctx x.

Lemma untimed_query_body ctx cmd id mr fs params owns : untimed (query_body ctx cmd id mr fs params owns).
Proof.
  unfold query_body. apply untimed_bind; [|intros x; solve_untimed]. apply untimed_try, untimed_closing.
  unfold writeExecuteQuery. solve_untimed.
Qed.

Lemma executeQueryWire_unfold ctx cmd mr fs params owns s :
  let '(y, s1) := query_body ctx cmd (int32 (s_nextID s + 1)) mr fs params owns
                    (beginOperationContext ctx true (nextCommandID s).2).2 in
  executeQueryWire ctx cmd mr fs params owns s =
  match y with Ok r => (Ok r, s1) | Err e => (Err e, (endOperationContext s1).2) end.
Proof.
  unfold executeQueryWire. rewrite (bind_Ok nextCommandID _ s (int32 (s_nextID s + 1)) (nextCommandID s).2) by done.
  rewrite (bind_Ok _ _ _ _ _ (begin_Ok ctx true (nextCommandID s).2)).
  unfold query_body. set (q := closing owns cmd _). unfold bind, try. destruct (q _) as [x s2].
  destruct (finalizeContext ctx x s2) as [[r|e] s3]; [done|]. by rewrite (end_Ok s3).
Qed.

Lemma closing_Ok {A} owns cmd (m : M Session A) s a s' : closing owns cmd m s = (Ok a, s') -> m s = (Ok a, s').
Proof.
  unfold closing, bind at 1, try. destruct (m s) as [[b|e] s1]; [done|]. intros H. m_inv.
Qed.

Lemma finalizeContext_Ok {A} ctx (x : res A) s a s' : finalizeContext ctx x s = (Ok a, s') -> x = Ok a.
Proof.
  unfold finalizeContext. destruct x; [by intros [= -> _]|]. intros H. m_inv. repeat (case_match; m_inv).
Qed.

Lemma query_body_cleanup ctx cmd id mr fs params owns s r s' :
  query_body ctx cmd id mr fs params owns s = (Ok r, s') -> rs_contextCleanup r = true.
Proof.
  unfold query_body, bind at 1, try. destruct (closing _ _ _ s) as [x s1] eqn:E. intros ->%finalizeContext_Ok.
  apply closing_Ok in E. m_inv. done.
Qed.

(** The deadline of a query: that of its context, with the time a cancellation is given. *)
Definition query_deadline (ctx : Ctx) : option Z := (fun d => d + cancelGracePeriod) <$> ctx_deadline ctx.

Lemma begin_deadline ctx s :
  at_rest s -> s_tr s <> None -> deadline_of (beginOperationContext ctx true s).2 = query_deadline ctx.
Proof.
  intros [Ht Hd] Htr. unfold beginOperationContext, query_deadline. destruct (ctx_deadline ctx) as [d|]; [|exact Hd].
  rewrite deadline_set by done. by destruct (s_tr s).
Qed.

Lemma begin_tr ctx cancel s : s_tr s = None -> s_tr (beginOperationContext ctx cancel s).2 = None.
Proof. intros E. unfold beginOperationContext, set_deadline. destruct (ctx_deadline ctx); by rewrite ?E. Qed.

Lemma body_ok_tr s s' : body_ok s s' = true -> s_tr s' <> None -> s_tr s <> None.
Proof. unfold body_ok. intros [_ H]%andb_true_iff. by destruct (s_tr s), (s_tr s'). Qed.

(** What is true of a session with an open query, read on any number of times. *)
Definition under_deadline (ctx : Ctx) (s : Session) (r : Rows) : Prop :=
  forall dests, let '(s2, r2) := (browse dests (s, r)).2 in
  (s_tr s2 <> None -> deadline_of s2 = query_deadline ctx) /\ at_rest (Rows_release (s2, r2)).2.1.

Lemma executeQueryWire_deadline ctx cmd mr fs params owns s :
  at_rest s ->
  match executeQueryWire ctx cmd mr fs params owns s with
  | (Err _, s') => at_rest s'
  | (Ok r, s') => under_deadline ctx s' r
  end.
Proof.
  intros Hs. set (s0 := (nextCommandID s).2). assert (Hs0 : at_rest s0) by exact Hs.
  pose proof (executeQueryWire_unfold ctx cmd mr fs params owns s) as E. fold s0 in E.
  pose proof (untimed_query_body ctx cmd (int32 (s_nextID s + 1)) mr fs params owns (beginOperationContext ctx true s0).2) as Hb.
  pose proof (begin_timed ctx true s0 (proj1 Hs0)) as Ht. pose proof (begin_deadline ctx s0 Hs0) as Hp.
  pose proof (begin_tr ctx true s0) as Htr.
  set (sb := (beginOperationContext ctx true s0).2) in *. clearbody sb s0.
  destruct (query_body _ _ _ _ _ _ _ sb) as [[r|e] s1] eqn:Eb; rewrite E; cbn [snd] in Hb; unfold session_of, HasSession_id in Hb.
  - intros dests. pose proof (untimed_browse dests (s1, r)) as Hn. pose proof (keeps_browse dests s1 r) as Hk.
    unfold session_of, HasSession_RS in Hn. destruct (browse dests (s1, r)) as [z [s2 r2]]. cbn [fst snd] in *.
    pose proof (body_ok_trans _ _ _ Hb Hn) as Hbn. destruct (body_ok_spec _ _ Hbn) as (_ & Ht2 & _ & Hd2). split.
    + intros Htr2. rewrite (Hd2 Htr2). apply Hp. intros Hno. by apply (body_ok_tr _ _ Hbn Htr2), Htr.
    + apply (at_rest_untimed _ _ (Rows_release_clears s2 r2 ltac:(unfold handle in Hk;
        pose proof (query_body_cleanup _ _ _ _ _ _ _ _ _ _ Eb); congruence))), end_at_rest, Ht2, Ht.
  - apply end_at_rest. by apply (timed_untimed _ _ Hb).
Qed.

(** A query that leaves its session under the deadline of its rows, or at rest. *)
Definition bracketed (ctx : Ctx) (q : M Session Rows) : Prop := forall s, at_rest s ->
  match q s with
  | (Err _, s') => at_rest s'
  | (Ok r, s') => under_deadline ctx s' r
  end.

Lemma bracketed_fail ctx e : bracketed ctx (fail e).
Proof. by intros s. Qed.
Lemma bracketed_bind {A} ctx (m : M Session A) (k : A -> M Session Rows) :
  maintains at_rest m -> (forall a, bracketed ctx (k a)) -> bracketed ctx (bind m k).
Proof. intros Hm Hk s Hs. specialize (Hm s Hs). unfold bind. destruct (m s) as [[a|e] s1]; [by apply Hk|done]. Qed.
Lemma bracketed_guard ctx (c : bool) (cmd : PreparedCommand) e q :
  bracketed ctx q -> bracketed ctx (if c then discard (PreparedCommand_Close cmd) ;; fail e else q).
Proof.
  intros Hq. destruct c; [|done]. apply bracketed_bind; [|intros _; apply bracketed_fail].
  apply maintains_untimed; [apply _|]. solve_untimed.
Qed.

(** The queries of a session. *)
Definition session_queries (ctx : Ctx) (sql : gostring) (cmd : PreparedCommand) (mr fs : Z) (params : list Value)
  : list (M Session Rows) :=
  [ExecuteQuery ctx sql mr fs; ExecuteQueryWithParams ctx sql mr fs params;
   ExecuteQueryPreparedWithParams ctx cmd mr fs params].

Lemma queries_bracketed ctx sql cmd mr fs params : Forall (bracketed ctx) (session_queries ctx sql cmd mr fs params).
Proof.
  assert (Hw : forall cmd params owns, bracketed ctx (executeQueryWire ctx cmd mr fs params owns))
    by (intros ????; apply executeQueryWire_deadline).
  assert (Ho : forall e, maintains at_rest (session_open e))
    by (intros; apply maintains_untimed; [apply _|solve_untimed]).
  assert (Hp : forall what (m : M Session PreparedCommand), maintains at_rest m -> maintains at_rest (wrapE what m)).
  { intros what m. apply maintains_same. intros s. unfold wrapE. by destruct (m s) as [[]]. }
  unfold session_queries. repeat apply Forall_cons_2; [..|apply Forall_nil_2];
    unfold ExecuteQuery, ExecuteQueryWithParams, ExecuteQueryPreparedWithParams; (apply bracketed_bind; [apply Ho|intros _]).
  - apply bracketed_bind; [apply Hp, (maintains_PrepareCommand at_rest)|]. intros c. apply bracketed_guard, Hw.
  - apply bracketed_bind; [apply Hp, (maintains_PrepareCommandReadParams at_rest)|]. intros c.
    apply bracketed_guard, bracketed_guard, Hw.
  - destruct (negb _); [apply bracketed_fail|]. destruct (negb _); [apply bracketed_fail|apply Hw].
Qed.


Definition browsed_session : Session :=
  open_session (query_answer false [sample_column] sample_batch ++ enc_batch 100 sample_batch ++ batch_replies sample_batch).

