(* ===== verification/Prepared.v ===== *)
(** * The life of a prepared statement on the wire

    A client prepares a statement, executes it as often as it likes, and closes it. The
    theorems compose what the files on sessions, updates, queries, connections and
    statements show into whole conversations: what is sent from the first message to the
    last, and that each answer is read exactly. *)

From S2P Require Import Prelude.
From S2P Require Import GoText.
From S2P Require Import Protocol.
From S2P Require Import Transfer.
From S2P Require Import Errors.
From S2P Require Import TypeInfo.
From S2P Require Import Metadata.
From S2P Require Import Value.
From S2P Require Import ValueRead.
From S2P Require Import ValueWire.
From S2P Require Import ValueWrite.
From S2P Require Import Dsn.
From S2P Require Import Session.
From S2P Require Import SessionFacts.
From S2P Require Import Exchange.
From S2P Require Import Rows.
From S2P Require Import RowsFacts.
From S2P Require Import RowsWire.
From S2P Require Import GeneratedKeys.
From S2P Require Import Update.
From S2P Require Import ExecuteFacts.
From S2P Require Import UpdateWire.
From S2P Require Import QueryWire.
From S2P Require Import Conn.
From S2P Require Import Stmt.
From S2P Require Import ConnFacts.
From S2P Require Import ConnWire.

(** ** One operation of a statement *)

(** A statement in use, with its command. *)
Definition prepared (cmd : PreparedCommand) : stmt := mkStmt true (Some cmd) false false false.

(** A context that is never done. *)
Definition endless (ctx : Ctx) : Prop := ctx_done_at ctx = None.

Lemma not_done_endless ctx c st : endless ctx ->
  not_done ctx (c, st) = (Ok tt, (mkConn (c_open c) (c_busy c) (set_now (s_now (c_sess c) + 1) (c_sess c)), st)).
Proof. intros He. unfold not_done, on_conn, on_clock, check_ctx, ctx_Err, bind, tick. cbn. by rewrite He. Qed.

Lemma wire_set_now f n s out inp : wire f s out inp -> wire f (set_now n s) out inp.
Proof. done. Qed.

Lemma framed_set_now n s s' : framed (set_now n s) s' -> framed s s'.
Proof. done. Qed.

(** An operation after which the stream is in order has not broken the session. *)
Lemma step_stays_alive {A} (m : M Session A) s x s' out inp :
  session_step s (m s).2 -> m s = (x, s') -> wire true s' out inp -> alive s -> alive s'.
Proof.
  intros Hs E Hw Ha. rewrite E in Hs. cbn in Hs. destruct (session_step_settled _ _ Hs) as [H _]. destruct (H Ha) as [?|(Hn & _)]; [done|].
  destruct (wire_tr _ _ _ _ Hw). congruence.
Qed.

(** Preparing takes the connection and gives it back. *)
Lemma PrepareContext_run ctx sql isQuery readOnly cmdType ps s out suf :
  zlen ps <= maxWireCollectionElements -> forallb wf_wire_param ps = true -> in_intN 32 cmdType -> s_dead s = false ->
  wire true s out (prepare_answer isQuery readOnly cmdType ps ++ suf) ->
  let id := int32 (s_nextID s + 1) in
  let cmd := mkPreparedCommand id sql isQuery readOnly cmdType (zlen ps) (imap (fun k => param_meaning (Z.of_nat k)) ps) in
  exists s',
    PrepareContext ctx sql (mkConn true false s) = (Ok (prepared cmd), mkConn true false s') /\
    wire true s' (out ++ prepare_request id sql) suf /\ framed (set_nextID id s) s' /\ (alive s -> alive s').
Proof.
  intros Hl Hp Hc Hd Hw id cmd.
  destruct (PrepareCommandReadParams_run ctx sql isQuery readOnly cmdType ps s out suf Hl Hp Hc Hw) as (s' & E & Hw' & Hf).
  exists s'. split; [|split; [done|split; [done|]]].
  2:{ by apply (step_stays_alive _ _ _ _ _ _ (step_PrepareCommandReadParams s ctx sql) E Hw'). }
  unfold PrepareContext, exclusively.
  rewrite (bind_Ok acquire _ _ tt (mkConn true true s)) by (by apply acquire_idle).
  rewrite deferring_run. unfold bind, on_session. cbn [c_open c_sess c_busy]. by rewrite E.
Qed.

(** Beginning an operation of a statement that is not closed. *)
Lemma beginOperation_run s cmd : s_dead s = false ->
  beginOperation (mkConn true false s, prepared cmd) = (Ok cmd, (mkConn true true s, prepared cmd)).
Proof.
  intros Hd. unfold beginOperation, bind at 1, on_stmt, get. cbn [prepared st_cmd st_closed st_conn st_closeSent orb negb].
  unfold bind, on_conn. by rewrite acquire_idle.
Qed.

(** Ending one, with no close asked for meanwhile. *)
Lemma finishOperation_run s cmd :
  finishOperation (mkConn true true s, prepared cmd) = (Ok tt, (mkConn true false s, prepared cmd)).
Proof. reflexivity. Qed.

(** ** Executions *)

(** One execution: its arguments, the parameters they become and their bytes; what the
    server answers. *)
Record execution := mkExecution {
  ex_args : list NamedValue;
  ex_params : list Value;
  ex_bytes : list byte;
  ex_count : Z;
  ex_autoCommit : bool;
  ex_keys : option wire_keys
}.

Section Executions.
Context (ctx : Ctx) (cmd : PreparedCommand) (mode : Z) (cols : option (list Z)) (names : option (list gostring)).

Record execution_ok (x : execution) : Prop := {
  ok_args : convertNamedValues (ex_args x) = Ok (ex_params x);
  ok_arity : cmd_ParamCount cmd = zlen (ex_params x);
  ok_bytes : params_frame cmd 0 (ex_params x) = Some (ex_bytes x);
  ok_mode : (mode =? GeneratedKeysNone) = bool_decide (ex_keys x = None);
  ok_keys : forall k, ex_keys x = Some k -> wf_keys k;
  ok_count : in_intN 64 (ex_count x)
}.

Definition ex_answer (x : execution) : list byte := update_answer (ex_count x) (ex_autoCommit x) (ex_keys x).
Definition ex_request (x : execution) : list byte :=
  update_request cmd (zlen (ex_params x)) (ex_bytes x) mode cols names.
Definition ex_result (x : execution) : result := result_of (update_result (ex_count x) (ex_autoCommit x) (ex_keys x)).

(** A session that executes [cmd] in this mode. *)
Definition equipped (s : Session) : Prop :=
  s_dead s = false /\ TCPProtocolVersion20 <= s_version s /\ resolveGeneratedKeys ctx s = (mode, cols, names).

Lemma equipped_framed s s' : framed s s' -> equipped s -> equipped s'.
Proof.
  intros Hf (Hd & Hv & Hr). split_and!; [|destruct Hf as (_ & _ & -> & _); done|by rewrite (resolveGeneratedKeys_framed _ s)].
  destruct Hf as (_ & _ & _ & -> & _). done.
Qed.

Lemma stmt_ExecContext_run x s out suf :
  endless ctx -> cmd_IsQuery cmd = false -> execution_ok x -> equipped s -> wire true s out (ex_answer x ++ suf) ->
  exists s',
    stmt_ExecContext ctx (ex_args x) (mkConn true false s, prepared cmd)
    = (Ok (ex_result x), (mkConn true false s', prepared cmd)) /\
    wire true s' (out ++ ex_request x) suf /\ framed s s' /\ s_autoCommit s' = ex_autoCommit x /\ (alive s -> alive s').
Proof.
  intros He Hq [Ha Hn Hb Hm Hk Hc] Hr Hw. set (s1 := set_now (s_now s + 1) s).
  assert (Hr1 : equipped s1) by exact Hr. destruct Hr1 as (Hd & Hv & Hres).
  destruct (ExecuteUpdatePrepared_run ctx cmd (ex_params x) (ex_bytes x) mode cols names (ex_count x) (ex_autoCommit x)
              (ex_keys x) s1 out suf Hq Hn Hb Hres Hm Hk Hc Hv Hw) as (s2 & E & Hw2 & Hac & Hf).
  exists s2. split; [|split_and!; try done].
  2:{ intros Ha1. by apply (step_stays_alive _ _ _ _ _ _ (step_ExecuteUpdatePrepared s1 ctx cmd (ex_params x)) E Hw2). }
  unfold stmt_ExecContext. rewrite Ha. unfold lift at 1. unfold bind at 1.
  rewrite (bind_Ok _ _ _ _ _ (not_done_endless ctx (mkConn true false s) (prepared cmd) He)). cbn [c_open c_busy c_sess]. fold s1.
  rewrite (bind_Ok _ _ _ _ _ (beginOperation_run s1 cmd Hd)).
  unfold bind at 1, try at 1, on_conn at 1. rewrite on_session_run by done. cbn [c_sess c_busy]. rewrite E.
  cbn [fst snd]. unfold bind, try. by rewrite finishOperation_run.
Qed.

(** [for _, a := range argss { stmt.ExecContext(ctx, a) }], the results kept. *)
Fixpoint exec_all (argss : list (list NamedValue)) : M CS (list result) :=
  match argss with
  | [] => ret []
  | a :: rest => r <- stmt_ExecContext ctx a ;; rs <- exec_all rest ;; ret (r :: rs)
  end.

Lemma exec_all_run xs : forall s out suf,
  endless ctx -> cmd_IsQuery cmd = false -> Forall execution_ok xs -> equipped s ->
  wire true s out (flat_map ex_answer xs ++ suf) ->
  exists s',
    exec_all (map ex_args xs) (mkConn true false s, prepared cmd)
    = (Ok (map ex_result xs), (mkConn true false s', prepared cmd)) /\
    wire true s' (out ++ flat_map ex_request xs) suf /\ framed s s' /\
    s_autoCommit s' = default (s_autoCommit s) (ex_autoCommit <$> last xs) /\ (alive s -> alive s').
Proof.
  induction xs as [|x xs IH]; intros s out suf He Hq Hok Hr Hw.
  { exists s. rewrite app_nil_r. by split_and!. }
  apply Forall_cons in Hok as [Hx Hxs]. cbn [flat_map] in Hw. rewrite <- app_assoc in Hw.
  destruct (stmt_ExecContext_run x s out (flat_map ex_answer xs ++ suf) He Hq Hx Hr Hw) as (s1 & E1 & Hw1 & Hf1 & Ha1 & Hal1).
  destruct (IH s1 _ suf He Hq Hxs (equipped_framed _ _ Hf1 Hr) Hw1) as (s2 & E2 & Hw2 & Hf2 & Ha2 & Hal2).
  exists s2. cbn [map exec_all flat_map]. rewrite (bind_Ok _ _ _ _ _ E1), (bind_Ok _ _ _ _ _ E2). split; [done|].
  split; [by rewrite app_assoc|]. split; [by eapply framed_trans|]. split; [|by auto]. rewrite Ha2, last_cons.
  destruct (last xs); [done|exact Ha1].
Qed.
End Executions.

(** Closing a command does not touch the autocommit state. *)
Definition keeps_ac {A} (m : M Session A) : Prop := forall s, s_autoCommit (m s).2 = s_autoCommit s.

Lemma keeps_ac_wire {A} fmt (m : M Tr A) : keeps_ac (wrapf fmt [] (on_tr m)).
Proof. intros s. rewrite wrapf_run. unfold on_tr. destruct (s_tr s) as [t|]; [|done]. by destruct (m t) as [[] ?]. Qed.
Lemma keeps_ac_bind {A B} (m : M Session A) (k : A -> M Session B) :
  keeps_ac m -> (forall a, keeps_ac (k a)) -> keeps_ac (bind m k).
Proof. intros Hm Hk s. specialize (Hm s). unfold bind. destruct (m s) as [[a|e] s']; [|done]. by rewrite Hk. Qed.
Lemma keeps_ac_Close cmd : keeps_ac (PreparedCommand_Close cmd).
Proof.
  intros s. unfold PreparedCommand_Close. destruct (s_tr s); [|done]. revert s. change (keeps_ac (
    wrapf "h2go: PreparedCommand.Close: failed to write op: %w" [] (on_tr (WriteInt32 CommandClose)) ;;
    wrapf "h2go: PreparedCommand.Close: failed to write command id: %w" [] (on_tr (WriteInt32 (cmd_ID cmd))) ;;
    wrapf "h2go: PreparedCommand.Close: flush failed: %w" [] (on_tr Flush))).
  repeat (apply keeps_ac_bind; [apply keeps_ac_wire|intros _]). apply keeps_ac_wire.
Qed.

(** Closing a statement of a free connection sends COMMAND_CLOSE. *)
Lemma stmt_Close_run s cmd out suf :
  s_dead s = false -> wire true s out suf ->
  exists s', stmt_Close (mkConn true false s, prepared cmd)
    = (Ok tt, (mkConn true false s', mkStmt false None true false true)) /\
    wire true s' (out ++ close_frame (cmd_ID cmd)) suf /\ framed s s' /\
    s_autoCommit s' = s_autoCommit s /\ (alive s -> alive s').
Proof.
  intros Hd Hw. destruct (exch_PreparedCommand_Close true cmd s out suf Hw) as (s' & E & Hw' & Hf).
  pose proof (keeps_ac_Close cmd s) as Hac. rewrite E in Hac. exists s'. split; [|split_and!; try done].
  2:{ by apply (step_stays_alive _ _ _ _ _ _ (step_PreparedCommand_Close s cmd) E Hw'). }
 
  assert (Eb : (on_conn (close_command cmd) ;; on_stmt markCommandClosed) (set_busy true (mkConn true false s), set_st_closed (prepared cmd))
    = (Ok tt, (mkConn true true s', mkStmt false None true false true))).
  { unfold bind, on_conn, close_command. cbn [c_open set_busy]. rewrite on_session_run by done. cbn [c_sess c_busy set_busy c_open]. by rewrite E. }
  unfold stmt_Close, bind at 1, on_stmt at 1, get. unfold bind at 1, on_stmt at 1, modify.
  cbn [prepared st_cmd st_closeSent st_conn negb]. unfold bind at 1, try at 1, on_conn at 1.
  rewrite acquire_idle by done. rewrite deferring_run. change (mkStmt true (Some cmd) false false false) with (prepared cmd).
  by rewrite Eb.
Qed.

(** ** Correctness *)

(** A client that prepares a statement, executes it with every list of arguments in turn
    and closes it. *)
Definition execute_prepared (ctx : Ctx) (sql : gostring) (argss : list (list NamedValue)) : M conn (list result) := fun c =>
  match PrepareContext ctx sql c with
  | (Err e, c') => (Err e, c')
  | (Ok st, c') =>
      let '(x, (c'', _)) := (rs <- exec_all ctx argss ;; stmt_Close ;; ret rs) (c', st) in (x, c'')
  end.

Lemma execute_prepared_run ctx sql readOnly cmdType ps mode cols names xs s out suf :
  let id := int32 (s_nextID s + 1) in
  let cmd := mkPreparedCommand id sql false readOnly cmdType (zlen ps) (imap (fun k => param_meaning (Z.of_nat k)) ps) in
  endless ctx -> zlen ps <= maxWireCollectionElements -> forallb wf_wire_param ps = true -> in_intN 32 cmdType ->
  equipped ctx mode cols names s -> Forall (execution_ok cmd mode) xs ->
  wire true s out (prepare_answer false readOnly cmdType ps ++ flat_map ex_answer xs ++ suf) ->
  exists s',
    execute_prepared ctx sql (map ex_args xs) (mkConn true false s) = (Ok (map ex_result xs), mkConn true false s') /\
    wire true s' (((out ++ prepare_request id sql) ++ flat_map (ex_request cmd mode cols names) xs) ++ close_frame id) suf /\
    s_dead s' = false /\ (alive s -> alive s') /\
    (xs <> [] -> Some (s_autoCommit s') = ex_autoCommit <$> last xs).
Proof.
  intros id cmd He Hl Hp Hc Hr Hok Hw. pose proof Hr as (Hd & _).
  destruct (PrepareContext_run ctx sql false readOnly cmdType ps s out _ Hl Hp Hc Hd Hw) as (s1 & E1 & Hw1 & Hf1 & Hal1).
  fold id cmd in E1, Hw1, Hf1.
  assert (Hr1 : equipped ctx mode cols names s1) by (by apply (equipped_framed _ _ _ _ (set_nextID id s))).
  destruct (exec_all_run ctx cmd mode cols names xs s1 _ suf He eq_refl Hok Hr1 Hw1) as (s2 & E2 & Hw2 & Hf2 & Ha2 & Hal2).
  pose proof (equipped_framed _ _ _ _ _ _ Hf2 Hr1) as (Hd2 & _).
  destruct (stmt_Close_run s2 cmd _ suf Hd2 Hw2) as (s3 & E3 & Hw3 & Hf3 & Ha3 & Hal3).
  exists s3. split; [|split; [done|split; [|split; [by auto|]]]].
  - unfold execute_prepared. rewrite E1, (bind_Ok _ _ _ _ _ E2), (bind_Ok _ _ _ _ _ E3). done.
  - destruct Hf3 as (_ & _ & _ & -> & _). done.
  - intros Hne. rewrite Ha3, Ha2. destruct (last xs) eqn:El; [done|]. by apply last_None in El.
Qed.

(** A prepared statement can be executed any number of times: the
    conversation is the preparation, one request for each execution with its own
    parameters, and the close, in this order and nothing else. The results are what the
    server answered, one for each execution and in order, with their counts and
    generated keys. The connection is free afterwards, every answer was read exactly, and
    the session's autocommit state is that of the last answer. *)
Theorem prepared_statement_is_reused ctx sql readOnly cmdType ps mode cols names xs s out suf :
  let id := int32 (s_nextID s + 1) in
  let cmd := mkPreparedCommand id sql false readOnly cmdType (zlen ps) (imap (fun k => param_meaning (Z.of_nat k)) ps) in
  endless ctx -> zlen ps <= maxWireCollectionElements -> forallb wf_wire_param ps = true -> in_intN 32 cmdType ->
  equipped ctx mode cols names s -> Forall (execution_ok cmd mode) xs ->
  wire true s out (prepare_answer false readOnly cmdType ps ++ flat_map ex_answer xs ++ suf) ->
  exists s',
    execute_prepared ctx sql (map ex_args xs) (mkConn true false s) = (Ok (map ex_result xs), mkConn true false s') /\
    wire true s' (((out ++ prepare_request id sql) ++ flat_map (ex_request cmd mode cols names) xs) ++ close_frame id) suf /\
    s_dead s' = false /\
    (xs <> [] -> Some (s_autoCommit s') = ex_autoCommit <$> last xs).
Proof.
  intros id cmd He Hl Hp Hc Hr Hok Hw.
  destruct (execute_prepared_run ctx sql readOnly cmdType ps mode cols names xs s out suf He Hl Hp Hc Hr Hok Hw)
    as (s' & E & Hw' & Hd & _ & Ha). by exists s'.
Qed.

Definition sample_execution (n count : Z) : execution :=
  mkExecution (number_args 0 [VInt64 n; VNil]) [VInt64 n; VNil] (enc_value (WireBigint n) ++ enc_value WireNull)
    count true (Some sample_keys).

Lemma sample_execution_ok n count :
  in_intN 64 n -> in_intN 64 count -> params_frame sample_update 0 [VInt64 n; VNil] = Some (enc_value (WireBigint n) ++ enc_value WireNull) ->
  execution_ok sample_update GeneratedKeysAuto (sample_execution n count).
Proof.
  intros Hn Hc Hp. split; try done. intros k [= <-]. split_and!; [vm_compute; discriminate|vm_compute; discriminate|reflexivity|].
  repeat constructor.
Qed.

Lemma prepared_statement_is_reused_witness :
  let xs := [sample_execution 7 1; sample_execution 8 2] in
  let inp := prepare_answer false false 61 sample_params ++ flat_map ex_answer xs ++ lit "z" in
  exists s',
    execute_prepared Background (cmd_SQL sample_update) (map ex_args xs) (mkConn true false (open_session inp))
    = (Ok (map ex_result xs), mkConn true false s') /\ s_dead s' = false.
Proof.
  intros xs inp.
  destruct (prepared_statement_is_reused Background (cmd_SQL sample_update) false 61 sample_params GeneratedKeysAuto None None xs
    (open_session inp) [] (lit "z")) as (s' & H1 & _ & H2 & _).
  - reflexivity.
  - vm_compute. discriminate.
  - reflexivity.
  - unfold in_intN. lia.
  - split_and!; [reflexivity|vm_compute; discriminate|reflexivity].
  - constructor; [|constructor; [|constructor]]; apply (sample_execution_ok _ _); try (unfold in_intN; lia); reflexivity.
  - apply wire_open_session.
  - exists s'. split; [exact H1|exact H2].
Defined.

(** ** Queries *)

(** A query whose context is not done yet at the first look; what becomes of the
    context later does not matter when the server answers with rows. *)
Lemma stmt_QueryContext_first_look ctx cmd args params bs known cols rows inp req s out suf :
  let resultID := int32 (s_nextID s + 1) in
  let c := mkConn true false s in
  not_done ctx (c, prepared cmd) = (Ok tt, (mkConn true false (set_now (s_now s + 1) s), prepared cmd)) ->
  cmd_IsQuery cmd = true -> convertNamedValues args = Ok params ->
  cmd_ParamCount cmd = zlen params -> params_frame cmd 0 params = Some bs ->
  zlen cols <= maxWireCollectionElements -> forallb wf_column cols = true ->
  Forall (wf_row (zlen cols)) rows -> zlen rows < 2 ^ 63 ->
  answers resultID known (effectiveFetchSize c) rows inp req -> alive s ->
  wire true s out (query_answer known cols rows ++ inp ++ suf) ->
  exists s' r,
    stmt_QueryContext ctx args (c, prepared cmd) = (Ok r, (mkConn true true s', prepared cmd)) /\ alive s' /\
    represents (zlen cols)
      (out ++ query_request (cmd_ID cmd) resultID (effectiveMaxRows c) (effectiveFetchSize c) (zlen params) bs ++ req) suf (s', r)
      (map (map cell_value) rows) /\
    Rows_Columns r = Some (map (fun c => sanitize (wc_alias c)) cols) /\
    (rs_resultID r, rs_ownsCommand r, rs_closeCallback r) = (resultID, false, Some FinishOperation).
Proof.
  intros resultID c He Hq Ha Hn Hb Hc Hcols Hr Hall Hans Hal Hw. pose proof Hal as [Hd _].
  set (s1 := set_now (s_now s + 1) s). assert (Hal1 : alive s1) by exact Hal.
  destruct (ExecuteQueryPrepared_run ctx cmd params bs (effectiveMaxRows c) (effectiveFetchSize c) known cols rows inp req s1 out suf
              Hq Hn Hb (effectiveFetchSize_pos c) Hc Hcols Hr Hall Hans Hw) as (s2 & r & E & Hrep & Hcn & Hids & _).
  exists s2, (set_closeCallback (Some FinishOperation) r). split_and!.
  - unfold stmt_QueryContext. rewrite Ha. unfold lift at 1. unfold bind at 1.
    rewrite (bind_Ok _ _ _ _ _ He). fold s1.
    rewrite (bind_Ok _ _ _ _ _ (beginOperation_run s1 cmd Hd)).
    unfold bind at 1, on_conn at 1, get. unfold bind at 1, try at 1, on_conn at 1. rewrite on_session_run by done.
    cbn [c_sess c_busy].
    change (effectiveMaxRows (mkConn true true s1)) with (effectiveMaxRows c).
    change (effectiveFetchSize (mkConn true true s1)) with (effectiveFetchSize c). by rewrite E.
  - destruct (fair_ExecuteQueryPreparedWithParams ctx cmd (effectiveMaxRows c) (effectiveFetchSize c) params s1) as [Hf _].
    unfold session_of, HasSession_id in Hf. specialize (Hf Hal1). rewrite E in Hf. by destruct Hf.
  - exact Hrep.
  - exact Hcn.
  - cbn. by injection Hids as -> -> _.
Qed.

Lemma stmt_QueryContext_run ctx cmd args params bs known cols rows inp req s out suf :
  let resultID := int32 (s_nextID s + 1) in
  let c := mkConn true false s in
  endless ctx -> cmd_IsQuery cmd = true -> convertNamedValues args = Ok params ->
  cmd_ParamCount cmd = zlen params -> params_frame cmd 0 params = Some bs ->
  zlen cols <= maxWireCollectionElements -> forallb wf_column cols = true ->
  Forall (wf_row (zlen cols)) rows -> zlen rows < 2 ^ 63 ->
  answers resultID known (effectiveFetchSize c) rows inp req -> alive s ->
  wire true s out (query_answer known cols rows ++ inp ++ suf) ->
  exists s' r,
    stmt_QueryContext ctx args (c, prepared cmd) = (Ok r, (mkConn true true s', prepared cmd)) /\ alive s' /\
    represents (zlen cols)
      (out ++ query_request (cmd_ID cmd) resultID (effectiveMaxRows c) (effectiveFetchSize c) (zlen params) bs ++ req) suf (s', r)
      (map (map cell_value) rows) /\
    Rows_Columns r = Some (map (fun c => sanitize (wc_alias c)) cols) /\
    (rs_resultID r, rs_ownsCommand r, rs_closeCallback r) = (resultID, false, Some FinishOperation).
Proof.
  intros resultID c He. apply stmt_QueryContext_first_look. by apply (not_done_endless ctx c (prepared cmd)).
Qed.

(** [for rows.Next(dest) == nil { ... }], the rows kept; the bound is that of [Ping]. *)
Fixpoint read_all (fuel : nat) (dest : list Value) : M (CS * Rows) (list (list Value)) :=
  match fuel with
  | O => fail EFuel
  | S n =>
      x <- try (on_rows (Next dest)) ;;
      match x with
      | Ok row => rest <- read_all n dest ;; ret (row :: rest)
      | Err (ESent io_EOF) => ret []
      | Err e => fail e
      end
  end.

Lemma read_all_run width total suf l : forall fuel dest s r st,
  (length l < fuel)%nat -> zlen dest = width -> alive s -> represents width total suf (s, r) l ->
  exists s' r', read_all fuel dest ((mkConn true true s, st), r) = (Ok l, ((mkConn true true s', st), r')) /\
    alive s' /\ wire true s' total suf /\ handle r' = handle r.
Proof.
  induction l as [|row l IH]; intros [|fuel] dest s r st Hf Hd Ha Hrep; try (cbn in Hf; lia);
    pose proof (Next_represents _ _ _ _ _ dest Hrep Hd) as HN; cbn iota in HN; pose proof (keeps_Next dest s r) as Hk;
    pose proof (alive_next dest s r Ha) as Ha'; cbn [read_all]; unfold bind at 1, try at 1; cbn [on_rows RowsHost_stmt];
    unfold on_rows_conn at 1; cbn [c_sess c_open c_busy].
  - destruct HN as ([s' r'] & E & Hrep' & Hw). rewrite E in *. exists s', r'. split; [done|]. split; [|done].
    apply Ha'. by eapply represents_tr.
  - destruct HN as ([s' r'] & E & Hrep'). rewrite E in *. cbn in Hk.
    destruct (IH fuel dest s' r' st) as (s2 & r2 & E2 & H1 & H2 & H3); [cbn in Hf; lia|done| |done|].
    + apply Ha'. by eapply represents_tr.
    + exists s2, r2. rewrite (bind_Ok _ _ _ _ _ E2). split; [done|]. split; [done|]. split; [done|]. congruence.
Qed.

(** Closing the rows of a statement: the result is closed, the command stays. *)
Lemma Rows_Close_prepared s cmd r out suf :
  s_dead s = false -> wire true s out suf -> rs_closed r = false ->
  rs_ownsCommand r = false -> rs_closeCallback r = Some FinishOperation ->
  exists s', Rows_Close ((mkConn true true s, prepared cmd), r)
    = (Ok tt, ((mkConn true false s', prepared cmd), released r)) /\
    wire true s' (out ++ result_close_frame (rs_resultID r)) suf /\ s_dead s' = false.
Proof.
  intros Hd Hw Hc Ho Hcb. destruct (Rows_release_wire s r out suf Hd Hw) as (s' & E & Hw' & Hd'). exists s'.
  unfold rows_close_frames in Hw'. rewrite Ho in Hw'. cbn [andb] in Hw'. rewrite app_nil_r in Hw'. split; [|done].
  unfold Rows_Close. unfold bind at 1. cbn [on_rows RowsHost_stmt]. unfold on_rows_conn at 1, rows at 1.
  cbn [c_open c_busy c_sess snd]. rewrite Hc. unfold bind at 1. unfold on_rows_conn. cbn [c_sess c_open c_busy]. rewrite E, Hcb. reflexivity.
Qed.

(** A client that prepares a query, runs it, reads its rows to the end, and closes the
    rows and the statement: the column names and the rows. *)
Definition query_prepared (ctx : Ctx) (sql : gostring) (args : list NamedValue)
  : M conn (list gostring * list (list Value)) := fun c =>
  match PrepareContext ctx sql c with
  | (Err e, c') => (Err e, c')
  | (Ok st, c') =>
      match stmt_QueryContext ctx args (c', st) with
      | (Err e, (c'', _)) => (Err e, c'')
      | (Ok r, cs) =>
          let names := default [] (Rows_Columns r) in
          let '(x, (cs', _)) :=
            (l <- read_all (drain_fuel (c_sess cs.1) r) (repeat VNil (length names)) ;; Rows_Close ;; ret (names, l)) (cs, r) in
          let '(y, (c''', _)) := stmt_Close cs' in
          (match x, y with Ok a, Ok _ => Ok a | Err e, _ => Err e | _, Err e => Err e end, c''')
      end
  end.

(** C2 (refinement). A prepared query is the list of the server's rows, from the first
    message to the last. The client gets the column names and all rows in order, whatever
    the fetch size, whether their number was announced or not, and with LOBs fetched on
    demand. The conversation is the preparation, the query with its parameters, the
    fetches the server served, the close of the result and the close of the command; all
    that the server answered was read, and the connection is free and its session
    alive. *)
Theorem prepared_query_is_the_list ctx sql readOnly cmdType ps args params bs known cols rows inp req s out suf :
  let id := int32 (s_nextID s + 1) in
  let resultID := int32 (id + 1) in
  let cmd := mkPreparedCommand id sql true readOnly cmdType (zlen ps) (imap (fun k => param_meaning (Z.of_nat k)) ps) in
  let c := mkConn true false s in
  endless ctx -> alive s -> zlen ps <= maxWireCollectionElements -> forallb wf_wire_param ps = true -> in_intN 32 cmdType ->
  convertNamedValues args = Ok params -> zlen ps = zlen params -> params_frame cmd 0 params = Some bs ->
  zlen cols <= maxWireCollectionElements -> forallb wf_column cols = true ->
  Forall (wf_row (zlen cols)) rows -> zlen rows < 2 ^ 63 ->
  answers resultID known (effectiveFetchSize c) rows inp req ->
  wire true s out (prepare_answer true readOnly cmdType ps ++ query_answer known cols rows ++ inp ++ suf) ->
  exists s',
    query_prepared ctx sql args c
    = (Ok (map (fun c => sanitize (wc_alias c)) cols, map (map cell_value) rows), mkConn true false s') /\ s_dead s' = false /\
    wire true s'
      ((((out ++ prepare_request id sql)
         ++ query_request id resultID (effectiveMaxRows c) (effectiveFetchSize c) (zlen params) bs ++ req)
        ++ result_close_frame resultID) ++ close_frame id) suf.
Proof.
  intros id resultID cmd c He Hal Hl Hp Hc Ha Hn Hb Hcc Hcols Hr Hall Hans Hw. pose proof Hal as [Hd _].
  destruct (PrepareContext_run ctx sql true readOnly cmdType ps s out _ Hl Hp Hc Hd Hw) as (s1 & E1 & Hw1 & Hf1 & Hal1).
  fold id cmd in E1, Hw1, Hf1. specialize (Hal1 Hal).
  assert (Hid : s_nextID s1 = id) by (destruct Hf1 as (_ & _ & _ & _ & -> & _); done).
  assert (Heff : effectiveFetchSize (mkConn true false s1) = effectiveFetchSize c /\
                 effectiveMaxRows (mkConn true false s1) = effectiveMaxRows c).
  { destruct Hf1 as (Hcfg & _). unfold effectiveFetchSize, effectiveMaxRows, conn_cfg, c. cbn in *. by rewrite Hcfg. }
  destruct (stmt_QueryContext_run ctx cmd args params bs known cols rows inp req s1 (out ++ prepare_request id sql) suf) as (s2 & r2 & E2 & Hal2 & Hrep & Hcn & Hids);
    rewrite ?Hid, ?(proj1 Heff); try done.
  rewrite Hid in Hids. rewrite Hid, (proj1 Heff), (proj2 Heff) in Hrep. fold resultID in Hids, Hrep.
  set (dest := repeat VNil (length (default [] (Rows_Columns r2)))).
  assert (Hdest : zlen dest = zlen cols) by (unfold dest, zlen; rewrite repeat_length, Hcn; cbn; by rewrite length_map).
  assert (Hopen : rs_closed r2 = false) by (destruct Hrep as (? & ? & ? & ? & _ & ? & _); done).
  destruct (read_all_run _ _ _ _ (drain_fuel s2 r2) dest s2 r2 (prepared cmd) (represents_fuel _ _ _ _ _ _ Hrep) Hdest Hal2 Hrep)
    as (s3 & r3 & E3 & [Hd3 _] & Hw3 & Hh).
  unfold handle in Hh. injection Hh as H1 H2 H3 H4 H5 H6. injection Hids as H7 H8 H9.
  destruct (Rows_Close_prepared s3 cmd r3 _ suf Hd3 Hw3) as (s4 & E4 & Hw4 & Hd4); [congruence..|].
  destruct (stmt_Close_run s4 cmd _ suf Hd4 Hw4) as (s5 & E5 & Hw5 & Hf5 & _).
  exists s5. split; [|split; [destruct Hf5 as (_ & _ & _ & -> & _); done|]].
  - unfold query_prepared, c. rewrite E1, E2. cbn [fst c_sess]. fold dest.
    rewrite (bind_Ok _ _ _ _ _ E3), (bind_Ok _ _ _ _ _ E4). unfold ret. rewrite E5. by rewrite Hcn.
  - rewrite H1, H7 in Hw5. exact Hw5.
Qed.

Definition prepared_query_session (inp : list byte) : Session :=
  open_session (prepare_answer true true 66 [(WSimple TIBigint, ColumnNoNulls)]
    ++ query_answer false [sample_column] sample_batch ++ inp ++ []).

Lemma prepared_query_is_the_list_witness :
  let inp := enc_batch 100 sample_batch ++ batch_replies sample_batch in
  exists s',
    query_prepared Background (lit "SELECT A FROM T WHERE ID > ?") (number_args 0 [VInt64 7]) (mkConn true false (prepared_query_session inp))
    = (Ok ([lit "A"], [[VString (lit "hello")]; [VString (lit "x")]]), mkConn true false s') /\ s_dead s' = false.
Proof.
  cbv zeta. set (inp := enc_batch 100 sample_batch ++ batch_replies sample_batch).
  destruct (prepared_query_is_the_list Background (lit "SELECT A FROM T WHERE ID > ?") true 66 [(WSimple TIBigint, ColumnNoNulls)]
    (number_args 0 [VInt64 7]) [VInt64 7] (enc_value (WireBigint 7)) false [sample_column] sample_batch inp
    (batch_requests sample_batch) (prepared_query_session inp) [] []) as (s' & H1 & H2 & _).
  - reflexivity.
  - split; [reflexivity|]. eexists. split; [reflexivity|]. by split_and!.
  - vm_compute. discriminate.
  - reflexivity.
  - unfold in_intN. lia.
  - reflexivity.
  - reflexivity.
  - reflexivity.
  - vm_compute. discriminate.
  - reflexivity.
  - apply wf_sample_batch.
  - vm_compute. reflexivity.
  - apply (answers_last 2 false 100 sample_batch); [reflexivity|vm_compute; reflexivity].
  - apply wire_open_session.
  - exists s'. split; [exact H1|exact H2].
Defined.
