(* ===== verification/Drain.v ===== *)
(** * Iterations end, whatever the server sends

    The weight of a result set is the number of its buffered rows and of the bytes its
    session has not read. No operation of an iteration adds to it, and a row that is
    returned takes away from it, so the loop of [Ping] ends. *)

From S2P Require Import Prelude.
From S2P Require Import Transfer.
From S2P Require Import Errors.
From S2P Require Import Fuel.
From S2P Require Import Metadata.
From S2P Require Import Value.
From S2P Require Import ValueRead.
From S2P Require Import Lob.
From S2P Require Import Session.
From S2P Require Import SessionFacts.
From S2P Require Import Rows.
From S2P Require Import RowsFacts.
From S2P Require Import GeneratedKeys.
From S2P Require Import Conn.

Definition weight (w : RS) : nat := (length (rs_bufferedRows w.2) + length (unread w.1))%nat.

(** [adds d m]: [m] adds at most [d] to the weight, whatever its outcome. *)
Definition adds {A} (d : nat) (m : M RS A) : Prop := forall w, (weight (m w).2 <= weight w + d)%nat.
Abbreviation light := (adds 0).

(** ** On a transfer *)

Definition shrinks {A} (m : M Tr A) : Prop := forall t, (length (input (m t).2) <= length (input t))%nat.

Lemma shrinks_reader {A} (m : M Tr A) : reader m -> shrinks m.
Proof. intros Hm t. destruct (m t) as [x t'] eqn:E. by eapply reader_shrinks. Qed.
Lemma shrinks_writes m bs : writes m bs -> shrinks m.
Proof. intros Hm t. specialize (Hm t). destruct (m t) as [x t']. destruct Hm as ((_ & _ & _ & H & _) & _). cbn. by rewrite H. Qed.
Lemma shrinks_ret {A} (a : A) : shrinks (ret a).
Proof. by intros t. Qed.
Lemma shrinks_fail {A} e : shrinks (@fail Tr A e).
Proof. by intros t. Qed.
Lemma shrinks_bind {A B} (m : M Tr A) (k : A -> M Tr B) :
  shrinks m -> (forall a, shrinks (k a)) -> shrinks (bind m k).
Proof.
  intros Hm Hk t. specialize (Hm t). unfold bind. destruct (m t) as [[a|e] t']; [|done].
  specialize (Hk a t'). cbn in *. lia.
Qed.
Lemma shrinks_wrapf {A} fmt args (m : M Tr A) : shrinks m -> shrinks (wrapf fmt args m).
Proof. intros Hm t. specialize (Hm t). rewrite wrapf_run. by destruct (m t) as [[] ?]. Qed.

Lemma shrinks_Flush : shrinks Flush.
Proof.
  intros t. pose proof (sends_Flush t) as H. destruct (Flush t) as [x t']. destruct H as ((_ & _ & _ & H & _) & _).
  cbn. by rewrite H.
Qed.

Lemma shrinks_fetchLob p : shrinks (fetchLob p).
Proof.
  unfold fetchLob. destruct (_ <? _); [apply shrinks_fail|].
  apply shrinks_bind; [|intros buf; destruct (_ =? _); apply shrinks_ret].
  intros t. unfold fueled. generalize (S (length (input t))) as fuel, 0 as off, (@nil byte) as buf. intros fuel off buf.
  revert t. change (shrinks (fetchLob_loop fuel p off buf)). revert off buf.
  induction fuel as [|fuel IH]; intros off buf; cbn [fetchLob_loop]; [apply shrinks_fail|].
  unfold writeLobRead. repeat first
    [ apply IH | apply shrinks_Flush | apply shrinks_ret | apply shrinks_fail
    | apply shrinks_bind; [|intros ?] | apply shrinks_wrapf
    | solve [eapply shrinks_writes; eauto with h2go] | solve [apply shrinks_reader; eauto with h2go] | case_match ].
Qed.

(** ** On a result set *)

Section adds.
Context {A B : Type}.

Lemma adds_bind d1 d2 (m : M RS A) (k : A -> M RS B) :
  adds d1 m -> (forall a, adds d2 (k a)) -> adds (d1 + d2) (bind m k).
Proof.
  intros Hm Hk w. specialize (Hm w). unfold bind. destruct (m w) as [[a|e] w']; cbn in *; [|lia].
  specialize (Hk a w'). lia.
Qed.
Lemma light_bind (m : M RS A) (k : A -> M RS B) : light m -> (forall a, light (k a)) -> light (bind m k).
Proof. apply (adds_bind 0 0). Qed.
Lemma light_try (m : M RS A) : light m -> light (try m).
Proof. intros Hm w. specialize (Hm w). unfold try. by destruct (m w). Qed.
Lemma light_ret (a : A) : light (ret a).
Proof. intros w. cbn. lia. Qed.
Lemma light_fail e : light (@fail RS A e).
Proof. intros w. cbn. lia. Qed.
Lemma light_rows (f : Rows -> A) : light (rows f).
Proof. intros w. cbn. lia. Qed.
Lemma light_wrapf fmt args (m : M RS A) : light m -> light (wrapf fmt args m).
Proof. intros Hm w. specialize (Hm w). rewrite wrapf_run. by destruct (m w) as [[] ?]. Qed.
Lemma light_wrapE op (m : M RS A) : light m -> light (wrapE op m).
Proof. intros Hm w. specialize (Hm w). unfold wrapE. by destruct (m w) as [[] ?]. Qed.
Lemma light_wire (m : M Tr A) : shrinks m -> light (on_wire m).
Proof.
  intros Hm [s r]. unfold on_wire, on_sess, on_tr, weight, unread. destruct (s_tr s) as [t|] eqn:E.
  - specialize (Hm t). destruct (m t) as [x t']. cbn in *. rewrite E. cbn. lia.
  - cbn. rewrite E. cbn. lia.
Qed.
End adds.

Lemma light_update f : (forall r, rs_bufferedRows (f r) = rs_bufferedRows r) -> light (update f).
Proof. intros Hf [s r]. unfold weight, update. cbn. rewrite Hf. lia. Qed.
Lemma light_markStreamBroken : light (on_sess markStreamBroken).
Proof.
  intros [s r]. unfold on_sess, markStreamBroken, discard, Session_Abort, weight, unread.
  destruct (s_tr s) as [t|]; [destruct (Abort t)|]; cbn; lia.
Qed.
Lemma light_markUnlessAligned e : light (on_sess (markUnlessAlignedH2Error e)).
Proof.
  unfold markUnlessAlignedH2Error. destruct (errors_As e); [|apply light_markStreamBroken].
  intros [s r]. cbn. lia.
Qed.

Create HintDb light.
#[export] Hint Resolve light_ret light_fail light_rows light_markStreamBroken light_markUnlessAligned shrinks_Flush
  shrinks_fetchLob : light.
#[export] Hint Extern 1 (adds 0 (on_wire _)) => apply light_wire : light.
#[export] Hint Extern 1 (shrinks _) => solve [apply shrinks_reader; eauto with h2go] : light.
#[export] Hint Extern 1 (shrinks _) => solve [eapply shrinks_writes; eauto with h2go] : light.
#[export] Hint Extern 1 (adds 0 (update _)) => apply light_update; done : light.
#[export] Hint Extern 2 (adds 0 (bind _ _)) => apply light_bind; [|intros ?] : light.
#[export] Hint Extern 2 (adds 0 (try _)) => apply light_try : light.
#[export] Hint Extern 2 (adds 0 (wrapf _ _ _)) => apply light_wrapf : light.
#[export] Hint Extern 2 (adds 0 (wrapE _ _)) => apply light_wrapE : light.
#[export] Hint Extern 2 (adds 0 (or_broken _ _ _)) => unfold or_broken : light.
#[export] Hint Extern 2 (adds 0 (unless_aligned _)) => unfold unless_aligned : light.
#[export] Hint Extern 3 (adds 0 (match ?x with _ => _ end)) => destruct x : light.

Lemma light_readColumns n : forall j lc, light (readColumns n j lc).
Proof.
  induction n as [|n IH]; intros j lc; cbn [readColumns]; [auto with light|].
  pose proof (fun ct lc => shrinks_reader _ (reader_readValueInternal ct lc)). auto 20 with light.
Qed.

Lemma consumes_ReadByte : consumes ReadByte 1.
Proof.
  apply consumes_bind_r; [auto with h2go|]. intros [].
  apply consumes_bind_l; [apply (consumes_io_ReadFull 1)|auto with h2go].
Qed.

(** A row takes the byte of its flag at least. *)
Lemma light_after_byte {B} fmt (k : byte -> M RS B) :
  (forall b, adds 1 (k b)) -> light (b <- or_broken fmt [] (on_wire ReadByte) ;; k b).
Proof.
  intros Hk [s r]. unfold bind. destruct (or_broken fmt [] (on_wire ReadByte) (s, r)) as [[b|e] [s' r']] eqn:E.
  - apply or_broken_Ok, on_wire_Ok in E as (t & t' & Ht & E & -> & ->).
    apply consumes_ReadByte in E. specialize (Hk b (set_tr (Some t') s, r)).
    unfold weight, unread in *. cbn in *. rewrite Ht. cbn in *. lia.
  - assert (H : light (or_broken fmt [] (on_wire ReadByte))) by auto 10 with light.
    specialize (H (s, r)). rewrite E in H. exact H.
Qed.

Lemma adds_weaken {A} d (m : M RS A) : light m -> adds d m.
Proof. intros Hm w. specialize (Hm w). lia. Qed.

Lemma light_fetchRows_loop n : forall lc, light (fetchRows_loop n lc).
Proof.
  induction n as [|n IH]; intros lc; cbn [fetchRows_loop]; [apply light_ret|].
  apply light_after_byte. intros b. cbv zeta.
  destruct (_ =? 1); [|apply adds_weaken; auto 20 with light].
  apply (adds_bind 0 1); [apply light_rows|]. intros cc.
  apply (adds_bind 0 1); [apply light_readColumns|]. intros x.
  apply (adds_bind 1 0); [|intros _; apply IH].
  intros [s r]. unfold weight, update. cbn. rewrite length_app. cbn. lia.
Qed.

Lemma splice_length row col v b b' : splice row col v b = Some b' -> length b' = length b.
Proof.
  unfold splice. destruct (_ || _); [done|]. destruct (b !! _); [|done]. destruct (_ <? _); [|done].
  intros [= <-]. apply length_insert.
Qed.

Lemma light_resolveLob p : light (resolveLob p).
Proof.
  intros w. rewrite resolveLob_run. revert w. apply light_bind; [auto 10 with light|]. intros v [s r].
  unfold bind, rows. cbn [snd]. destruct (splice _ _ _ _) as [b'|] eqn:E; [|apply light_fail].
  apply splice_length in E. unfold weight, update. cbn. lia.
Qed.

Lemma light_fetchRows fetch : light (fetchRows fetch).
Proof.
  apply light_bind; [apply light_fetchRows_loop|]. intros lc.
  induction (lc_pending lc) as [|p ps IH]; cbn [for_each]; [apply light_ret|].
  apply light_bind; [apply light_resolveLob|done].
Qed.

Lemma light_refill : light refill.
Proof.
  assert (Hf : forall n, light (fetchMoreRows n)).
  { intros n w. unfold fetchMoreRows. destruct (s_tr w.1); [|cbn; lia].
    pose proof light_fetchRows. assert (H' : light (unless_aligned (requestRows n))).
    { unfold requestRows. auto 30 with light. } apply H'. }
  unfold refill, EOF. auto 30 with light.
Qed.

(** A row returned is a row or a byte less to come. *)
Lemma Next_decreases dest w row w' : Next dest w = (Ok row, w') -> (weight w' < weight w)%nat.
Proof.
  destruct w as [s r]. unfold Next, bind at 1, rows. cbn [snd].
  destruct (rs_closed r); [done|]. destruct (rs_err r); [done|]. destruct (negb _); [done|].
  set (fill := match rs_bufferedRows r with [] => refill | _ => ret tt end).
  assert (Hl : light fill) by (unfold fill; destruct (rs_bufferedRows r); [apply light_refill|apply light_ret]).
  specialize (Hl (s, r)). unfold bind at 1. destruct (fill (s, r)) as [[[]|e] [s1 r1]]; [|done].
  unfold bind, update, ret. cbn [snd] in *. destruct (rs_bufferedRows r1) as [|row1 b1] eqn:Eb; [done|].
  intros [= <- <-]. unfold weight in *. cbn in *. rewrite Eb in Hl. cbn in Hl. lia.
Qed.

(** ** The loop of a ping *)

(** The loop, without a bound on its rounds: [x] and [w'] are how it ends. *)
Inductive loop_ends : list Value -> conn * Rows -> res unit -> conn * Rows -> Prop :=
| loop_row dest w row w1 x w' :
    on_rows (Next dest) w = (Ok row, w1) -> loop_ends row w1 x w' -> loop_ends dest w x w'
| loop_eof dest w w1 :
    on_rows (Next dest) w = (Err (ESent io_EOF), w1) -> loop_ends dest w (Ok tt) w1
| loop_error dest w e w1 :
    on_rows (Next dest) w = (Err e, w1) -> e <> ESent io_EOF ->
    loop_ends dest w (Err e) (Rows_Close w1).2.

Lemma loop_ends_fuel fuel : forall dest c r,
  (weight (c_sess c, r) < fuel)%nat ->
  exists x w', drain fuel dest (c, r) = (x, w') /\ loop_ends dest (c, r) x w'.
Proof.
  induction fuel as [|fuel IH]; intros dest c r Hw; [lia|]. cbn [drain]. unfold bind, try.
  destruct (on_rows (Next dest) (c, r)) as [[row|e] [c1 r1]] eqn:E.
  - assert (Hd : (weight (c_sess c1, r1) < weight (c_sess c, r))%nat).
    { cbn [on_rows RowsHost_conn] in E. unfold on_rows_conn in E.
      destruct (Next dest (c_sess c, r)) as [y [s' r']] eqn:En. injection E as -> <- <-. by eapply Next_decreases. }
    destruct (IH row c1 r1 ltac:(lia)) as (x & w' & E' & Hl). exists x, w'. split; [exact E'|]. by eapply loop_row.
  - assert (e = ESent io_EOF \/ e <> ESent io_EOF) as [->|Hne]
      by (destruct e as [[]| | | | | | |]; (by left) || (by right)).
    + eexists _, _. split; [reflexivity|]. by apply loop_eof.
    + eexists _, _. split; [|by apply loop_error].
      destruct e as [[]| | | | | | |]; try done; unfold discard; by destruct (Rows_Close (c1, r1)) as [[] ?].
Qed.

(** ** The loop over generated keys without a count *)

(** The loop of [readGeneratedKeys] for a negative row count, without a bound. *)
Inductive keys_end (meta : ResultMeta) : list (list Value) -> lobCollector -> Session ->
    res (list (list Value) * lobCollector) -> Session -> Prop :=
| keys_row rows lc s row lc1 s1 x s' :
    readGeneratedKeyRow meta (mkLobCollector (lc_pending lc) (lc_reject lc) (zlen rows) (lc_curCol lc)) s
      = (Ok (row, lc1), s1) ->
    keys_end meta (rows ++ [row]) lc1 s1 x s' -> keys_end meta rows lc s x s'
| keys_eof rows lc s s1 :
    readGeneratedKeyRow meta (mkLobCollector (lc_pending lc) (lc_reject lc) (zlen rows) (lc_curCol lc)) s
      = (Err EIoEOF, s1) ->
    keys_end meta rows lc s (Ok (rows, lc)) s1
| keys_error rows lc s e s1 :
    readGeneratedKeyRow meta (mkLobCollector (lc_pending lc) (lc_reject lc) (zlen rows) (lc_curCol lc)) s
      = (Err e, s1) -> e <> EIoEOF ->
    keys_end meta rows lc s (Err e) (markUnlessAlignedH2Error e s1).2.

(** The bytes a session has not read never grow under a read. *)
Definition reads_less {A} (m : M Session A) : Prop := forall s, (length (unread (m s).2) <= length (unread s))%nat.

Lemma reads_less_on_tr {A} (m : M Tr A) : shrinks m -> reads_less (on_tr m).
Proof.
  intros Hm s. unfold on_tr, unread. destruct (s_tr s) as [t|] eqn:E; [|cbn; by rewrite E].
  specialize (Hm t). destruct (m t) as [x t']. cbn in *. lia.
Qed.
Lemma reads_less_bind {A B} (m : M Session A) (k : A -> M Session B) :
  reads_less m -> (forall a, reads_less (k a)) -> reads_less (bind m k).
Proof.
  intros Hm Hk s. specialize (Hm s). unfold bind. destruct (m s) as [[a|e] s']; [|done].
  specialize (Hk a s'). cbn in *. lia.
Qed.
Lemma reads_less_wrapf {A} fmt args (m : M Session A) : reads_less m -> reads_less (wrapf fmt args m).
Proof. intros Hm s. specialize (Hm s). rewrite wrapf_run. by destruct (m s) as [[] ?]. Qed.

Lemma reads_less_readKeyColumns meta n : forall j lc, reads_less (readKeyColumns meta n j lc).
Proof.
  induction n as [|n IH]; intros j lc; cbn [readKeyColumns]; [by intros s|].
  destruct (GetColumn meta j) as [col|]; [|by intros s].
  apply reads_less_bind; [apply reads_less_wrapf, reads_less_on_tr, shrinks_reader, reader_readValueInternal|]. intros x.
  apply reads_less_bind; [apply IH|]. by intros y s.
Qed.

Lemma readGeneratedKeyRow_decreases meta lc s row s' :
  readGeneratedKeyRow meta lc s = (Ok row, s') -> (length (unread s') < length (unread s))%nat.
Proof.
  unfold readGeneratedKeyRow. intros H. apply bind_Ok_inv in H as (b & s1 & H1%wrapf_Ok & H2).
  assert (Hb : (length (unread s1) < length (unread s))%nat).
  { unfold on_tr in H1. unfold unread. destruct (s_tr s) as [t|]; [|done].
    destruct (ReadByte t) as [y t'] eqn:E. injection H1 as -> <-. apply consumes_ReadByte in E. cbn. lia. }
  destruct (_ =? 1).
  { pose proof (reads_less_readKeyColumns meta (Z.to_nat (ColumnCount meta)) 0 lc s1) as Hl. rewrite H2 in Hl. cbn in Hl. lia. }
  destruct (_ =? 0); [done|]. destruct (_ =? -1); [|done].
  apply bind_Ok_inv in H2 as ([] & s2 & H2%wrapE_Ok & _). unfold on_tr in H2. destruct (s_tr s1) as [t|]; [|done].
  destruct (readH2Error t) as [y t'] eqn:E. injection H2 as -> _. unfold readH2Error in E.
  by apply bind_Ok_inv in E as (? & ? & _ & ?).
Qed.

Lemma keys_end_fuel meta n : forall rows lc s,
  (length (unread s) < n)%nat ->
  exists x s', readKeyRows n false meta rows lc s = (x, s') /\ keys_end meta rows lc s x s'.
Proof.
  induction n as [|n IH]; intros rows lc s Hn; [lia|]. cbn [readKeyRows]. unfold bind, try.
  destruct (readGeneratedKeyRow meta _ s) as [[[row lc1]|e] s1] eqn:E.
  - pose proof (readGeneratedKeyRow_decreases _ _ _ _ _ E). destruct (IH (rows ++ [row]) lc1 s1 ltac:(lia)) as (x & s' & E' & Hl).
    exists x, s'. split; [exact E'|]. by eapply keys_row.
  - assert (e = EIoEOF \/ e <> EIoEOF) as [->|Hne] by (destruct e; (by left) || (by right)).
    + eexists _, _. split; [reflexivity|]. by eapply keys_eof.
    + eexists _, _. split; [|by eapply keys_error].
      destruct e; try done; unfold markUnlessAlignedH2Error, markStreamBroken, discard; by destruct (errors_As _).
Qed.

(** ** Correctness *)

(** The loop over generated keys without an announced count ends as well, and the bound
    with which the model runs it is enough. *)
Theorem key_loop_ends meta lc s rowCount :
  rowCount < 0 ->
  exists x s', readKeyRows (key_rounds rowCount s) false meta [] lc s = (x, s') /\ keys_end meta [] lc s x s'.
Proof.
  intros Hc. apply keys_end_fuel. unfold key_rounds, unread. replace (0 <? rowCount) with false by lia.
  destruct (s_tr s); cbn; lia.
Qed.

(** C29 (termination). The loop of [Ping] over the rows ends on every connection and
    every result set, whatever bytes the server sends, however its stream breaks off: a
    row that is returned was buffered or took bytes off the stream. The bound with which
    the model runs the loop is always enough, so what the model returns is how the loop
    itself ends. *)
Theorem Ping_loop_ends dest c r :
  exists x w', drain (drain_fuel (c_sess c) r) dest (c, r) = (x, w') /\ loop_ends dest (c, r) x w'.
Proof.
  apply loop_ends_fuel. unfold weight, drain_fuel, unread. cbn. destruct (s_tr (c_sess c)); cbn; lia.
Qed.
