(* ===== verification/Statements.v ===== *)
(** * Statements that the server executes or refuses

    [exchE] is [Exchange.exch] for operations that the server answers with an error
    frame: they fail with the server's error, and the stream stays aligned. *)

From S2P Require Import Prelude.
From S2P Require Import GoText.
From S2P Require Import Protocol.
From S2P Require Import Transfer.
From S2P Require Import Errors.
From S2P Require Import Fuel.
From S2P Require Import TypeInfo.
From S2P Require Import Metadata.
From S2P Require Import Value.
From S2P Require Import ValueWire.
From S2P Require Import ValueWrite.
From S2P Require Import Session.
From S2P Require Import SessionFacts.
From S2P Require Import Exchange.
From S2P Require Import Rows.
From S2P Require Import GeneratedKeys.
From S2P Require Import Update.
From S2P Require Import ExecuteFacts.
From S2P Require Import UpdateWire.
From S2P Require Import QueryWire.
From S2P Require Import Conn.
From S2P Require Import ConnFacts.

(** ** Exchanges that fail *)

Definition exchE {A} (f f' : bool) (m : M Session A) (sent recv : list byte) (e : error) : Prop :=
  forall s out suf, wire f s out (recv ++ suf) ->
  exists s', m s = (Err e, s') /\ wire f' s' (out ++ sent) suf /\ framed s s'.

Section exchE.
Context {A B : Type}.

Lemma exchE_now (m : M Session A) (k : A -> M Session B) f f' sent recv e :
  exchE f f' m sent recv e -> exchE f f' (bind m k) sent recv e.
Proof.
  intros Hm s out suf Hw. destruct (Hm _ _ _ Hw) as (s' & E & H). exists s'. split; [|done]. by apply bind_Err.
Qed.

Lemma exchE_bind f1 f2 f3 (m : M Session A) (k : A -> M Session B) s1 s2 r1 r2 a e :
  exch f1 f2 m s1 r1 a -> exchE f2 f3 (k a) s2 r2 e -> exchE f1 f3 (bind m k) (s1 ++ s2) (r1 ++ r2) e.
Proof.
  intros Hm Hk s out suf Hw. rewrite <- app_assoc in Hw.
  destruct (Hm _ _ _ Hw) as (s' & Em & Hw' & Hf'). destruct (Hk _ _ _ Hw') as (s'' & Ek & Hw'' & Hf'').
  exists s''. rewrite (bind_Ok _ _ _ _ _ Em), app_assoc. eauto using framed_trans.
Qed.

Lemma exchE_wrapE f f' op (m : M Session A) sent recv h :
  exchE f f' m sent recv (EH2 h) -> exchE f f' (wrapE op m) sent recv (EH2 h).
Proof.
  intros Hm s out suf Hw. destruct (Hm _ _ _ Hw) as (s' & E & H). exists s'. split; [|done].
  unfold wrapE. by rewrite E.
Qed.
End exchE.

Lemma exchE_bind_nil {A B} f1 f2 f3 (m : M Session A) (k : A -> M Session B) s2 r2 a e :
  exch f1 f2 m [] [] a -> exchE f2 f3 (k a) s2 r2 e -> exchE f1 f3 (bind m k) s2 r2 e.
Proof. apply (exchE_bind f1 f2 f3 m k [] s2 [] r2). Qed.

Lemma exchE_bind_send {A B} f1 f2 f3 (m : M Session A) (k : A -> M Session B) s1 s2 r2 a e :
  exch f1 f2 m s1 [] a -> exchE f2 f3 (k a) s2 r2 e -> exchE f1 f3 (bind m k) (s1 ++ s2) r2 e.
Proof. apply (exchE_bind f1 f2 f3 m k s1 s2 [] r2). Qed.

(** The answer that refuses a request. *)
Definition refusal (h : Error) : list byte := enc_int32 StatusError ++ enc_h2error h.

Lemma exchE_status f op h : wire_error h -> exchE f f (wrapE op (on_tr readStatus)) [] (refusal h) (EH2 h).
Proof.
  intros Hh. apply exchE_wrapE. intros s out suf (t & Ht & Hr & Hhe & He & Hin & Hfl). rewrite app_nil_r.
  exists (set_tr (Some (set_in suf t)) s). split; [|split; [|by eauto with h2go]].
  - unfold on_tr. rewrite Ht. unfold readStatus. unfold refusal in Hin. rewrite <- app_assoc in Hin.
    assert (E : wrapf "h2go: read status: %w" [] ReadInt32 t = (Ok StatusError, set_in (enc_h2error h ++ suf) t)).
    { apply wrapf_Ok. apply decodes_ReadInt32; [unfold in_intN, StatusError; lia|done|exact Hin]. }
    rewrite (bind_Ok _ _ _ _ _ E). cbn [Z.eqb orb StatusOK StatusOKStateChanged StatusError].
    by rewrite (readH2Error_aligned h _ suf Hh).
  - exists (set_in suf t). by split_and!.
Qed.

(** An operation under a context that never ends passes the error on. *)
Lemma exchE_operation {A} f f' cancel (body : M Session A) sent recv e :
  exchE f f' body sent recv e -> exchE f f' (operation Background cancel body) sent recv e.
Proof.
  intros Hb s out suf Hw. destruct (Hb _ _ _ Hw) as (s2 & E & Hw2 & Hf2).
  destruct (operation_background_Err f' cancel body s e s2 _ suf E Hw2) as (s' & E' & Hw' & Hf').
  eauto using framed_trans.
Qed.

Lemma exchE_operation_id {A} f f' cancel (body : Z -> M Session A) sent recv e s out suf :
  let id := int32 (s_nextID s + 1) in
  exchE f f' (body id) sent recv e -> wire f s out (recv ++ suf) ->
  exists s', operation Background cancel (cmdID <- nextCommandID ;; body cmdID) s = (Err e, s') /\
             wire f' s' (out ++ sent) suf /\ framed (set_nextID id s) s'.
Proof.
  intros id Hb Hw. destruct (Hb (set_nextID id s) out suf Hw) as (s2 & E & Hw2 & Hf2).
  destruct (operation_background_Err f' cancel (cmdID <- nextCommandID ;; body cmdID) s e s2 _ suf E Hw2)
    as (s' & E' & Hw' & Hf'). eauto using framed_trans.
Qed.

Lemma exchE_then_close {A} f cmd (m : M Session A) sent recv e :
  exchE f true m sent recv e -> exchE f true (then_close cmd m) (sent ++ close_frame (cmd_ID cmd)) recv e.
Proof.
  intros Hm s out suf Hw. destruct (Hm _ _ _ Hw) as (s1 & E & Hw1 & Hf1).
  destruct (exch_PreparedCommand_Close true cmd s1 _ suf Hw1) as (s2 & E2 & Hw2 & Hf2).
  exists s2. unfold then_close, bind, try, discard. rewrite E, E2, app_assoc. eauto using framed_trans.
Qed.

Lemma exch_then_close {A} f cmd (m : M Session A) sent recv a :
  exch f true m sent recv a -> exch f true (then_close cmd m) (sent ++ close_frame (cmd_ID cmd)) recv a.
Proof.
  intros Hm s out suf Hw. destruct (Hm _ _ _ Hw) as (s1 & E & Hw1 & Hf1).
  destruct (exch_PreparedCommand_Close true cmd s1 _ suf Hw1) as (s2 & E2 & Hw2 & Hf2).
  exists s2. unfold then_close, bind, try, discard. rewrite E, E2, app_assoc. eauto using framed_trans.
Qed.

(** ** Operations that leave the autocommit state alone, whatever their outcome *)

Definition keeps_autoCommit {A} (m : M Session A) : Prop := forall s, s_autoCommit (m s).2 = s_autoCommit s.

Section keeps_autoCommit.
Context {A B : Type}.

Lemma keepsac_on_tr (m : M Tr A) : keeps_autoCommit (on_tr m).
Proof. intros s. unfold on_tr. destruct (s_tr s) as [t|]; [|done]. by destruct (m t). Qed.
Lemma keepsac_ret (a : A) : keeps_autoCommit (ret a).
Proof. done. Qed.
Lemma keepsac_fail e : keeps_autoCommit (@fail Session A e).
Proof. done. Qed.
Lemma keepsac_bind (m : M Session A) (k : A -> M Session B) :
  keeps_autoCommit m -> (forall a, keeps_autoCommit (k a)) -> keeps_autoCommit (bind m k).
Proof.
  intros Hm Hk s. specialize (Hm s). unfold bind. destruct (m s) as [[a|e] s']; [|done]. cbn in Hm. by rewrite Hk.
Qed.
Lemma keepsac_wrapf fmt args (m : M Session A) : keeps_autoCommit m -> keeps_autoCommit (wrapf fmt args m).
Proof. intros Hm s. specialize (Hm s). rewrite wrapf_run. by destruct (m s) as [[] ?]. Qed.
Lemma keepsac_wrapE op (m : M Session A) : keeps_autoCommit m -> keeps_autoCommit (wrapE op m).
Proof. intros Hm s. specialize (Hm s). unfold wrapE. by destruct (m s) as [[] ?]. Qed.
Lemma keepsac_try (m : M Session A) : keeps_autoCommit m -> keeps_autoCommit (try m).
Proof. intros Hm s. specialize (Hm s). unfold try. by destruct (m s). Qed.
Lemma keepsac_discard (m : M Session A) : keeps_autoCommit m -> keeps_autoCommit (discard m).
Proof. intros Hm s. apply Hm. Qed.
End keeps_autoCommit.

Lemma keepsac_tick : keeps_autoCommit tick.
Proof. done. Qed.
Lemma keepsac_Abort : keeps_autoCommit Session_Abort.
Proof. intros s. unfold Session_Abort. destruct (s_tr s) as [t|]; [by destruct (Abort t)|done]. Qed.
Lemma keepsac_set_deadline d : keeps_autoCommit (set_deadline d).
Proof. intros s. unfold set_deadline. by destruct (s_tr s). Qed.
Lemma keepsac_session_open e : keeps_autoCommit (session_open e).
Proof. intros s. unfold session_open. by destruct (s_tr s). Qed.

Create HintDb keepsac.
#[export] Hint Resolve keepsac_on_tr keepsac_ret keepsac_fail keepsac_wrapf keepsac_wrapE keepsac_try keepsac_discard
  keepsac_tick keepsac_Abort keepsac_set_deadline keepsac_session_open : keepsac.
#[export] Hint Extern 2 (keeps_autoCommit (bind _ _)) => apply keepsac_bind; [|intros ?] : keepsac.
#[export] Hint Extern 3 (keeps_autoCommit (match ?x with _ => _ end)) => destruct x : keepsac.

Lemma keepsac_operation {A} ctx cancel (body : M Session A) :
  keeps_autoCommit body -> keeps_autoCommit (operation ctx cancel body).
Proof.
  intros Hb. unfold operation, beginOperationContext, finalizeContext, ctx_Err, endOperationContext.
  auto 20 with keepsac.
Qed.

Lemma keepsac_Close cmd : keeps_autoCommit (PreparedCommand_Close cmd).
Proof.
  intros s. unfold PreparedCommand_Close. destruct (s_tr s); [|done]. revert s.
  match goal with |- forall s, s_autoCommit (?m s).2 = _ => change (keeps_autoCommit m) end. auto 10 with keepsac.
Qed.

Lemma keepsac_commit ctx : keeps_autoCommit (commitCurrentTransaction ctx).
Proof.
  apply keepsac_bind; [auto with keepsac|]. intros _. apply keepsac_operation. unfold check_ctx, ctx_Err. auto 20 with keepsac.
Qed.

Lemma keepsac_hasPending ctx : keeps_autoCommit (hasPendingTransaction ctx).
Proof.
  apply keepsac_bind; [auto with keepsac|]. intros _. apply keepsac_operation. unfold check_ctx, ctx_Err. auto 20 with keepsac.
Qed.

(** ** Statements without parameters *)

Definition plain_command (id : Z) (sql : gostring) (readOnly : bool) : PreparedCommand :=
  mkPreparedCommand id sql false readOnly CmdUnknown 0 [].

(** What a statement sends: it is prepared, executed and closed. *)
Definition statement_request (id : Z) (sql : gostring) (mode : Z) (cols : option (list Z))
    (names : option (list gostring)) : list byte :=
  prepare_simple_request id sql ++ update_request (plain_command id sql false) 0 [] mode cols names ++ close_frame id.

Definition statement_answer (readOnly : bool) (count : Z) (autoCommit : bool) (keys : option wire_keys) : list byte :=
  prepare_simple_answer false readOnly 0 ++ update_answer count autoCommit keys.

Lemma ExecuteUpdate_run ctx sql readOnly mode cols names count autoCommit keys s out suf :
  let id := int32 (s_nextID s + 1) in
  resolveGeneratedKeys ctx s = (mode, cols, names) -> (mode =? GeneratedKeysNone) = bool_decide (keys = None) ->
  (forall k, keys = Some k -> wf_keys k) -> in_intN 64 count -> TCPProtocolVersion20 <= s_version s ->
  wire true s out (statement_answer readOnly count autoCommit keys ++ suf) ->
  exists s',
    ExecuteUpdate ctx sql s = (Ok (update_result count autoCommit keys), s') /\
    wire true s' (out ++ statement_request id sql mode cols names) suf /\
    s_autoCommit s' = autoCommit /\ framed (set_nextID id s) s'.
Proof.
  intros id Hres Hmode Hk Hc Hv Hw. unfold statement_answer in Hw. rewrite <- app_assoc in Hw.
  destruct (PrepareCommand_run ctx sql false readOnly 0 s out _ ltac:(unfold in_intN; lia) Hw) as (s1 & E1 & Hw1 & Hf1).
  fold id in E1, Hw1, Hf1. set (cmd := mkPreparedCommand id sql false readOnly CmdUnknown 0 []) in *.
  destruct (ExecuteUpdatePrepared_run ctx cmd [] [] mode cols names count autoCommit keys s1
              (out ++ prepare_simple_request id sql) suf) as (s2 & E2 & Hw2 & Ha2 & Hf2); try done.
  { rewrite <- Hres. destruct Hf1 as (Hcfg & _). unfold resolveGeneratedKeys, configuredKeys, generatedKeysMode.
    by rewrite Hcfg. }
  { destruct Hf1 as (_&_&->&_). done. }
  destruct (exch_PreparedCommand_Close true cmd s2 _ suf Hw2) as (s3 & E3 & Hw3 & Hf3).
  exists s3. split_and!.
  - unfold ExecuteUpdate, then_close, ExecuteUpdatePrepared. rewrite (bind_Ok _ _ _ _ _ E1).
    unfold bind, try, discard. fold cmd. by rewrite E2, E3.
  - by rewrite <- !app_assoc in Hw3.
  - pose proof (keepsac_Close cmd s2) as H. rewrite E3 in H. cbn in H. congruence.
  - eauto using framed_trans.
Qed.

(** A statement the server does not prepare. *)
Lemma PrepareCommand_refused sql h s out suf :
  let id := int32 (s_nextID s + 1) in
  wire_error h -> wire true s out (refusal h ++ suf) ->
  exists s', PrepareCommand Background sql s = (Err (EH2 h), s') /\
    wire true s' (out ++ prepare_simple_request id sql) suf /\ framed (set_nextID id s) s'.
Proof.
  intros id Hh Hw. unfold PrepareCommand.
  rewrite (bind_Ok (session_open _) _ s tt s) by (destruct Hw as (t & Ht & _); unfold session_open; by rewrite Ht).
  eapply (exchE_operation_id true true); [|exact Hw]. unfold prepare_simple_request.
  do 2 (eapply exchE_bind_send; [apply exch_int32|]). rewrite <- (app_nil_r (enc_string sql)).
  eapply exchE_bind_send; [apply exch_wrapf, exch_write, writes_WriteString|].
  eapply exchE_bind_nil; [apply exch_wrapf, exch_flush|]. by apply exchE_now, exchE_status.
Qed.

(** A command the server does not execute. *)
Lemma ExecuteUpdatePrepared_refused cmd params bs mode cols names h s out suf :
  cmd_IsQuery cmd = false -> cmd_ParamCount cmd = zlen params -> params_frame cmd 0 params = Some bs ->
  resolveGeneratedKeys Background s = (mode, cols, names) -> wire_error h -> wire true s out (refusal h ++ suf) ->
  exists s', ExecuteUpdatePreparedWithParams Background cmd params s = (Err (EH2 h), s') /\
    wire true s' (out ++ update_request cmd (zlen params) bs mode cols names) suf /\ framed s s'.
Proof.
  intros Hq Hn Hbs Hres Hh Hw. unfold ExecuteUpdatePreparedWithParams.
  pose proof Hw as (t & Ht & _). unfold session_open, guard_err at 1. unfold bind at 1. rewrite Ht, Hq.
  rewrite (bind_Ok (ret tt) _ s tt s) by done.
  assert (Hb : exchE true true (writeExecuteUpdate cmd params mode cols names ;; readExecuteUpdate mode)
    (update_request cmd (zlen params) bs mode cols names) (refusal h) (EH2 h)).
  { rewrite <- (app_nil_r (update_request _ _ _ _ _ _)).
    eapply exchE_bind_send; [by apply exch_writeExecuteUpdate|]. by apply exchE_now, exchE_status. }
  destruct (Hb s out suf Hw) as (s2 & E & Hw2 & Hf2).
  set (body := guard_err _ _ ;; _).
  assert (Eb : body s = (Err (EH2 h), s2)).
  { unfold body, guard_err. rewrite Hn, Z.eqb_refl. cbn [negb]. rewrite (bind_Ok (ret tt) _ s tt s) by done.
    unfold bind at 1, gets. by rewrite Hres. }
  destruct (operation_background_Err true true body s (EH2 h) s2 _ suf Eb Hw2) as (s' & E' & Hw' & Hf').
  exists s'. split; [exact E'|]. eauto using framed_trans.
Qed.

(** ** Correctness *)

(** C20 (error). A statement that the server refuses, when it is prepared or when it is
    executed, fails with exactly the server's error, which the caller finds by
    [errors.As]. The command is closed on the server if it was prepared. Nothing of the
    answer is left unread and the session is as alive as before, so the connection can be
    used for the next statement. *)
Theorem refused_statement_is_reported sql h readOnly mode cols names s out suf :
  wire_error h -> resolveGeneratedKeys Background s = (mode, cols, names) ->
  let id := int32 (s_nextID s + 1) in
  (wire true s out (refusal h ++ suf) ->
   exists s', ExecuteUpdate Background sql s = (Err (EH2 h), s') /\
     wire true s' (out ++ prepare_simple_request id sql) suf /\ s_dead s' = s_dead s) /\
  (wire true s out (prepare_simple_answer false readOnly 0 ++ refusal h ++ suf) ->
   exists s', ExecuteUpdate Background sql s = (Err (EH2 h), s') /\
     wire true s' (out ++ statement_request id sql mode cols names) suf /\ s_dead s' = s_dead s).
Proof.
  intros Hh Hres id. split; intros Hw.
  - destruct (PrepareCommand_refused sql h s out suf Hh Hw) as (s' & E & Hw' & Hf). fold id in Hw', Hf.
    exists s'. split; [unfold ExecuteUpdate; by apply bind_Err|]. split; [done|]. by destruct Hf as (_&_&_&?&_).
  - destruct (PrepareCommand_run Background sql false readOnly 0 s out _ ltac:(unfold in_intN; lia) Hw)
      as (s1 & E1 & Hw1 & Hf1). fold id in E1, Hw1, Hf1. set (cmd := mkPreparedCommand id sql false readOnly CmdUnknown 0 []) in *.
    destruct (ExecuteUpdatePrepared_refused cmd [] [] mode cols names h s1 (out ++ prepare_simple_request id sql) suf)
      as (s2 & E2 & Hw2 & Hf2); try done.
    { rewrite <- Hres. destruct Hf1 as (Hcfg & _). unfold resolveGeneratedKeys, configuredKeys, generatedKeysMode.
      by rewrite Hcfg. }
    destruct (exch_PreparedCommand_Close true cmd s2 _ suf Hw2) as (s3 & E3 & Hw3 & Hf3).
    exists s3. split; [|split].
    + unfold ExecuteUpdate, then_close, ExecuteUpdatePrepared. rewrite (bind_Ok _ _ _ _ _ E1).
      unfold bind, try, discard. fold cmd. by rewrite E2, E3.
    + by rewrite <- !app_assoc in Hw3.
    + destruct Hf1 as (_&_&_&H1&_), Hf2 as (_&_&_&H2&_), Hf3 as (_&_&_&H3&_). cbn in H1. congruence.
Qed.

Lemma wire_string_sanitized s : sanitize s = s -> zlen (utf16Encode s) <= MaxWireLength / 2 -> wire_string s.
Proof. intros H1 H2. split; [|done]. rewrite <- H1. apply valid_utf8_sanitize. Qed.

Lemma wire_sampleError : wire_error sampleError.
Proof.
  split; [|split; [|split; [|split]]]; [| | |unfold in_intN; cbn; lia|];
    (apply wire_string_sanitized; [vm_compute; reflexivity|vm_compute; discriminate]).
Qed.

Lemma refused_statement_is_reported_witness :
  let s := open_session (prepare_simple_answer false false 0 ++ refusal sampleError ++ lit "z") in
  exists s', ExecuteUpdate Background (lit "DELETE FROM T") s = (Err (EH2 sampleError), s') /\
    wire true s' (statement_request 1 (lit "DELETE FROM T") GeneratedKeysAuto None None) (lit "z").
Proof.
  cbv zeta. set (s := open_session (prepare_simple_answer false false 0 ++ refusal sampleError ++ lit "z")).
  destruct (refused_statement_is_reported (lit "DELETE FROM T") sampleError false GeneratedKeysAuto None None s [] (lit "z"))
    as [_ H].
  - apply wire_sampleError.
  - reflexivity.
  - destruct H as (s' & H1 & H2 & _); [apply wire_open_session|]. exists s'. split; [exact H1|exact H2].
Defined.
