(* ===== verification/TxWire.v ===== *)
(** * Transactions at an isolation level, and what a failed commit leaves behind *)

From S2P Require Import Prelude.
From S2P Require Import GoText.
From S2P Require Import Protocol.
From S2P Require Import Transfer.
From S2P Require Import Errors.
From S2P Require Import Value.
From S2P Require Import Session.
From S2P Require Import SessionFacts.
From S2P Require Import Exchange.
From S2P Require Import Rows.
From S2P Require Import GeneratedKeys.
From S2P Require Import Update.
From S2P Require Import UpdateWire.
From S2P Require Import QueryWire.
From S2P Require Import Conn.
From S2P Require Import Tx.
From S2P Require Import ConnFacts.
From S2P Require Import Statements.

Definition isolation_sql (level : gostring) : gostring :=
  lit "SET SESSION CHARACTERISTICS AS TRANSACTION ISOLATION LEVEL " ++ level.

Lemma on_session_Ok {A} (m : M Session A) busy s a s' :
  m s = (Ok a, s') -> on_session m (mkConn true busy s) = (Ok a, mkConn true busy s').
Proof. intros E. rewrite on_session_run by done. cbn. by rewrite E. Qed.

Lemma or_bad_conn_Ok {A} (m : M Session A) busy s a s' :
  m s = (Ok a, s') -> or_bad_conn m (mkConn true busy s) = (Ok a, mkConn true busy s').
Proof. intros E. unfold or_bad_conn, bind, try. by rewrite (on_session_Ok _ _ _ _ _ E). Qed.

Lemma framed_set_nextID a s s1 s' : framed s s1 -> framed (set_nextID a s1) s' -> framed (set_nextID a s) s'.
Proof. intros (?&?&?&?&?&?) (?&?&?&?&?&?). cbn in *. split_and!; cbn; congruence. Qed.

Lemma txIsolationSQL_nonempty level sql : txIsolationSQL level = Ok (sql, true) -> exists x l, sql = x :: l.
Proof.
  unfold txIsolationSQL. repeat case_match; try done; intros [= <-]; by do 2 eexists.
Qed.

(** The two halves of a transaction on a free connection, from the runs of their steps. *)
Lemma beginTx_isolated level sql s sa sb :
  txIsolationSQL level = Ok (sql, true) -> s_dead s = false -> s_autoCommit s = true ->
  setAutoCommit Background false (set_now (s_now s + 1) s) = (Ok tt, sa) ->
  setTransactionIsolation Background sql sa = (Ok tt, sb) ->
  BeginTx Background (mkTxOptions level false) (mkConn true false s) = (Ok (mkTx true false), mkConn true false sb).
Proof.
  intros Hiso Hd Hac Ea Eb. destruct (txIsolationSQL_nonempty level sql Hiso) as (x & l & ->).
  unfold BeginTx, beginTx. unfold bind at 1, on_clock. cbn [check_ctx c_sess]. cbn.
  rewrite Hiso. cbn. unfold exclusively.
  rewrite (bind_Ok acquire _ _ tt (mkConn true true (set_now (s_now s + 1) s))) by (by apply acquire_idle).
  rewrite deferring_run. set (body := c <- get ;; _).
  assert (E : body (mkConn true true (set_now (s_now s + 1) s)) = (Ok (mkTx true false), mkConn true true sb)).
  { unfold body. unfold bind at 1, get. cbn [c_sess s_autoCommit set_now]. rewrite Hac. cbn [negb].
    rewrite (bind_Ok _ _ _ _ _ (on_session_Ok _ _ _ _ _ Ea)). unfold bind, try.
    by rewrite (on_session_Ok _ _ _ _ _ Eb). }
  by rewrite E.
Qed.

Lemma finish_isolated (rollback : bool) sb sc se sg :
  (if rollback then rollbackCurrentTransaction Background else commitCurrentTransaction Background) sb = (Ok tt, sc) ->
  setTransactionIsolation Background defaultTxIsolationSQL sc = (Ok tt, se) ->
  setAutoCommit Background true se = (Ok tt, sg) ->
  s_dead sb = false ->
  finishTransaction rollback (mkConn true false sb, mkTx true false) = (Ok tt, (mkConn true false sg, mkTx true true)).
Proof.
  intros Ec Ee Eg Hd. unfold finishTransaction, finish_acquired. cbn [tx_done c_open negb]. rewrite acquire_idle by done.
  rewrite deferring_run. unfold finish_held. cbn [tx_restoreIsolation set_busy c_open c_sess].
  rewrite !(bind_Ok _ _ _ _ _ (on_session_Ok _ true _ _ _ Ec)). unfold bind, try.
  rewrite !(on_session_Ok _ true _ _ _ Ee). unfold ret. cbv iota beta. by rewrite !(on_session_Ok _ true _ _ _ Eg).
Qed.

Section isolated.
(** What is asked of the server with every statement, and what it answers to one that
    sets the isolation level. *)
Context (mode : Z) (cols : option (list Z)) (names : option (list gostring)).
Context (readOnly : bool) (count : Z) (keys : option wire_keys).
Hypothesis (Hmode : (mode =? GeneratedKeysNone) = bool_decide (keys = None)).
Hypothesis (Hkeys : forall k, keys = Some k -> wf_keys k).
Hypothesis (Hcount : in_intN 64 count).

Definition set_answer : list byte := statement_answer readOnly count false keys.
Definition set_request (id : Z) (level : gostring) : list byte :=
  statement_request id (isolation_sql level) mode cols names.

(** A statement of the driver's own, after which the server reports its autocommit
    state. *)
Lemma own_statement_run_ac ac closed what sql s out suf :
  let id := int32 (s_nextID s + 1) in
  resolveGeneratedKeys Background s = (mode, cols, names) -> TCPProtocolVersion20 <= s_version s ->
  wire true s out (statement_answer readOnly count ac keys ++ suf) ->
  exists s',
    (session_open closed ;;
     operation Background false (check_ctx Background ;; wrapE what (ExecuteUpdate Background sql) ;; ret tt)) s = (Ok tt, s') /\
    wire true s' (out ++ statement_request id sql mode cols names) suf /\
    s_autoCommit s' = ac /\ framed (set_nextID id s) s'.
Proof using Hmode Hkeys Hcount.
  intros id Hres Hv Hw.
  rewrite (bind_Ok (session_open _) _ s tt s) by (destruct Hw as (t & Ht & _); unfold session_open; by rewrite Ht).
  apply (operation_run true true _ _ _ (fun s' => s_autoCommit s' = ac /\ framed (set_nextID id s) s') s out (statement_answer readOnly count ac keys ++ suf));
    [done|done|].
  intros s1 Hw1 Hf1. destruct (exch_check_ctx true Background eq_refl s1 out _ Hw1) as (s2 & E2 & Hw2 & Hf2).
  rewrite app_nil_r in Hw2. assert (Hf : framed s s2) by eauto using framed_trans.
  destruct (ExecuteUpdate_run Background sql readOnly mode cols names count ac keys s2 out suf)
    as (s3 & E3 & Hw3 & Ha3 & Hf3); try done.
  { by rewrite (resolveGeneratedKeys_framed Background s). }
  { by destruct Hf as (_&_&->&_). }
  exists s3. rewrite (bind_Ok _ _ _ _ _ E2).
  assert (Hn : s_nextID s2 = s_nextID s) by (by destruct Hf as (_&_&_&_&->&_)). rewrite Hn in *. split_and!.
  - unfold bind, wrapE. by rewrite E3.
  - exact Hw3.
  - done.
  - by eapply framed_set_nextID.
Qed.

Lemma own_statement_run closed what sql s out suf :
  let id := int32 (s_nextID s + 1) in
  resolveGeneratedKeys Background s = (mode, cols, names) -> TCPProtocolVersion20 <= s_version s ->
  wire true s out (set_answer ++ suf) ->
  exists s',
    (session_open closed ;;
     operation Background false (check_ctx Background ;; wrapE what (ExecuteUpdate Background sql) ;; ret tt)) s = (Ok tt, s') /\
    wire true s' (out ++ statement_request id sql mode cols names) suf /\
    s_autoCommit s' = false /\ framed (set_nextID id s) s'.
Proof using Hmode Hkeys Hcount. exact (own_statement_run_ac false closed what sql s out suf). Qed.

Lemma setTransactionIsolation_run level s out suf :
  let id := int32 (s_nextID s + 1) in
  resolveGeneratedKeys Background s = (mode, cols, names) -> TCPProtocolVersion20 <= s_version s ->
  wire true s out (set_answer ++ suf) ->
  exists s', setTransactionIsolation Background level s = (Ok tt, s') /\
    wire true s' (out ++ set_request id level) suf /\ s_autoCommit s' = false /\ framed (set_nextID id s) s'.
Proof using Hmode Hkeys Hcount. apply own_statement_run. Qed.

(** How a transaction ends: COMMAND_COMMIT, or the statement ROLLBACK, which takes a
    command id of its own. *)
Definition end_request (rollback : bool) (id : Z) : list byte :=
  if rollback then statement_request (int32 (id + 1)) (lit "ROLLBACK") mode cols names else enc_int32 CommandCommit.
Definition end_answer (rollback : bool) : list byte := if rollback then set_answer else ok_status.
Definition end_id (rollback : bool) (id : Z) : Z := if rollback then int32 (id + 1) else id.

Lemma end_run (rollback : bool) s out suf :
  resolveGeneratedKeys Background s = (mode, cols, names) -> TCPProtocolVersion20 <= s_version s ->
  wire true s out (end_answer rollback ++ suf) ->
  exists s',
    (if rollback then rollbackCurrentTransaction Background else commitCurrentTransaction Background) s = (Ok tt, s') /\
    wire true s' (out ++ end_request rollback (s_nextID s)) suf /\
    framed (set_nextID (end_id rollback (s_nextID s)) s) s'.
Proof using Hmode Hkeys Hcount.
  intros Hres Hv Hw. destruct rollback.
  - destruct (own_statement_run (EErrorf "h2go: Session.rollbackCurrentTransaction: session closed" [])
                "Session.rollbackCurrentTransaction" (lit "ROLLBACK") s out suf Hres Hv Hw) as (s' & E & Hw' & _ & Hf).
    by exists s'.
  - destruct (exch_commitCurrentTransaction Background eq_refl s out suf Hw) as (s' & E & Hw' & Hf).
    exists s'. split_and!; [done|done|]. by destruct s.
Qed.

(** Turning autocommit on or off. *)
Lemma setAutoCommit_run b s out suf :
  wire true s out (ok_status ++ suf) ->
  exists s', setAutoCommit Background b s = (Ok tt, s') /\ wire true s' (out ++ autocommit_frame b) suf /\
    s_autoCommit s' = b /\ framed s s'.
Proof.
  intros Hw. destruct (exch_setAutoCommit Background b eq_refl s out suf Hw) as (s' & E & Hw' & Hf).
  exists s'. eauto using setAutoCommit_sets.
Qed.

(** C17 (functional). A transaction at an isolation level other than the default: beginning
    it turns autocommit off and sets the level, ending it sends COMMAND_COMMIT or runs
    ROLLBACK, sets the level back to READ COMMITTED and turns autocommit on again, each
    with one exchange and in this order. The connection is free in between and afterwards. *)
Theorem isolated_transaction_restores (rollback : bool) level sql s out suf :
  txIsolationSQL level = Ok (sql, true) ->
  s_dead s = false -> s_autoCommit s = true ->
  resolveGeneratedKeys Background s = (mode, cols, names) -> TCPProtocolVersion20 <= s_version s ->
  let id := int32 (s_nextID s + 1) in
  wire true s out (ok_status ++ set_answer ++ end_answer rollback ++ set_answer ++ ok_status ++ suf) ->
  exists s1 s2,
    BeginTx Background (mkTxOptions level false) (mkConn true false s) = (Ok (mkTx true false), mkConn true false s1) /\
    s_autoCommit s1 = false /\
    (if rollback then Rollback else Commit) (mkConn true false s1, mkTx true false)
    = (Ok tt, (mkConn true false s2, mkTx true true)) /\
    s_autoCommit s2 = true /\
    wire true s2 (((((out ++ autocommit_frame false) ++ set_request id sql) ++ end_request rollback id)
       ++ set_request (int32 (end_id rollback id + 1)) defaultTxIsolationSQL) ++ autocommit_frame true) suf.
Proof using Hmode Hkeys Hcount.
  intros Hiso Hd Hac Hres Hv id Hw. set (s0 := set_now (s_now s + 1) s).
  destruct (setAutoCommit_run false s0 out _ Hw) as (sa & Ea & Hwa & Haa & Hfa).
  assert (Hna : s_nextID sa = s_nextID s) by (by destruct Hfa as (_&_&_&_&->&_)).
  destruct (setTransactionIsolation_run sql sa _ _ ltac:(rewrite <- Hres; by apply (resolveGeneratedKeys_framed Background s))
    ltac:(destruct Hfa as (_&_&->&_); done) Hwa) as (sb & Eb & Hwb & Hab & Hfb). rewrite Hna in *. fold id in Hwb, Hfb.
  assert (Hf1 : framed (set_nextID id s) sb) by (eapply framed_set_nextID; [|exact Hfb]; exact Hfa).
  assert (Hnb : s_nextID sb = id) by (by destruct Hf1 as (_&_&_&_&->&_)).
  destruct (end_run rollback sb _ _ ltac:(rewrite <- Hres; by apply (resolveGeneratedKeys_framed Background (set_nextID id s)))
    ltac:(destruct Hf1 as (_&_&->&_); done) Hwb) as (sc & Ec & Hwc & Hfc). rewrite Hnb in *.
  assert (Hf2 : framed (set_nextID (end_id rollback id) s) sc)
    by (eapply framed_set_nextID in Hfc; [|exact Hf1]; by destruct s).
  assert (Hnc : s_nextID sc = end_id rollback id) by (by destruct Hf2 as (_&_&_&_&->&_)).
  destruct (setTransactionIsolation_run defaultTxIsolationSQL sc _ _
    ltac:(rewrite <- Hres; by apply (resolveGeneratedKeys_framed Background (set_nextID (end_id rollback id) s)))
    ltac:(destruct Hf2 as (_&_&->&_); done) Hwc) as (se & Ee & Hwe & Hae & Hfe). rewrite Hnc in *.
  destruct (setAutoCommit_run true se _ _ Hwe) as (sg & Eg & Hwg & Hag & Hfg).
  assert (Hdb : s_dead sb = false) by (by destruct Hf1 as (_&_&_&->&_)).
  exists sb, sg. split_and!; [|done| |done|exact Hwg].
  - by apply (beginTx_isolated level sql s sa sb).
  - pose proof (finish_isolated rollback sb sc se sg Ec Ee Eg Hdb) as HF. by destruct rollback.
Qed.

(** ** Resetting a connection *)

Definition pending_answer (pending : bool) : list byte := ok_status ++ enc_int32 (if pending then 1 else 0).

Lemma exch_hasPendingTransaction pending :
  exch true true (hasPendingTransaction Background) (enc_int32 SessionHasPendingTransaction) (pending_answer pending) pending.
Proof.
  unfold hasPendingTransaction, pending_answer. eapply exch_bind_nil; [apply exch_session_open|].
  apply exch_operation. eapply exch_bind_nil; [by apply exch_check_ctx|].
  rewrite <- (app_nil_r (enc_int32 SessionHasPendingTransaction)). eapply exch_bind_send; [apply exch_int32|].
  eapply exch_bind_nil; [apply exch_wrapf, exch_flush|]. eapply exch_bind_recv; [apply exch_status|].
  rewrite <- (app_nil_r (enc_int32 _)). eapply exch_bind_recv.
  { apply exch_wrapf, exch_read, decodes_ReadInt32. unfold in_intN. destruct pending; lia. }
  destruct pending; apply exch_ret.
Qed.

(** What a reset does while it holds the connection. *)
Definition reset_held : M conn unit :=
  pending <- or_bad_conn (hasPendingTransaction Background) ;;
  (if pending : bool then or_bad_conn (rollbackCurrentTransaction Background) else ret tt) ;;
  c <- get ;;
  if negb (s_autoCommit (c_sess c)) then or_bad_conn (setAutoCommit Background true) else ret tt.

Lemma ResetSession_held s x s' :
  s_dead s = false -> reset_held (mkConn true true (set_now (s_now s + 1) s)) = (x, mkConn true true s') ->
  ResetSession Background (mkConn true false s) = (x, mkConn true false s').
Proof.
  intros Hd E. unfold ResetSession. unfold bind at 1, on_clock. cbn [c_sess].
  change (check_ctx Background s) with (@Ok unit tt, set_now (s_now s + 1) s). cbn [c_open c_busy].
  unfold bind at 1, get. cbn [c_open negb]. unfold bind at 1, try. rewrite acquire_idle by done. rewrite deferring_run.
  unfold set_busy. cbn [c_open c_sess]. unfold reset_held, get in E. by rewrite E.
Qed.

(** A reset from the runs of its steps: when all succeed, and when the rollback fails. *)
Lemma ResetSession_steps (pending : bool) s s1 s2 s3 :
  s_dead s = false ->
  hasPendingTransaction Background (set_now (s_now s + 1) s) = (Ok pending, s1) ->
  (if pending then rollbackCurrentTransaction Background s1 else (Ok tt, s1)) = (Ok tt, s2) ->
  (if s_autoCommit s2 then (Ok tt, s2) else setAutoCommit Background true s2) = (Ok tt, s3) ->
  ResetSession Background (mkConn true false s) = (Ok tt, mkConn true false s3).
Proof.
  intros Hd E1 E2 E3. apply ResetSession_held; [done|]. unfold reset_held.
  rewrite (bind_Ok _ _ _ _ _ (or_bad_conn_Ok _ true _ _ _ E1)).
  assert (Er : (if pending then or_bad_conn (rollbackCurrentTransaction Background) else ret tt) (mkConn true true s1)
               = (Ok tt, mkConn true true s2)).
  { destruct pending; [by apply or_bad_conn_Ok|]. by injection E2 as <-. }
  rewrite (bind_Ok _ _ _ _ _ Er). unfold bind, ret, get. cbn [c_sess]. destruct (s_autoCommit s2); cbn [negb].
  - by injection E3 as <-.
  - by apply or_bad_conn_Ok.
Qed.

Lemma ResetSession_not_rolled_back s s1 s2 e :
  s_dead s = false ->
  hasPendingTransaction Background (set_now (s_now s + 1) s) = (Ok true, s1) ->
  rollbackCurrentTransaction Background s1 = (Err e, s2) ->
  ResetSession Background (mkConn true false s) = (Err (ESent driver_ErrBadConn), mkConn true false (Session_Abort s2).2).
Proof.
  intros Hd E1 E2. apply ResetSession_held; [done|]. unfold reset_held.
  rewrite (bind_Ok _ _ _ _ _ (or_bad_conn_Ok _ true _ _ _ E1)). apply bind_Err.
  unfold or_bad_conn, bind, try. rewrite on_session_run by done. cbn [c_sess c_open c_busy]. rewrite E2.
  cbn [fst snd]. unfold discard. rewrite on_session_run by done. done.
Qed.

(** A rollback that the server refuses to prepare. *)
Lemma rollback_refused h s out suf :
  wire_error h -> wire true s out (refusal h ++ suf) ->
  exists s', rollbackCurrentTransaction Background s = (Err (EH2 h), s').
Proof.
  intros Hh Hw. unfold rollbackCurrentTransaction.
  rewrite (bind_Ok (session_open _) _ s tt s) by (destruct Hw as (t & Ht & _); unfold session_open; by rewrite Ht).
  set (body := check_ctx Background ;; _).
  destruct (PrepareCommand_refused (lit "ROLLBACK") h (set_now (s_now s + 1) s) out suf Hh Hw) as (s1 & E1 & Hw1 & _).
  assert (Eb : body s = (Err (EH2 h), s1)).
  { unfold body. rewrite (bind_Ok (check_ctx Background) _ s tt (set_now (s_now s + 1) s)) by done.
    apply bind_Err. unfold wrapE. unfold ExecuteUpdate. by rewrite (bind_Err _ _ _ _ _ E1). }
  destruct (operation_background_Err true false body s (EH2 h) s1 _ suf Eb Hw1) as (s' & E & _). by exists s'.
Qed.

(** C14 (safety). [ResetSession] hands a connection back to the pool without what the last
    user left open, or not at all. Whatever the server sends: when it succeeds the
    session is alive with autocommit on; when anything goes wrong the answer is
    [driver.ErrBadConn] and the session is broken, so that it cannot be used again; either
    way the connection is released. And with a server that answers, the messages are
    exactly these: the question whether a transaction is pending; if it is, the statement
    ROLLBACK; if autocommit is off then (by the answer to ROLLBACK, or as it was), the
    message that turns it on. When the server refuses the ROLLBACK the connection is
    discarded. (The isolation level is not set back.) *)
Theorem ResetSession_clean_or_discarded ctx s :
  ctx_done_at ctx = None -> alive s ->
  match ResetSession ctx (mkConn true false s) with
  | (Ok _, c') => alive (c_sess c') /\ s_autoCommit (c_sess c') = true /\ c_busy c' = false
  | (Err e, c') => e = ESent driver_ErrBadConn /\ broken (c_sess c') /\ c_busy c' = false
  end /\
  (resolveGeneratedKeys Background s = (mode, cols, names) -> TCPProtocolVersion20 <= s_version s ->
   forall (pending reported : bool) h out suf,
   let id := int32 (s_nextID s + 1) in
   let autoCommit := if pending then reported else s_autoCommit s in
   (wire true s out (pending_answer pending
      ++ (if pending then statement_answer readOnly count reported keys else [])
      ++ (if autoCommit then [] else ok_status) ++ suf) ->
    exists s', ResetSession Background (mkConn true false s) = (Ok tt, mkConn true false s') /\ alive s' /\
      s_autoCommit s' = true /\
      wire true s' (((out ++ enc_int32 SessionHasPendingTransaction)
        ++ (if pending then statement_request id (lit "ROLLBACK") mode cols names else []))
        ++ (if autoCommit then [] else autocommit_frame true)) suf) /\
   (wire_error h -> wire true s out (pending_answer true ++ refusal h ++ suf) ->
    exists s', ResetSession Background (mkConn true false s) = (Err (ESent driver_ErrBadConn), mkConn true false s') /\
      broken s')).
Proof using Hmode Hkeys Hcount.
  intros Hc Hal. pose proof Hal as [Hd _]. split; [by apply ResetSession_outcome|].
  intros Hres Hv pending reported h out suf id autoCommit. set (s0 := set_now (s_now s + 1) s).
  pose proof (ResetSession_outcome Background (mkConn true false s) eq_refl eq_refl eq_refl Hal) as Hout.
  split; [intros Hw|intros Hh Hw].
  - destruct (exch_hasPendingTransaction pending s0 out _ Hw) as (s1 & E1 & Hw1 & Hf1).
    assert (Hac1 : s_autoCommit s1 = s_autoCommit s)
      by (pose proof (keepsac_hasPending Background s0) as H; by rewrite E1 in H).
    assert (exists s2, (if pending then rollbackCurrentTransaction Background s1 else (Ok tt, s1)) = (Ok tt, s2) /\
      wire true s2 ((out ++ enc_int32 SessionHasPendingTransaction)
        ++ (if pending then statement_request id (lit "ROLLBACK") mode cols names else []))
        ((if autoCommit then [] else ok_status) ++ suf) /\ s_autoCommit s2 = autoCommit) as (s2 & E2 & Hw2 & Hac2).
    { destruct pending; [|exists s1; by rewrite app_nil_r].
      assert (Hn1 : s_nextID s1 = s_nextID s) by (by destruct Hf1 as (_&_&_&_&->&_)).
      destruct (own_statement_run_ac reported (EErrorf "h2go: Session.rollbackCurrentTransaction: session closed" [])
        "Session.rollbackCurrentTransaction" (lit "ROLLBACK") s1 _ _
        ltac:(rewrite <- Hres; by apply (resolveGeneratedKeys_framed Background s0))
        ltac:(destruct Hf1 as (_&_&->&_); done) Hw1) as (s2 & E2 & Hw2 & Ha2 & _).
      rewrite Hn1 in Hw2. by exists s2. }
    assert (exists s3, (if s_autoCommit s2 then (Ok tt, s2) else setAutoCommit Background true s2) = (Ok tt, s3) /\
      wire true s3 (((out ++ enc_int32 SessionHasPendingTransaction)
        ++ (if pending then statement_request id (lit "ROLLBACK") mode cols names else []))
        ++ (if autoCommit then [] else autocommit_frame true)) suf) as (s3 & E3 & Hw3).
    { rewrite Hac2. destruct autoCommit; [exists s2; by rewrite app_nil_r|].
      destruct (setAutoCommit_run true s2 _ _ Hw2) as (s3 & E3 & Hw3 & _). by exists s3. }
    pose proof (ResetSession_steps pending s s1 s2 s3 Hd E1 E2 E3) as E. rewrite E in Hout.
    exists s3. destruct Hout as (? & ? & _). by split_and!.
  - destruct (exch_hasPendingTransaction true s0 out _ Hw) as (s1 & E1 & Hw1 & _).
    destruct (rollback_refused h s1 _ suf Hh Hw1) as (s2 & E2).
    pose proof (ResetSession_not_rolled_back s s1 s2 _ Hd E1 E2) as E. rewrite E in Hout. by eexists; split; [|apply Hout].
Qed.

End isolated.

Definition no_keys : wire_keys := mkWireKeys [] [].

Lemma wf_no_keys : wf_keys no_keys.
Proof. unfold wf_keys. cbn. split_and!; try done; constructor. Qed.

Definition isolated_session : Session :=
  let set := set_answer false 0 (Some no_keys) in
  open_session (ok_status ++ set ++ set ++ set ++ ok_status ++ []).

Lemma isolated_transaction_restores_witness :
  exists s1 s2,
    BeginTx Background (mkTxOptions LevelSerializable false) (mkConn true false isolated_session)
    = (Ok (mkTx true false), mkConn true false s1) /\
    Rollback (mkConn true false s1, mkTx true false) = (Ok tt, (mkConn true false s2, mkTx true true)).
Proof.
  destruct (isolated_transaction_restores GeneratedKeysAuto None None false 0 (Some no_keys) eq_refl
              ltac:(intros k [= <-]; apply wf_no_keys) ltac:(unfold in_intN; lia)
              true LevelSerializable (lit "SERIALIZABLE") isolated_session [] [])
    as (s1 & s2 & H1 & _ & H2 & _).
  - reflexivity.
  - reflexivity.
  - reflexivity.
  - reflexivity.
  - vm_compute. discriminate.
  - apply wire_open_session.
  - exists s1, s2. split; [exact H1|exact H2].
Defined.

(** A session left in the middle of a transaction. *)
Definition left_in_transaction : Session :=
  set_autoCommit false (open_session (pending_answer true ++ statement_answer false 0 false (Some no_keys) ++ ok_status ++ [])).

Lemma ResetSession_clean_or_discarded_witness :
  exists s', ResetSession Background (mkConn true false left_in_transaction) = (Ok tt, mkConn true false s') /\
    alive s' /\ s_autoCommit s' = true /\
    wire true s' ((enc_int32 SessionHasPendingTransaction ++ statement_request 1 (lit "ROLLBACK") GeneratedKeysAuto None None)
                  ++ autocommit_frame true) [].
Proof.
  destruct (ResetSession_clean_or_discarded GeneratedKeysAuto None None false 0 (Some no_keys) eq_refl
              ltac:(intros k [= <-]; apply wf_no_keys) ltac:(unfold in_intN; lia) Background left_in_transaction)
    as [_ H].
  - reflexivity.
  - split; [reflexivity|]. eexists. split; [reflexivity|]. by split_and!.
  - destruct (H eq_refl ltac:(vm_compute; discriminate) true false sampleError [] []) as [H1 _].
    apply H1. apply (wire_open_session (pending_answer true ++ statement_answer false 0 false (Some no_keys) ++ ok_status ++ [])).
Defined.

(** ** A commit that fails *)

Lemma commit_refused h : wire_error h ->
  exchE true true (commitCurrentTransaction Background) (enc_int32 CommandCommit) (refusal h) (EH2 h).
Proof.
  intros Hh. unfold commitCurrentTransaction. eapply exchE_bind_nil; [apply exch_session_open|].
  apply exchE_operation. eapply exchE_bind_nil; [by apply exch_check_ctx|].
  rewrite <- (app_nil_r (enc_int32 CommandCommit)). eapply exchE_bind_send; [apply exch_int32|].
  eapply exchE_bind_nil; [apply exch_wrapf, exch_flush|by apply exchE_status].
Qed.

(** Resetting a connection whose server has nothing pending, with autocommit off. *)
Lemma ResetSession_run s out suf :
  s_dead s = false -> s_autoCommit s = false -> wire true s out (pending_answer false ++ ok_status ++ suf) ->
  exists s', ResetSession Background (mkConn true false s) = (Ok tt, mkConn true false s') /\
    wire true s' ((out ++ enc_int32 SessionHasPendingTransaction) ++ autocommit_frame true) suf /\
    s_autoCommit s' = true.
Proof.
  intros Hd Hac Hw. set (s0 := set_now (s_now s + 1) s).
  destruct (exch_hasPendingTransaction false s0 out _ Hw) as (s1 & E1 & Hw1 & Hf1).
  assert (Hac1 : s_autoCommit s1 = false) by (pose proof (keepsac_hasPending Background s0) as H; rewrite E1 in H; exact (eq_trans H Hac)).
  destruct (setAutoCommit_run true s1 _ _ Hw1) as (s2 & E2 & Hw2 & Ha2 & _).
  exists s2. split; [|done]. apply (ResetSession_steps false s s1 s1 s2); [done..|by rewrite Hac1].
Qed.

(** C38 (error). When the server refuses the commit of a transaction at an isolation level
    other than the default, [Commit] returns the server's error and the transaction is
    over, but the level is not set back; nor does [ResetSession] do so when the pool takes
    the connection back. All that is sent is COMMAND_COMMIT, the question for a pending
    transaction and autocommit: the next user of the connection inherits the level. *)
Theorem failed_commit_keeps_isolation h s out suf :
  wire_error h -> s_dead s = false -> s_autoCommit s = false ->
  wire true s out (refusal h ++ pending_answer false ++ ok_status ++ suf) ->
  exists s1 s2,
    Commit (mkConn true false s, mkTx true false) = (Err (EH2 h), (mkConn true false s1, mkTx true true)) /\
    ResetSession Background (mkConn true false s1) = (Ok tt, mkConn true false s2) /\
    wire true s2 (((out ++ enc_int32 CommandCommit) ++ enc_int32 SessionHasPendingTransaction) ++ autocommit_frame true) suf.
Proof.
  intros Hh Hd Hac Hw. destruct (commit_refused h Hh s out _ Hw) as (s1 & E1 & Hw1 & Hf1).
  assert (Hac1 : s_autoCommit s1 = false) by (pose proof (keepsac_commit Background s) as H; rewrite E1 in H; exact (eq_trans H Hac)).
  assert (Hd1 : s_dead s1 = false) by (by destruct Hf1 as (_&_&_&->&_)).
  destruct (ResetSession_run s1 _ suf Hd1 Hac1 Hw1) as (s2 & E2 & Hw2 & _).
  exists s1, s2. split; [|done]. unfold Commit, finishTransaction, finish_acquired. cbn [tx_done c_open negb].
  rewrite acquire_idle by done. rewrite deferring_run. unfold finish_held. cbn [tx_restoreIsolation set_busy c_open c_sess].
  assert (Ec : on_session (commitCurrentTransaction Background) (mkConn true true s) = (Err (EH2 h), mkConn true true s1))
    by (rewrite on_session_run by done; cbn; by rewrite E1).
  by rewrite !(bind_Err _ _ _ _ _ Ec).
Qed.

Definition refusing_session : Session :=
  set_autoCommit false (open_session (refusal sampleError ++ pending_answer false ++ ok_status ++ [])).

Lemma failed_commit_keeps_isolation_witness :
  exists s1 s2,
    Commit (mkConn true false refusing_session, mkTx true false) = (Err (EH2 sampleError), (mkConn true false s1, mkTx true true)) /\
    ResetSession Background (mkConn true false s1) = (Ok tt, mkConn true false s2).
Proof.
  destruct (failed_commit_keeps_isolation sampleError refusing_session [] []) as (s1 & s2 & H1 & H2 & _).
  - apply wire_sampleError.
  - reflexivity.
  - reflexivity.
  - apply (wire_open_session (refusal sampleError ++ pending_answer false ++ ok_status ++ [])).
  - exists s1, s2. split; [exact H1|exact H2].
Defined.
