(* ===== verification/Cancel.v ===== *)
(** * A statement that is cancelled while the server runs it

    The goroutine of a context that is done asks the server, on a second connection, to
    cancel the statement ([Session.cancelStatement]); the server answers the statement
    with an error frame on the first one. Here is what becomes of the caller and of the
    connection then: with the error that says the statement was cancelled it is good for
    the next statement, with any other error it is given up. *)

From S2P Require Import Prelude.
From S2P Require Import GoText.
From S2P Require Import Protocol.
From S2P Require Import Transfer.
From S2P Require Import Errors.
From S2P Require Import TypeInfo.
From S2P Require Import Metadata.
From S2P Require Import Value.
From S2P Require Import ValueWire.
From S2P Require Import ValueWrite.
From S2P Require Import Session.
From S2P Require Import Watcher.
From S2P Require Import SessionFacts.
From S2P Require Import Exchange.
From S2P Require Import Rows.
From S2P Require Import RowsWire.
From S2P Require Import GeneratedKeys.
From S2P Require Import Update.
From S2P Require Import ExecuteFacts.
From S2P Require Import UpdateWire.
From S2P Require Import QueryWire.
From S2P Require Import Conn.
From S2P Require Import Stmt.
From S2P Require Import ConnFacts.
From S2P Require Import ConnWire.
From S2P Require Import Deadlines.
From S2P Require Import Prepared.
From S2P Require Import Statements.

(** ** The end of an operation whose context is done *)

Lemma finalizeContext_refused {A} ctx d h s :
  ctx_done_at ctx = Some d -> d <= s_now s ->
  finalizeContext ctx (Err (EH2 h) : res A) s =
  (Err (ESent (ctx_cause ctx)),
   let s' := set_now (s_now s + 1) s in
   if Code h =? ErrorCodeStatementWasCanceled then s' else (Session_Abort s').2).
Proof.
  intros Hd Hn. unfold finalizeContext, ctx_Err, tick, bind at 2, ret. unfold bind at 1. rewrite Hd.
  replace (d <=? s_now s) with true by lia. cbn [errors_As]. by destruct (Code h =? _).
Qed.

(** The state in which the body of an operation starts. *)
Lemma wire_begin f ctx cancel s out inp :
  wire f s out inp ->
  let s' := (beginOperationContext ctx cancel s).2 in
  wire f s' out inp /\ framed s s' /\ s_now s' = s_now s.
Proof.
  intros Hw. unfold beginOperationContext. destruct (ctx_deadline ctx) as [d|]; [|by split_and!].
  destruct (wire_set_deadline f s out inp (Some (if cancel then d + cancelGracePeriod else d)) Hw) as (t' & E & Hw').
  rewrite E. by split_and!.
Qed.

Lemma wire_end f s out inp : wire f s out inp -> wire f (endOperationContext s).2 out inp /\ framed s (endOperationContext s).2.
Proof.
  intros Hw. unfold endOperationContext. destruct (wire_set_deadline f s out inp None Hw) as (t' & E & Hw').
  rewrite E. by split_and!.
Qed.

(** After it, no deadline is left. *)
Lemma end_no_deadline s : timed (endOperationContext s).2 -> deadline_of (endOperationContext s).2 = None.
Proof.
  intros Ht. assert (timed s).
  { intros t E. specialize (Ht (SetDeadline None t).2). unfold endOperationContext, set_deadline in Ht. rewrite E in Ht.
    specialize (Ht eq_refl). unfold SetDeadline in Ht. destruct (tr_dl t) eqn:Ed; [done|]. cbn in Ht. congruence. }
  unfold endOperationContext. rewrite deadline_set by done. by destruct (s_tr s).
Qed.

Lemma Abort_no_tr s : s_tr (Session_Abort s).2 = None.
Proof. unfold Session_Abort, Abort. destruct (s_tr s) as [t|] eqn:E; [by destruct (tr_wc t)|by cbn]. Qed.

(** What an operation leaves that the server has answered with [h] while its context was
    done: [sent] has reached the server. *)
Definition cancelled_state (h : Error) (s s' : Session) (sent suf : list byte) : Prop :=
  (timed s' -> deadline_of s' = None) /\
  if Code h =? ErrorCodeStatementWasCanceled then wire true s' sent suf /\ framed s s' else s_tr s' = None.

Lemma cancelled_end {A} ctx d h s s2 sent suf :
  ctx_done_at ctx = Some d -> d <= s_now s2 -> wire true s2 sent suf -> framed s s2 ->
  cancelled_state h s (endOperationContext (finalizeContext ctx (Err (EH2 h) : res A) s2).2).2 sent suf.
Proof.
  intros Hd Hn Hw Hf. rewrite (finalizeContext_refused ctx d h s2) by done. cbn [snd]. split; [apply end_no_deadline|].
  destruct (Code h =? _).
  - destruct (wire_end true (set_now (s_now s2 + 1) s2) sent suf Hw) as [Hw' Hf']. split; [done|].
    eapply framed_trans; [exact Hf|exact Hf'].
  - unfold endOperationContext, set_deadline. rewrite Abort_no_tr. apply Abort_no_tr.
Qed.

Lemma operation_refused {A} ctx d (body : M Session A) h s s2 sent suf :
  ctx_done_at ctx = Some d -> body (beginOperationContext ctx true s).2 = (Err (EH2 h), s2) -> d <= s_now s2 ->
  wire true s2 sent suf -> framed s s2 ->
  exists s', operation ctx true body s = (Err (ESent (ctx_cause ctx)), s') /\ cancelled_state h s s' sent suf.
Proof.
  intros Hd Eb Hn Hw Hf. pose proof (cancelled_end (A := A) ctx d h s s2 sent suf Hd Hn Hw Hf) as Hc.
  pose proof (finalizeContext_refused (A := A) ctx d h s2 Hd Hn) as Ef.
  destruct (finalizeContext ctx _ s2) as [x s3] eqn:E. injection Ef as -> _. eexists. split; [|exact Hc].
  unfold operation. rewrite (bind_Ok _ _ _ _ _ (begin_Ok ctx true s)). unfold bind, try. rewrite Eb, E. by rewrite (end_Ok s3).
Qed.

(** The first look at a context that is done right after it. *)
Lemma not_done_yet ctx s cmd :
  ctx_done_at ctx = Some (s_now s + 1) ->
  not_done ctx (mkConn true false s, prepared cmd) = (Ok tt, (mkConn true false (set_now (s_now s + 1) s), prepared cmd)).
Proof.
  intros Hd. unfold not_done, on_conn, on_clock, check_ctx, ctx_Err, bind, tick. cbn. rewrite Hd.
  by replace (s_now s + 1 <=? s_now s) with false by lia.
Qed.

(** ** Queries *)

Lemma untimed_now {A} (m : M Session A) s : untimed m -> s_now s <= s_now (m s).2.
Proof.
  intros Hm. specialize (Hm s). unfold body_ok, session_of, HasSession_id in Hm.
  apply andb_true_iff in Hm as [Hm _]. by apply Z.leb_le.
Qed.

Lemma executeQueryWire_refused ctx d cmd params bs mr fs h s out suf :
  let id := int32 (s_nextID s + 1) in
  ctx_done_at ctx = Some d -> d <= s_now s -> params_frame cmd 0 params = Some bs -> wire_error h ->
  wire true s out (refusal h ++ suf) ->
  exists s', executeQueryWire ctx cmd mr fs params false s = (Err (ESent (ctx_cause ctx)), s') /\
    cancelled_state h (set_nextID id s) s' (out ++ query_request (cmd_ID cmd) id mr fs (zlen params) bs) suf.
Proof.
  intros id Hd Hn Hp Hh Hw. pose proof (executeQueryWire_unfold ctx cmd mr fs params false s) as E.
  destruct (wire_begin true ctx true (set_nextID id s) out _ Hw) as (Hw0 & Hf0 & Hn0).
  change (nextCommandID s).2 with (set_nextID id s) in E. fold id in E.
  set (s0 := (beginOperationContext ctx true (set_nextID id s)).2) in *. unfold query_body in E.
  set (q := closing false cmd _) in E.
  assert (Hq : exchE true true q (query_request (cmd_ID cmd) id mr fs (zlen params) bs) (refusal h) (EH2 h)).
  { intros s1 out1 suf1 Hw1. rewrite <- (app_nil_r (query_request _ _ _ _ _ _)).
    assert (Hm : exchE true true (writeExecuteQuery cmd id mr fs params ;;
      wrapE "executeQueryWire" (on_tr readStatus) ;;
      columnCount <- wrapf "h2go: executeQueryWire: failed to read column count: %w" [] (on_tr ReadInt32) ;;
      r <- NewRows id columnCount fs false 0 ;; ret (set_contextCleanup true r))
      (query_request (cmd_ID cmd) id mr fs (zlen params) bs ++ []) (refusal h) (EH2 h)).
    { eapply exchE_bind_send; [by apply exch_writeExecuteQuery|]. by apply exchE_now, exchE_status. }
    destruct (Hm _ _ _ Hw1) as (s' & Em & H). exists s'. split; [|done]. unfold q, closing, bind at 1, try. by rewrite Em. }
  destruct (Hq s0 out suf Hw0) as (s2 & E2 & Hw2 & Hf2).
  assert (Hnow : d <= s_now s2).
  { assert (Hu : untimed q) by (apply untimed_closing; unfold writeExecuteQuery; solve_untimed).
    pose proof (untimed_now q s0 Hu) as Hle. rewrite E2 in Hle. cbn in Hle, Hn0. lia. }
  unfold bind, try in E. rewrite E2 in E. rewrite (finalizeContext_refused ctx d h s2 Hd Hnow) in E. cbv zeta beta iota in E.
  eexists. split; [exact E|].
  pose proof (cancelled_end (A := Rows) ctx d h (set_nextID id s) s2 _ suf Hd Hnow Hw2) as Hc.
  rewrite (finalizeContext_refused ctx d h s2 Hd Hnow) in Hc. apply Hc. eapply framed_trans; [exact Hf0|exact Hf2].
Qed.

(** A query of a prepared statement whose context is done after the first look at it. *)
Lemma stmt_QueryContext_refused ctx cmd args params bs h s out suf :
  let id := int32 (s_nextID s + 1) in
  let c := mkConn true false s in
  ctx_done_at ctx = Some (s_now s + 1) -> cmd_IsQuery cmd = true -> convertNamedValues args = Ok params ->
  cmd_ParamCount cmd = zlen params -> params_frame cmd 0 params = Some bs -> wire_error h -> s_dead s = false ->
  wire true s out (refusal h ++ suf) ->
  exists s', stmt_QueryContext ctx args (c, prepared cmd) = (Err (ESent (ctx_cause ctx)), (mkConn true false s', prepared cmd)) /\
    cancelled_state h (set_nextID id s) s'
      (out ++ query_request (cmd_ID cmd) id (effectiveMaxRows c) (effectiveFetchSize c) (zlen params) bs) suf /\
    (alive s -> if Code h =? ErrorCodeStatementWasCanceled then alive s' else broken s').
Proof.
  intros id c Hd Hq Ha Hn Hp Hh Hdead Hw. set (s1 := set_now (s_now s + 1) s).
  destruct (executeQueryWire_refused ctx (s_now s + 1) cmd params bs (effectiveMaxRows c) (effectiveFetchSize c) h s1 out suf)
    as (s' & E & Hc); [done|cbn; lia|done..|].
  assert (Ex : ExecuteQueryPreparedWithParams ctx cmd (effectiveMaxRows c) (effectiveFetchSize c) params s1
               = (Err (ESent (ctx_cause ctx)), s')).
  { unfold ExecuteQueryPreparedWithParams. rewrite session_open_bind by (destruct Hw as (t & Ht & _); cbn; by rewrite Ht).
    by rewrite Hq, Hn, Z.eqb_refl. }
  exists s'. split_and!; [|exact Hc|].
  - unfold stmt_QueryContext. rewrite Ha. unfold lift at 1. unfold bind at 1.
    rewrite (bind_Ok _ _ _ _ _ (not_done_yet ctx s cmd Hd)), (bind_Ok _ _ _ _ _ (beginOperation_run s1 cmd Hdead)).
    unfold bind at 1, on_conn at 1, get. unfold bind at 1, try at 1, on_conn at 1. rewrite on_session_run by done.
    cbn [c_sess c_busy].
    change (effectiveMaxRows (mkConn true true s1)) with (effectiveMaxRows c).
    change (effectiveFetchSize (mkConn true true s1)) with (effectiveFetchSize c). by rewrite Ex.
  - intros Hal. destruct Hc as [_ Hc].
    destruct (fair_ExecuteQueryPreparedWithParams ctx cmd (effectiveMaxRows c) (effectiveFetchSize c) params s1) as [Hf _].
    unfold session_of, HasSession_id in Hf. specialize (Hf Hal). rewrite Ex in Hf. cbn in Hf. unfold fair_failure in Hf.
    cbn [errors_As] in Hf. destruct (Code h =? _), Hf as [[Ha' _]|Hb]; try done.
    + destruct Hc as [(t & Ht & _) _], Hb as [Hb _]. congruence.
    + destruct Ha' as [_ (t & Ht & _)]. congruence.
Qed.

(** ** Correctness *)

(** C11 (liveness). A query of a prepared statement whose context ends while the server
    runs it. When the server answers with an error, the query fails with the context's
    error and gives the connection back, without a deadline on it. If that error is
    the report that the server cancelled the statement, the session is alive and the
    stream in order: the same statement, run again under another context, sends the same
    request under the next result id and gives the server's rows; if it is any other
    error, the session is broken and its network connection closed, so the pool will not
    use it again. When the server had finished first and answers with the result, the
    query succeeds: it gives exactly the server's rows and the session is alive. *)
Theorem cancelled_query_can_be_run_again ctx ctx' cmd args params bs h known cols rows s out suf :
  let id := int32 (s_nextID s + 1) in
  let id' := int32 (id + 1) in
  let c := mkConn true false s in
  let request i := query_request (cmd_ID cmd) i (effectiveMaxRows c) (effectiveFetchSize c) (zlen params) bs in
  ctx_done_at ctx = Some (s_now s + 1) -> endless ctx' -> cmd_IsQuery cmd = true ->
  convertNamedValues args = Ok params -> cmd_ParamCount cmd = zlen params -> params_frame cmd 0 params = Some bs ->
  wire_error h -> alive s ->
  zlen cols <= maxWireCollectionElements -> forallb wf_column cols = true ->
  Forall (wf_row (zlen cols)) rows -> zlen rows < 2 ^ 63 ->
  (forall inp req,
    answers id' known (effectiveFetchSize c) rows inp req ->
    wire true s out (refusal h ++ query_answer known cols rows ++ inp ++ suf) ->
    exists s1,
      stmt_QueryContext ctx args (c, prepared cmd) = (Err (ESent (ctx_cause ctx)), (mkConn true false s1, prepared cmd)) /\
      (timed s1 -> deadline_of s1 = None) /\
      if Code h =? ErrorCodeStatementWasCanceled then
        exists s2 r,
          stmt_QueryContext ctx' args (mkConn true false s1, prepared cmd) = (Ok r, (mkConn true true s2, prepared cmd)) /\
          alive s2 /\
          represents (zlen cols) ((out ++ request id) ++ request id' ++ req) suf (s2, r) (map (map cell_value) rows)
      else broken s1) /\
  (forall inp req,
    answers id known (effectiveFetchSize c) rows inp req ->
    wire true s out (query_answer known cols rows ++ inp ++ suf) ->
    exists s2 r,
      stmt_QueryContext ctx args (c, prepared cmd) = (Ok r, (mkConn true true s2, prepared cmd)) /\ alive s2 /\
      represents (zlen cols) (out ++ request id ++ req) suf (s2, r) (map (map cell_value) rows)).
Proof.
  intros id id' c request Hd He Hq Ha Hn Hp Hh Hal Hc Hcols Hr Hall. split; intros inp req Hans Hw.
  - pose proof Hal as [Hdead _].
    destruct (stmt_QueryContext_refused ctx cmd args params bs h s out _ Hd Hq Ha Hn Hp Hh Hdead Hw) as (s1 & E & [Hdl Hst] & Hla).
    fold id c in Hst. specialize (Hla Hal). exists s1. split; [exact E|]. split; [done|].
    destruct (Code h =? _); [|done]. destruct Hst as [Hw1 Hf].
    assert (Hid : s_nextID s1 = id) by (destruct Hf as (_ & _ & _ & _ & -> & _); done).
    assert (Heff : effectiveFetchSize (mkConn true false s1) = effectiveFetchSize c /\
                   effectiveMaxRows (mkConn true false s1) = effectiveMaxRows c).
    { destruct Hf as (Hcfg & _). unfold effectiveFetchSize, effectiveMaxRows, conn_cfg, c. cbn in *. by rewrite Hcfg. }
    destruct (stmt_QueryContext_run ctx' cmd args params bs known cols rows inp req s1 (out ++ request id) suf)
      as (s2 & r & E2 & Hal2 & Hrep & _); rewrite ?Hid, ?(proj1 Heff); try done.
    rewrite Hid, (proj1 Heff), (proj2 Heff) in Hrep. exists s2, r. by split_and!.
  - destruct (stmt_QueryContext_first_look ctx cmd args params bs known cols rows inp req s out suf)
      as (s2 & r & E & Hal2 & Hrep & _); [by apply not_done_yet|done..|]. exists s2, r. by split_and!.
Qed.

(** The report of the server, and a context that ends just after the first look at it. *)
Definition cancel_report : Error :=
  mkError (lit "57014") (lit "Statement was canceled or the session timed out") [] ErrorCodeStatementWasCanceled [].

Lemma wire_cancel_report : wire_error cancel_report.
Proof.
  split; [|split; [|split; [|split]]]; [| | |unfold in_intN; cbn; unfold ErrorCodeStatementWasCanceled; lia|];
    (apply wire_string_sanitized; [vm_compute; reflexivity|vm_compute; discriminate]).
Qed.

Definition ended_context : Ctx := mkCtx (Some 1) context_DeadlineExceeded (Some 1) None.

Definition cancelled_session (inp : list byte) : Session :=
  open_session (refusal cancel_report ++ query_answer false [sample_column] sample_batch ++ inp ++ []).

Lemma cancelled_query_can_be_run_again_witness :
  let inp := enc_batch 100 sample_batch ++ batch_replies sample_batch in
  exists s1 s2 r,
    stmt_QueryContext ended_context (number_args 0 [VInt64 7]) (mkConn true false (cancelled_session inp), prepared sample_query)
    = (Err (ESent context_DeadlineExceeded), (mkConn true false s1, prepared sample_query)) /\
    stmt_QueryContext Background (number_args 0 [VInt64 7]) (mkConn true false s1, prepared sample_query)
    = (Ok r, (mkConn true true s2, prepared sample_query)).
Proof.
  cbv zeta. set (inp := enc_batch 100 sample_batch ++ batch_replies sample_batch).
  destruct (cancelled_query_can_be_run_again ended_context Background sample_query (number_args 0 [VInt64 7]) [VInt64 7]
    (enc_value (WireBigint 7)) cancel_report false [sample_column] sample_batch
    (cancelled_session inp) [] []) as [H _].
  - reflexivity.
  - reflexivity.
  - reflexivity.
  - reflexivity.
  - reflexivity.
  - reflexivity.
  - apply wire_cancel_report.
  - split; [reflexivity|]. eexists. split; [reflexivity|]. by split_and!.
  - vm_compute. discriminate.
  - reflexivity.
  - apply wf_sample_batch.
  - vm_compute. reflexivity.
  - destruct (H inp (batch_requests sample_batch)) as (s1 & H1 & _ & s2 & r & H2 & _).
    + apply (answers_last 2 false 100 sample_batch); [reflexivity|vm_compute; reflexivity].
    + apply wire_open_session.
    + exists s1, s2, r. split; [exact H1|exact H2].
Defined.

(** ** Updates *)

(** An update that is cancelled, by the same rules. *)
Theorem cancelled_update ctx cmd args params bs mode cols names h s out suf :
  ctx_done_at ctx = Some (s_now s + 1) -> cmd_IsQuery cmd = false -> convertNamedValues args = Ok params ->
  cmd_ParamCount cmd = zlen params -> params_frame cmd 0 params = Some bs ->
  resolveGeneratedKeys ctx s = (mode, cols, names) -> wire_error h -> s_dead s = false ->
  wire true s out (refusal h ++ suf) ->
  exists s', stmt_ExecContext ctx args (mkConn true false s, prepared cmd)
             = (Err (ESent (ctx_cause ctx)), (mkConn true false s', prepared cmd)) /\
    cancelled_state h s s' (out ++ update_request cmd (zlen params) bs mode cols names) suf.
Proof.
  intros Hd Hq Ha Hn Hp Hres Hh Hdead Hw. set (s1 := set_now (s_now s + 1) s).
  destruct (wire_begin true ctx true s1 out _ Hw) as (Hw0 & Hf0 & Hn0).
  set (s0 := (beginOperationContext ctx true s1).2) in *.
  set (body := guard_err (negb (cmd_ParamCount cmd =? zlen params))
      (EErrorf "h2go: ExecuteUpdatePreparedWithParams: expected %d params, got %d"
         [AInt (cmd_ParamCount cmd); AInt (zlen params)]) ;;
    keys <- gets (resolveGeneratedKeys ctx) ;;
    let '(mode, cols, names) := keys in
    writeExecuteUpdate cmd params mode cols names ;;
    readExecuteUpdate mode).
  assert (Hb : exchE true true (writeExecuteUpdate cmd params mode cols names ;; readExecuteUpdate mode)
    (update_request cmd (zlen params) bs mode cols names) (refusal h) (EH2 h)).
  { rewrite <- (app_nil_r (update_request _ _ _ _ _ _)).
    eapply exchE_bind_send; [by apply exch_writeExecuteUpdate|]. by apply exchE_now, exchE_status. }
  destruct (Hb s0 out suf Hw0) as (s2 & E2 & Hw2 & Hf2).
  assert (Eb : body s0 = (Err (EH2 h), s2)).
  { unfold body, guard_err. rewrite Hn, Z.eqb_refl. cbn [negb]. rewrite (bind_Ok (ret tt) _ s0 tt s0) by done.
    unfold bind at 1, gets. by rewrite (resolveGeneratedKeys_framed ctx s s0 Hf0), Hres. }
  assert (Hnow : s_now s + 1 <= s_now s2).
  { assert (Hu : untimed body) by (unfold body, writeExecuteUpdate, writeKeySelectors, readExecuteUpdate; solve_untimed).
    pose proof (untimed_now body s0 Hu) as Hle. rewrite Eb in Hle. cbn in Hle, Hn0. lia. }
  destruct (operation_refused ctx _ body h s1 s2 _ suf Hd Eb Hnow Hw2 (framed_trans _ _ _ Hf0 Hf2)) as (s' & E & Hc).
  assert (Ex : ExecuteUpdatePreparedWithParams ctx cmd params s1 = (Err (ESent (ctx_cause ctx)), s')).
  { unfold ExecuteUpdatePreparedWithParams. rewrite session_open_bind by (destruct Hw as (t & Ht & _); cbn; by rewrite Ht).
    rewrite Hq. unfold guard_err at 1. by rewrite (bind_Ok (ret tt) _ s1 tt s1). }
  exists s'. split; [|exact Hc]. unfold stmt_ExecContext. rewrite Ha. unfold lift at 1. unfold bind at 1.
  rewrite (bind_Ok _ _ _ _ _ (not_done_yet ctx s cmd Hd)), (bind_Ok _ _ _ _ _ (beginOperation_run s1 cmd Hdead)).
  unfold bind at 1, try at 1, on_conn at 1. rewrite on_session_run by done. cbn [c_sess c_busy]. rewrite Ex.
  cbn [fst snd]. unfold bind, try. by rewrite finishOperation_run.
Qed.
