(* ===== verification/Ownership.v ===== *)
(** * Who owns the stream: interleavings of operations on one connection

    A connection has one stream, and result sets are read from it long after the
    operation that opened them returned. This file runs the operations of a connection,
    its statements, transactions and result sets in any order, as goroutines that share
    the connection may, and shows that no two result sets are ever open on it at once. *)

From S2P Require Import Prelude.
From S2P Require Import GoText.
From S2P Require Import Protocol.
From S2P Require Import Transfer.
From S2P Require Import Errors.
From S2P Require Import Metadata.
From S2P Require Import Value.
From S2P Require Import Session.
From S2P Require Import Exchange.
From S2P Require Import Rows.
From S2P Require Import RowsWire.
From S2P Require Import Update.
From S2P Require Import Conn.
From S2P Require Import Stmt.
From S2P Require Import Tx.
From S2P Require Import ConnFacts.
From S2P Require Import ConnWire.
From S2P Require Import Drain.

(** ** Operations that leave the flags of a connection as they were *)

Definition flags (c : conn) : bool * bool := (c_open c, c_busy c).

Definition calm {A} (m : M conn A) : Prop := forall c, flags (m c).2 = flags c.

Section calm.
Context {A B : Type}.

Lemma calm_bind (m : M conn A) (k : A -> M conn B) : calm m -> (forall a, calm (k a)) -> calm (bind m k).
Proof.
  intros Hm Hk c. specialize (Hm c). unfold bind. destruct (m c) as [[a|e] c']; [|done]. cbn in Hm. by rewrite Hk.
Qed.
Lemma calm_try (m : M conn A) : calm m -> calm (try m).
Proof. intros Hm c. specialize (Hm c). unfold try. by destruct (m c). Qed.
Lemma calm_discard (m : M conn A) : calm m -> calm (discard m).
Proof. intros Hm c. apply Hm. Qed.
Lemma calm_ret (a : A) : calm (ret a).
Proof. done. Qed.
Lemma calm_fail e : calm (@fail conn A e).
Proof. done. Qed.
Lemma calm_lift (r : res A) : calm (lift r).
Proof. intros c. by destruct r. Qed.
Lemma calm_on_session (m : M Session A) : calm (on_session m).
Proof. intros [[] b s]; unfold on_session; cbn; [by destruct (m s)|done]. Qed.
Lemma calm_on_clock (m : M Session A) : calm (on_clock m).
Proof. intros c. unfold on_clock. by destruct (m (c_sess c)). Qed.
End calm.

Lemma calm_get : calm get.
Proof. done. Qed.

Create HintDb calm.
#[export] Hint Resolve calm_ret calm_fail calm_lift calm_on_session calm_on_clock calm_get calm_try calm_discard : calm.
#[export] Hint Extern 2 (calm (bind _ _)) => apply calm_bind; [|intros ?] : calm.
#[export] Hint Extern 3 (calm (match ?x with _ => _ end)) => destruct x : calm.

Lemma acquire_cases c :
  (exists e, acquire c = (Err e, c)) \/
  (acquire c = (Ok tt, set_busy true c) /\ c_open c = true /\ c_busy c = false).
Proof.
  unfold acquire. destruct (c_open c); cbn; [|left; by eexists].
  destruct (s_dead (c_sess c)); cbn; [left; by eexists|]. destruct (c_busy c); [left; by eexists|by right].
Qed.

(** What is acquired and released again. *)
Lemma flags_held {A} (m : M conn A) c :
  calm m -> c_open c = true -> c_busy c = false -> flags (deferring release m (set_busy true c)).2 = flags c.
Proof.
  intros Hm Ho Hb. rewrite deferring_run. specialize (Hm (set_busy true c)).
  unfold flags in *. cbn in *. injection Hm as H1 _. by rewrite H1, Hb.
Qed.

Lemma calm_exclusively {A} (m : M conn A) : calm m -> calm (exclusively m).
Proof.
  intros Hm c. unfold exclusively. destruct (acquire_cases c) as [[e E]|(E & Ho & Hb)].
  - by rewrite (bind_Err _ _ _ _ _ E).
  - rewrite (bind_Ok _ _ _ _ _ E). by apply flags_held.
Qed.
#[export] Hint Resolve calm_exclusively : calm.

Lemma calm_PrepareContext ctx q : calm (PrepareContext ctx q).
Proof. apply calm_exclusively. auto with calm. Qed.
Lemma calm_ExecContext ctx q args : calm (ExecContext ctx q args).
Proof. unfold ExecContext. auto 10 with calm. Qed.
Lemma calm_IsValid c : flags (IsValid c).2 = flags c.
Proof.
  assert (H : calm (exclusively (on_session (hasPendingTransaction Background)))) by auto with calm.
  specialize (H c). unfold IsValid. by destruct (exclusively _ c) as [[] ?].
Qed.
Lemma calm_or_bad_conn {A} (m : M Session A) : calm (or_bad_conn m).
Proof. unfold or_bad_conn. auto 10 with calm. Qed.
#[export] Hint Resolve calm_or_bad_conn : calm.

Lemma calm_ResetSession ctx : calm (ResetSession ctx).
Proof.
  unfold ResetSession. apply calm_bind; [auto with calm|]. intros _. apply calm_bind; [auto with calm|]. intros c0.
  destruct (negb (c_open c0)); [auto with calm|]. intros c. unfold bind at 1, try.
  destruct (acquire_cases c) as [[e E]|(E & Ho & Hb)]; rewrite E; [done|]. apply flags_held; auto 20 with calm.
Qed.

Lemma calm_beginTx ctx opts : calm (beginTx ctx opts).
Proof.
  unfold beginTx. apply calm_bind; [auto with calm|]. intros _. apply calm_bind; [auto with calm|]. intros c.
  destruct (negb (c_open c)); [auto with calm|]. destruct (opt_ReadOnly opts); [auto with calm|].
  apply calm_bind; [auto with calm|]. intros iso. apply calm_exclusively. auto 20 with calm.
Qed.

Lemma flags_finishTransaction rollback c t : flags (finishTransaction rollback (c, t)).2.1 = flags c.
Proof.
  unfold finishTransaction. destruct (tx_done t) eqn:Et; [done|]. destruct (negb (c_open c)); [done|].
  unfold finish_acquired. rewrite Et. destruct (acquire_cases c) as [[e E]|(E & Ho & Hb)]; rewrite E; [done|].
  assert (Hm : calm (finish_held rollback (tx_restoreIsolation t))) by (unfold finish_held; auto 20 with calm).
  pose proof (flags_held _ c Hm Ho Hb) as H. by destruct (deferring release _ _) as [x c''].
Qed.

(** ** Queries leave the connection busy, and their rows open *)

Lemma yields_NewRows id cc fs owns cmd : yields (NewRows id cc fs owns cmd) (fun r => rs_closed r = false).
Proof.
  unfold NewRows. eapply yields_bind; [apply yields_any|]. intros _ _ s r s' H. unfold making in H.
  set (r0 := mkRows _ _ _ _ _ _ _ _ _ _ _ _ _ _ _) in H. set (m := bind _ _) in H.
  assert (Hk : keeps_handle m).
  { assert (Hp : keeps_handle prefetchInitialRows)
      by (unfold prefetchInitialRows; pose proof keeps_fetchRows; auto 20 with keeps). unfold m. auto 20 with keeps. }
  specialize (Hk s r0). destruct (m (s, r0)) as [[[]|e] [s1 r1]]; [|done]. injection H as <- <-.
  unfold handle in Hk. cbn in Hk. congruence.
Qed.

Lemma yields_executeQueryWire ctx cmd mr fs params owns :
  yields (executeQueryWire ctx cmd mr fs params owns) (fun r => rs_closed r = false).
Proof.
  set (P := fun r => rs_closed r = false). set (Q := fun x : res Rows => forall r, x = Ok r -> P r).
  assert (Hend : forall (m : M Session Rows) (k : error -> M Session Rows), yields m P ->
    (forall e, yields (k e) P) -> yields (x <- try m ;; match x with Ok r => ret r | Err e => k e end) P).
  { intros m k Hm Hk. apply (yields_bind _ _ Q); [by apply yields_try|].
    intros [r|e] Hx; [by apply yields_ret, Hx|apply Hk]. }
  unfold executeQueryWire. do 2 (eapply yields_bind; [apply yields_any|]; intros ? _).
  apply (yields_bind _ _ Q).
  - apply yields_try, Hend; [|intros e; solve_yields].
    do 3 (eapply yields_bind; [apply yields_any|]; intros ? _).
    apply (yields_bind _ _ P); [apply yields_NewRows|]. intros r Hr. by apply yields_ret.
  - intros x Hx. apply Hend; [|intros e; solve_yields]. destruct x as [r|e]; [by apply yields_ret, Hx|].
    unfold finalizeContext. solve_yields.
Qed.

(** [m] opens rows. *)
Definition opens (m : M Session Rows) : Prop := yields m (fun r => rs_closed r = false).

Lemma opens_ExecuteQuery ctx sql mr fs : opens (ExecuteQuery ctx sql mr fs).
Proof.
  unfold opens, ExecuteQuery. do 2 (eapply yields_bind; [apply yields_any|]; intros ? _).
  destruct (negb _); [solve_yields|apply yields_executeQueryWire].
Qed.
Lemma opens_ExecuteQueryWithParams ctx sql mr fs params : opens (ExecuteQueryWithParams ctx sql mr fs params).
Proof.
  unfold opens, ExecuteQueryWithParams. do 2 (eapply yields_bind; [apply yields_any|]; intros ? _).
  destruct (negb _); [solve_yields|]. destruct (negb _); [solve_yields|apply yields_executeQueryWire].
Qed.
Lemma opens_ExecuteQueryPreparedWithParams ctx cmd mr fs params :
  opens (ExecuteQueryPreparedWithParams ctx cmd mr fs params).
Proof.
  unfold opens, ExecuteQueryPreparedWithParams. eapply yields_bind; [apply yields_any|]; intros _ _.
  destruct (negb _); [solve_yields|]. destruct (negb _); [solve_yields|apply yields_executeQueryWire].
Qed.

(** What a query does to the connection. *)
Definition query_outcome (cb : Callback) (c : conn) (x : res Rows) (c' : conn) : Prop :=
  match x with
  | Ok r => flags c = (true, false) /\ flags c' = (true, true) /\ rs_closed r = false /\ rs_closeCallback r = Some cb
  | Err _ => flags c' = flags c
  end.

Lemma query_held m cb c :
  opens m -> c_open c = true -> c_busy c = false ->
  let '(x, c') := query_rows m cb (set_busy true c) in query_outcome cb c x c'.
Proof.
  intros Hm Ho Hb. unfold query_rows, bind, try. rewrite on_session_run by done. cbn [set_busy c_sess c_busy].
  destruct (m (c_sess c)) as [[r|e] s'] eqn:E; unfold query_outcome, flags, release, modify, set_busy, ret, fail; cbn;
    rewrite ?Ho, ?Hb; [|done]. split_and!; try done. by eapply Hm.
Qed.

Lemma queryContextInternal_outcome ctx q c :
  let '(x, c') := queryContextInternal ctx q c in query_outcome ReleaseConn c x c'.
Proof.
  unfold queryContextInternal. destruct (acquire_cases c) as [[e E]|(E & Ho & Hb)].
  - by rewrite (bind_Err _ _ _ _ _ E).
  - rewrite (bind_Ok _ _ _ _ _ E). apply query_held; [apply opens_ExecuteQuery|done|done].
Qed.

Lemma QueryContext_outcome ctx q args c :
  let '(x, c') := QueryContext ctx q args c in query_outcome ReleaseConn c x c'.
Proof.
  unfold QueryContext. destruct args as [|a args]; [apply queryContextInternal_outcome|].
  unfold bind at 1, lift. destruct (convertNamedValues _) as [params|e]; [|done]. unfold ret.
  destruct (acquire_cases c) as [[e E]|(E & Ho & Hb)].
  - by rewrite (bind_Err _ _ _ _ _ E).
  - rewrite (bind_Ok _ _ _ _ _ E). apply query_held; [apply opens_ExecuteQueryWithParams|done|done].
Qed.

(** ** Result sets of a connection *)

Lemma flags_on_rows {A} (m : M RS A) c r : flags (on_rows_conn m (c, r)).2.1 = flags c.
Proof. unfold on_rows_conn. by destruct (m (c_sess c, r)) as [x [s' r']]. Qed.

Lemma handle_Next dest c r : handle (on_rows_conn (Next dest) (c, r)).2.2 = handle r.
Proof.
  pose proof (keeps_Next dest (c_sess c) r) as H. unfold on_rows_conn.
  by destruct (Next dest (c_sess c, r)) as [x [s' r']].
Qed.

(** The loop of a ping closes the rows when it fails, and only then. *)
Lemma loop_ends_flags dest w x w' :
  loop_ends dest w x w' -> rs_closed w.2 = false -> rs_closeCallback w.2 = Some ReleaseConn ->
  match x with
  | Ok _ => flags w'.1 = flags w.1 /\ rs_closed w'.2 = false /\ rs_closeCallback w'.2 = Some ReleaseConn
  | Err _ => flags w'.1 = (c_open w.1, false)
  end.
Proof.
  assert (Hn : forall dest c r x c1 r1, on_rows_conn (Next dest) (c, r) = (x, (c1, r1)) ->
    flags c1 = flags c /\ rs_closed r1 = rs_closed r /\ rs_closeCallback r1 = rs_closeCallback r).
  { intros d c r y c1 r1 E. pose proof (flags_on_rows (Next d) c r) as H1. pose proof (handle_Next d c r) as H2.
    rewrite E in H1, H2. cbn in H1, H2. unfold handle in H2. injection H2 as _ _ _ _ H3 H4. by split_and!. }
  induction 1 as [dest [c r] row [c1 r1] x w' E _ IH|dest [c r] [c1 r1] E|dest [c r] e [c1 r1] E _];
    cbn [fst snd] in *; intros Hc Hcb; apply Hn in E as (H1 & H2 & H3).
  - rewrite Hc in H2. rewrite Hcb in H3. specialize (IH H2 H3).
    destruct x; [by rewrite <- H1|]. rewrite IH. unfold flags in H1. by injection H1 as -> _.
  - cbn. by rewrite H1, H2, H3.
  - rewrite Hc in H2. rewrite Hcb in H3. destruct (Rows_Close_run c1 r1 H2 H3) as (y & s' & Er & _). rewrite Er. cbn.
    unfold flags in *. by injection H1 as -> _.
Qed.

Lemma calm_Ping ctx : calm (Ping ctx).
Proof.
  intros c. unfold Ping, bind at 1. pose proof (queryContextInternal_outcome ctx (lit "SELECT 1") c) as Hq.
  destruct (queryContextInternal _ _ c) as [[r|e] c1]; [|done]. destruct Hq as (Hf & Hf1 & Hc & Hcb). rewrite Hf.
  set (dest := repeat VNil _).
  assert (Hw : (weight (c_sess c1, r) < drain_fuel (c_sess c1) r)%nat).
  { unfold weight, drain_fuel, SessionFacts.unread. cbn. destruct (s_tr (c_sess c1)); cbn; lia. }
  destruct (loop_ends_fuel _ dest c1 r Hw) as (x & [c2 r2] & E & Hl).
  apply loop_ends_flags in Hl; [|done|done]. unfold bind. rewrite E. cbn [fst snd] in Hl.
  destruct x as [[]|e].
  - destruct Hl as (H1 & H2 & H3). destruct (Rows_Close_run c2 r2 H2 H3) as (y & s' & Er & _). rewrite Er. cbn.
    rewrite Hf1 in H1. unfold flags in *. cbn. by injection H1 as -> _.
  - cbn. rewrite Hl. unfold flags in Hf1. by injection Hf1 as -> _.
Qed.

(** ** Statements *)

Definition calmS {A} (m : M CS A) : Prop := forall c st, flags (m (c, st)).2.1 = flags c.

Lemma calmS_bind {A B} (m : M CS A) (k : A -> M CS B) : calmS m -> (forall a, calmS (k a)) -> calmS (bind m k).
Proof.
  intros Hm Hk c st. specialize (Hm c st). unfold bind. destruct (m (c, st)) as [[a|e] [c' st']]; [|done].
  cbn in Hm. by rewrite Hk.
Qed.
Lemma calmS_on_stmt {A} (m : M stmt A) : calmS (on_stmt m).
Proof. intros c st. unfold on_stmt. by destruct (m st). Qed.
Lemma calmS_on_conn {A} (m : M conn A) : calm m -> calmS (on_conn m).
Proof. intros Hm c st. specialize (Hm c). unfold on_conn. by destruct (m c). Qed.
Lemma calm_close_command cmd : calm (close_command cmd).
Proof. intros c. unfold close_command. destruct (c_open c) eqn:E; [apply calm_on_session|done]. Qed.

Lemma calmS_closePending : calmS closePendingOnOwnedConn.
Proof.
  unfold closePendingOnOwnedConn. apply calmS_bind; [apply calmS_on_stmt|]. intros s.
  destruct (st_cmd s) as [cmd|]; [|done]. destruct (_ || _); [done|].
  apply calmS_bind; [apply calmS_on_conn, calm_close_command|intros _; apply calmS_on_stmt].
Qed.

(** Releasing after [m]. *)
Lemma flags_release_after {A} (m : M CS A) c st :
  calmS m -> flags (deferring (on_conn release) m (c, st)).2.1 = (c_open c, false).
Proof.
  intros Hm. rewrite deferring_run. specialize (Hm c st). destruct (m (c, st)) as [x [c' st']]. unfold flags in *. cbn in *.
  by injection Hm as -> _.
Qed.

Lemma flags_finishOperation c st : flags (finishOperation (c, st)).2.1 = (c_open c, false).
Proof. apply flags_release_after, calmS_closePending. Qed.

Lemma calmS_stmt_Close : calmS stmt_Close.
Proof.
  unfold stmt_Close. apply calmS_bind; [apply calmS_on_stmt|]. intros s. apply calmS_bind; [apply calmS_on_stmt|]. intros _.
  destruct (st_cmd s) as [cmd|]; [|done]. destruct (st_closeSent s); [done|]. destruct (negb (st_conn s)); [apply calmS_on_stmt|].
  intros c st. unfold bind at 1, try, on_conn at 1. destruct (acquire_cases c) as [[e E]|(E & Ho & Hb)]; rewrite E.
  - apply calmS_on_stmt.
  - rewrite flags_release_after; [unfold flags; cbn; by rewrite Ho, Hb|].
    apply calmS_bind; [apply calmS_on_conn, calm_close_command|intros _; apply calmS_on_stmt].
Qed.

Lemma beginOperation_cases c st :
  (exists e, beginOperation (c, st) = (Err e, (c, st))) \/
  (exists cmd, beginOperation (c, st) = (Ok cmd, (set_busy true c, st)) /\ c_open c = true /\ c_busy c = false).
Proof.
  unfold beginOperation, bind, on_stmt, get. cbn. destruct (st_cmd st) as [cmd|]; [|left; by eexists].
  destruct (_ || _); [left; by eexists|]. unfold on_conn. destruct (acquire_cases c) as [[e E]|(E & Ho & Hb)]; rewrite E.
  - left. by eexists.
  - right. by exists cmd.
Qed.

(** What comes before an operation of a statement acquires the connection. *)
Lemma not_done_run ctx c st : exists x s', not_done ctx (c, st) = (x, (mkConn (c_open c) (c_busy c) s', st)).
Proof. unfold not_done, on_conn, on_clock. destruct (check_ctx ctx (c_sess c)) as [x s']. by exists x, s'. Qed.

Lemma calmS_stmt_ExecContext ctx args : calmS (stmt_ExecContext ctx args).
Proof.
  intros c st. unfold stmt_ExecContext. unfold bind at 1, lift. destruct (convertNamedValues args) as [params|e]; [|done].
  unfold ret. destruct (not_done_run ctx c st) as (x & s' & E). unfold bind at 1. rewrite E. destruct x as [[]|e]; [|done].
  set (c1 := mkConn (c_open c) (c_busy c) s'). change (flags c) with (flags c1).
  destruct (beginOperation_cases c1 st) as [[e Eb]|(cmd & Eb & Ho & Hb)].
  - by rewrite (bind_Err _ _ _ _ _ Eb).
  - rewrite (bind_Ok _ _ _ _ _ Eb). unfold bind, try. unfold on_conn at 1. rewrite on_session_run by done.
    set (y := (ExecuteUpdatePreparedWithParams _ _ _ _).1). set (c2 := mkConn _ _ _).
    pose proof (flags_finishOperation c2 st) as Hf. destruct (finishOperation (c2, st)) as [z [c3 st3]].
    unfold flags at 2. rewrite Ho, Hb. cbn in Hf. by destruct y, z.
Qed.

Lemma stmt_QueryContext_outcome ctx args c st :
  let '(x, (c', st')) := stmt_QueryContext ctx args (c, st) in query_outcome FinishOperation c x c'.
Proof.
  unfold stmt_QueryContext. unfold bind at 1, lift. destruct (convertNamedValues args) as [params|e]; [|done].
  unfold ret at 1. destruct (not_done_run ctx c st) as (x & s' & E). unfold bind at 1. rewrite E. destruct x as [[]|e]; [|done].
  set (c1 := mkConn (c_open c) (c_busy c) s').
  destruct (beginOperation_cases c1 st) as [[e Eb]|(cmd & Eb & Ho & Hb)]; [by rewrite (bind_Err _ _ _ _ _ Eb)|].
  rewrite (bind_Ok _ _ _ _ _ Eb). unfold bind at 1, on_conn at 1, get. unfold bind at 1, try at 1. unfold on_conn at 1.
  rewrite on_session_run by done. cbn [set_busy c_sess c_busy].
  destruct (ExecuteQueryPreparedWithParams _ _ _ _ _ _) as [[r|e] s2] eqn:Eq; cbn [fst snd].
  - cbn in Ho, Hb. unfold query_outcome, flags. cbn. rewrite Ho, Hb. split_and!; try done.
    by eapply opens_ExecuteQueryPreparedWithParams.
  - pose proof (flags_finishOperation (mkConn true true s2) st) as Hf. unfold bind, try.
    destruct (finishOperation (mkConn true true s2, st)) as [z [c3 st3]]. cbn in Hf, Ho, Hb.
    destruct z; cbn; rewrite Hf; unfold flags; by rewrite Ho, Hb.
Qed.

(** Closing the rows of a statement. *)
Lemma Rows_Close_stmt c st r :
  rs_closed r = false -> rs_closeCallback r = Some FinishOperation ->
  exists x c' st', Rows_Close ((c, st), r) = (x, ((c', st'), released r)) /\ flags c' = (c_open c, false).
Proof.
  intros Hc Hcb. destruct (Rows_release_run (c_sess c) r) as (e & s' & E & _). rewrite Hcb in E.
  pose proof (flags_finishOperation (mkConn (c_open c) (c_busy c) s') st) as Hf. cbn [c_open] in Hf.
  unfold Rows_Close. unfold bind at 1. cbn [on_rows RowsHost_stmt]. unfold on_rows_conn at 1, rows at 1. cbn [snd].
  rewrite Hc. unfold bind at 1. unfold on_rows_conn. cbn [c_open c_busy c_sess]. rewrite E. cbn [snd fst].
  unfold also, bind, try. cbn [runCallback RowsHost_stmt].
  destruct (finishOperation (mkConn (c_open c) (c_busy c) s', st)) as [y [c' st']]. cbn in Hf.
  destruct y, e; eexists _, c', st'; split; try exact Hf; reflexivity.
Qed.

(** ** Sequences of operations *)

(** A connection with its statements and the result sets that were opened on it; a
    number tells the statement a result set belongs to. *)
Record world := mkWorld {
  w_conn : conn;
  w_stmts : list stmt;
  w_rows : list (option nat * Rows)
}.

Inductive op :=
| OpPrepare (ctx : Ctx) (query : gostring)
| OpExec (ctx : Ctx) (query : gostring) (args : list NamedValue)
| OpQuery (ctx : Ctx) (query : gostring) (args : list NamedValue)
| OpPing (ctx : Ctx)
| OpIsValid
| OpReset (ctx : Ctx)
| OpBegin (ctx : Ctx) (opts : TxOptions)
| OpFinish (rollback : bool) (t : tx)
| OpClose
| OpStmtExec (j : nat) (ctx : Ctx) (args : list NamedValue)
| OpStmtQuery (j : nat) (ctx : Ctx) (args : list NamedValue)
| OpStmtClose (j : nat)
| OpNext (i : nat) (dest : list Value)
| OpRowsClose (i : nat).

Definition set_conn (c : conn) (w : world) : world := mkWorld c (w_stmts w) (w_rows w).
Definition add_rows (x : res Rows) (o : option nat) (rows : list (option nat * Rows)) : list (option nat * Rows) :=
  match x with
  | Ok r => rows ++ [(o, r)]
  | Err _ => rows
  end.

(** An operation of statement [j], if there is one. *)
Definition on_stmt_at {A} (j : nat) (m : M CS A) (w : world) : option (res A * world) :=
  st ← w_stmts w !! j;
  let '(x, (c', st')) := m (w_conn w, st) in
  Some (x, mkWorld c' (<[j := st']> (w_stmts w)) (w_rows w)).

Definition apply_op (o : op) (w : world) : world :=
  let c := w_conn w in
  match o with
  | OpPrepare ctx q =>
      match PrepareContext ctx q c with
      | (Ok st, c') => mkWorld c' (w_stmts w ++ [st]) (w_rows w)
      | (Err _, c') => set_conn c' w
      end
  | OpExec ctx q args => set_conn (ExecContext ctx q args c).2 w
  | OpQuery ctx q args =>
      let '(x, c') := QueryContext ctx q args c in mkWorld c' (w_stmts w) (add_rows x None (w_rows w))
  | OpPing ctx => set_conn (Ping ctx c).2 w
  | OpIsValid => set_conn (IsValid c).2 w
  | OpReset ctx => set_conn (ResetSession ctx c).2 w
  | OpBegin ctx opts => set_conn (beginTx ctx opts c).2 w
  | OpFinish rollback t => set_conn (finishTransaction rollback (c, t)).2.1 w
  | OpClose => set_conn (conn_Close c).2 w
  | OpStmtExec j ctx args => from_option snd w (on_stmt_at j (stmt_ExecContext ctx args) w)
  | OpStmtQuery j ctx args =>
      match on_stmt_at j (stmt_QueryContext ctx args) w with
      | Some (x, w') => mkWorld (w_conn w') (w_stmts w') (add_rows x (Some j) (w_rows w'))
      | None => w
      end
  | OpStmtClose j => from_option snd w (on_stmt_at j stmt_Close w)
  | OpNext i dest =>
      match w_rows w !! i with
      | Some (o, r) =>
          let '(c', r') := (on_rows_conn (Next dest) (c, r)).2 in
          mkWorld c' (w_stmts w) (<[i := (o, r')]> (w_rows w))
      | None => w
      end
  | OpRowsClose i =>
      match w_rows w !! i with
      | Some (None, r) =>
          let '(c', r') := (Rows_Close (c, r)).2 in mkWorld c' (w_stmts w) (<[i := (None, r')]> (w_rows w))
      | Some (Some j, r) =>
          match w_stmts w !! j with
          | Some st =>
              let '((c', st'), r') := (Rows_Close ((c, st), r)).2 in
              mkWorld c' (<[j := st']> (w_stmts w)) (<[i := (Some j, r')]> (w_rows w))
          | None => w
          end
      | None => w
      end
  end.

Definition run_ops (ops : list op) (w : world) : world := fold_left (fun w o => apply_op o w) ops w.

(** ** The invariant *)

Definition is_open (x : option nat * Rows) : nat := if rs_closed x.2 then 0%nat else 1%nat.
Definition open_count (rows : list (option nat * Rows)) : nat := sum_list_with is_open rows.
Arguments open_count : simpl never.

(** An open result set runs the callback that releases its connection. *)
Definition owned (n : nat) (x : option nat * Rows) : Prop :=
  rs_closed x.2 = false ->
  match x.1 with
  | None => rs_closeCallback x.2 = Some ReleaseConn
  | Some j => rs_closeCallback x.2 = Some FinishOperation /\ (j < n)%nat
  end.

(** A connection in use has exactly one open result set, a free one has none; one that
    was closed under its result set keeps that one at most. *)
Definition exclusive (w : world) : Prop :=
  ((c_open (w_conn w) = true -> open_count (w_rows w) = if c_busy (w_conn w) then 1%nat else 0%nat) /\
   (open_count (w_rows w) <= 1)%nat) /\
  Forall (owned (length (w_stmts w))) (w_rows w).

Lemma open_count_insert rows i x y :
  rows !! i = Some x -> (open_count (<[i := y]> rows) + is_open x = open_count rows + is_open y)%nat.
Proof.
  intros H. unfold open_count. revert i H. induction rows as [|z rows IH]; intros [|i] H; [done|done| |]; cbn in H |- *.
  - injection H as ->. lia.
  - specialize (IH i H). unfold insert in *. lia.
Qed.

Lemma open_count_add rows x : open_count (rows ++ [x]) = (open_count rows + is_open x)%nat.
Proof. unfold open_count. rewrite sum_list_with_app. cbn. lia. Qed.

Lemma owned_weaken n n' rows : (n <= n')%nat -> Forall (owned n) rows -> Forall (owned n') rows.
Proof.
  intros Hn H. eapply Forall_impl; [exact H|]. intros [[j|] r] Ho Hc; specialize (Ho Hc); cbn in *; [|done].
  destruct Ho. split; [done|lia].
Qed.

(** A step that leaves the flags, and opens or closes nothing. *)
Lemma exclusive_calm c' stmts' rows' w :
  flags c' = flags (w_conn w) -> (length (w_stmts w) <= length stmts')%nat ->
  open_count rows' = open_count (w_rows w) -> Forall (owned (length stmts')) rows' ->
  exclusive w -> exclusive (mkWorld c' stmts' rows').
Proof.
  unfold flags. intros Hf Hn Hc Ho [H _]. injection Hf as H1 H2. split; [|done]. cbn. rewrite H1, H2, Hc. exact H.
Qed.

Lemma exclusive_set_conn c' w : flags c' = flags (w_conn w) -> exclusive w -> exclusive (set_conn c' w).
Proof. intros Hf Hw. eapply exclusive_calm; [done|done|done|apply Hw|done]. Qed.

(** A query: its rows are the only ones. *)
Lemma exclusive_query cb o c' stmts' w x :
  query_outcome cb (w_conn w) x c' -> length stmts' = length (w_stmts w) ->
  (cb = match o with None => ReleaseConn | Some _ => FinishOperation end) ->
  (forall j, o = Some j -> (j < length stmts')%nat) ->
  exclusive w -> exclusive (mkWorld c' stmts' (add_rows x o (w_rows w))).
Proof.
  intros Hq Hn Hcb Hj Hw. destruct x as [r|e]; cbn [query_outcome add_rows] in *.
  - destruct Hq as (Hf & Hf' & Hr & Hrc). destruct Hw as [[Hc _] Ho]. unfold flags in Hf, Hf'.
    injection Hf as H1 H2. injection Hf' as H3 H4. split; cbn.
    + rewrite H4, open_count_add, (Hc H1), H2. unfold is_open. cbn. by rewrite Hr.
    + rewrite Hn. apply Forall_app. split; [done|]. apply Forall_singleton. intros _. cbn. destruct o as [j|]; subst cb.
      * split; [done|]. rewrite <- Hn. by apply Hj.
      * done.
  - apply (exclusive_calm c' stmts' (w_rows w) w); try done; [lia|]. rewrite Hn. apply Hw.
Qed.

(** Closing an open result set frees the connection. *)
Lemma exclusive_close c' stmts' o r w i :
  w_rows w !! i = Some (o, r) -> rs_closed r = false -> flags c' = (c_open (w_conn w), false) ->
  length stmts' = length (w_stmts w) -> exclusive w ->
  exclusive (mkWorld c' stmts' (<[i := (o, released r)]> (w_rows w))).
Proof.
  intros Hi Hr Hf Hn [[Hc Hle] Ho]. unfold flags in Hf. injection Hf as H1 H2. split; cbn.
  - rewrite H1, H2.
    pose proof (open_count_insert (w_rows w) i (o, r) (o, released r) Hi) as H. unfold is_open in H. cbn in H. rewrite Hr in H.
    split; [intros _|]; lia.
  - rewrite Hn. apply Forall_insert; [done|]. by intros ?.
Qed.

Lemma exclusive_stmt {A} j (m : M CS A) w : calmS m -> exclusive w -> exclusive (from_option snd w (on_stmt_at j m w)).
Proof.
  intros Hm Hw. unfold on_stmt_at. destruct (w_stmts w !! j) as [st|]; [|done]. cbn.
  specialize (Hm (w_conn w) st). destruct (m (w_conn w, st)) as [x [c' st']]. cbn in *.
  apply (exclusive_calm c' _ (w_rows w) w); try done; rewrite length_insert; [done|apply Hw].
Qed.

Lemma exclusive_OpNext i dest w : exclusive w -> exclusive (apply_op (OpNext i dest) w).
Proof.
  intros Hw. cbn [apply_op]. destruct (w_rows w !! i) as [[o r]|] eqn:Ei; [|done].
  pose proof (flags_on_rows (Next dest) (w_conn w) r) as Hf. pose proof (handle_Next dest (w_conn w) r) as Hh.
  destruct (on_rows_conn (Next dest) (w_conn w, r)) as [x [c' r']]. cbn [fst snd] in *. unfold handle in Hh. injection Hh as _ _ _ _ Hcb Hcl.
  apply (exclusive_calm c' (w_stmts w) _ w); try done.
  - pose proof (open_count_insert (w_rows w) i (o, r) (o, r') Ei) as H. unfold is_open in H. cbn in H. rewrite Hcl in H. lia.
  - destruct Hw as [_ Ho]. apply Forall_insert; [done|]. rewrite Forall_lookup in Ho. specialize (Ho _ _ Ei).
    unfold owned in *. cbn in *. by rewrite Hcl, Hcb.
Qed.

Lemma exclusive_OpRowsClose i w : exclusive w -> exclusive (apply_op (OpRowsClose i) w).
Proof.
  intros Hw. cbn [apply_op]. destruct (w_rows w !! i) as [[[j|] r]|] eqn:Ei; [| |done]; pose proof Hw as [_ Ho];
    rewrite Forall_lookup in Ho; specialize (Ho _ _ Ei); unfold owned in Ho; cbn in Ho.
  - destruct (w_stmts w !! j) as [st|] eqn:Ej; [|done]. destruct (rs_closed r) eqn:Er.
    + assert (E : Rows_Close (w_conn w, st, r) = (Ok tt, (w_conn w, st, r))).
      { unfold Rows_Close, bind. cbn. rewrite Er. destruct (w_conn w). done. }
      rewrite E. cbn [snd]. rewrite !list_insert_id by done. by destruct w.
    + destruct (Ho eq_refl) as [Hcb _]. destruct (Rows_Close_stmt (w_conn w) st r Er Hcb) as (x & c' & st' & E & Hf).
      rewrite E. cbn [snd]. eapply exclusive_close; try done. by rewrite length_insert.
  - destruct (rs_closed r) eqn:Er.
    + assert (E : Rows_Close (w_conn w, r) = (Ok tt, (w_conn w, r))).
      { unfold Rows_Close, bind. cbn. rewrite Er. destruct (w_conn w). done. }
      rewrite E. cbn [snd]. rewrite !list_insert_id by done. by destruct w.
    + destruct (Rows_Close_run (w_conn w) r Er (Ho eq_refl)) as (x & s' & E & _). rewrite E. cbn.
      by eapply exclusive_close.
Qed.

Lemma exclusive_step o w : exclusive w -> exclusive (apply_op o w).
Proof.
  intros Hw. destruct o as [ctx q|ctx q args|ctx q args|ctx| |ctx|ctx opts|rollback t| |j ctx args|j ctx args|j|i dest|i];
    cbn [apply_op].
  - pose proof (calm_PrepareContext ctx q (w_conn w)) as Hf. destruct (PrepareContext ctx q (w_conn w)) as [[st|e] c'].
    + apply (exclusive_calm c' _ (w_rows w) w); rewrite ?length_app; cbn; try done; [lia|].
      eapply owned_weaken; [|apply Hw]. lia.
    + by apply exclusive_set_conn.
  - apply exclusive_set_conn; [apply calm_ExecContext|done].
  - pose proof (QueryContext_outcome ctx q args (w_conn w)) as Hq. destruct (QueryContext ctx q args (w_conn w)) as [x c'].
    by eapply exclusive_query.
  - apply exclusive_set_conn; [apply calm_Ping|done].
  - apply exclusive_set_conn; [apply calm_IsValid|done].
  - apply exclusive_set_conn; [apply calm_ResetSession|done].
  - apply exclusive_set_conn; [apply calm_beginTx|done].
  - apply exclusive_set_conn; [apply flags_finishTransaction|done].
  - destruct Hw as [[Hc Hle] Ho]. split; [|exact Ho]. split; [|exact Hle]. cbn. unfold conn_Close.
    destruct (negb (c_open (w_conn w))) eqn:E; [exact Hc|]. destruct (c_busy (w_conn w)); [done|].
    destruct (Session_Close _). done.
  - apply exclusive_stmt; [apply calmS_stmt_ExecContext|done].
  - unfold on_stmt_at. destruct (w_stmts w !! j) as [st|] eqn:Ej; [|done]. cbn [mbind option_bind].
    pose proof (stmt_QueryContext_outcome ctx args (w_conn w) st) as Hq.
    destruct (stmt_QueryContext ctx args (w_conn w, st)) as [x [c' st']]. cbn [w_conn w_stmts w_rows].
    eapply exclusive_query; [exact Hq|by rewrite length_insert|done| |done].
    intros j' [= <-]. rewrite length_insert. by eapply lookup_lt_Some.
  - apply exclusive_stmt; [apply calmS_stmt_Close|done].
  - by apply exclusive_OpNext.
  - by apply exclusive_OpRowsClose.
Qed.

Lemma exclusive_run ops : forall w, exclusive w -> exclusive (run_ops ops w).
Proof. induction ops as [|o ops IH]; intros w Hw; [exact Hw|]. by apply (IH (apply_op o w)), exclusive_step. Qed.

Lemma exclusive_start c : c_busy c = false -> exclusive (mkWorld c [] []).
Proof.
  intros Hb. split; [|constructor]. cbn [w_conn w_rows]. change (open_count []) with 0%nat. rewrite Hb. split; [done|lia].
Qed.

(** ** Correctness *)

(** C5 (invariant). However the operations of a connection, its statements, transactions
    and result sets are interleaved, and however each of them ends, at most one result
    set is ever open on the connection's stream. As long as the connection itself is
    open, it is marked busy exactly when there is one, so that it is neither shared nor
    lost to its users. *)
Theorem one_open_result_set ops c :
  c_busy c = false ->
  let w := run_ops ops (mkWorld c [] []) in
  (open_count (w_rows w) <= 1)%nat /\
  (c_open (w_conn w) = true -> open_count (w_rows w) = if c_busy (w_conn w) then 1%nat else 0%nat).
Proof.
  intros Hb w. assert (Hw : exclusive w) by (by apply exclusive_run, exclusive_start).
  by destruct Hw as [[H1 H2] _].
Qed.

(** A query whose result set stays open, and another query meanwhile. *)
Definition sample_ops : list op := [OpQuery Background (lit "SELECT 1") []; OpQuery Background (lit "SELECT 2") []].

Lemma one_open_result_set_witness :
  let c := mkConn true false (ping_session (enc_batch 100 sample_batch ++ batch_replies sample_batch)) in
  let w := run_ops sample_ops (mkWorld c [] []) in
  c_open (w_conn w) = true /\ c_busy (w_conn w) = true /\ open_count (w_rows w) = 1%nat.
Proof.
  cbv zeta. set (c := mkConn _ _ _). assert (Ho : c_open (w_conn (run_ops sample_ops (mkWorld c [] []))) = true)
    by (vm_compute; reflexivity).
  assert (Hb : c_busy (w_conn (run_ops sample_ops (mkWorld c [] []))) = true) by (vm_compute; reflexivity).
  split; [exact Ho|]. split; [exact Hb|].
  destruct (one_open_result_set sample_ops c eq_refl) as [_ H]. rewrite (H Ho), Hb. reflexivity.
Defined.
