(* ===== verification/Handshake.v ===== *)
(** * Opening a session (handshake.go)

    The environment of the process (the TZ variable, the zone of the machine, the zones
    Go knows, the random source) is a parameter; [rand_Read] is what filling a slice of
    32 bytes gives. Diagnostics are left out. *)

From S2P Require Import Prelude.
From S2P Require Import GoText.
From S2P Require Import GoUrl.
From S2P Require Import Protocol.
From S2P Require Import Transfer.
From S2P Require Import Dsn.
From S2P Require Import Network.
From S2P Require Import Auth.
From S2P Require Import Errors.
From S2P Require Import Session.

Class Environment := {
  env_TZ : gostring;
  Local_String : gostring;
  LoadLocation : gostring -> res unit;
  rand_Read : res (list byte)
}.

Section Handshake.
Context `{Unicode} `{MapOrder} `{Network} `{Environment}.

Definition generateSessionID : res gostring :=
  match rand_Read with
  | Ok b => Ok (EncodeToString b)
  | Err e => Err e
  end.

Definition localTimeZoneID : gostring :=
  let candidate :=
    if decide (env_TZ <> []) then env_TZ
    else if decide (Local_String <> lit "Local") then Local_String
    else [] in
  if decide (candidate = []) then lit "UTC"
  else match LoadLocation candidate with
       | Ok _ => candidate
       | Err _ => lit "UTC"
       end.

Definition sendCredentials (cfg : Config) : M Tr unit :=
  WriteInt32 TCPProtocolVersionMinSupported ;;
  WriteInt32 TCPProtocolVersionMaxSupported ;;
  WriteString (cfg_Database cfg) ;;
  WriteString (cfg_OriginalURL cfg) ;;
  WriteString (ToUpper (cfg_User cfg)) ;;
  WriteBytes (Some (userPasswordHash (cfg_User cfg) (cfg_Password cfg))) ;;
  WriteBytes None ;;
  let props := sessionPropertyMap (cfg_Params cfg) in
  WriteInt32 (int32 (zlen props)) ;;
  for_each props (fun kv => WriteString kv.1 ;; WriteString kv.2).

(** [switch status]; [fmt]: the complaint about a status that is neither. *)
Definition expectOK (fmt : string) (status : Z) : M Session unit :=
  if status =? StatusError then on_tr readH2Error
  else if status =? StatusOK then ret tt
  else fail (EErrorf fmt [AInt status]).

(** [&Session{...}] around the transfer of the handshake. *)
Definition established (cfg : Config) (id : gostring) (version : Z) (autoCommit : bool) (s : Session) : Session :=
  mkSession (s_tr s) (cloneConfig (Some cfg)) id version autoCommit false 0 None (s_now s).

(** Steps 1 to 4: the session's id, the negotiated version and the autocommit state. *)
Definition negotiate (cfg : Config) : M Session (gostring * Z * bool) :=
  wrapf "h2go: send credentials: %w" [] (on_tr (sendCredentials cfg)) ;;
  wrapf "h2go: flush credentials: %w" [] (on_tr Flush) ;;
  status <- wrapf "h2go: read status: %w" [] (on_tr ReadInt32) ;;
  expectOK "h2go: unexpected status %d" status ;;
  version <- wrapf "h2go: read version: %w" [] (on_tr ReadInt32) ;;
  guard_err (negb (version =? TCPProtocolVersion21))
    (EWrapf "%w; require protocol 21 / H2 2.4.240+ (got %d)" [AInt version] [ESent ErrUnsupportedServerVersion]) ;;
  sessionID <- wrapf "h2go: generate session id: %w" [] (lift generateSessionID) ;;
  wrapf "h2go: write session set id op: %w" [] (on_tr (WriteInt32 SessionSetID)) ;;
  wrapf "h2go: write session id: %w" [] (on_tr (WriteString sessionID)) ;;
  wrapf "h2go: write timezone id: %w" [] (on_tr (WriteString localTimeZoneID)) ;;
  wrapf "h2go: flush session set id: %w" [] (on_tr Flush) ;;
  status <- wrapf "h2go: read session status: %w" [] (on_tr ReadInt32) ;;
  expectOK "h2go: unexpected status %d after session set id" status ;;
  autoCommit <- wrapf "h2go: read autocommit: %w" [] (on_tr ReadBool) ;;
  ret (sessionID, version, autoCommit).

Definition handshake (cfg : Config) : M Session unit :=
  '(sessionID, version, autoCommit) <- negotiate cfg ;;
  modify (established cfg sessionID version autoCommit).

(** What the deferred function makes of an error. *)
Definition handshakeError (ctx : Ctx) (err : error) : M Session error :=
  discard (on_tr Abort) ;;
  done <- ctx_Err ctx ;;
  match done with
  | Some c => ret (ESent c)
  | None =>
      match ctx_deadline ctx, net_timeout err with
      | Some d, Some true =>
          now <- tick ;;
          ret (if d <? now then ESent context_DeadlineExceeded else err)
      | _, _ => ret err
      end
  end.

(** The handshake with what it defers: [cleanup] runs last. *)
Definition runHandshake (ctx : Ctx) (cfg : Config) : M Session unit :=
  beginOperationContext ctx false ;;
  r <- try (handshake cfg) ;;
  match r with
  | Ok _ => endOperationContext
  | Err err =>
      err' <- handshakeError ctx err ;;
      endOperationContext ;;
      fail err'
  end.

(** The transfer of a connection, before there is a session. *)
Definition nascent (conn : Transport) (now : Z) : Session :=
  mkSession (Some (NewReadWriter conn)) None [] 0 false false 0 None now.

(** The session, or the error and the connection that was given up, if there was one. *)
Definition handshakeOver (ctx : Ctx) (cfg : Config) (conn : Transport) (now : Z) : res Session * option Transport :=
  match runHandshake ctx cfg (nascent conn now) with
  | (Ok _, s) => (Ok s, None)
  | (Err e, s) => (Err e, tr_net <$> s_tr s)
  end.

Definition HandshakeContext (ctx : Ctx) (cfg : option Config) (now : Z) : res Session * option Transport :=
  match cfg with
  | None => (Err (EErrorf "h2go: HandshakeContext: config is nil" []), None)
  | Some cfg =>
      let addr := JoinHostPort (cfg_Host cfg) (cfg_Port cfg) in
      match net_dial addr with
      | Err err => (Err (EWrapf "h2go: dial %s: %w" [AStr addr] [err]), None)
      | Ok conn =>
          if cfg_TLS cfg then
            match wrapTLS cfg conn with
            | (Ok _, conn') => handshakeOver ctx cfg conn' now
            | (Err err, conn') => (Err (EWrapf "h2go: dial %s (tls): %w" [AStr addr] [err]), Some conn')
            end
          else handshakeOver ctx cfg conn now
      end
  end.

Definition Handshake (cfg : option Config) (now : Z) : res Session * option Transport :=
  HandshakeContext Background cfg now.

End Handshake.
