(* ===== verification/Connector.v ===== *)
(** * Connectors and the driver (connector.go, driver.go) *)

From S2P Require Import Prelude.
From S2P Require Import GoText.
From S2P Require Import GoUrl.
From S2P Require Import Protocol.
From S2P Require Import Transfer.
From S2P Require Import Dsn.
From S2P Require Import Network.
From S2P Require Import Session.
From S2P Require Import Update.
From S2P Require Import Conn.
From S2P Require Import Handshake.

(** [<-ctx.Done()] at a moment. *)
Definition ctx_done (ctx : Ctx) (now : Z) : option sentinel :=
  match ctx_done_at ctx with
  | Some d => if d <=? now then Some (ctx_cause ctx) else None
  | None => None
  end.

(** [params[key]], the exact key. *)
Definition lookup_param (key : gostring) (params : ParamMap) : option gostring :=
  snd <$> List.find (fun kv => bool_decide (kv.1 = key)) params.

(** The network connection of a session, also of one that has let go of it. *)
Definition session_net (s : Session) : option Transport :=
  tr_net <$> match s_tr s with Some t => Some t | None => s_gone s end.

(** [_ = sess.Close(); return nil, err]: the error and the connection given up. *)
Definition giveUp (s : Session) (err : error) : res conn * option Transport :=
  (Err err, session_net (Session_Close s).2).

Section Connector.
Context `{Unicode} `{MapOrder} `{Network} `{Environment}.

(** The [SET QUERY_TIMEOUT] of a connection that asks for one. *)
Definition applyQueryTimeout (ctx : Ctx) (cfg : Config) (sess : Session) : res conn * option Transport :=
  match lookup_param (lit "QUERY_TIMEOUT") (cfg_Params cfg) with
  | None => (Ok (mkConn true false sess), None)
  | Some v =>
      let invalid := EErrorf "h2go: invalid QUERY_TIMEOUT %q: must be a non-negative integer (milliseconds)" [AStr v] in
      match ParseInt (TrimSpace v) with
      | None => giveUp sess invalid
      | Some ms =>
          if ms <? 0 then giveUp sess invalid
          else if 0 <? ms then
            match ExecuteUpdate ctx (lit "SET QUERY_TIMEOUT " ++ FormatInt ms) sess with
            | (Err uerr, sess') => giveUp sess' (EWrapf "h2go: applying QUERY_TIMEOUT: %w" [] [uerr])
            | (Ok _, sess') => (Ok (mkConn true false sess'), None)
            end
          else (Ok (mkConn true false sess), None)
      end
  end.

(** The connection, or the error and the network connection that was given up. *)
Definition Connect (ctx : Ctx) (c : option Config) (now : Z) : res conn * option Transport :=
  match c with
  | None => (Err (ESent driver_ErrBadConn), None)
  | Some cfg =>
      match ctx_done ctx now with
      | Some cause => (Err (ESent cause), None)
      | None =>
          match HandshakeContext ctx (Some cfg) (now + 1) with
          | (Err err, gone) => (Err err, gone)
          | (Ok sess, _) =>
              match ctx_done ctx (s_now sess) with
              | Some cause => giveUp sess (ESent cause)
              | None => applyQueryTimeout ctx cfg sess
              end
          end
      end
  end.

(** ** The driver *)

(** The connector's own configuration. *)
Definition NewConnector (cfg : option Config) : res Config :=
  match cfg with
  | None => Err (EErrorf "h2go: NewConnector: config is nil" [])
  | Some cfg =>
      if decide (cfg_Host cfg = []) then Err (EErrorf "h2go: NewConnector: host is required" [])
      else Ok (if decide (cfg_Port cfg = []) then set_port DefaultTCPPortStr cfg else cfg)
  end.

Definition OpenConnector (name : gostring) : res Config :=
  let? cfg := ParseDSN name in NewConnector (Some cfg).

(** A [*sql.DB]: the connector it opens its connections with, and those it keeps. A
    handle that was just opened has none. *)
Record DB := mkDB { db_connector : Config; db_conns : list conn }.

(** [sql.OpenDB] *)
Definition sql_OpenDB (c : Config) : DB := mkDB c [].

Definition OpenDB (cfg : option Config) : res DB :=
  let? c := NewConnector cfg in Ok (sql_OpenDB c).

Definition Open (name : gostring) (now : Z) : res conn * option Transport :=
  match OpenConnector name with
  | Err err => (Err err, None)
  | Ok connector => Connect Background (Some connector) now
  end.

(** ** The registry of package database/sql *)

(** [type Driver struct{}] *)
Inductive Driver := theDriver.

Definition defaultDriver : Driver := theDriver.

(** [connector.Driver()] *)
Definition connector_Driver (c : Config) : Driver := defaultDriver.

(** The drivers by name, those of this package among them. *)
Definition Registry : Type := list (gostring * Driver).

(** [sql.Register], which panics on a name that is taken. *)
Definition sql_Register (name : gostring) (d : Driver) : M Registry unit := fun reg =>
  if existsb (fun kv => bool_decide (kv.1 = name)) reg then (Err (EPanic "sql: Register called twice for driver"), reg)
  else (Ok tt, (name, d) :: reg).

(** The package's [init]. *)
Definition init : M Registry unit := sql_Register (lit "h2") theDriver.

(** [sql.Open(driverName, dsn)]: a driver that makes connectors is asked for one. *)
Definition sql_Open (driverName dsn : gostring) (reg : Registry) : res DB :=
  match List.find (fun kv => bool_decide (kv.1 = driverName)) reg with
  | None => Err (EErrorf "sql: unknown driver %q (forgotten import?)" [AStr driverName])
  | Some (_, theDriver) => let? c := OpenConnector dsn in Ok (sql_OpenDB c)
  end.

(** Once the package is loaded, a DSN opened under its name is one parsed and opened with
    its own [OpenDB]. *)
Lemma sql_Open_h2 reg reg' dsn :
  init reg = (Ok tt, reg') -> sql_Open (lit "h2") dsn reg' = (let? cfg := ParseDSN dsn in OpenDB (Some cfg)).
Proof.
  unfold init, sql_Register. destruct (existsb _ reg); [done|]. intros [= <-].
  unfold sql_Open, OpenConnector, OpenDB. cbn [List.find fst]. rewrite bool_decide_true by done. by destruct (ParseDSN dsn).
Qed.

(** Registering the driver once more, as the comment of [NewConnector] proposes, panics. *)
Lemma h2_is_registered reg reg' d :
  init reg = (Ok tt, reg') -> sql_Register (lit "h2") d reg' = (Err (EPanic "sql: Register called twice for driver"), reg').
Proof.
  unfold init, sql_Register. destruct (existsb _ reg); [done|]. intros [= <-].
  cbn [existsb fst]. by rewrite bool_decide_true.
Qed.

End Connector.
