(* ===== verification/HandshakeFacts.v ===== *)
(** * Opening a session or a connection: all of it, or nothing *)

From S2P Require Import Prelude.
From S2P Require Import GoText.
From S2P Require Import GoUrl.
From S2P Require Import Protocol.
From S2P Require Import Transfer.
From S2P Require Import Dsn.
From S2P Require Import Network.
From S2P Require Import Auth.
From S2P Require Import Errors.
From S2P Require Import Session.
From S2P Require Import SessionFacts.
From S2P Require Import Exchange.
From S2P Require Import Update.
From S2P Require Import ExecuteFacts.
From S2P Require Import Conn.
From S2P Require Import Handshake.
From S2P Require Import Connector.

(** ** Operations that keep a session alive *)

Definition lasting {A} (m : M Session A) : Prop := forall s, alive s -> alive (m s).2.

Section lasting.
Context {A B : Type}.

Lemma lasting_ret (a : A) : lasting (ret a).
Proof. by intros s. Qed.
Lemma lasting_fail e : lasting (@fail Session A e).
Proof. by intros s. Qed.
Lemma lasting_lift (x : res A) : lasting (lift x).
Proof. by intros s. Qed.
Lemma lasting_bind (m : M Session A) (k : A -> M Session B) :
  lasting m -> (forall a, lasting (k a)) -> lasting (bind m k).
Proof.
  intros Hm Hk s Hs. specialize (Hm s Hs). unfold bind. destruct (m s) as [[a|e] s1]; [by apply Hk|done].
Qed.
Lemma lasting_wrapf fmt args (m : M Session A) : lasting m -> lasting (wrapf fmt args m).
Proof. intros Hm s Hs. specialize (Hm s Hs). rewrite wrapf_run. by destruct (m s) as [[a|e] s1]. Qed.
Lemma lasting_on_tr (m : M Tr A) : steady m -> lasting (on_tr m).
Proof.
  intros Hm s [Hd (t & Ht & Hsh)]. unfold on_tr. rewrite Ht. destruct (Hm t Hsh) as [Hsh' _].
  destruct (m t) as [x t']. split; [done|]. by exists t'.
Qed.
End lasting.

Lemma lasting_set_deadline d : lasting (set_deadline d).
Proof.
  intros s [Hd (t & Ht & Hsh)]. unfold set_deadline. rewrite Ht. destruct (steady_SetDeadline d t Hsh) as [Hsh' _].
  split; [done|]. by eexists.
Qed.

Lemma steady_sendCredentials `{Unicode} `{MapOrder} cfg : steady (sendCredentials cfg).
Proof.
  unfold sendCredentials.
  repeat (apply steady_bind; [apply steady_tr_Write || apply steady_WriteString || apply steady_WriteBytes|intros _]).
  apply steady_for_each. intros kv. apply steady_bind; [|intros _]; apply steady_WriteString.
Qed.

Lemma lasting_expectOK fmt status : lasting (expectOK fmt status).
Proof.
  unfold expectOK. destruct (status =? StatusError); [apply lasting_on_tr; solve_steady|].
  destruct (status =? StatusOK); [apply lasting_ret|apply lasting_fail].
Qed.

Lemma lasting_negotiate `{Unicode} `{MapOrder} `{Environment} cfg : lasting (negotiate cfg).
Proof.
  unfold negotiate.
  repeat first [apply lasting_ret | apply lasting_expectOK | apply lasting_wrapf | apply lasting_lift
    | apply lasting_bind; [|intros ?] | apply lasting_on_tr, steady_sendCredentials | apply lasting_on_tr; solve_steady].
  unfold guard_err. destruct (negb _); [apply lasting_fail|apply lasting_ret].
Qed.

(** ** A handshake that fails closes its connection *)

Definition closed (s : Session) : Prop := exists t, s_tr s = Some t /\ net_closed (tr_net t) = true.

Lemma closed_set_deadline d s : closed s -> closed (set_deadline d s).2.
Proof.
  intros (t & Ht & Hc). unfold set_deadline. rewrite Ht. exists (SetDeadline d t).2. split; [done|].
  unfold SetDeadline. by destruct (tr_dl t).
Qed.

Lemma closed_handshakeError ctx err s :
  alive s -> exists e s', handshakeError ctx err s = (Ok e, s') /\ closed s'.
Proof.
  intros [Hd (t & Ht & _ & Hwc & _)]. unfold handshakeError, bind, discard, on_tr, Abort. rewrite Ht, Hwc.
  assert (Hc : forall n, closed (set_now n (set_tr (Some (set_net (net_close (tr_net t)) t)) s))).
  { intros n. eexists. split; [done|done]. }
  unfold ctx_Err, tick, bind, ret. cbn [snd].
  destruct (match ctx_done_at ctx with Some _ => _ | None => _ end) as [c|]; [by eexists _, _|].
  destruct (ctx_deadline ctx) as [d|]; [|by eexists _, _]. destruct (net_timeout err) as [[]|]; [|by eexists _, _..].
  eexists _, _. split; [done|]. exact (Hc _).
Qed.

Section AllOrNothing.
Context `{Unicode} `{MapOrder} `{Network} `{Environment}.

Lemma negotiate_version cfg s id v ac s' : negotiate cfg s = (Ok (id, v, ac), s') -> v = TCPProtocolVersion21.
Proof using.
  unfold negotiate. intros Hn.
  do 5 (apply bind_Ok_inv in Hn as (? & ? & _ & Hn)). apply bind_Ok_inv in Hn as ([] & ? & Hg & Hn).
  do 8 (apply bind_Ok_inv in Hn as (? & ? & _ & Hn)). injection Hn as <- <- <- <-.
  unfold guard_err in Hg. destruct (_ =? TCPProtocolVersion21) eqn:E; [by apply Z.eqb_eq in E|done].
Qed.

Lemma runHandshake_outcome ctx cfg s :
  alive s ->
  match runHandshake ctx cfg s with
  | (Ok _, s') => alive s' /\ s_cfg s' = Some cfg /\ s_version s' = TCPProtocolVersion21
  | (Err _, s') => closed s'
  end.
Proof using.
  intros Ha. unfold runHandshake.
  assert (exists s1, beginOperationContext ctx false s = (Ok tt, s1) /\ alive s1) as (s1 & E1 & Ha1).
  { unfold beginOperationContext. destruct (ctx_deadline ctx) as [d|]; [|by exists s].
    pose proof (lasting_set_deadline (Some d) s Ha) as Hl. unfold set_deadline in *.
    destruct (s_tr s); by eexists. }
  rewrite (bind_Ok _ _ _ _ _ E1). pose proof (lasting_negotiate cfg s1 Ha1) as Hn.
  unfold bind at 1, try, handshake. unfold bind at 1.
  destruct (negotiate cfg s1) as [[[[id v] ac]|e] s2] eqn:En; cbn [snd] in Hn.
  - apply negotiate_version in En as ->. cbn [modify]. set (s3 := established _ _ _ _ _).
    assert (Ha3 : alive s3) by (destruct Hn as [_ Ht]; split; [done|exact Ht]).
    pose proof (lasting_set_deadline None s3 Ha3) as Hl. unfold endOperationContext, set_deadline in *.
    destruct (s_tr s3); done.
  - destruct (closed_handshakeError ctx e s2 Hn) as (e' & s3 & E3 & Hc). rewrite (bind_Ok _ _ _ _ _ E3).
    pose proof (closed_set_deadline None s3 Hc) as Hc'. unfold bind, endOperationContext, set_deadline in *.
    destruct (s_tr s3); done.
Qed.

Lemma alive_nascent conn now : alive (nascent conn now).
Proof using. split; [done|]. eexists. split; [done|]. by split_and!. Qed.

(** What opening something over the network comes to, [opened] telling whether a
    network connection was made: something good, or an error, and then the connection
    that was made has been closed. *)
Definition all_or_nothing {A} (opened : bool) (good : A -> Prop) (r : res A * option Transport) : Prop :=
  match r with
  | (Ok a, gone) => opened = true /\ good a /\ gone = None
  | (Err _, gone) => if opened then exists t, gone = Some t /\ net_closed t = true else gone = None
  end.

(** The server can be reached. *)
Definition reachable (cfg : Config) : bool :=
  match net_dial (JoinHostPort (cfg_Host cfg) (cfg_Port cfg)) with
  | Ok _ => true
  | Err _ => false
  end.

Definition ready (cfg : Config) (s : Session) : Prop :=
  alive s /\ s_cfg s = Some cfg /\ s_version s = TCPProtocolVersion21.

Lemma handshakeOver_outcome ctx cfg conn now : all_or_nothing true (ready cfg) (handshakeOver ctx cfg conn now).
Proof using.
  unfold handshakeOver. pose proof (runHandshake_outcome ctx cfg _ (alive_nascent conn now)) as Hr.
  destruct (runHandshake ctx cfg (nascent conn now)) as [[[]|e] s]; cbn; [done|].
  destruct Hr as (t & -> & Hc). by eexists.
Qed.

Lemma HandshakeContext_outcome ctx cfg now :
  all_or_nothing (reachable cfg) (ready cfg) (HandshakeContext ctx (Some cfg) now).
Proof using.
  unfold HandshakeContext, reachable. destruct (net_dial _) as [raw|e]; [|done].
  destruct (cfg_TLS cfg); [|apply handshakeOver_outcome]. unfold wrapTLS.
  destruct (tls_handshake _ _ _ raw) as [[[]|e] conn]; [apply handshakeOver_outcome|]. by eexists.
Qed.

Lemma giveUp_outcome P s err : alive s \/ broken s -> all_or_nothing true P (giveUp s err).
Proof using.
  intros Hs. apply broken_Session_Close in Hs as (Ht & _ & t & Hg & Hc). unfold giveUp, session_net.
  rewrite Ht, Hg. cbn. by eexists.
Qed.

(** C13 (safety). Opening a connection is all or nothing, whatever the network delivers,
    at whatever moment the context ends, with or without TLS and a query timeout. Either
    the caller gets an idle connection with a live session; or it gets an error, and
    then, if the context was not done at the start and the server could be reached, the
    network connection made on the way is closed, whichever step failed (the TLS or H2
    handshake, the second look at the context, a bad QUERY_TIMEOUT or the server's
    refusal of it), and otherwise none was made. *)
Theorem Connect_all_or_nothing ctx cfg now :
  all_or_nothing
    (match ctx_done ctx now with Some _ => false | None => reachable cfg end)
    (fun c => c_open c = true /\ c_busy c = false /\ alive (c_sess c))
    (Connect ctx (Some cfg) now).
Proof using.
  unfold Connect. destruct (ctx_done ctx now); [done|].
  pose proof (HandshakeContext_outcome ctx cfg (now + 1)) as Hh.
  destruct (HandshakeContext ctx (Some cfg) (now + 1)) as [[s|e] gone]; [|exact Hh].
  destruct Hh as (-> & (Ha & _) & _). destruct (ctx_done ctx (s_now s)); [apply giveUp_outcome; by left|].
  unfold applyQueryTimeout. destruct (lookup_param _ _) as [v|]; [|done].
  destruct (ParseInt (TrimSpace v)) as [ms|]; [|apply giveUp_outcome; by left].
  destruct (ms <? 0); [apply giveUp_outcome; by left|]. destruct (0 <? ms); [|done].
  pose proof (proj1 (fair_ExecuteUpdate ctx (lit "SET QUERY_TIMEOUT " ++ FormatInt ms) s) Ha) as Hf.
  unfold session_of, HasSession_id in Hf.
  destruct (ExecuteUpdate _ _ s) as [[x|e] s']; cbn [fst snd] in Hf; [by destruct Hf|].
  apply giveUp_outcome. destruct (fair_outcome _ _ _ Hf) as [[? _]|?]; auto.
Qed.
End AllOrNothing.

(** ** The messages of a handshake *)

Section Messages.
Context `{Unicode} `{MapOrder} `{Network} `{Environment}.

Definition enc_property (kv : gostring * gostring) : list byte := enc_string kv.1 ++ enc_string kv.2.

(** What the client introduces itself with. *)
Definition hello (cfg : Config) : list byte :=
  enc_int32 TCPProtocolVersionMinSupported ++ enc_int32 TCPProtocolVersionMaxSupported
  ++ enc_string (cfg_Database cfg) ++ enc_string (cfg_OriginalURL cfg) ++ enc_string (ToUpper (cfg_User cfg))
  ++ enc_bytes (Some (userPasswordHash (cfg_User cfg) (cfg_Password cfg))) ++ enc_bytes None
  ++ enc_int32 (zlen (sessionPropertyMap (cfg_Params cfg)))
  ++ flat_map enc_property (sessionPropertyMap (cfg_Params cfg)).

Definition set_id (id : gostring) : list byte :=
  enc_int32 SessionSetID ++ enc_string id ++ enc_string localTimeZoneID.

Lemma writes_sendCredentials cfg : writes (sendCredentials cfg) (hello cfg).
Proof using.
  unfold sendCredentials, hello. do 2 (apply writes_bind; [apply writes_WriteInt32|]).
  do 3 (apply writes_bind; [apply writes_WriteString|]). do 2 (apply writes_bind; [apply writes_WriteBytes|]).
  rewrite <- enc_int32_int32. apply writes_bind; [apply writes_WriteInt32|].
  apply writes_for_each. intros kv _. apply writes_bind; apply writes_WriteString.
Qed.

(** The first half of the exchange, up to the version. *)
Lemma exch_status_word f fmt : exch f f (wrapf fmt [] (on_tr ReadInt32)) [] ok_status StatusOK.
Proof using. apply exch_wrapf, exch_read, decodes_ReadInt32. unfold in_intN, StatusOK. lia. Qed.

Lemma exch_negotiate cfg r ac :
  rand_Read = Ok r ->
  exch true true (negotiate cfg) (hello cfg ++ set_id (EncodeToString r))
    (ok_status ++ enc_int32 TCPProtocolVersion21 ++ ok_status ++ enc_bool ac)
    (EncodeToString r, TCPProtocolVersion21, ac).
Proof using.
  intros Hr. unfold negotiate. eapply exch_bind_send; [apply exch_wrapf, exch_write, writes_sendCredentials|].
  eapply exch_bind_nil; [apply exch_wrapf, exch_flush|]. eapply exch_bind_recv; [apply exch_status_word|].
  eapply exch_bind_nil; [apply exch_ret|].
  eapply exch_bind_recv; [apply exch_wrapf, exch_read, decodes_ReadInt32; unfold in_intN, TCPProtocolVersion21; lia|].
  eapply exch_bind_nil; [apply exch_ret|].
  eapply exch_bind_nil.
  { intros s out suf Hw. exists s. unfold lift, generateSessionID. rewrite wrapf_run, Hr, app_nil_r. eauto with h2go. }
  unfold set_id. eapply exch_bind_send; [apply exch_int32|].
  eapply exch_bind_send; [apply exch_wrapf, exch_write, writes_WriteString|].
  rewrite <- (app_nil_r (enc_string localTimeZoneID)).
  eapply exch_bind_send; [apply exch_wrapf, exch_write, writes_WriteString|].
  eapply exch_bind_nil; [apply exch_wrapf, exch_flush|]. eapply exch_bind_recv; [apply exch_status_word|].
  eapply exch_bind_nil; [apply exch_ret|]. rewrite <- (app_nil_r (enc_bool ac)).
  eapply exch_bind_recv; [apply exch_wrapf, exch_read, decodes_ReadBool|apply exch_ret].
Qed.

Lemma wire_nascent conn now : net_open conn -> wire true (nascent conn now) (net_out conn) (net_in conn).
Proof using.
  intros Ho. exists (NewReadWriter conn). split_and!; try done; [|unfold emitted; cbn; by rewrite app_nil_r].
  split; [done|by exists (mkWriter [] None)].
Qed.

Lemma beginOperationContext_wire ctx s out inp :
  alive s -> wire true s out inp ->
  exists s1, beginOperationContext ctx false s = (Ok tt, s1) /\ alive s1 /\ wire true s1 out inp.
Proof using.
  intros Ha Hw. unfold beginOperationContext. destruct (ctx_deadline ctx) as [d|]; [|by exists s].
  destruct (wire_set_deadline _ _ _ _ (Some d) Hw) as (t & E & Hw').
  pose proof (lasting_set_deadline (Some d) s Ha) as Ha'. rewrite E in Ha'. eauto.
Qed.

(** The connection that a handshake runs on. *)
Definition dialed (cfg : Config) : res Transport :=
  let? raw := net_dial (JoinHostPort (cfg_Host cfg) (cfg_Port cfg)) in
  if cfg_TLS cfg then (match wrapTLS cfg raw with (Ok _, conn) => Ok conn | (Err e, _) => Err e end) else Ok raw.

Lemma HandshakeContext_dialed ctx cfg conn now :
  dialed cfg = Ok conn -> HandshakeContext ctx (Some cfg) now = handshakeOver ctx cfg conn now.
Proof using.
  unfold dialed, HandshakeContext. destruct (net_dial _) as [raw|]; [|done]. cbn [bindR].
  destruct (cfg_TLS cfg); [|by intros [= ->]]. destruct (wrapTLS cfg raw) as [[[]|e] conn']; [|done]. by intros [= ->].
Qed.

Lemma HandshakeContext_run ctx cfg conn r ac suf now :
  dialed cfg = Ok conn -> net_open conn -> rand_Read = Ok r ->
  net_in conn = ok_status ++ enc_int32 TCPProtocolVersion21 ++ ok_status ++ enc_bool ac ++ suf ->
  exists s,
    HandshakeContext ctx (Some cfg) now = (Ok s, None) /\
    wire true s (net_out conn ++ hello cfg ++ set_id (EncodeToString r)) suf /\
    s_id s = EncodeToString r /\ s_version s = TCPProtocolVersion21 /\ s_autoCommit s = ac /\
    s_cfg s = Some cfg /\ s_dead s = false /\ s_nextID s = 0 /\ alive s.
Proof using.
  intros Hd Ho Hr Hin. rewrite (HandshakeContext_dialed _ _ _ _ Hd). unfold handshakeOver, runHandshake.
  pose proof (wire_nascent conn now Ho) as Hw.
  destruct (beginOperationContext_wire ctx _ _ _ (alive_nascent conn now) Hw) as (s1 & E1 & Ha1 & Hw1). rewrite (bind_Ok _ _ _ _ _ E1).
  rewrite Hin in Hw1.
  replace (ok_status ++ enc_int32 TCPProtocolVersion21 ++ ok_status ++ enc_bool ac ++ suf)
    with ((ok_status ++ enc_int32 TCPProtocolVersion21 ++ ok_status ++ enc_bool ac) ++ suf) in Hw1
    by (by rewrite <- !app_assoc).
  destruct (exch_negotiate cfg r ac Hr s1 _ _ Hw1) as (s2 & E2 & Hw2 & _).
  unfold bind at 1, try, handshake. rewrite (bind_Ok _ _ _ _ _ E2). cbn [modify].
  set (s3 := established _ _ _ _ _). assert (Hw3 : wire true s3 (net_out conn ++ hello cfg ++ set_id (EncodeToString r)) suf) by exact Hw2.
  destruct (wire_set_deadline _ _ _ _ None Hw3) as (t & E & Hw4). unfold endOperationContext. rewrite E.
  assert (Ha3 : alive (set_tr (Some t) s3)).
  { pose proof (lasting_negotiate cfg s1 Ha1) as [_ Ha2]. rewrite E2 in Ha2.
    pose proof (lasting_set_deadline None s3) as Hl. rewrite E in Hl. apply Hl. by split. }
  eexists. split; [done|]. by split_and!.
Qed.

(** With a server that accepts, a handshake sends the credentials (the
    supported versions, the database, the original URL, the user in upper case, the
    password hash, no file password, the forwarded settings) and the session's id with
    the time zone, nothing else, and consumes exactly the two answers. The session has
    that id, protocol 21, the server's autocommit state and the configuration. *)
Theorem HandshakeContext_exchange ctx cfg conn r ac suf now :
  dialed cfg = Ok conn -> net_open conn -> rand_Read = Ok r ->
  net_in conn = ok_status ++ enc_int32 TCPProtocolVersion21 ++ ok_status ++ enc_bool ac ++ suf ->
  exists s,
    HandshakeContext ctx (Some cfg) now = (Ok s, None) /\
    wire true s (net_out conn ++ hello cfg ++ set_id (EncodeToString r)) suf /\
    s_id s = EncodeToString r /\ s_version s = TCPProtocolVersion21 /\ s_autoCommit s = ac /\
    s_cfg s = Some cfg /\ s_dead s = false /\ s_nextID s = 0.
Proof using.
  intros Hd Ho Hr Hin. destruct (HandshakeContext_run ctx cfg conn r ac suf now Hd Ho Hr Hin) as (s & Hs).
  exists s. by split_and!; apply Hs.
Qed.

Definition version_error (v : Z) : error :=
  EWrapf "%w; require protocol 21 / H2 2.4.240+ (got %d)" [AInt v] [ESent ErrUnsupportedServerVersion].

Lemma handshakeError_refused ctx v suf s out :
  ctx_done_at ctx = None -> alive s -> wire true s out suf ->
  exists s' t, handshakeError ctx (version_error v) s = (Ok (version_error v), s') /\ s_tr s' = Some t /\
    net_out (tr_net t) = out /\ net_in (tr_net t) = suf /\ net_closed (tr_net t) = true.
Proof using.
  intros Hc [_ (t & Ht & _ & Hwc & _)] (t' & Ht' & _ & _ & He & Hi & Hfl). rewrite Ht in Ht'. injection Ht' as <-.
  unfold handshakeError, bind, discard, on_tr, Abort. rewrite Ht, Hwc. unfold ctx_Err, tick, bind, ret. rewrite Hc.
  exists (set_now (s_now s + 1) (set_tr (Some (set_net (net_close (tr_net t)) t)) s)), (set_net (net_close (tr_net t)) t).
  split; [by destruct (ctx_deadline ctx)|]. split_and!; try done. by apply Hfl.
Qed.

(** A server that negotiates another protocol version is refused with an
    error that [errors.Is] identifies as [ErrUnsupportedServerVersion]; the client has
    sent nothing but its credentials, and the connection is closed. *)
Theorem HandshakeContext_refuses_other_versions ctx cfg conn v suf now :
  dialed cfg = Ok conn -> net_open conn -> ctx_done_at ctx = None -> in_intN 32 v -> v <> TCPProtocolVersion21 ->
  net_in conn = ok_status ++ enc_int32 v ++ suf ->
  exists e t,
    HandshakeContext ctx (Some cfg) now = (Err e, Some t) /\ errors_Is e ErrUnsupportedServerVersion = true /\
    net_out t = net_out conn ++ hello cfg /\ net_in t = suf /\ net_closed t = true.
Proof using.
  intros Hd Ho Hc Hv Hne Hin. rewrite (HandshakeContext_dialed _ _ _ _ Hd). unfold handshakeOver, runHandshake.
  pose proof (wire_nascent conn now Ho) as Hw.
  destruct (beginOperationContext_wire ctx _ _ _ (alive_nascent conn now) Hw) as (s1 & E1 & Ha1 & Hw1). rewrite (bind_Ok _ _ _ _ _ E1).
  rewrite Hin in Hw1.
  set (err := version_error v).
  assert (exists s2, negotiate cfg s1 = (Err err, s2) /\ wire true s2 (net_out conn ++ hello cfg) suf) as (s2 & E2 & Hw2).
  { destruct (exch_wrapf true false "h2go: send credentials: %w" [] _ _ _ _ (exch_write true _ _ (writes_sendCredentials cfg)) s1 _ _ Hw1)
      as (sa & Ea & Hwa & _).
    destruct (exch_wrapf false true "h2go: flush credentials: %w" [] _ _ _ _ (exch_flush false) sa _ _ Hwa) as (sb & Eb & Hwb & _).
    rewrite app_nil_r in Hwb. destruct (exch_status_word true "h2go: read status: %w" sb _ _ Hwb) as (sc & Ec & Hwc & _).
    destruct (exch_wrapf true true "h2go: read version: %w" [] _ _ _ _ (exch_read true _ _ _ (decodes_ReadInt32 v Hv)) sc _ _ Hwc)
      as (sd & Ed & Hwd & _).
    exists sd. rewrite !app_nil_r in Hwd. split; [|done]. unfold negotiate.
    rewrite (bind_Ok _ _ _ _ _ Ea), (bind_Ok _ _ _ _ _ Eb), (bind_Ok _ _ _ _ _ Ec), (bind_Ok _ _ sc tt sc eq_refl).
    rewrite (bind_Ok _ _ _ _ _ Ed). apply bind_Err. unfold guard_err.
    by rewrite (proj2 (Z.eqb_neq _ _) Hne). }
  pose proof (lasting_negotiate cfg s1 Ha1) as Ha2. rewrite E2 in Ha2.
  unfold bind at 1, try, handshake. rewrite (bind_Err _ _ _ _ _ E2).
  destruct (handshakeError_refused ctx v suf s2 _ Hc Ha2 Hw2) as (s3 & t & E3 & Ht & Hout & Hin' & Hcl).
  rewrite (bind_Ok _ _ _ _ _ E3). unfold bind, endOperationContext, set_deadline. rewrite Ht. cbn.
  exists err, (tr_net (SetDeadline None t).2). split; [done|]. unfold SetDeadline. destruct (tr_dl t); by split_and!.
Qed.
End Messages.

(** ** Runs *)

Definition sample_env : Environment := {|
  env_TZ := lit "Europe/Prague";
  Local_String := lit "Local";
  LoadLocation z := if decide (z = lit "Europe/Prague") then Ok tt else Err (EErrorf "unknown time zone" []);
  rand_Read := Ok (map (fun i => z2b (Z.of_nat i)) (seq 0 32))
|}.

Definition answering (l : list byte) : Transport := mkTransport l NEof [] None (NOther false) false None.

Definition sample_cfg : Config :=
  parsed_config (lit "h2://sa:pass@db:9092/test?MODE=MySQL") (lit "db") (lit "9092") (lit "test") (lit "sa") (lit "pass")
    [(lit "MODE", lit "MySQL")] false.

Definition accepting : list byte := ok_status ++ enc_int32 TCPProtocolVersion21 ++ ok_status ++ enc_bool true.

Lemma HandshakeContext_exchange_witness :
  exists s, @HandshakeContext latin1 in_order (one_server (lit "db:9092") (answering accepting)) sample_env
              Background (Some sample_cfg) 0 = (Ok s, None) /\
    s_id s = lit "000102030405060708090a0b0c0d0e0f101112131415161718191a1b1c1d1e1f" /\ s_autoCommit s = true.
Proof.
  destruct (@HandshakeContext_exchange latin1 in_order (one_server (lit "db:9092") (answering accepting)) sample_env
              Background sample_cfg (answering accepting) (map (fun i => z2b (Z.of_nat i)) (seq 0 32)) true [] 0)
    as (s & H1 & _ & H2 & _ & H3 & _); [reflexivity|by split|reflexivity|reflexivity|].
  exists s. split; [exact H1|]. split; [rewrite H2; vm_compute; reflexivity|exact H3].
Defined.

Lemma HandshakeContext_refuses_other_versions_witness :
  exists e t, @HandshakeContext latin1 in_order (one_server (lit "db:9092") (answering (ok_status ++ enc_int32 20 ++ []))) sample_env
                Background (Some sample_cfg) 0 = (Err e, Some t) /\
    errors_Is e ErrUnsupportedServerVersion = true /\ net_closed t = true.
Proof.
  destruct (@HandshakeContext_refuses_other_versions latin1 in_order
              (one_server (lit "db:9092") (answering (ok_status ++ enc_int32 20 ++ []))) sample_env
              Background sample_cfg (answering (ok_status ++ enc_int32 20 ++ [])) 20 [] 0)
    as (e & t & H1 & H2 & _ & _ & H3); [reflexivity|by split|reflexivity|unfold in_intN; lia|done|reflexivity|].
  exists e, t. split; [exact H1|]. split; [exact H2|exact H3].
Defined.

(** A connection whose timeout the server does not accept: it hangs up. *)
Definition timeout_cfg : Config :=
  parsed_config (lit "h2://sa:pass@db:9092/test?QUERY_TIMEOUT=5") (lit "db") (lit "9092") (lit "test") (lit "sa") (lit "pass")
    [(lit "QUERY_TIMEOUT", lit "5")] false.

Lemma Connect_all_or_nothing_witness :
  match @Connect latin1 in_order (one_server (lit "db:9092") (answering accepting)) sample_env
          Background (Some timeout_cfg) 0 with
  | (Ok _, _) => False
  | (Err _, gone) => exists t, gone = Some t /\ net_closed t = true
  end.
Proof.
  assert (match @Connect latin1 in_order (one_server (lit "db:9092") (answering accepting)) sample_env
                  Background (Some timeout_cfg) 0 with (Ok _, _) => false | _ => true end = true) as E
    by (vm_compute; reflexivity).
  pose proof (@Connect_all_or_nothing latin1 in_order (one_server (lit "db:9092") (answering accepting)) sample_env
                Background timeout_cfg 0) as H.
  destruct (Connect Background (Some timeout_cfg) 0) as [[c|e] gone]; [discriminate E|]. exact H.
Defined.

(** From a data source name to a connection, in one run. *)
Example Open_ex :
  match @Open latin1 backwards (one_server (lit "db:9092") (answering accepting)) sample_env
          (lit "jdbc:h2:tcp://db/test;USER=sa;PASSWORD=pass;mode=MySQL;IFEXISTS=TRUE") 0 with
  | (Ok c, None) => c_open c && negb (c_busy c) && s_autoCommit (c_sess c)
  | _ => false
  end = true.
Proof. vm_compute. reflexivity. Qed.

(** The name of the timeout setting is accepted in any case, but applied in upper case only. *)
Example query_timeout_case_ex :
  let run name := @Open latin1 in_order (one_server (lit "db:9092") (answering accepting)) sample_env name 0 in
  (exists c, run (lit "jdbc:h2:tcp://db/test;query_timeout=5") = (Ok c, None)) /\
  (exists e t, run (lit "jdbc:h2:tcp://db/test;QUERY_TIMEOUT=5") = (Err e, Some t)).
Proof. vm_compute. eauto. Qed.
