(* ===== verification/Conversation.v ===== *)
(** * A whole conversation with a server

    Everything together: a connector opens a connection, the connection runs a prepared
    statement as often as the client likes, and is closed. The theorem says which bytes
    reach the server from the first to the last, and that its answers are read to the
    last byte. *)

From S2P Require Import Prelude.
From S2P Require Import GoText.
From S2P Require Import GoUrl.
From S2P Require Import Protocol.
From S2P Require Import Transfer.
From S2P Require Import Errors.
From S2P Require Import TypeInfo.
From S2P Require Import Metadata.
From S2P Require Import Value.
From S2P Require Import ValueRead.
From S2P Require Import ValueWire.
From S2P Require Import Dsn.
From S2P Require Import Network.
From S2P Require Import Session.
From S2P Require Import SessionFacts.
From S2P Require Import Exchange.
From S2P Require Import GeneratedKeys.
From S2P Require Import Update.
From S2P Require Import UpdateWire.
From S2P Require Import Conn.
From S2P Require Import Stmt.
From S2P Require Import ConnFacts.
From S2P Require Import ConnWire.
From S2P Require Import Prepared.
From S2P Require Import Handshake.
From S2P Require Import Connector.
From S2P Require Import HandshakeFacts.

(** ** Closing a session in order *)

Lemma on_tr_bind {A B} (m : M Tr A) (k : A -> M Tr B) s : on_tr (bind m k) s = bind (on_tr m) (fun a => on_tr (k a)) s.
Proof.
  unfold on_tr, bind. destruct (s_tr s) as [t|] eqn:E; [|done]. destruct (m t) as [[a|e] t']; [|done].
  cbn. by destruct (k a t') as [x t''].
Qed.

Lemma exch_tr_split {A B} f f' (m : M Tr A) (k : A -> M Tr B) sent recv b :
  exch f f' (bind (on_tr m) (fun a => on_tr (k a))) sent recv b -> exch f f' (on_tr (bind m k)) sent recv b.
Proof. intros Hm s out suf Hw. rewrite on_tr_bind. by apply Hm. Qed.

Lemma exch_discard {A} f f' (m : M Tr A) sent recv a :
  exch f f' (on_tr m) sent recv a -> exch f f' (on_tr (discard m)) sent recv tt.
Proof.
  intros Hm s out suf Hw. destruct (Hm s out suf Hw) as (s' & E & H). exists s'. split; [|done].
  unfold on_tr, discard in *. destruct (s_tr s) as [t|]; [|done]. destruct (m t) as [x t']. cbn. by injection E as _ ->.
Qed.

Lemma exch_deadline f d : exch f f (on_tr (discard (SetDeadline d))) [] [] tt.
Proof.
  intros s out suf Hw. destruct (wire_set_deadline _ _ _ _ d Hw) as (t' & E & Hw'). exists (set_tr (Some t') s).
  split; [|rewrite app_nil_r; by split; [|split_and!]]. unfold set_deadline in E. unfold on_tr, discard.
  destruct Hw as (t & Ht & _). rewrite Ht in *. by injection E as <-.
Qed.

(** The farewell of a session, and the status word that answers it. *)
Definition goodbye : list byte := enc_int32 SessionClose.

Lemma exch_closeExchange now st :
  in_intN 32 st -> exch true true (on_tr (closeExchange now)) goodbye (enc_int32 st) tt.
Proof.
  intros Hst. unfold closeExchange, goodbye.
  apply exch_tr_split. eapply exch_bind_nil; [apply exch_deadline|].
  rewrite <- (app_nil_r (enc_int32 SessionClose)).
  apply exch_tr_split. eapply exch_bind_send; [eapply exch_discard, exch_write, writes_WriteInt32|].
  apply exch_tr_split. eapply exch_bind_nil; [eapply exch_discard, exch_flush|].
  rewrite <- (app_nil_r (enc_int32 st)).
  apply exch_tr_split. eapply exch_bind_recv; [by eapply exch_discard, exch_read, decodes_ReadInt32|apply exch_deadline].
Qed.

(** What is left of a session that was closed. *)
Record taken_leave (s : Session) (sent rest : list byte) : Prop := {
  tl_tr : s_tr s = None;
  tl_dead : s_dead s = true;
  tl_gone : exists t, s_gone s = Some t /\ net_closed (tr_net t) = true /\ net_out (tr_net t) = sent /\ input t = rest
}.

Lemma Session_Close_run s st out suf :
  in_intN 32 st -> alive s -> wire true s out (enc_int32 st ++ suf) ->
  exists s', Session_Close s = (Ok tt, s') /\ taken_leave s' (out ++ goodbye) suf.
Proof.
  intros Hst [Hd (t & Ht & Hsh)] Hw.
  destruct (exch_closeExchange (s_now s) st Hst s out suf Hw) as (s1 & E & (t1 & Ht1 & Hr1 & Hh1 & He1 & Hin1 & Hfl1) & _).
  unfold Session_Close. unfold on_tr in E. rewrite Ht in *.
  assert (Hsh1 : shaped (closeExchange (s_now s) t).2).
  { assert (Hst' : steady (closeExchange (s_now s))) by (unfold closeExchange; repeat (apply steady_bind; [|intros ?]); apply steady_discard; solve_steady).
    by apply Hst'. }
  destruct (closeExchange (s_now s) t) as [y t1']. injection E as _ <-. cbn in Ht1. injection Ht1 as ->.
  destruct Hsh1 as (_ & Hwc & _).
  destruct (sends_healthy _ _ t1 sends_Flush Hh1) as (t2 & E2 & Hh2 & (H1 & H2 & H3 & H4 & H5) & Ho2 & He2).
  unfold Flush in E2. unfold Transfer.Close. destruct (tr_w t1) as [w|]; [|done]. cbn [snd] in Hwc. rewrite Hwc.
  destruct (bw_flush w (tr_net t1)) as [[[e|] w'] n'] eqn:Eb; [done|]. injection E2 as <-.
  eexists. split; [reflexivity|]. split; [done..|]. eexists. split; [reflexivity|]. cbn in *. split_and!; try done.
  - by rewrite Ho2, app_nil_r, He1.
  - unfold input in *. cbn in *. by rewrite H4.
Qed.

(** ** Correctness *)

Section Conversation.
Context `{Unicode} `{MapOrder} `{Network} `{Environment}.

(** What a server answers that accepts a client. *)
Definition welcome (ac : bool) : list byte :=
  ok_status ++ enc_int32 TCPProtocolVersion21 ++ ok_status ++ enc_bool ac.

Lemma Connect_run ctx cfg conn r ac suf now :
  endless ctx -> dialed cfg = Ok conn -> net_open conn -> rand_Read = Ok r ->
  lookup_param (lit "QUERY_TIMEOUT") (cfg_Params cfg) = None -> net_in conn = welcome ac ++ suf ->
  exists s, Connect ctx (Some cfg) now = (Ok (mkConn true false s), None) /\ alive s /\
    wire true s (net_out conn ++ hello cfg ++ set_id (EncodeToString r)) suf /\
    s_version s = TCPProtocolVersion21 /\ s_cfg s = Some cfg /\ s_nextID s = 0 /\ s_autoCommit s = ac.
Proof using.
  intros He Hd Ho Hr Hq Hin. unfold welcome in Hin. rewrite <- !app_assoc in Hin.
  destruct (HandshakeContext_run ctx cfg conn r ac suf (now + 1) Hd Ho Hr Hin)
    as (s & E & Hw & _ & Hv & Hac & Hcfg & _ & Hn & Ha).
  exists s. split; [|by split_and!]. unfold Connect, ctx_done. rewrite He, E. unfold applyQueryTimeout. by rewrite Hq.
Qed.

(** C3 (functional). A whole conversation. With a server that accepts the client, prepares
    its statement, answers each execution and acknowledges the farewell, a client that
    connects, executes the statement once for each list of arguments, and closes the
    connection gets the server's results in order. The server receives the credentials,
    the session's id, the preparation, the executions, the close of the command and the
    farewell, and not a byte more; its answers are read to the last byte; and in the end
    the session is marked dead and the network connection closed. *)
Theorem whole_conversation ctx cfg conn r ac sql readOnly cmdType ps mode cols names xs st suf now :
  let cmd := mkPreparedCommand 1 sql false readOnly cmdType (zlen ps) (imap (fun k => param_meaning (Z.of_nat k)) ps) in
  endless ctx -> dialed cfg = Ok conn -> net_open conn -> rand_Read = Ok r ->
  lookup_param (lit "QUERY_TIMEOUT") (cfg_Params cfg) = None ->
  (forall s, s_cfg s = Some cfg -> resolveGeneratedKeys ctx s = (mode, cols, names)) ->
  zlen ps <= maxWireCollectionElements -> forallb wf_wire_param ps = true -> in_intN 32 cmdType -> in_intN 32 st ->
  Forall (execution_ok cmd mode) xs -> ex_autoCommit <$> last xs = Some true ->
  net_in conn = welcome ac ++ prepare_answer false readOnly cmdType ps ++ flat_map ex_answer xs ++ enc_int32 st ++ suf ->
  exists c c' s,
    Connect ctx (Some cfg) now = (Ok c, None) /\
    execute_prepared ctx sql (map ex_args xs) c = (Ok (map ex_result xs), c') /\
    conn_Close c' = (Ok tt, mkConn false false s) /\
    taken_leave s ((((net_out conn ++ hello cfg ++ set_id (EncodeToString r)) ++ prepare_request 1 sql)
                    ++ flat_map (ex_request cmd mode cols names) xs) ++ close_frame 1 ++ goodbye) suf.
Proof using.
  intros cmd He Hd Ho Hr Hq Hres Hl Hp Hc Hst Hok Hlast Hin.
  destruct (Connect_run ctx cfg conn r ac _ now He Hd Ho Hr Hq Hin) as (s & E & Ha & Hw & Hv & Hcfg & Hn & _).
  assert (Heq : equipped ctx mode cols names s).
  { destruct Ha as [Hdead _]. split_and!; [done|rewrite Hv; vm_compute; discriminate|by apply Hres]. }
  destruct (execute_prepared_run ctx sql readOnly cmdType ps mode cols names xs s
              (net_out conn ++ hello cfg ++ set_id (EncodeToString r)) (enc_int32 st ++ suf) He Hl Hp Hc Heq)
    as (s' & E' & Hw' & _ & Ha' & Hac); rewrite ?Hn; try done. rewrite Hn in Hw'. change (int32 (0 + 1)) with 1 in Hw'.
  assert (Hac' : s_autoCommit s' = true).
  { destruct (last xs) eqn:El; [|done]. assert (Hx : Some (s_autoCommit s') = Some true); [|congruence].
    rewrite <- Hlast. apply Hac. intros ->. done. }
  destruct (Session_Close_run s' st _ suf Hst (Ha' Ha) Hw') as (s'' & E'' & Hl'').
  exists (mkConn true false s), (mkConn true false s'), s''. split; [done|]. split; [done|]. split.
  - unfold conn_Close. cbn [c_open c_busy c_sess negb]. rewrite Hac'. cbn [negb]. by rewrite E''.
  - by rewrite <- app_assoc in Hl''.
Qed.
End Conversation.

(** The server of a run: it accepts, prepares, answers two executions, and says goodbye. *)
Definition sample_server : Transport :=
  answering (welcome true ++ prepare_answer false false 61 sample_params
    ++ flat_map ex_answer [sample_execution 7 1; sample_execution 8 2] ++ enc_int32 StatusOK ++ []).

Lemma whole_conversation_witness :
  let xs := [sample_execution 7 1; sample_execution 8 2] in
  exists c c' s,
    @Connect latin1 in_order (one_server (lit "db:9092") sample_server) sample_env Background (Some sample_cfg) 0 = (Ok c, None) /\
    execute_prepared Background (cmd_SQL sample_update) (map ex_args xs) c = (Ok (map ex_result xs), c') /\
    conn_Close c' = (Ok tt, mkConn false false s) /\ s_dead s = true.
Proof.
  intros xs.
  destruct (@whole_conversation latin1 in_order (one_server (lit "db:9092") sample_server) sample_env Background sample_cfg
    sample_server (map (fun i => z2b (Z.of_nat i)) (seq 0 32)) true (cmd_SQL sample_update) false 61 sample_params
    GeneratedKeysAuto None None xs StatusOK [] 0) as (c & c' & s & H1 & H2 & H3 & H4).
  - reflexivity.
  - reflexivity.
  - by split.
  - reflexivity.
  - reflexivity.
  - intros s Hs. unfold resolveGeneratedKeys, configuredKeys, generatedKeysMode. rewrite Hs. reflexivity.
  - vm_compute. discriminate.
  - reflexivity.
  - unfold in_intN. lia.
  - unfold in_intN, StatusOK. lia.
  - constructor; [|constructor; [|constructor]]; apply (sample_execution_ok _ _); try (unfold in_intN; lia); reflexivity.
  - reflexivity.
  - reflexivity.
  - exists c, c', s. split; [exact H1|]. split; [exact H2|]. split; [exact H3|]. by destruct H4.
Defined.
